(* ===== verification/_CoqProject ===== *)
-Q . S2P
Prelude.v
GoStrings.v
GoFloat.v
Domain.v
GoText.v
GoParse.v
AppConfig.v
Retry.v
Template.v
Store.v
StoreRuns.v
StoreInv.v
StoreCreate.v
StoreCalls.v
StoreQuiet.v
Harness.v
StoreSamples.v
StoreSpec.v
StoreDue.v
StoreLater.v
StoreList.v
Notification.v
NotificationStore.v
Worker.v
WorkerSpec.v
WorkerTime.v
WorkerTrace.v
Scheduler.v
SchedulerRun.v
SchedulerDrain.v
SchedulerRelay.v
SchedulerMaintain.v
SchedulerRecover.v
Auth.v
Provider.v
ProviderSpec.v
Cursor.v
Http.v
HttpSpec.v
Api.v
Queue.v
QueueSpec.v
WorkerPool.v
Bootstrap.v
Process.v
Observability.v
Tracing.v
WorkerLog.v
Lifecycle.v
Pipeline.v
Correlation.v
Outbox.v
Retention.v
Recovery.v
Journey.v
System.v
SystemSpec.v
SystemSamples.v
