(* ===== verification/Prelude.v ===== *)
(** * notification.system: a verification library

    The program accepts notifications over HTTP, stores them with their delivery and
    an outbox row in PostgreSQL, relays the outbox to Redis Streams, and sends each
    delivery to a provider from a pool of workers, with retries; a scheduler promotes
    what is due, recovers what a dead worker left behind, and retires old partitions.
    This library models it in Gallina and proves what makes it correct. Go code is
    translated by a shallow embedding: a pure function is a function, a call that
    changes the world or fails is of type [eff W error A] (this file), and the
    concurrent loops are step relations.

    ** The parts and their files

    - Go itself: [Prelude] (the effect monad, 64-bit wrap-around, tables as lists of
      rows), [GoStrings] (strings as bytes, TrimSpace, VARCHAR lengths), [GoFloat]
      (float64), [GoText] (ParseInt, FormatInt, base64), [GoParse] (ParseBool,
      ParseFloat, ParseDuration, Duration.String, Split, ToLower).
    - internal/domain: [Domain] (enumerations, entities, messages, errors with
      errors.Is and errors.As, the aggregation of a request's status).
    - internal/platform/config: [AppConfig] (every getter, [Load], [validate]);
      internal/bootstrap and cmd/: [Bootstrap] (the components each binary builds,
      its start-up checks, gentoken, the health endpoints of the background
      binaries), [WorkerTime.worker_config], [SchedulerRun.scheduler_config] and
      [Api.app_service] (the rest of the wiring), [Process] ([run] of the three mains
      with [postgres.New], [redis.NewClient] and [tracing.Init]: what a process opens
      and releases).
    - internal/platform/metrics, logging and tracing: [Observability] (the instruments
      and the update of every helper; the registry; the log level), [Tracing] (the spans
      of the worker, the relay, the handler and the webhook client, over OpenTelemetry),
      [WorkerLog] (the worker's log calls and the attributes of their lines),
      [Correlation] (the correlation id from the client to the worker's lines).
    - internal/adapters/postgres and migrations/: [Store]. The tables are a record of
      lists; each SQL statement is a function on them with its constraints, indexes
      and partitions; each method of [Store] is a definition of the same name, with
      its transaction and its round trips, any of which can be refused or lose its
      reply. [StoreRuns] and [StoreQuiet] give the two ways of reasoning about a method
      (what a successful run did; what a server that answers does) and what an error
      leaves ([atomic]), [StoreInv] and [StoreCreate] the invariant of the tables and
      its preservation, [StoreCalls] the reachable tables, [StoreSpec], [StoreDue] and
      [StoreList] the contracts, [StoreLater] a request over time, [Lifecycle] the
      abstract automaton of a delivery, [StoreSamples] the concrete rows. [Harness]:
      the seed migration, [ResetIntegrationDB], the advisory lock of the tests and the
      clocks of internal/platform/clock.
    - internal/notification and internal/template: [Notification] (validation and use
      cases against the ports [Repository], [Renderer], [Runtime]),
      [NotificationStore] (the ports filled by the store, other clients writing
      between any two calls), [Template].
    - internal/delivery: [Retry].
    - internal/worker: [Worker] ([process] and all it calls, over [Ports]),
      [WorkerSpec] (its reference plan), [WorkerTime] (the lease), [WorkerTrace]
      ([process] run against any answers, call by call), [WorkerPool] ([Run],
      [readLoop], the jobs channel and the goroutines).
    - internal/scheduler: [Scheduler] (the jobs over [SchedPorts] and the instance
      over the store), [SchedulerDrain], [SchedulerRelay], [SchedulerMaintain],
      [SchedulerRecover] (one job, or several together), [SchedulerRun] ([Run],
      [runLoop], the tickers).
    - internal/adapters/redis: [Queue], [QueueSpec]. internal/adapters/provider:
      [Provider], [ProviderSpec]. internal/platform/auth: [Auth].
    - internal/transport/http: [Cursor], [Http] (requests, response writer, DTOs,
      handlers, middlewares, router), [HttpSpec], [Api] (the API over the service
      over the store).
    - The parts together: [Outbox] (what the outbox rows carry), [Retention] (a delivery's
      row, in its partition or archived), [Pipeline] (from the
      API's tables to the provider), [Recovery] (one pass of the scheduler's jobs over
      any tables), [Journey] (the retry loop),
      [System] (the goroutines of all workers, the scheduler and the API interleaving
      over one database), [SystemSpec] (its theorems), [SystemSamples] (an executable
      simulator and its runs).

    ** How the parts meet

    A component's theorems are proved against the type class of what it calls:
    [Repository], [Renderer] and [Runtime] (service), [Ports] (worker), [SchedPorts]
    (scheduler), [NotificationService] and [HttpEnv] (handlers), [ProviderEnv] and
    [BreakerLib] (provider), [Otel] (spans), [RedisClient] and [RateLibs] (queue,
    limiters), [Sys] (the mains), [PoolConn] (the tests' lock), [Jwt], [UuidText],
    [MessageCodec].
    [NotificationStore], [Scheduler.store_sched], [Pipeline.store_ports] and
    [Api.app_service] discharge the classes of the program's own parts with the store;
    [System] answers the worker's with the store and anything else that may happen.
    Classes of code that is not the program's carry, where a theorem needs it, the
    library's documented behaviour as a second class ([JwtLaws],
    [RedisLaws], ...), with an executable instance that satisfies it.

    ** What the theorems show

    - The store. Every database reached by legal calls, with any round trips failing,
      is consistent ([reachable_consistent]): keys, foreign keys, request statuses,
      batch counters ([batch_counters_exact]), leases. A call has its whole effect or
      none, and none when the server refused it ([store_calls_atomic]). Each call moves each delivery along at most one
      edge of the automaton [Lifecycle.next], its own ([lifecycle_refinement],
      [lifecycle_history]). Claims are exclusive, marks settle, cancellation,
      promotion and the sweep have their contracts.
      Rows that wait in the outbox carry the message of their delivery to its stream
      ([outbox_faithful]).
    - The service. [Create_correct], [CreateBatch_correct]: every outcome under
      failures and races; [ownership]: no user sees another's rows.
    - The worker. [process_follows_plan]: the calls of one message, in every
      environment, with the times and the polls of the limiter they depend on;
      [process_stale_reader]: a reader that lags loses the claim;
      [pool_accounts], [pool_drains]: no message of a batch is lost or doubled inside
      the process, a cancelled pool stops; [lease_window]: when the final write
      precedes the end of the lease, and that [validate] does not imply it;
      [EvaluateFailure_policy], [retries_bounded].
    - The scheduler. The relay publishes at least once and in order
      ([relayOutbox_at_least_once], [relayOutbox_drains]), the draining jobs end
      ([promote_sweep_drain]), a crashed delivery returns to its stream
      ([crashed_delivery_requeued]), retention ([maintainPartitions_spec]), the loops
      ([scheduler_run]).
    - The whole path. A notification that is accepted to be sent now is published,
      sent once to its recipient and recorded as SENT, when the parts on the way
      answer ([Pipeline.accepted_is_sent]); one whose provider fails below the policy's
      limit and then accepts is retried until it is sent ([retried_until_sent]); and
      from the tables the program's calls reach one pass of the scheduler puts every
      unfinished delivery whose time has come and whose row is free back on a stream,
      ready to be sent ([nothing_stuck], where a PENDING one must be among a batch's
      worth of orphans at most; [crashed_delivery_requeued] for the reaper alone).
    - The system. However goroutines, scheduler and API interleave, whatever Redis
      delivers, fails, dies or commits unnoticed, prompt workers never share a delivery
      ([system_exclusive]), settle it once, on a provider's acceptance, calling the
      provider at most once per claim ([system_settles_once]), and reach the provider
      at most as often as the policy allows plus once per reap
      ([system_contacts_bounded]); its tables are always ones [outbox_faithful] and
      [nothing_stuck] speak of. A worker is prompt when it does not outlive the
      lease of the row it holds; [lease_window] says which settings ensure it. The
      final writes do not check the lease, so a worker that is late breaks the first
      two ([late_worker_sends_twice]).
    - The edges. Requests are authenticated and answered ([serve_authenticated],
      [serve_responds], [writeError_spec]); the correlation id of a request reaches the
      worker's lines on the first way, not on later ones, and not the one about a dead
      letter that cannot be published ([correlation_followed]); spans change nothing and
      nest ([spans_transparent]); paging reads every row once ([api_list_complete]); a
      POST repeated at any later time creates nothing and is answered with the
      notification as it is then ([api_post_idempotent]); tokens and the queue round trip ([token_round_trip],
      [queue_fifo], [Read_partition]); provider answers are classified
      ([Send_verdict], [Send_once]); configurations are validated and the binaries
      start only with sound ones ([Load_correct], [deployment]); the health endpoint
      reports its checks ([readyz_reports]); a process releases what it opened, whatever
      fails, but for an exporter without its resource and a server that ended by itself
      ([process_resources]); no metric panics ([metrics_accepted]).

    ** Conventions and bounds

    [int], [int64] and [time.Duration] are integers; where the code can overflow the
    wrap-around is written out with [wrap64] ([int32], [uint32] in [AppConfig]).
    Times are nanoseconds since the epoch; the tables hold whole microseconds, and a time
    that is stored or compared with a column loses the rest ([Store.timestamptz]). UUIDs are numbers; [uuid.New] draws from
    a source that the theorems keep arbitrary or assume fresh. Loops that need not
    end take fuel: [relayOutbox], [promoteDue], [sweepRetries] (running out is
    [raise], ruled out for enough fuel in [relayOutbox_drains] and
    [promote_sweep_drain], and shown to happen for every fuel in
    [relayOutbox_spins] and [zero_batch_spins]), [wait_loop] (ruled out in
    [process_follows_plan]), [duration_terms] (the length of the text is enough,
    [duration_terms_total]), [follow] and [api_list] (the client of the list, one
    unit per page).

    Databases start with any templates and otherwise empty ([fresh_db]); nothing but
    migrations writes templates. A step of [System] is one call of one goroutine,
    answered by the store on the shared tables with any failing round trips and any
    lag of the reader, or by the provider, the limiter and the queue with anything; the
    API's and the scheduler's calls are steps of their own.

    A round trip to the database fails in two ways ([Store.fault]): the server refuses
    it, or it does its part and the reply is lost, which at a commit means that the
    transaction is applied and the caller reads an error. The theorems on the store, the
    service and the scheduler's jobs range over both; where an error leaves the tables
    alone only if the reply was not lost, they say so. In [System] the two are different
    steps: a call is answered, perhaps with a refusal, or it is carried out and the
    goroutine reads an error ([sys_lost]); the reply to the API or the scheduler is not
    looked at. [System] retires a day when its deliveries have
    finished ([retirable]), as the migration's comment expects; what happens to others
    is [ArchiveAndDropPartition_effect].

    ** Not modelled

    - What the operating system does behind [Process.Sys]: connecting, listening,
      signals; the running of migrations other than the seed's statement.
    - The text of log lines (but for the worker's), of traces and of the Prometheus
      page; the values the registry accumulates. The embedded OpenAPI and Swagger documents are opaque
      texts.
    - How the wall clock moves: the time is a port of the components that read it.
    - Third-party code: pgx and PostgreSQL beyond the statements of the program,
      go-redis, redis_rate, x/time/rate, gobreaker, golang-jwt, google/uuid, the HTTP
      client and server, encoding/json. They are the classes above.
    - The Go memory model: a step of a relation is atomic. In [WorkerPool] a step of
      [process] and in [SchedulerRun] a job is under way or not; their calls interleave
      in [System], where a transaction of the store is one step.
    - Contexts: [process] runs under a context that is never cancelled; the jobs of
      the scheduler are modelled under one that is not (a cancelled context makes
      their calls fail, which the theorems allow). *)

From stdpp Require Export base list strings gmap sorting.
From Stdlib Require Export ZArith Lia.

(** ** Results: a Go call returning [(A, error)] *)

Inductive result (E A : Type) : Type :=
| Ok (a : A)
| Err (e : E).
Arguments Ok {E A} a.
Arguments Err {E A} e.

Definition is_ok {E A} (r : result E A) : bool :=
  match r with Ok _ => true | Err _ => false end.

Declare Scope notif_scope.
Delimit Scope notif_scope with notif.

(** [let? x := r in k]: return early with the error, as
    [if err != nil { return err }] does. *)
Notation "'let?' x := r 'in' k" :=
  (match r with Ok x => k | Err e__ => Err e__ end)
  (at level 10, x pattern, r at level 100, k at level 200) : notif_scope.
#[export] Set Warnings "-notation-overridden".
Open Scope notif_scope.

(** ** The effect monad

    A call that may change a world [W] (a database session, a queue, counters)
    and may fail with an error [E]. The change of the world stays when the call
    fails: rollback is an operation of the database, not of the monad. *)

Definition eff (W E A : Type) : Type := W -> result E A * W.

#[export] Instance eff_ret {W E} : MRet (eff W E) := fun A a w => (Ok a, w).
#[export] Instance eff_bind {W E} : MBind (eff W E) := fun A B k m w =>
  match m w with
  | (Ok a, w') => k a w'
  | (Err e, w') => (Err e, w')
  end.

Definition raise {W E A} (e : E) : eff W E A := fun w => (Err e, w).
Definition of_result {W E A} (r : result E A) : eff W E A := fun w => (r, w).

(** [x, err := m()]: the error becomes a value the caller inspects. *)
Definition attempt {W E A} (m : eff W E A) : eff W E (result E A) := fun w =>
  let '(r, w') := m w in (Ok r, w').

(** [for _, x := range l { if err := f(x); err != nil { return err } }] *)
Fixpoint for_each {W E A} (f : A -> eff W E ()) (l : list A) : eff W E () :=
  match l with
  | [] => mret ()
  | x :: l => f x ≫= fun _ => for_each f l
  end.

Section eff_lemmas.
Context {W E : Type}.

Lemma bind_ok {A B} (m : eff W E A) (k : A -> eff W E B) w b w' :
  (m ≫= k) w = (Ok b, w') -> exists a w1, m w = (Ok a, w1) /\ k a w1 = (Ok b, w').
Proof.
  unfold mbind, eff_bind. destruct (m w) as [[a|e] w1] eqn:Em; [eauto|done].
Qed.

Lemma bind_err {A B} (m : eff W E A) (k : A -> eff W E B) w e w' :
  (m ≫= k) w = (Err e, w') ->
  m w = (Err e, w') \/ exists a w1, m w = (Ok a, w1) /\ k a w1 = (Err e, w').
Proof.
  unfold mbind, eff_bind. destruct (m w) as [[a|e'] w1] eqn:Em; naive_solver.
Qed.

Lemma bind_step_ok {A B} (m : eff W E A) (k : A -> eff W E B) w a w1 :
  m w = (Ok a, w1) -> (m ≫= k) w = k a w1.
Proof. unfold mbind, eff_bind. by intros ->. Qed.

Lemma bind_step_err {A B} (m : eff W E A) (k : A -> eff W E B) w e w1 :
  m w = (Err e, w1) -> (m ≫= k) w = (Err e, w1).
Proof. unfold mbind, eff_bind. by intros ->. Qed.

Lemma attempt_bind {A B} (m : eff W E A) (k : result E A -> eff W E B) w r w1 :
  m w = (r, w1) -> (attempt m ≫= k) w = k r w1.
Proof. unfold attempt, mbind, eff_bind. by intros ->. Qed.

Lemma ret_ok {A} (a b : A) (w w' : W) :
  @mret (eff W E) _ A a w = (Ok b, w') -> a = b /\ w = w'.
Proof. unfold mret, eff_ret. naive_solver. Qed.

Lemma raise_ok {A} (e : E) (b : A) (w w' : W) : raise e w = (Ok b, w') -> False.
Proof. done. Qed.

Lemma attempt_ok_inv {A} (m : eff W E A) w r w' :
  attempt m w = (Ok r, w') -> m w = (r, w').
Proof. unfold attempt. destruct (m w). naive_solver. Qed.
End eff_lemmas.

(** Decompose a successful run into its steps. *)
Ltac inv_ok :=
  repeat match goal with
  | H : (_ ≫= _) _ = (Ok _, _) |- _ =>
      let a := fresh "a" in let w := fresh "w" in let H1 := fresh "Hrun" in
      apply bind_ok in H as (a & w & H1 & H)
  | H : mret _ _ = (Ok _, _) |- _ => apply ret_ok in H as [<- <-]
  | H : raise _ _ = (Ok _, _) |- _ => by apply raise_ok in H
  | H : attempt _ _ = (Ok _, _) |- _ => apply attempt_ok_inv in H
  | H : (if ?b then _ else _) _ = (Ok _, _) |- _ => destruct b eqn:?
  end.

(** ** Machine integers *)

Definition int64_min : Z := (- 2 ^ 63)%Z.
Definition int64_max : Z := (2 ^ 63 - 1)%Z.

(** Two's complement wrap-around of Go's [int], [int64] and [time.Duration]. *)
Definition wrap64 (z : Z) : Z := ((z + 2 ^ 63) mod 2 ^ 64 - 2 ^ 63)%Z.

Definition in_int64 (z : Z) : Prop := (int64_min <= z <= int64_max)%Z.

Lemma wrap64_id z : in_int64 z -> wrap64 z = z.
Proof.
  unfold in_int64, int64_min, int64_max, wrap64. intros H.
  rewrite Z.mod_small; lia.
Qed.

Lemma wrap64_range z : in_int64 (wrap64 z).
Proof.
  unfold in_int64, int64_min, int64_max, wrap64.
  pose proof (Z.mod_pos_bound (z + 2 ^ 63) (2 ^ 64) ltac:(lia)). lia.
Qed.

(** ** Tables

    A database table is the list of its rows in heap order. *)

Section tables.
Context {A B : Type}.
Implicit Types (p q : A -> bool) (f : A -> A) (l : list A).

(** [SELECT ... WHERE p] *)
Definition where_ p l : list A := List.filter p l.

(** [UPDATE ... SET f WHERE p] *)
Definition update_where p f l : list A :=
  map (fun r => if p r then f r else r) l.

(** [SELECT count( * ) ... WHERE p], and the rows an UPDATE affects *)
Definition count_where p l : nat := length (where_ p l).

(** [QueryRow(...).Scan]: the first row, if any *)
Definition first_where p l : option A := head (where_ p l).

Lemma elem_of_where p l x : x ∈ where_ p l <-> x ∈ l /\ p x = true.
Proof. unfold where_. rewrite !list_elem_of_In. apply filter_In. Qed.

Lemma where_app p l1 l2 : where_ p (l1 ++ l2) = where_ p l1 ++ where_ p l2.
Proof. apply List.filter_app. Qed.

Lemma where_ext p q l :
  (forall x, x ∈ l -> p x = q x) -> where_ p l = where_ q l.
Proof.
  intros H. apply List.filter_ext_in. intros x Hx.
  apply H. by rewrite list_elem_of_In.
Qed.

Lemma where_none p l : (forall x, x ∈ l -> p x = false) -> where_ p l = [].
Proof.
  induction l as [|x l IH]; intros H; [done|].
  unfold where_ in *. simpl. rewrite (H x) by apply list_elem_of_here.
  apply IH. intros y Hy. apply H. by apply list_elem_of_further.
Qed.

Lemma where_all p l : (forall x, x ∈ l -> p x = true) -> where_ p l = l.
Proof.
  induction l as [|x l IH]; intros H; [done|].
  unfold where_ in *. simpl. rewrite (H x) by apply list_elem_of_here.
  f_equal. apply IH. intros y Hy. apply H. by apply list_elem_of_further.
Qed.

Lemma where_nil_iff p l : where_ p l = [] <-> forall x, x ∈ l -> p x = false.
Proof.
  split; [|apply where_none].
  intros H x Hx. destruct (p x) eqn:E; [|done].
  assert (Hin : x ∈ where_ p l) by (by apply elem_of_where).
  rewrite H in Hin. by apply not_elem_of_nil in Hin.
Qed.

Lemma count_app p l1 l2 : count_where p (l1 ++ l2) = count_where p l1 + count_where p l2.
Proof. unfold count_where. by rewrite where_app, length_app. Qed.

Lemma count_none p l : (forall x, x ∈ l -> p x = false) -> count_where p l = 0.
Proof. intros H. unfold count_where. by rewrite where_none. Qed.

Lemma count_ext p q l :
  (forall x, x ∈ l -> p x = q x) -> count_where p l = count_where q l.
Proof. intros H. unfold count_where. by rewrite (where_ext p q). Qed.

Lemma count_zero_iff p l : count_where p l = 0 <-> forall x, x ∈ l -> p x = false.
Proof. unfold count_where. rewrite length_zero_iff_nil. apply where_nil_iff. Qed.

Lemma first_where_Some p l x : first_where p l = Some x -> x ∈ l /\ p x = true.
Proof.
  unfold first_where. intros H. apply elem_of_where.
  destruct (where_ p l) as [|y l']; simpl in H; [discriminate|].
  injection H as ->. apply list_elem_of_here.
Qed.

Lemma first_where_None p l : first_where p l = None <-> forall x, x ∈ l -> p x = false.
Proof.
  unfold first_where. rewrite <- where_nil_iff.
  destruct (where_ p l); simpl; split; congruence.
Qed.

Lemma length_update p f l : length (update_where p f l) = length l.
Proof. apply length_map. Qed.

Lemma update_app p f l1 l2 :
  update_where p f (l1 ++ l2) = update_where p f l1 ++ update_where p f l2.
Proof. apply map_app. Qed.

Lemma elem_of_update p f l y :
  y ∈ update_where p f l <-> exists x, x ∈ l /\ y = if p x then f x else x.
Proof.
  unfold update_where. rewrite list_elem_of_fmap.
  split; intros (x & ? & ?); exists x; auto.
Qed.

Lemma update_none p f l :
  (forall x, x ∈ l -> p x = false) -> update_where p f l = l.
Proof.
  intros H. unfold update_where. rewrite <- (map_id l) at 2.
  apply map_ext_in. intros x Hx. rewrite H; [done|]. by rewrite list_elem_of_In.
Qed.

(** An update that keeps the key keeps the list of keys. *)
Lemma map_update_key (k : A -> B) p f l :
  (forall x, p x = true -> k (f x) = k x) -> map k (update_where p f l) = map k l.
Proof.
  intros H. unfold update_where. rewrite map_map. apply map_ext.
  intros x. destruct (p x) eqn:E; auto.
Qed.

(** An update invisible to [q] keeps what [q] counts. *)
Lemma count_update_same p q f l :
  (forall x, x ∈ l -> p x = true -> q (f x) = q x) ->
  count_where q (update_where p f l) = count_where q l.
Proof.
  intros H. unfold count_where, where_, update_where.
  induction l as [|x l IH]; [done|]. simpl.
  assert (q (if p x then f x else x) = q x) as ->.
  { destruct (p x) eqn:E; [apply H; set_solver|done]. }
  specialize (IH ltac:(set_solver)). destruct (q x); simpl; congruence.
Qed.

Lemma count_cons q x l : count_where q (x :: l) = Nat.b2n (q x) + count_where q l.
Proof. unfold count_where, where_. simpl. by destruct (q x). Qed.

End tables.

Lemma NoDup_key_inj {A B} (k : A -> B) (l : list A) x y :
  NoDup (map k l) -> x ∈ l -> y ∈ l -> k x = k y -> x = y.
Proof.
  induction l as [|z l IH]; [set_solver|].
  simpl. rewrite NoDup_cons. intros [Hz Hl] Hx Hy E.
  rewrite list_elem_of_fmap in Hz.
  apply elem_of_cons in Hx as [->|Hx]; apply elem_of_cons in Hy as [->|Hy]; naive_solver.
Qed.

Lemma NoDup_map_where {A B} (k : A -> B) (p : A -> bool) (l : list A) :
  NoDup (map k l) -> NoDup (map k (where_ p l)).
Proof.
  induction l as [|x l IH]; [done|]. unfold where_ in *. simpl.
  rewrite NoDup_cons. intros [Hx Hl].
  destruct (p x); simpl; [|by apply IH]. apply NoDup_cons. split; [|by apply IH].
  rewrite list_elem_of_fmap in *. intros (y & E & Hy).
  apply elem_of_where in Hy as [Hy _]. eauto.
Qed.

(** Updating the single row with a given key moves exactly that row's
    contribution to a count. *)
Lemma count_update_key {A B} `{EqDecision B} (k : A -> B) (q : A -> bool)
    (f : A -> A) (l : list A) (x : A) :
  NoDup (map k l) -> x ∈ l ->
  count_where q (update_where (fun y => bool_decide (k y = k x)) f l) + Nat.b2n (q x)
  = count_where q l + Nat.b2n (q (f x)).
Proof.
  induction l as [|z l IH]; [set_solver|].
  simpl. rewrite NoDup_cons. intros [Hz Hl] Hx.
  rewrite list_elem_of_fmap in Hz. rewrite !count_cons.
  apply elem_of_cons in Hx as [->|Hx].
  - rewrite bool_decide_true by done.
    rewrite (update_none _ f l).
    { lia. }
    intros y Hy. apply bool_decide_false. naive_solver.
  - rewrite bool_decide_false by naive_solver.
    specialize (IH Hl Hx). cbv iota. lia.
Qed.

Lemma where_single {A B} `{EqDecision B} (k : A -> B) (l : list A) x :
  NoDup (map k l) -> x ∈ l -> where_ (fun y => bool_decide (k y = k x)) l = [x].
Proof.
  induction l as [|z l IH]; [by intros _ ?%not_elem_of_nil|].
  simpl. rewrite NoDup_cons, list_elem_of_fmap, elem_of_cons. intros [Hz Hl] [->|Hx].
  - unfold where_. simpl. rewrite bool_decide_true by done. f_equal. apply where_none.
    intros y Hy. apply bool_decide_false. intros E. apply Hz. eauto.
  - unfold where_ in *. simpl. rewrite bool_decide_false; [by apply IH|]. intros E. apply Hz. eauto.
Qed.

Lemma first_where_single {A} (p : A -> bool) l x :
  (forall y, y ∈ l -> p y = true -> y = x) -> x ∈ l -> p x = true -> first_where p l = Some x.
Proof.
  intros Hu Hx Hp. unfold first_where. destruct (where_ p l) as [|y l'] eqn:E.
  - assert (Hin : x ∈ where_ p l) by (by apply elem_of_where).
    rewrite E in Hin. by apply not_elem_of_nil in Hin.
  - assert (Hin : y ∈ where_ p l) by (rewrite E; left).
    apply elem_of_where in Hin as [? ?]. simpl. f_equal. auto.
Qed.

Lemma where_where {A} (p q : A -> bool) l :
  where_ q (where_ p l) = where_ (fun x => p x && q x) l.
Proof.
  induction l as [|x l IH]; [done|]. unfold where_ in *. simpl.
  destruct (p x); simpl; [destruct (q x); by rewrite IH|done].
Qed.

Lemma where_perm {A} (p : A -> bool) l1 l2 : l1 ≡ₚ l2 -> where_ p l1 ≡ₚ where_ p l2.
Proof.
  unfold where_. induction 1 as [|x l1 l2 _ IH|x y l|]; simpl; [done| | |by etrans].
  - destruct (p x); by rewrite ?IH.
  - destruct (p x), (p y); try done. apply Permutation_swap.
Qed.

(** A row-by-row account of an update, and the partner of a row in one. *)
Lemma Forall2_update {A} (R : A -> A -> Prop) (p : A -> bool) f l :
  (forall x, x ∈ l -> if p x then R x (f x) else R x x) -> Forall2 R l (update_where p f l).
Proof.
  intros H. unfold update_where. apply Forall2_fmap_r, Forall_Forall2_diag, Forall_forall.
  intros x Hx. specialize (H x Hx). simpl. by destruct (p x).
Qed.

Lemma Forall2_partner {A B} (P : A -> B -> Prop) l k x :
  Forall2 P l k -> x ∈ l -> exists y, y ∈ k /\ P x y.
Proof.
  intros H [i Hi]%list_elem_of_lookup. apply (Forall2_lookup_l _ _ _ _ _ H) in Hi as (y & Hy & HP).
  exists y. split; [by apply list_elem_of_lookup_2 in Hy|done].
Qed.

(** Splitting a count along a second test. *)
Lemma count_split {A} (p q : A -> bool) l :
  count_where p l = count_where (fun x => p x && q x) l + count_where (fun x => p x && negb (q x)) l.
Proof.
  induction l as [|x l IH]; [done|]. rewrite !count_cons, IH. destruct (p x), (q x); simpl; lia.
Qed.

Lemma count_update {A} (p q : A -> bool) f l :
  count_where q (update_where p f l) = count_where (fun x => q (if p x then f x else x)) l.
Proof. induction l as [|x l IH]; [done|]. simpl. by rewrite !count_cons, IH. Qed.

(** ** Tactics *)

(** Split every [match]/[if] on a hypothesis' left side. *)
Ltac break_match_hyp :=
  match goal with
  | H : context [match ?x with _ => _ end] |- _ => destruct x eqn:?; simplify_eq/=
  end.

Ltac break_match :=
  match goal with
  | |- context [match ?x with _ => _ end] => destruct x eqn:?; simplify_eq/=
  end.

(** Add a fact once. *)
Ltac learn H :=
  let T := type of H in
  lazymatch goal with
  | _ : T |- _ => fail
  | _ => pose proof H
  end.

(** Instantiate every bounded quantifier over a list with the known members. *)
Ltac use_members :=
  repeat match goal with
  | H : forall x, x ∈ ?l -> _, Hx : ?y ∈ ?l |- _ => learn (H y Hx)
  end.

(** Boolean tests to propositions, everywhere. *)
Ltac bool_to_prop :=
  repeat match goal with
  | H : _ && _ = true |- _ => apply andb_true_iff in H as [? ?]
  | H : _ || _ = false |- _ => apply orb_false_iff in H as [? ?]
  | H : negb _ = true |- _ => apply negb_true_iff in H
  | H : negb _ = false |- _ => apply negb_false_iff in H
  | H : bool_decide _ = true |- _ => apply bool_decide_eq_true in H
  | H : bool_decide _ = false |- _ => apply bool_decide_eq_false in H
  | H : Z.ltb _ _ = true |- _ => apply Z.ltb_lt in H
  | H : Z.ltb _ _ = false |- _ => apply Z.ltb_ge in H
  | H : Z.leb _ _ = true |- _ => apply Z.leb_le in H
  | H : Z.leb _ _ = false |- _ => apply Z.leb_gt in H
  | H : Z.eqb _ _ = true |- _ => apply Z.eqb_eq in H
  | H : Z.eqb _ _ = false |- _ => apply Z.eqb_neq in H
  end.

(** The rewriting database of the table lemmas. *)
Create Rewrite HintDb tables.
#[export] Hint Rewrite @where_app @count_app @update_app @length_update : tables.
