(* ===== verification/GoStrings.v ===== *)
(** * The string routines of Go's standard library that the program calls

    A Go [string] is a byte sequence: [String.string], one [ascii] per byte.
    This file holds [strings.TrimSpace] (with the Unicode white space of
    UTF-8 encoded text), [strings.HasPrefix], [strings.TrimPrefix],
    [strings.Join], [sort.Strings] and the character count PostgreSQL uses for
    [VARCHAR(n)]. *)

From S2P Require Import Prelude.
From Stdlib Require Import Ascii.
Import List.ListNotations.

Local Open Scope string_scope.
Local Open Scope list_scope.

Abbreviation bytes := (list ascii) (only parsing).

Definition byte_of (a : ascii) : N := N_of_ascii a.

(** ** White space *)

(** One-byte white space: tab, newline, vertical tab, form feed, return, space. *)
Definition space1 (a : ascii) : bool :=
  let n := byte_of a in ((9 <=? n) && (n <=? 13) || (n =? 32))%N.

(** Two-byte encodings: U+0085, U+00A0. *)
Definition space2 (a b : ascii) : bool :=
  ((byte_of a =? 194) && ((byte_of b =? 133) || (byte_of b =? 160)))%N.

(** Three-byte encodings: U+1680, U+2000 to U+200A, U+2028, U+2029, U+202F,
    U+205F, U+3000. *)
Definition space3 (a b c : ascii) : bool :=
  let x := byte_of a in let y := byte_of b in let z := byte_of c in
  ((x =? 225) && (y =? 154) && (z =? 128)
   || (x =? 226) && (y =? 128) &&
      ((128 <=? z) && (z <=? 138) || (z =? 168) || (z =? 169) || (z =? 175))
   || (x =? 226) && (y =? 129) && (z =? 159)
   || (x =? 227) && (y =? 128) && (z =? 128))%N.

Section trim.
Context (s2 : ascii -> ascii -> bool) (s3 : ascii -> ascii -> ascii -> bool).

Fixpoint trim_front (l : bytes) : bytes :=
  match l with
  | [] => []
  | a :: l1 =>
      if space1 a then trim_front l1 else
      match l1 with
      | [] => l
      | b :: l2 =>
          if s2 a b then trim_front l2 else
          match l2 with
          | [] => l
          | c :: l3 => if s3 a b c then trim_front l3 else l
          end
      end
  end.
End trim.

Definition trim_left : bytes -> bytes := trim_front space2 space3.
Definition trim_right (l : bytes) : bytes :=
  rev (trim_front (fun b a => space2 a b) (fun c b a => space3 a b c) (rev l)).

Definition bytes_of (s : string) : bytes := String.list_ascii_of_string s.
Definition string_of (l : bytes) : string := String.string_of_list_ascii l.

(** [strings.TrimSpace] *)
Definition TrimSpace (s : string) : string :=
  string_of (trim_right (trim_left (bytes_of s))).

(** The test [strings.TrimSpace(s) == ""]. *)
Definition blank (s : string) : bool := String.eqb (TrimSpace s) "".

(** ** Prefixes *)

(** [strings.HasPrefix] *)
Definition HasPrefix (s prefix : string) : bool := String.prefix prefix s.

(** [strings.TrimPrefix] *)
Definition TrimPrefix (s prefix : string) : string :=
  if HasPrefix s prefix
  then String.substring (String.length prefix) (String.length s - String.length prefix) s
  else s.

(** [strings.Join] *)
Fixpoint strings_Join (elems : list string) (sep : string) : string :=
  match elems with
  | [] => ""
  | [s] => s
  | s :: rest => (s ++ sep ++ strings_Join rest sep)%string
  end.

(** ** [sort.Strings]: byte-wise lexicographic order *)

Definition string_le (s t : string) : Prop := String.leb s t = true.

#[export] Instance string_le_dec : RelDecision string_le.
Proof. intros s t. unfold string_le. apply _. Defined.

Definition sort_Strings (l : list string) : list string := merge_sort string_le l.

(** ** VARCHAR(n) counts characters, not bytes *)

(** A UTF-8 continuation byte is 10xxxxxx. *)
Definition continuation (a : ascii) : bool := ((128 <=? byte_of a) && (byte_of a <? 192))%N.

Definition char_length (s : string) : nat :=
  count_where (fun a => negb (continuation a)) (bytes_of s).

(** Well-formed UTF-8 (RFC 3629: no overlong form, no surrogate, at most
    U+10FFFF). *)
Fixpoint utf8_valid (l : bytes) : bool :=
  match l with
  | [] => true
  | a :: l1 =>
      let x := byte_of a in
      if (x <? 128)%N then utf8_valid l1 else
      match l1 with
      | [] => false
      | b :: l2 =>
          let y := byte_of b in
          if ((194 <=? x) && (x <? 224))%N then continuation b && utf8_valid l2 else
          match l2 with
          | [] => false
          | c :: l3 =>
              if ((224 <=? x) && (x <? 240))%N then
                continuation b && continuation c &&
                negb ((x =? 224) && (y <? 160))%N && negb ((x =? 237) && (160 <=? y))%N &&
                utf8_valid l3
              else
              match l3 with
              | [] => false
              | d :: l4 =>
                  ((240 <=? x) && (x <? 245))%N &&
                  continuation b && continuation c && continuation d &&
                  negb ((x =? 240) && (y <? 144))%N && negb ((x =? 244) && (144 <=? y))%N &&
                  utf8_valid l4
              end
          end
      end
  end.

(** What a PostgreSQL text value in a UTF-8 database may hold: well-formed UTF-8
    without a zero byte. *)
Definition pg_text (s : string) : bool :=
  utf8_valid (bytes_of s) && forallb (fun a => negb (byte_of a =? 0)%N) (bytes_of s).

(** A value of type VARCHAR(n). *)
Definition varchar (n : nat) (s : string) : bool :=
  pg_text s && Nat.leb (char_length s) n.

(** [len(s)] counts bytes. *)
Definition len (s : string) : Z := Z.of_nat (String.length s).

(** ** Lemmas *)

Lemma string_of_bytes_of s : string_of (bytes_of s) = s.
Proof. apply String.string_of_list_ascii_of_string. Qed.

Lemma bytes_of_string_of l : bytes_of (string_of l) = l.
Proof. apply String.list_ascii_of_string_of_list_ascii. Qed.

Lemma bytes_of_app s t : bytes_of (s ++ t)%string = bytes_of s ++ bytes_of t.
Proof. induction s as [|a s IH]; [done|]. unfold bytes_of in *. simpl. by rewrite IH. Qed.

Lemma length_bytes_of s : length (bytes_of s) = String.length s.
Proof. induction s as [|a s IH]; [done|]. unfold bytes_of in *. simpl. by rewrite IH. Qed.

Lemma string_app_length s t :
  String.length (s ++ t)%string = String.length s + String.length t.
Proof. by rewrite <- !length_bytes_of, bytes_of_app, length_app. Qed.

Lemma string_app_inj_l s t u : (s ++ t)%string = (s ++ u)%string -> t = u.
Proof.
  intros H. rewrite <- (string_of_bytes_of t), <- (string_of_bytes_of u). f_equal.
  apply (f_equal bytes_of) in H. rewrite !bytes_of_app in H. by apply app_inv_head in H.
Qed.

(** A string of at most [n] bytes fits VARCHAR(n). *)
Lemma char_length_le s : char_length s <= String.length s.
Proof.
  unfold char_length, count_where, where_. rewrite <- length_bytes_of.
  apply List.filter_length_le.
Qed.

Lemma string_leb_total s t : String.leb s t = true \/ String.leb t s = true.
Proof. apply String.leb_total. Qed.

#[export] Instance string_le_total : Total string_le.
Proof. intros s t. apply string_leb_total. Qed.

Lemma sort_Strings_Permutation l : sort_Strings l ≡ₚ l.
Proof. apply merge_sort_Permutation. Qed.

Example TrimSpace_ascii : TrimSpace "  a b	 " = "a b".
Proof. reflexivity. Qed.

Example TrimSpace_nbsp :
  blank (string_of [ascii_of_N 194; ascii_of_N 160; ascii_of_N 32]) = true.
Proof. reflexivity. Qed.
