(* ===== verification/GoFloat.v ===== *)
(** * Go's float64

    IEEE 754 binary64 arithmetic, round to nearest even, by the executable
    definitions of [SpecFloat]: what Go's [+], [-], [*], [/], the comparisons
    and the conversions between [float64] and [int64] compute. *)

From S2P Require Import Prelude.
From Corelib Require Export SpecFloat.

Abbreviation float64 := spec_float.

Definition f64_add (x y : float64) : float64 := SFadd 53 1024 x y.
Definition f64_sub (x y : float64) : float64 := SFsub 53 1024 x y.
Definition f64_mul (x y : float64) : float64 := SFmul 53 1024 x y.
Definition f64_div (x y : float64) : float64 := SFdiv 53 1024 x y.

Definition f64_leb (x y : float64) : bool := SFleb x y.
Definition f64_ltb (x y : float64) : bool := SFltb x y.

(** [float64(n)] for an integer [n], rounded to nearest even. *)
Definition f64_of_int (n : Z) : float64 := binary_normalize 53 1024 n 0 false.

(** The literal m * 2^e. *)
Definition f64_lit (m e : Z) : float64 := binary_normalize 53 1024 m e false.

(** The integer part of a finite float, rounded toward zero. *)
Definition f64_trunc (x : float64) : option Z :=
  match x with
  | S754_zero _ => Some 0%Z
  | S754_finite s m e =>
      let a := if (0 <=? e)%Z then (Z.pos m * 2 ^ e)%Z else (Z.pos m / 2 ^ (- e))%Z in
      Some (if s then (- a)%Z else a)
  | _ => None
  end.

(** [int64(x)]. When the value does not fit, the Go specification leaves the
    result to the implementation: [overflow] gives it. *)
Definition int64_of_f64 (overflow : float64 -> Z) (x : float64) : Z :=
  match f64_trunc x with
  | Some z =>
      if ((int64_min <=? z) && (z <=? int64_max))%Z then z else wrap64 (overflow x)
  | None => wrap64 (overflow x)
  end.

Lemma int64_of_f64_range overflow x : in_int64 (int64_of_f64 overflow x).
Proof.
  unfold int64_of_f64. destruct (f64_trunc x) as [z|]; [|apply wrap64_range].
  destruct (_ && _) eqn:E; [|apply wrap64_range].
  bool_to_prop. split; lia.
Qed.

