(* ===== verification/Domain.v ===== *)
(** * Entities, enumerations and errors (internal/domain)

    The data every other component shares, with the pure functions of the
    package: [Valid], [IsTerminal], [Stream], [AggregateRequestStatus] and
    [ListFilter.Normalize]. *)

From S2P Require Import Prelude GoStrings.

Local Open Scope string_scope.

(** ** Scalars *)

(** A [uuid.UUID] is sixteen bytes, read here as a big-endian number: the order
    PostgreSQL compares them in. *)
Abbreviation uuid := N (only parsing).

(** [time.Time] as nanoseconds since the Unix epoch, [time.Duration] as
    nanoseconds. *)
Abbreviation time := Z (only parsing).
Abbreviation duration := Z (only parsing).

Definition Millisecond : duration := 1000000.
Definition Second : duration := 1000 * Millisecond.
Definition Minute : duration := 60 * Second.
Definition Hour : duration := 60 * Minute.

(** ** Enumerations *)

Abbreviation Channel := string (only parsing).
Definition ChannelSMS : Channel := "sms".
Definition ChannelEmail : Channel := "email".
Definition ChannelPush : Channel := "push".

Definition AllChannels : list Channel := [ChannelSMS; ChannelEmail; ChannelPush].

Definition Channel_Valid (c : Channel) : bool :=
  if String.eqb c ChannelSMS then true else
  if String.eqb c ChannelEmail then true else
  if String.eqb c ChannelPush then true else false.

Abbreviation Priority := string (only parsing).
Definition PriorityHigh : Priority := "high".
Definition PriorityNormal : Priority := "normal".
Definition PriorityLow : Priority := "low".

Definition AllPriorities : list Priority := [PriorityHigh; PriorityNormal; PriorityLow].

Definition Priority_Valid (p : Priority) : bool :=
  if String.eqb p PriorityHigh then true else
  if String.eqb p PriorityNormal then true else
  if String.eqb p PriorityLow then true else false.

Inductive RequestStatus :=
| RequestPending | RequestPartial | RequestSent | RequestFailed | RequestCancelled.

Definition RequestStatus_String (s : RequestStatus) : string :=
  match s with
  | RequestPending => "PENDING"
  | RequestPartial => "PARTIAL"
  | RequestSent => "SENT"
  | RequestFailed => "FAILED"
  | RequestCancelled => "CANCELLED"
  end.

Inductive DeliveryStatus :=
| DeliveryScheduled | DeliveryPending | DeliveryProcessing | DeliveryRetrying
| DeliverySent | DeliveryFailed | DeliveryCancelled.

Definition DeliveryStatus_String (s : DeliveryStatus) : string :=
  match s with
  | DeliveryScheduled => "SCHEDULED"
  | DeliveryPending => "PENDING"
  | DeliveryProcessing => "PROCESSING"
  | DeliveryRetrying => "RETRYING"
  | DeliverySent => "SENT"
  | DeliveryFailed => "FAILED"
  | DeliveryCancelled => "CANCELLED"
  end.

#[export] Instance RequestStatus_eq_dec : EqDecision RequestStatus.
Proof. solve_decision. Defined.
#[export] Instance DeliveryStatus_eq_dec : EqDecision DeliveryStatus.
Proof. solve_decision. Defined.

Definition IsTerminal (s : DeliveryStatus) : bool :=
  match s with
  | DeliverySent | DeliveryFailed | DeliveryCancelled => true
  | _ => false
  end.

(** The stream of a priority/channel pair, and the dead-letter stream. *)
Definition Stream (p : Priority) (c : Channel) : string :=
  "notifications." ++ p ++ "." ++ c.

Definition DLQStream : string := "notifications.dlq".

(** ** Errors

    A Go [error] value, with the chain [errors.Is]/[errors.As] walk. [EPgError]
    and [ELib] are error values of the driver libraries: a PostgreSQL error with
    its SQLSTATE, and a library's sentinel. *)

Inductive error : Type :=
| ErrNotFound
| ErrConflict
| ErrValidation
| ErrTemplateVariablesMissing
| ErrCancelNotAllowed
| EValidationError (Field Message : string)
| EProviderError (Permanent : bool) (StatusCode : Z) (RetryAfter : option duration)
    (BreakerOpen : bool) (Err : option error)
| EPgError (Code text : string)
| ELib (name : string)
| EWrapped (before : string) (inner : error) (after : string).

(** [fmt.Errorf("op: %w", err)] *)
Definition Errorf (op : string) (err : error) : error := EWrapped (op ++ ": ") err "".

Definition NewValidationError (field message : string) : error :=
  EValidationError field message.

(** [err.Error()] *)
Fixpoint Error (e : error) : string :=
  match e with
  | ErrNotFound => "not found"
  | ErrConflict => "conflict"
  | ErrValidation => "validation error"
  | ErrTemplateVariablesMissing => "required template variables missing"
  | ErrCancelNotAllowed => "notification cannot be cancelled in its current state"
  | EValidationError f m => if String.eqb f "" then m else f ++ ": " ++ m
  | EProviderError _ _ _ _ (Some err) => Error err
  | EProviderError _ _ _ _ None => "provider error"
  | EPgError _ text => text
  | ELib name => name
  | EWrapped before inner after => before ++ Error inner ++ after
  end.

(** [errors.Unwrap] *)
Definition Unwrap (e : error) : option error :=
  match e with
  | EValidationError _ _ => Some ErrValidation
  | EProviderError _ _ _ _ err => err
  | EWrapped _ inner _ => Some inner
  | _ => None
  end.

(** Identity of the sentinel values [errors.Is] is called with. *)
Definition same_sentinel (e target : error) : bool :=
  match e, target with
  | ErrNotFound, ErrNotFound | ErrConflict, ErrConflict
  | ErrValidation, ErrValidation
  | ErrTemplateVariablesMissing, ErrTemplateVariablesMissing
  | ErrCancelNotAllowed, ErrCancelNotAllowed => true
  | ELib a, ELib b => String.eqb a b
  | _, _ => false
  end.

Fixpoint errors_Is (e target : error) : bool :=
  same_sentinel e target ||
  match e with
  | EValidationError _ _ => same_sentinel ErrValidation target
  | EProviderError _ _ _ _ (Some err) => errors_Is err target
  | EWrapped _ inner _ => errors_Is inner target
  | _ => false
  end.

Record ValidationError := mkValidationError { ve_Field : string; ve_Message : string }.

(** [errors.As(err, &ve)] for [*domain.ValidationError] *)
Fixpoint errors_As_Validation (e : error) : option ValidationError :=
  match e with
  | EValidationError f m => Some (mkValidationError f m)
  | EProviderError _ _ _ _ (Some err) => errors_As_Validation err
  | EWrapped _ inner _ => errors_As_Validation inner
  | _ => None
  end.

Record ProviderError := mkProviderError {
  pe_Permanent : bool;
  pe_StatusCode : Z;
  pe_RetryAfter : option duration;
  pe_BreakerOpen : bool;
  pe_Err : option error
}.

(** The interface value holding a [*domain.ProviderError]. *)
Definition ProviderError_error (p : ProviderError) : error :=
  EProviderError (pe_Permanent p) (pe_StatusCode p) (pe_RetryAfter p)
    (pe_BreakerOpen p) (pe_Err p).

(** [errors.As(err, &perr)] for [*domain.ProviderError] *)
Fixpoint errors_As_Provider (e : error) : option ProviderError :=
  match e with
  | EProviderError p c r b err => Some (mkProviderError p c r b err)
  | EWrapped _ inner _ => errors_As_Provider inner
  | _ => None
  end.

(** ** Entities *)

Record Batch := mkBatch {
  b_ID : uuid;
  b_UserID : string;
  b_IdempotencyKey : option string;
  b_TotalCount : Z;
  b_PendingCount : Z;
  b_SentCount : Z;
  b_FailedCount : Z;
  b_CancelledCount : Z;
  b_CreatedAt : time
}.

Record Template := mkTemplate {
  t_ID : uuid;
  t_Name : string;
  t_Channel : Channel;
  t_Content : string;
  t_RequiredVariables : list string;
  t_CreatedAt : time
}.

Record Request := mkRequest {
  r_ID : uuid;
  r_UserID : string;
  r_BatchID : option uuid;
  r_Recipient : string;
  r_Channel : Channel;
  r_Priority : Priority;
  r_TemplateID : option uuid;
  r_RenderedContent : string;
  r_IdempotencyKey : option string;
  r_Status : RequestStatus;
  r_CreatedAt : time
}.

Record Delivery := mkDelivery {
  d_ID : uuid;
  d_RequestID : uuid;
  d_Channel : Channel;
  d_Priority : Priority;
  d_Status : DeliveryStatus;
  d_AttemptCount : Z;
  d_ProviderMessageID : option string;
  d_LastError : option string;
  d_NextRetryAt : option time;
  d_LockedUntil : option time;
  d_SendAt : option time;
  d_CreatedAt : time;
  d_UpdatedAt : time
}.

Record DeliveryMessage := mkDeliveryMessage {
  dm_DeliveryID : uuid;
  dm_DeliveryCreatedAt : time;
  dm_RequestID : uuid;
  dm_Channel : Channel;
  dm_Priority : Priority;
  dm_CorrelationID : string
}.

Record DLQMessage := mkDLQMessage {
  dlq_Original : DeliveryMessage;
  dlq_Reason : string;
  dlq_Error : string;
  dlq_AttemptCount : Z;
  dlq_Stream : string;
  dlq_EntryID : string;
  dlq_Timestamp : time
}.

Record StreamMessage := mkStreamMessage {
  sm_Stream : string;
  sm_ID : string;
  sm_Delivery : DeliveryMessage
}.

Record OutboxRecord := mkOutboxRecord {
  o_ID : uuid;
  o_DeliveryID : uuid;
  o_DeliveryCreatedAt : time;
  o_Stream : string;
  o_Message : DeliveryMessage
}.

Record BatchItem := mkBatchItem {
  bi_Request : Request;
  bi_Delivery : Delivery;
  bi_Outbox : option OutboxRecord
}.

Record BatchResult := mkBatchResult {
  br_Batch : Batch;
  br_CreatedCount : Z;
  br_DuplicateCount : Z
}.

Record OutboxEntry := mkOutboxEntry {
  oe_ID : uuid;
  oe_Stream : string;
  oe_Message : DeliveryMessage
}.

Record ProviderRequest := mkProviderRequest {
  pr_DeliveryID : string;
  pr_To : string;
  pr_Channel : Channel;
  pr_Content : string
}.

Record ProviderResult := mkProviderResult {
  pres_MessageID : string;
  pres_Status : string;
  pres_Timestamp : time
}.

(** ** Queries *)

(** [Status] is any string the client sends: it is not validated. *)
Record ListFilter := mkListFilter {
  lf_UserID : string;
  lf_Status : option string;
  lf_Channel : option Channel;
  lf_From : option time;
  lf_To : option time;
  lf_Limit : Z;
  lf_Cursor : option uuid;
  lf_CursorAt : option time
}.

Definition set_Limit (n : Z) (f : ListFilter) : ListFilter :=
  mkListFilter (lf_UserID f) (lf_Status f) (lf_Channel f) (lf_From f) (lf_To f) n
    (lf_Cursor f) (lf_CursorAt f).

Definition Normalize (f : ListFilter) : ListFilter :=
  let defaultLimit := 50%Z in
  let maxLimit := 200%Z in
  let f := if (lf_Limit f <=? 0)%Z then set_Limit defaultLimit f else f in
  if (lf_Limit f >? maxLimit)%Z then set_Limit maxLimit f else f.

Record Page := mkPage {
  pg_Items : list Request;
  pg_NextCursor : option uuid;
  pg_NextAt : option time
}.

(** ** Aggregation *)

(** The loop of [AggregateRequestStatus]: [None] is the early return of
    [RequestPending]. *)
Fixpoint aggregate_loop (ds : list DeliveryStatus) (sent failed cancelled : nat)
    : option (nat * nat * nat) :=
  match ds with
  | [] => Some (sent, failed, cancelled)
  | s :: rest =>
      if negb (IsTerminal s) then None else
      match s with
      | DeliverySent => aggregate_loop rest (S sent) failed cancelled
      | DeliveryFailed => aggregate_loop rest sent (S failed) cancelled
      | DeliveryCancelled => aggregate_loop rest sent failed (S cancelled)
      | _ => aggregate_loop rest sent failed cancelled
      end
  end.

Definition AggregateRequestStatus (deliveries : list DeliveryStatus) : RequestStatus :=
  if bool_decide (length deliveries = 0) then RequestPending else
  match aggregate_loop deliveries 0 0 0 with
  | None => RequestPending
  | Some (sent, failed, cancelled) =>
      let total := length deliveries in
      if Nat.eqb sent total then RequestSent
      else if Nat.eqb cancelled total then RequestCancelled
      else if Nat.eqb sent 0 && Nat.ltb 0 failed then RequestFailed
      else RequestPartial
  end.

(** ** Specification and lemmas *)

Definition status_is (s : DeliveryStatus) (x : DeliveryStatus) : bool := bool_decide (x = s).

Definition count_status (s : DeliveryStatus) (ds : list DeliveryStatus) : nat :=
  count_where (status_is s) ds.

(** The rules of the comment above [AggregateRequestStatus], stated over the
    multiset of statuses. *)
Definition aggregate_spec (ds : list DeliveryStatus) (st : RequestStatus) : Prop :=
  match st with
  | RequestPending => ds = [] \/ (exists d, d ∈ ds /\ IsTerminal d = false)
  | RequestSent => ds <> [] /\ forall d, d ∈ ds -> d = DeliverySent
  | RequestCancelled => ds <> [] /\ forall d, d ∈ ds -> d = DeliveryCancelled
  | RequestFailed =>
      (forall d, d ∈ ds -> IsTerminal d = true) /\
      DeliverySent ∉ ds /\ DeliveryFailed ∈ ds
  | RequestPartial =>
      (forall d, d ∈ ds -> IsTerminal d = true) /\ DeliverySent ∈ ds /\
      (exists d, d ∈ ds /\ d <> DeliverySent)
  end.

Lemma aggregate_loop_counts ds a b c :
  aggregate_loop ds a b c =
  if forallb IsTerminal ds
  then Some (a + count_status DeliverySent ds, b + count_status DeliveryFailed ds,
             c + count_status DeliveryCancelled ds)
  else None.
Proof.
  revert a b c. unfold count_status.
  induction ds as [|d ds IH]; intros a b c; simpl.
  - change (count_where ?p []) with 0. do 3 f_equal; lia.
  - rewrite !count_cons.
    destruct d; simpl; try done; rewrite IH; destruct (forallb _ _); try done;
      unfold status_is; simpl; repeat f_equal; lia.
Qed.

Lemma count_status_total ds :
  forallb IsTerminal ds = true ->
  count_status DeliverySent ds + count_status DeliveryFailed ds
    + count_status DeliveryCancelled ds = length ds.
Proof.
  unfold count_status. induction ds as [|d ds IH]; [done|].
  rewrite !count_cons. simpl. intros [Hd Hds]%andb_true_iff. specialize (IH Hds).
  destruct d; try discriminate; unfold status_is at 1 3 5; simpl; lia.
Qed.

Lemma count_status_zero s ds : count_status s ds = 0 <-> s ∉ ds.
Proof.
  unfold count_status. rewrite count_zero_iff. unfold status_is. split.
  - intros H Hs. specialize (H s Hs). by rewrite bool_decide_true in H.
  - intros H x Hx. apply bool_decide_false. congruence.
Qed.

Lemma count_status_all s ds :
  count_status s ds = length ds <-> forall d, d ∈ ds -> d = s.
Proof.
  unfold count_status. induction ds as [|d ds IH]; [set_solver|].
  rewrite count_cons. unfold status_is at 1. simpl.
  assert (count_where (status_is s) ds <= length ds) by apply List.filter_length_le.
  destruct (decide (d = s)) as [->|Hd].
  - rewrite bool_decide_true by done. simpl. split.
    + intros ? d [->|]%elem_of_cons; [done|]. apply IH; [lia|done].
    + intros Hall. f_equal. apply IH. set_solver.
  - rewrite bool_decide_false by done. simpl. split; [lia|].
    intros Hall. destruct Hd. apply Hall. set_solver.
Qed.

Lemma forallb_terminal ds :
  forallb IsTerminal ds = true <-> forall d, d ∈ ds -> IsTerminal d = true.
Proof.
  rewrite forallb_forall. setoid_rewrite list_elem_of_In. done.
Qed.

Lemma forallb_terminal_false ds :
  forallb IsTerminal ds = false -> exists d, d ∈ ds /\ IsTerminal d = false.
Proof.
  induction ds as [|d ds IH]; simpl; [done|].
  intros [H|H]%andb_false_iff; [exists d; set_solver|].
  destruct (IH H) as (x & ? & ?). exists x. set_solver.
Qed.

Lemma aggregate_sound ds : aggregate_spec ds (AggregateRequestStatus ds).
Proof.
  unfold AggregateRequestStatus. case_bool_decide as Hlen.
  { apply length_zero_iff_nil in Hlen as ->. by left. }
  rewrite aggregate_loop_counts. simpl.
  destruct (forallb IsTerminal ds) eqn:Hterm.
  2: { right. by apply forallb_terminal_false. }
  pose proof (count_status_total ds Hterm) as Htot.
  assert (Hne : ds <> []) by (intros ->; done).
  pose proof (proj1 (forallb_terminal ds) Hterm) as Hall.
  destruct (Nat.eqb_spec (count_status DeliverySent ds) (length ds)) as [E|E].
  { split; [done|]. by apply count_status_all. }
  destruct (Nat.eqb_spec (count_status DeliveryCancelled ds) (length ds)) as [E'|E'].
  { split; [done|]. by apply count_status_all. }
  destruct (Nat.eqb_spec (count_status DeliverySent ds) 0) as [S0|S0]; simpl.
  - destruct (Nat.ltb_spec 0 (count_status DeliveryFailed ds)); [|lia].
    split_and!; [done|by apply count_status_zero|].
    apply dec_stable. rewrite <- count_status_zero. lia.
  - split_and!; [done| |].
    + apply dec_stable. rewrite <- count_status_zero. lia.
    + destruct (decide (DeliveryFailed ∈ ds)) as [|NF]; [by exists DeliveryFailed|].
      destruct (decide (DeliveryCancelled ∈ ds)) as [|NC]; [by exists DeliveryCancelled|].
      apply count_status_zero in NF, NC. lia.
Qed.

(** At most one status satisfies the rules. *)
Lemma aggregate_spec_functional ds st st' :
  aggregate_spec ds st -> aggregate_spec ds st' -> st = st'.
Proof.
  intros H H'.
  assert (Hall : forall s, (forall d, d ∈ ds -> d = s) -> ds <> [] -> s ∈ ds).
  { intros s Hs Hne. destruct ds as [|d l]; [done|].
    rewrite <- (Hs d ltac:(left)). left. }
  assert (Hnil : forall s, s ∈ ds -> ds <> []).
  { intros s Hs ->. by apply not_elem_of_nil in Hs. }
  destruct st, st'; try done; simpl in *; destruct_and?;
    try (pose proof (Hall DeliverySent ltac:(eassumption) ltac:(eassumption)));
    try (pose proof (Hall DeliveryCancelled ltac:(eassumption) ltac:(eassumption)));
    repeat match goal with
    | H : _ \/ _ |- _ => destruct H
    | H : exists _, _ |- _ => destruct H as (? & ? & ?)
    end;
    try (by subst; set_solver); use_members; simplify_eq/=; congruence.
Qed.

Lemma aggregate_iff ds st :
  AggregateRequestStatus ds = st <-> aggregate_spec ds st.
Proof.
  split; [intros <-; apply aggregate_sound|].
  intros H. exact (aggregate_spec_functional ds _ _ (aggregate_sound ds) H).
Qed.

Lemma aggregate_perm ds ds' :
  ds ≡ₚ ds' -> AggregateRequestStatus ds = AggregateRequestStatus ds'.
Proof.
  intros Hp. apply aggregate_iff. pose proof (aggregate_sound ds') as H.
  assert (Hin : forall d, d ∈ ds <-> d ∈ ds') by (intros d; by rewrite Hp).
  assert (Hnil : ds = [] <-> ds' = []).
  { split; intros ->; [by apply Permutation_nil_l in Hp|by apply Permutation_nil_r in Hp]. }
  destruct (AggregateRequestStatus ds'); simpl in *;
    setoid_rewrite Hin; try rewrite Hnil; done.
Qed.

#[export] Instance aggregate_proper :
  Proper ((≡ₚ) ==> (=)) AggregateRequestStatus.
Proof. intros ??. apply aggregate_perm. Qed.

(** Any delivery in progress keeps its request PENDING. *)
Lemma aggregate_nonterminal ds d :
  d ∈ ds -> IsTerminal d = false -> AggregateRequestStatus ds = RequestPending.
Proof. intros. apply aggregate_iff. right. eauto. Qed.

(** The request statuses that mean "no delivery is in progress". *)
Definition RequestStatus_settled (s : RequestStatus) : bool :=
  negb (bool_decide (s = RequestPending)).

Lemma aggregate_settled ds :
  RequestStatus_settled (AggregateRequestStatus ds) = true <->
  ds <> [] /\ forall d, d ∈ ds -> IsTerminal d = true.
Proof.
  unfold RequestStatus_settled. rewrite negb_true_iff, bool_decide_eq_false, aggregate_iff.
  simpl. split.
  - intros H. split; [intros ->; naive_solver|]. intros d Hd.
    destruct (IsTerminal d) eqn:E; [done|]. destruct H. eauto.
  - intros [Hne Hall] [->|(d & Hd & E)]; [done|]. by rewrite Hall in E.
Qed.

Lemma Channel_Valid_iff c : Channel_Valid c = true <-> c ∈ AllChannels.
Proof.
  unfold Channel_Valid, AllChannels. rewrite !elem_of_cons, elem_of_nil.
  destruct (String.eqb_spec c ChannelSMS); [tauto|].
  destruct (String.eqb_spec c ChannelEmail); [tauto|].
  destruct (String.eqb_spec c ChannelPush); [tauto|].
  split; [discriminate|tauto].
Qed.

Lemma Priority_Valid_iff p : Priority_Valid p = true <-> p ∈ AllPriorities.
Proof.
  unfold Priority_Valid, AllPriorities. rewrite !elem_of_cons, elem_of_nil.
  destruct (String.eqb_spec p PriorityHigh); [tauto|].
  destruct (String.eqb_spec p PriorityNormal); [tauto|].
  destruct (String.eqb_spec p PriorityLow); [tauto|].
  split; [discriminate|tauto].
Qed.

Lemma Stream_inj_valid p p' c c' :
  Priority_Valid p = true -> Priority_Valid p' = true ->
  Channel_Valid c = true -> Channel_Valid c' = true ->
  Stream p c = Stream p' c' -> p = p' /\ c = c'.
Proof.
  rewrite !Priority_Valid_iff, !Channel_Valid_iff.
  unfold AllPriorities, AllChannels. rewrite !elem_of_cons, !elem_of_nil.
  intros Hp Hp' Hc Hc' E.
  destruct_or?; subst; try done; vm_compute in E; discriminate.
Qed.

Lemma Stream_not_DLQ p c : Channel_Valid c = true -> Stream p c <> DLQStream.
Proof.
  rewrite Channel_Valid_iff. unfold Stream, DLQStream. intros Hc E.
  change "notifications.dlq" with ("notifications." ++ "dlq") in E.
  apply string_app_inj_l in E.
  assert (Hl : String.length (p ++ "." ++ c) = 3) by (by rewrite E).
  rewrite !string_app_length in Hl.
  unfold AllChannels in Hc. rewrite !elem_of_cons, elem_of_nil in Hc.
  destruct_or?; subst; simpl in Hl; lia.
Qed.

(** ** Properties *)

(** The status [AggregateRequestStatus] computes is exactly the one the
    documented rules give, for every list of delivery statuses, whatever order
    the database returns the rows in: PENDING iff there is no delivery or one in
    progress, SENT iff all are SENT, CANCELLED iff all are CANCELLED, FAILED iff
    all are terminal with none SENT and some FAILED, PARTIAL otherwise. *)
Theorem AggregateRequestStatus_correct :
  (forall ds st, AggregateRequestStatus ds = st <-> aggregate_spec ds st) /\
  (forall ds ds', ds ≡ₚ ds' -> AggregateRequestStatus ds = AggregateRequestStatus ds').
Proof. split; [apply aggregate_iff|apply aggregate_perm]. Qed.

(** The stream names are a faithful topology: two valid priority/channel
    pairs share a stream only when they are equal, no stream is the dead-letter
    stream, and the nine streams are distinct. *)
Theorem Stream_topology :
  (forall p p' c c',
     Priority_Valid p = true -> Priority_Valid p' = true ->
     Channel_Valid c = true -> Channel_Valid c' = true ->
     Stream p c = Stream p' c' -> p = p' /\ c = c') /\
  (forall p c, Channel_Valid c = true -> Stream p c <> DLQStream) /\
  NoDup (p ← AllPriorities; c ← AllChannels; [Stream p c]).
Proof.
  split_and!; [apply Stream_inj_valid|apply Stream_not_DLQ|].
  apply (bool_decide_unpack _). by vm_compute.
Qed.

Lemma Stream_topology_witness :
  PriorityHigh = PriorityHigh /\ Stream PriorityLow ChannelPush <> DLQStream.
Proof.
  split.
  - apply (proj1 Stream_topology PriorityHigh PriorityHigh ChannelSMS ChannelSMS);
      reflexivity.
  - apply (proj1 (proj2 Stream_topology) PriorityLow ChannelPush). reflexivity.
Defined.

(** [Normalize] always leaves a limit between 1 and 200, keeps a limit that
    is already in range, and is idempotent. *)
Theorem Normalize_limit f :
  (1 <= lf_Limit (Normalize f) <= 200)%Z /\
  ((1 <= lf_Limit f <= 200)%Z \/ lf_Limit (Normalize f) <> lf_Limit f) /\
  Normalize (Normalize f) = Normalize f.
Proof.
  destruct f as [u st ch fr to n cur at_]. unfold Normalize, set_Limit. simpl.
  destruct (Z.leb_spec n 0); simpl; [split; [lia|split; [right; lia|done]]|].
  rewrite Z.gtb_ltb. destruct (Z.ltb_spec 200 n); simpl; [split; [lia|split; [right; lia|done]]|].
  split; [lia|split; [left; lia|]].
  destruct (Z.leb_spec n 0); [lia|]. simpl. rewrite Z.gtb_ltb.
  destruct (Z.ltb_spec 200 n); [lia|done].
Qed.
