(* ===== verification/GoText.v ===== *)
(** * Numbers and binary data in text: strconv and encoding/base64

    What the program uses of them: [strconv.FormatInt], [strconv.ParseInt] and
    [strconv.Atoi] in base 10 on 64-bit integers, [base64.RawURLEncoding] and
    [strings.SplitN] with two parts, each with its round trip. *)

From Stdlib Require Import Ascii.
From S2P Require Import Prelude GoStrings Domain.

Local Open Scope string_scope.
Local Open Scope list_scope.

(** ** Decimal integers *)

Definition digit_char (d : N) : ascii := ascii_of_N (48 + d).

Definition digit_of (c : ascii) : option N :=
  let n := byte_of c in if ((48 <=? n) && (n <=? 57))%N then Some (n - 48)%N else None.

(** Twenty digits are enough for any 64-bit number. *)
Fixpoint decimal (fuel : nat) (n : N) : bytes :=
  match fuel with
  | 0 => []
  | S fuel => if (n <? 10)%N then [digit_char n]
              else decimal fuel (n / 10) ++ [digit_char (n mod 10)]
  end.

(** [strconv.FormatInt(n, 10)] *)
Definition FormatInt (n : Z) : string :=
  string_of ((if (n <? 0)%Z then ["-"%char] else []) ++ decimal 20 (Z.abs_N n)).

Fixpoint digits_value (l : bytes) (acc : N) : option N :=
  match l with
  | [] => Some acc
  | c :: l => match digit_of c with
              | Some d => digits_value l (10 * acc + d)%N
              | None => None
              end
  end.

Definition ErrSyntax : error := ELib "invalid syntax".
Definition ErrRange : error := ELib "value out of range".

(** [strconv.ParseInt(s, 10, 64)], and [strconv.Atoi] where [int] has 64 bits. *)
Definition ParseInt (s : string) : result error Z :=
  let '(neg, l) := match bytes_of s with
                   | "-"%char :: l => (true, l)
                   | "+"%char :: l => (false, l)
                   | l => (false, l)
                   end in
  match l with
  | [] => Err ErrSyntax
  | _ =>
      match digits_value l 0 with
      | None => Err ErrSyntax
      | Some u =>
          let n := if neg : bool then (- Z.of_N u)%Z else Z.of_N u in
          if ((int64_min <=? n) && (n <=? int64_max))%Z then Ok n else Err ErrRange
      end
  end.

Definition Atoi (s : string) : result error Z := ParseInt s.

Lemma digit_of_char d : (d < 10)%N -> digit_of (digit_char d) = Some d.
Proof.
  intros H. unfold digit_of, digit_char, byte_of. rewrite N_ascii_embedding by lia.
  rewrite (proj2 (N.leb_le _ _)), (proj2 (N.leb_le _ _)) by lia. simpl. f_equal. lia.
Qed.

Lemma digits_value_app l1 l2 acc :
  digits_value (l1 ++ l2) acc =
  match digits_value l1 acc with Some v => digits_value l2 v | None => None end.
Proof.
  revert acc. induction l1 as [|c l1 IH]; intros acc; [done|]. simpl.
  by destruct (digit_of c).
Qed.

Lemma decimal_value fuel n :
  (n < 10 ^ N.of_nat fuel)%N -> digits_value (decimal fuel n) 0 = Some n.
Proof.
  revert n. induction fuel as [|fuel IH]; intros n Hn.
  { simpl in Hn |- *. f_equal. lia. }
  simpl. destruct (N.ltb_spec n 10); [by simpl; rewrite digit_of_char|].
  rewrite Nat2N.inj_succ, N.pow_succ_r' in Hn.
  rewrite digits_value_app, IH by (apply N.Div0.div_lt_upper_bound; lia).
  cbn [digits_value]. rewrite digit_of_char by (apply N.mod_lt; lia).
  f_equal. rewrite (N.div_mod n 10) at 3 by lia. lia.
Qed.

Lemma decimal_nonempty fuel n : decimal (S fuel) n <> [].
Proof. simpl. destruct (n <? 10)%N; [done|]. by intros [_ ?]%app_nil. Qed.

(** The first character of a number is a digit. *)
Lemma decimal_head fuel n c l : decimal fuel n = c :: l -> exists d, (d < 10)%N /\ c = digit_char d.
Proof.
  revert n c l. induction fuel as [|fuel IH]; intros n c l; simpl; [done|].
  destruct (N.ltb_spec n 10); [intros [= <- <-]; eauto|].
  destruct (decimal fuel (n / 10)) as [|x xs] eqn:E; simpl; intros [= <- _]; [|eauto].
  exists (n mod 10)%N. split; [by apply N.mod_lt|done].
Qed.

Lemma digit_not_sign d : (d < 10)%N -> digit_char d <> "-"%char /\ digit_char d <> "+"%char.
Proof.
  intros H. unfold digit_char. split; intros E; apply (f_equal N_of_ascii) in E;
    rewrite N_ascii_embedding in E by lia; simpl in E; lia.
Qed.

(** Printing then parsing gives the number back. *)
Lemma ParseInt_FormatInt n : in_int64 n -> ParseInt (FormatInt n) = Ok n.
Proof.
  intros Hn. unfold ParseInt, FormatInt. rewrite bytes_of_string_of.
  assert (Hv : digits_value (decimal 20 (Z.abs_N n)) 0 = Some (Z.abs_N n)).
  { apply decimal_value. unfold in_int64, int64_min, int64_max in Hn. simpl. lia. }
  destruct (decimal 20 (Z.abs_N n)) as [|c l] eqn:El; [by apply decimal_nonempty in El|].
  destruct (decimal_head _ _ _ _ El) as (d & Hd & ->).
  assert (Hr : ((int64_min <=? n) && (n <=? int64_max))%Z = true).
  { unfold in_int64 in Hn. apply andb_true_iff. split; apply Z.leb_le; lia. }
  destruct (Z.ltb_spec n 0); simpl app; cbv iota.
  - rewrite Hv. replace (- Z.of_N (Z.abs_N n))%Z with n by lia. by rewrite Hr.
  - destruct (digit_not_sign d Hd) as [H1 H2].
    assert (Hs : match digit_char d :: l with
      | "-"%char :: l => (true, l) | "+"%char :: l => (false, l) | l => (false, l) end
      = (false, digit_char d :: l)).
    { destruct (digit_char d) as [[] [] [] [] [] [] [] []]; done. }
    rewrite Hs, Hv. replace (Z.of_N (Z.abs_N n)) with n by lia. by rewrite Hr.
Qed.

Lemma ParseInt_range s n : ParseInt s = Ok n -> in_int64 n.
Proof.
  unfold ParseInt. intros H.
  repeat match type of H with
  | context [let '(_, _) := ?p in _] => destruct p
  | context [match ?x with _ => _ end] => destruct x eqn:?
  end; simplify_eq; bool_to_prop; unfold in_int64; lia.
Qed.

(** ** base64.RawURLEncoding *)

Definition b64_alphabet : bytes :=
  bytes_of "ABCDEFGHIJKLMNOPQRSTUVWXYZabcdefghijklmnopqrstuvwxyz0123456789-_".

Definition b64_char (n : N) : ascii := nth (N.to_nat n) b64_alphabet "A"%char.

Fixpoint position (c : ascii) (l : bytes) (i : N) : option N :=
  match l with
  | [] => None
  | x :: l => if Ascii.eqb c x then Some i else position c l (i + 1)%N
  end.
Definition b64_value (c : ascii) : option N := position c b64_alphabet 0.

(** Three bytes give four characters; one or two bytes left over give two or
    three characters, without padding. *)
Fixpoint b64_encode (l : bytes) : bytes :=
  match l with
  | [] => []
  | [a] => let n := (byte_of a * 65536)%N in
           [b64_char (n / 262144); b64_char (n / 4096 mod 64)]
  | [a; b] => let n := (byte_of a * 65536 + byte_of b * 256)%N in
           [b64_char (n / 262144); b64_char (n / 4096 mod 64); b64_char (n / 64 mod 64)]
  | a :: b :: c :: l =>
      let n := (byte_of a * 65536 + byte_of b * 256 + byte_of c)%N in
      b64_char (n / 262144) :: b64_char (n / 4096 mod 64) :: b64_char (n / 64 mod 64)
        :: b64_char (n mod 64) :: b64_encode l
  end.

(** The sextets of the text; line breaks are skipped. *)
Fixpoint b64_sextets (l : bytes) : option (list N) :=
  match l with
  | [] => Some []
  | c :: l =>
      if ((byte_of c =? 10) || (byte_of c =? 13))%N then b64_sextets l else
      match b64_value c, b64_sextets l with
      | Some v, Some vs => Some (v :: vs)
      | _, _ => None
      end
  end.

(** One sextet left over is an error; the unused bits of a last group of two or
    three are not looked at. *)
Fixpoint b64_groups (l : list N) : option bytes :=
  match l with
  | [] => Some []
  | [_] => None
  | [p; q] => Some [ascii_of_N ((p * 64 + q) / 16)]
  | [p; q; r] => let n := ((p * 64 + q) * 64 + r)%N in
                 Some [ascii_of_N (n / 1024); ascii_of_N (n / 4 mod 256)]
  | p :: q :: r :: s :: l =>
      let n := (((p * 64 + q) * 64 + r) * 64 + s)%N in
      match b64_groups l with
      | Some rest => Some (ascii_of_N (n / 65536) :: ascii_of_N (n / 256 mod 256)
                             :: ascii_of_N (n mod 256) :: rest)
      | None => None
      end
  end.

Definition ErrCorruptInput : error := ELib "illegal base64 data".

(** [base64.RawURLEncoding.EncodeToString] *)
Definition EncodeToString (s : string) : string := string_of (b64_encode (bytes_of s)).

(** [base64.RawURLEncoding.DecodeString] *)
Definition DecodeString (s : string) : result error string :=
  match b64_sextets (bytes_of s) with
  | Some vs => match b64_groups vs with
               | Some l => Ok (string_of l)
               | None => Err ErrCorruptInput
               end
  | None => Err ErrCorruptInput
  end.

Lemma b64_value_char n : (n < 64)%N ->
  b64_value (b64_char n) = Some n /\
  ((byte_of (b64_char n) =? 10) || (byte_of (b64_char n) =? 13))%N = false.
Proof.
  intros Hn.
  assert (H : forallb (fun k => let c := b64_char (N.of_nat k) in
    bool_decide (b64_value c = Some (N.of_nat k)) &&
    negb ((byte_of c =? 10) || (byte_of c =? 13))%N) (seq 0 64) = true) by (vm_compute; reflexivity).
  rewrite forallb_forall in H. specialize (H (N.to_nat n)).
  rewrite N2Nat.id in H. apply andb_true_iff in H as [H1 H2]; [|apply in_seq; lia].
  split; [by apply bool_decide_eq_true in H1|by apply negb_true_iff in H2].
Qed.

Lemma b64_sextets_char n l : (n < 64)%N ->
  b64_sextets (b64_char n :: l) = match b64_sextets l with Some vs => Some (n :: vs) | None => None end.
Proof. intros H. destruct (b64_value_char n H) as [E1 E2]. cbn [b64_sextets]. by rewrite E2, E1. Qed.

Lemma byte_lt a : (byte_of a < 256)%N.
Proof. apply N_ascii_bounded. Qed.

Lemma ascii_byte a n : n = byte_of a -> ascii_of_N n = a.
Proof. intros ->. apply ascii_N_embedding. Qed.

(** Induction over a list by groups of three. *)
Lemma list_ind3 {A} (P : list A -> Prop) :
  P [] -> (forall a, P [a]) -> (forall a b, P [a; b]) ->
  (forall a b c l, P l -> P (a :: b :: c :: l)) -> forall l, P l.
Proof.
  intros H0 H1 H2 H3. fix IH 1.
  intros [|a [|b [|c l]]]; [exact H0|apply H1|apply H2|apply H3, IH].
Qed.

#[local] Ltac Zify.zify_post_hook ::= Z.to_euclidean_division_equations.

Lemma b64_round_trip l : exists vs, b64_sextets (b64_encode l) = Some vs /\ b64_groups vs = Some l.
Proof.
  induction l as [|a|a b|a b c l (vs & E & Eg)] using list_ind3; [by exists []|..];
    pose proof (byte_lt a); try pose proof (byte_lt b); try pose proof (byte_lt c);
    cbn [b64_encode]; cbv zeta;
    rewrite ?b64_sextets_char by
      (first [apply N.mod_lt; lia | apply N.Div0.div_lt_upper_bound; lia]).
  - eexists. split; [done|]. cbn [b64_groups b64_sextets]. do 2 f_equal. apply ascii_byte. lia.
  - eexists. split; [done|]. cbn [b64_groups b64_sextets]. do 3 f_equal; [|f_equal]; apply ascii_byte; lia.
  - rewrite E. eexists. split; [done|]. cbn [b64_groups]. rewrite Eg.
    f_equal. repeat f_equal; apply ascii_byte; lia.
Qed.

Lemma DecodeString_EncodeToString s : DecodeString (EncodeToString s) = Ok s.
Proof.
  unfold DecodeString, EncodeToString. rewrite bytes_of_string_of.
  destruct (b64_round_trip (bytes_of s)) as (vs & -> & ->). by rewrite string_of_bytes_of.
Qed.

(** ** strings.SplitN(s, sep, 2) for a one-byte separator *)

Fixpoint cut (sep : ascii) (l : bytes) : option (bytes * bytes) :=
  match l with
  | [] => None
  | c :: l => if Ascii.eqb c sep then Some ([], l) else
              match cut sep l with
              | Some (a, b) => Some (c :: a, b)
              | None => None
              end
  end.

(** [None]: a single part. *)
Definition SplitN2 (s : string) (sep : ascii) : option (string * string) :=
  match cut sep (bytes_of s) with
  | Some (a, b) => Some (string_of a, string_of b)
  | None => None
  end.

Lemma cut_app sep l1 l2 : sep ∉ l1 -> cut sep (l1 ++ sep :: l2) = Some (l1, l2).
Proof.
  induction l1 as [|c l1 IH]; simpl; [by rewrite Ascii.eqb_refl|].
  rewrite not_elem_of_cons. intros [Hc Hl]. rewrite IH by done.
  rewrite (proj2 (Ascii.eqb_neq c sep)) by congruence. done.
Qed.

(** ** A text for every value of a countable type

    What the sample codecs of the development print. *)

Fixpoint bits_of (p : positive) : string :=
  match p with
  | xH => ""
  | xO p => String "0"%char (bits_of p)
  | xI p => String "1"%char (bits_of p)
  end.

Fixpoint of_bits (s : string) : positive :=
  match s with
  | EmptyString => xH
  | String c s => if Ascii.eqb c "0"%char then xO (of_bits s) else xI (of_bits s)
  end.

Lemma of_bits_of p : of_bits (bits_of p) = p.
Proof. induction p; simpl; congruence. Qed.

Definition to_text {A} `{Countable A} (x : A) : string := bits_of (encode x).
Definition of_text {A} `{Countable A} (s : string) : option A := decode (of_bits s).

Lemma of_text_to_text {A} `{Countable A} (x : A) : of_text (to_text x) = Some x.
Proof. unfold of_text, to_text. by rewrite of_bits_of, decode_encode. Qed.
