(* ===== verification/GoParse.v ===== *)
(** * Reading configuration values: strconv, time and strings

    What internal/platform/config uses of them: [strings.Split] on a comma,
    [strings.ToLower], [strconv.ParseBool], [strconv.ParseFloat],
    [time.ParseDuration] and [Duration.String]. *)

From Stdlib Require Import Ascii.
From S2P Require Import Prelude GoStrings GoFloat Domain GoText.

Local Open Scope string_scope.
Local Open Scope list_scope.

(** ** strings.Split and strings.ToLower *)

Fixpoint split_bytes (sep : ascii) (acc l : bytes) : list bytes :=
  match l with
  | [] => [rev acc]
  | c :: l => if Ascii.eqb c sep then rev acc :: split_bytes sep [] l
              else split_bytes sep (c :: acc) l
  end.

(** [strings.Split(s, sep)] for a separator of one byte. *)
Definition strings_Split (s : string) (sep : ascii) : list string :=
  map string_of (split_bytes sep [] (bytes_of s)).

Definition lower (c : ascii) : ascii :=
  let n := byte_of c in
  if ((65 <=? n) && (n <=? 90))%N then ascii_of_N (n + 32) else c.

(** Two runes beyond ASCII have a lower case in ASCII: U+0130 (C4 B0) and the
    Kelvin sign U+212A (E2 84 AA). *)
Fixpoint lower_bytes (l : bytes) : bytes :=
  match l with
  | [] => []
  | a :: l1 =>
      match l1 with
      | b :: l2 =>
          if ((byte_of a =? 196) && (byte_of b =? 176))%N then "i"%char :: lower_bytes l2 else
          match l2 with
          | c :: l3 =>
              if ((byte_of a =? 226) && (byte_of b =? 132) && (byte_of c =? 170))%N
              then "k"%char :: lower_bytes l3 else lower a :: lower_bytes l1
          | [] => lower a :: lower_bytes l1
          end
      | [] => [lower a]
      end
  end.

(** [strings.ToLower], up to the other runes beyond ASCII, which it maps to runes
    beyond ASCII and which are left as they are here. *)
Definition ToLower (s : string) : string := string_of (lower_bytes (bytes_of s)).

Lemma split_bytes_nonempty sep acc l : split_bytes sep acc l <> [].
Proof. revert acc. induction l as [|c l IH]; intros acc; simpl; [done|by destruct (Ascii.eqb c sep)]. Qed.

Lemma strings_Split_nonempty s sep : strings_Split s sep <> [].
Proof.
  unfold strings_Split. pose proof (split_bytes_nonempty sep [] (bytes_of s)).
  by destruct (split_bytes sep [] (bytes_of s)).
Qed.

(** ** strconv.ParseBool *)

Definition ParseBool (s : string) : result error bool :=
  if existsb (String.eqb s) ["1"; "t"; "T"; "true"; "TRUE"; "True"] then Ok true
  else if existsb (String.eqb s) ["0"; "f"; "F"; "false"; "FALSE"; "False"] then Ok false
  else Err ErrSyntax.

(** ** strconv.ParseFloat *)

(** The float64 nearest to [m * 2^e] or [m / d], ties to even. A quotient is
    rounded from an integer quotient of at least 64 bits whose last bit is set
    when a remainder is left. *)
Definition f64_ratio (m d : N) : float64 :=
  let k := (64 + N.size d - N.size m)%N in
  let n := N.shiftl m k in
  let q := (2 * (n / d) + (if (n mod d =? 0)%N then 0 else 1))%N in
  f64_lit (Z.of_N q) (- Z.of_N k - 1).

Definition f64_abs_decimal (m : N) (e : Z) : float64 :=
  if (m =? 0)%N then S754_zero false
  else if (0 <=? e)%Z then f64_of_int (Z.of_N m * 10 ^ e)
  else f64_ratio m (Z.to_N (10 ^ (- e))).

Definition f64_neg (neg : bool) (x : float64) : float64 := if neg then SFopp x else x.

Definition hex_of (c : ascii) : option N :=
  let n := byte_of (lower c) in
  if ((97 <=? n) && (n <=? 102))%N then Some (n - 87)%N else None.

Definition digit_in (hex : bool) (c : ascii) : option N :=
  match digit_of c with
  | Some d => Some d
  | None => if hex then hex_of c else None
  end.

(** The digits of a mantissa, underscores skipped and at most one point: the
    integer they spell, the number of digits after the point, whether there was
    a digit and a point, and what follows. *)
Fixpoint mantissa (hex : bool) (l : bytes) (m : N) (frac : Z) (seen dot : bool)
    : N * Z * bool * bytes :=
  match l with
  | [] => (m, frac, seen, [])
  | c :: l' =>
      if Ascii.eqb c "_" then mantissa hex l' m frac seen dot
      else if Ascii.eqb c "." then
        if dot then (m, frac, seen, l) else mantissa hex l' m frac seen true
      else match digit_in hex c with
           | Some d => mantissa hex l' ((if hex then 16 else 10) * m + d)%N
                         (if dot then frac + 1 else frac)%Z true dot
           | None => (m, frac, seen, l)
           end
  end.

(** The exponent's digits, which stop counting at 10000, and what follows. *)
Fixpoint exponent (l : bytes) (e : Z) : Z * bytes :=
  match l with
  | [] => (e, [])
  | c :: l' =>
      if Ascii.eqb c "_" then exponent l' e
      else match digit_of c with
           | Some d => exponent l' (if (e <? 10000)%Z then 10 * e + Z.of_N d else e)%Z
           | None => (e, l)
           end
  end.

(** An underscore stands between two digits, or after a base prefix. [saw] is the
    kind of the last byte: a digit (or prefix), an underscore, anything else. *)
Inductive saw := SawDigit | SawUnderscore | SawOther.

Fixpoint underscores (hex : bool) (s : saw) (l : bytes) : bool :=
  match l with
  | [] => match s with SawUnderscore => false | _ => true end
  | c :: l =>
      if digit_in hex c then underscores hex SawDigit l
      else if Ascii.eqb c "_" then
        match s with SawDigit => underscores hex SawUnderscore l | _ => false end
      else match s with SawUnderscore => false | _ => underscores hex SawOther l end
  end.

Definition sign (l : bytes) : bool * bytes :=
  match l with
  | c :: l' => if Ascii.eqb c "-" then (true, l') else if Ascii.eqb c "+" then (false, l')
               else (false, l)
  | [] => (false, [])
  end.

(** Infinities and NaN by name, in any case; only infinities are signed. *)
Definition special (s : string) : option float64 :=
  let l := map lower (bytes_of s) in
  if String.eqb (string_of l) "nan" then Some S754_nan else
  let '(neg, l) := sign l in
  if String.eqb (string_of l) "inf" || String.eqb (string_of l) "infinity"
  then Some (S754_infinity neg) else None.

(** The exponent after a mantissa: [e] and digits, or nothing; a hexadecimal
    mantissa needs its [p] and digits. Nothing may follow. *)
Definition exponent_part (hex : bool) (l : bytes) : option Z :=
  match l with
  | c :: l =>
      if Ascii.eqb (lower c) (if hex then "p" else "e") then
        let '(neg, l) := sign l in
        match l with
        | d :: _ =>
            match digit_of d, exponent l 0 with
            | Some _, (e, []) => Some (if neg : bool then - e else e)%Z
            | _, _ => None
            end
        | [] => None
        end
      else None
  | [] => if hex then None else Some 0%Z
  end.

Definition is_inf (x : float64) : bool := match x with S754_infinity _ => true | _ => false end.

(** [strconv.ParseFloat(s, 64)] *)
Definition ParseFloat (s : string) : result error float64 :=
  match special s with
  | Some x => Ok x
  | None =>
      let '(neg, l) := sign (bytes_of s) in
      let '(hex, l) :=
        match l with
        | a :: b :: (_ :: _) as l' =>
            if Ascii.eqb a "0" && Ascii.eqb (lower b) "x" then (true, tail (tail l)) else (false, l)
        | _ => (false, l)
        end in
      let '(m, frac, seen, rest) := mantissa hex l 0 0 false false in
      if negb seen then Err ErrSyntax else
      match exponent_part hex rest with
      | None => Err ErrSyntax
      | Some e =>
          if negb (underscores hex (if hex : bool then SawDigit else SawOther) l)
          then Err ErrSyntax else
          let x := if hex then f64_lit (Z.of_N m) (e - 4 * frac)
                   else f64_abs_decimal m (e - frac) in
          if is_inf x then Err ErrRange else Ok (f64_neg neg x)
      end
  end.

(** ** time.ParseDuration *)

Definition ErrDuration : error := ELib "time: invalid duration".

Definition max_unsigned : N := 2 ^ 63.

(** The integer at the front, or an overflow, and what follows. *)
Fixpoint leadingInt (l : bytes) (x : N) : option (N * bytes) :=
  match l with
  | c :: l' =>
      match digit_of c with
      | Some d =>
          if (max_unsigned / 10 <? x)%N then None
          else let x := (10 * x + d)%N in
               if (max_unsigned <? x)%N then None else leadingInt l' x
      | None => Some (x, l)
      end
  | [] => Some (x, [])
  end.

(** The digits after the point, as many as fit, with the power of ten they are
    divided by. *)
Fixpoint leadingFraction (l : bytes) (x : N) (scale : float64) (overflow : bool)
    : N * float64 * bytes :=
  match l with
  | c :: l' =>
      match digit_of c with
      | Some d =>
          if overflow then leadingFraction l' x scale true
          else if ((max_unsigned - 1) / 10 <? x)%N then leadingFraction l' x scale true
          else let y := (10 * x + d)%N in
               if (max_unsigned <? y)%N then leadingFraction l' x scale true
               else leadingFraction l' y (f64_mul scale (f64_of_int 10)) false
      | None => (x, scale, l)
      end
  | [] => (x, scale, [])
  end.

Fixpoint take_unit (l : bytes) : bytes * bytes :=
  match l with
  | c :: l' =>
      if Ascii.eqb c "." then ([], l)
      else if digit_of c then ([], l)
      else let '(u, rest) := take_unit l' in (c :: u, rest)
  | [] => ([], [])
  end.

(** The micro sign U+00B5 and the Greek letter U+03BC both spell microseconds. *)
Definition micro (b1 b2 : N) : string := string_of [ascii_of_N b1; ascii_of_N b2; "s"%char].

Definition unitMap (u : string) : option N :=
  if String.eqb u "ns" then Some 1%N
  else if existsb (String.eqb u) ["us"; micro 194 181; micro 206 188] then Some 1000%N
  else if String.eqb u "ms" then Some 1000000%N
  else if String.eqb u "s" then Some 1000000000%N
  else if String.eqb u "m" then Some 60000000000%N
  else if String.eqb u "h" then Some 3600000000000%N
  else None.

(** One number with its unit: its nanoseconds, and what follows. *)
Definition duration_term (l : bytes) : option (N * bytes) :=
  match leadingInt l 0 with
  | None => None
  | Some (v, l1) =>
      let pre := negb (Nat.eqb (length l1) (length l)) in
      let '(f, scale, l2, post) :=
        match l1 with
        | c :: l' =>
            if Ascii.eqb c "." then
              let '(f, scale, l2) := leadingFraction l' 0 (f64_of_int 1) false in
              (f, scale, l2, negb (Nat.eqb (length l2) (length l')))
            else (0%N, f64_of_int 1, l1, false)
        | [] => (0%N, f64_of_int 1, l1, false)
        end in
      if negb (pre || post) then None else
      let '(u, rest) := take_unit l2 in
      match unitMap (string_of u) with
      | None => None
      | Some unit =>
          if (max_unsigned / unit <? v)%N then None else
          let v := (v * unit)%N in
          if (0 <? f)%N then
            match f64_trunc (f64_mul (f64_of_int (Z.of_N f))
                               (f64_div (f64_of_int (Z.of_N unit)) scale)) with
            | Some x => let v := (v + Z.to_N x)%N in
                        if (max_unsigned <? v)%N then None else Some (v, rest)
            | None => None
            end
          else Some (v, rest)
      end
  end.

(** The terms are added in a uint64. Each takes at least one byte. *)
Fixpoint duration_terms (fuel : nat) (l : bytes) (d : N) : result error N :=
  match l with
  | [] => Ok d
  | _ =>
      match fuel with
      | 0 => Err (ELib "fuel")
      | S fuel =>
          match duration_term l with
          | None => Err ErrDuration
          | Some (v, rest) =>
              let d := ((d + v) mod 2 ^ 64)%N in
              if (max_unsigned <? d)%N then Err ErrDuration else duration_terms fuel rest d
          end
      end
  end.

Definition ParseDuration (s : string) : result error duration :=
  let '(neg, l) := sign (bytes_of s) in
  if String.eqb (string_of l) "0" then Ok 0%Z else
  match l with
  | [] => Err ErrDuration
  | _ =>
      let? d := duration_terms (length l) l 0 in
      if neg : bool then Ok (wrap64 (- Z.of_N d))
      else if (max_unsigned - 1 <? d)%N then Err ErrDuration else Ok (Z.of_N d)
  end.

(** ** Duration.String *)

(** [fmtFrac]: [prec] digits of a fraction, trailing zeros and then the point
    left out, and the number before the point. [out] is what is already written. *)
Fixpoint fmtFrac (prec : nat) (v : N) (print : bool) (out : bytes) : bytes * N :=
  match prec with
  | 0 => (if print then "."%char :: out else out, v)
  | S prec =>
      let digit := (v mod 10)%N in
      let print := print || negb (digit =? 0)%N in
      fmtFrac prec (v / 10)%N print (if print then digit_char digit :: out else out)
  end.

Definition Duration_String (d : duration) : string :=
  let u := Z.abs_N d in
  let text :=
    if (u =? 0)%N then bytes_of "0s"
    else if (u <? 1000000000)%N then
      let '(prec, unit) :=
        if (u <? 1000)%N then (0, bytes_of "ns")
        else if (u <? 1000000)%N then (3, bytes_of (micro 194 181))
        else (6, bytes_of "ms") in
      let '(frac, v) := fmtFrac prec u false unit in
      decimal 20 v ++ frac
    else
      let '(frac, v) := fmtFrac 9 u false (bytes_of "s") in
      let secs := decimal 20 (v mod 60) ++ frac in
      let mins := (v / 60)%N in
      if (mins =? 0)%N then secs else
      let out := decimal 20 (mins mod 60) ++ "m"%char :: secs in
      let hours := (mins / 60)%N in
      if (hours =? 0)%N then out else decimal 20 hours ++ "h"%char :: out in
  string_of ((if (d <? 0)%Z then ["-"%char] else []) ++ text).

(** ** Lemmas *)

Lemma leadingInt_length l x v rest : leadingInt l x = Some (v, rest) -> length rest <= length l.
Proof.
  revert x. induction l as [|c l IH]; simpl; intros x H; [by simplify_eq|].
  destruct (digit_of c); [|simplify_eq; simpl; lia].
  destruct (_ <? _)%N; [done|]. destruct (_ <? _)%N; [done|]. apply IH in H. lia.
Qed.

Lemma leadingFraction_length l x scale o :
  length (leadingFraction l x scale o).2 <= length l.
Proof.
  revert x scale o. induction l as [|c l IH]; simpl; intros x scale o; [lia|].
  destruct (digit_of c); [|simpl; lia].
  destruct o; [|destruct (_ <? _)%N; [|destruct (_ <? _)%N]]; etransitivity; try apply IH; lia.
Qed.

Lemma take_unit_length l : length (take_unit l).1 + length (take_unit l).2 = length l.
Proof.
  induction l as [|c l IH]; simpl; [done|]. destruct (Ascii.eqb c "."); [done|].
  destruct (digit_of c); [done|]. destruct (take_unit l) as [u r]. simpl in *. lia.
Qed.

Lemma unitMap_nonempty u unit : unitMap (string_of u) = Some unit -> u <> [].
Proof. by intros H ->. Qed.

(** A term takes at least the byte of its unit. *)
Lemma duration_term_length l v rest : duration_term l = Some (v, rest) -> length rest < length l.
Proof.
  unfold duration_term. destruct (leadingInt l 0) as [[w l1]|] eqn:E1; [|done].
  apply leadingInt_length in E1.
  destruct (match l1 with [] => _ | _ => _ end) as [[[f scale] l2] post] eqn:E2.
  assert (H2 : length l2 <= length l1).
  { destruct l1 as [|c l1]; [by simplify_eq|]. destruct (Ascii.eqb c "."); [|by simplify_eq].
    pose proof (leadingFraction_length l1 0 (f64_of_int 1) false) as Hl.
    destruct (leadingFraction _ _ _ _) as [[f' s'] l']. simpl in *. simplify_eq. simpl. lia. }
  destruct (negb _); [done|].
  pose proof (take_unit_length l2) as Ht. destruct (take_unit l2) as [u r]. simpl in Ht.
  destruct (unitMap (string_of u)) as [unit|] eqn:Eu; [|done].
  apply unitMap_nonempty in Eu. destruct u; [done|]. simpl in Ht.
  intros H. repeat case_match; simplify_eq; lia.
Qed.

Lemma duration_terms_total fuel l d : length l <= fuel ->
  (exists n, duration_terms fuel l d = Ok n /\ ((d <= max_unsigned)%N -> (n <= max_unsigned)%N)) \/
  duration_terms fuel l d = Err ErrDuration.
Proof.
  revert l d. induction fuel as [|fuel IH]; intros l d Hl.
  - destruct l; simpl in *; [|lia]. left. eauto.
  - destruct l as [|c l]; [left; simpl; eauto|].
    cbn [duration_terms]. destruct (duration_term (c :: l)) as [[v rest]|] eqn:E; [|by right].
    apply duration_term_length in E.
    destruct (N.ltb_spec max_unsigned ((d + v) mod 2 ^ 64)); [by right|].
    destruct (IH rest ((d + v) mod 2 ^ 64)%N ltac:(simpl in *; lia)) as [(n & H1 & H2)|]; [left|by right].
    exists n. auto.
Qed.

(** A duration is parsed or refused; what is parsed fits in 64 bits. *)
Lemma ParseDuration_range s :
  (exists d, ParseDuration s = Ok d /\ in_int64 d) \/ ParseDuration s = Err ErrDuration.
Proof.
  unfold ParseDuration. destruct (sign (bytes_of s)) as [neg l].
  destruct (String.eqb (string_of l) "0"); [left; exists 0%Z; done|]. destruct l as [|c l]; [by right|].
  destruct (duration_terms_total (length (c :: l)) (c :: l) 0 ltac:(done)) as [(n & -> & H)| ->];
    [|by right].
  specialize (H ltac:(done)). destruct neg; [left; eexists; split; [done|apply wrap64_range]|].
  destruct (N.ltb_spec (max_unsigned - 1) n) as [|Hn]; [by right|]. left. eexists. split; [done|].
  unfold max_unsigned in Hn. change (2 ^ 63 - 1)%N with 9223372036854775807%N in Hn.
  unfold in_int64, int64_min, int64_max. lia.
Qed.

Example durations :
  map ParseDuration ["1h2m3.5s"; "-1.5h"; ".5s"; "15"; "0"; "9223372036854775808ns"] =
    [Ok 3723500000000%Z; Ok (-5400000000000)%Z; Ok 500000000%Z; Err ErrDuration; Ok 0%Z;
     Err ErrDuration] /\
  map Duration_String [0; 1500; 90 * Second; - (25 * Hour)]%Z =
    ["0s"; "1.5" +:+ micro 194 181; "1m30s"; "-25h0m0s"].
Proof. split; vm_compute; reflexivity. Qed.

Example floats :
  map ParseFloat ["0.2"; "1_000e-1"; "0x1p-2"; "1e400"; "+nan"] =
    [Ok (f64_div (f64_of_int 1) (f64_of_int 5)); Ok (f64_of_int 100); Ok (f64_lit 1 (-2));
     Err ErrRange; Err ErrSyntax].
Proof. vm_compute. reflexivity. Qed.
