(* ===== verification/Retry.v ===== *)
(** * The retry policy (internal/delivery)

    [EvaluateFailure] decides the next persisted state of a delivery whose send
    failed. The number [p.rng.Float64()] returns is an argument of the functions
    that draw it; [None] is a runtime panic (the index expression
    [p.Backoff[idx]] with a negative index). *)

From S2P Require Import Prelude GoStrings GoFloat Domain.

(** The value of an out of range [float64] to [int64] conversion is the
    implementation's: a parameter of the model. *)
Section policy.
Context (f64_overflow : float64 -> Z).

Record Policy := mkPolicy {
  MaxAttempts : Z;
  Backoff : list duration;
  JitterRatio : float64
}.

(** The source seeds a generator when none is given; the generator is the
    sequence of draws. *)
Definition NewPolicy (maxAttempts : Z) (backoff : list duration) (jitterRatio : float64)
    : Policy :=
  mkPolicy maxAttempts backoff jitterRatio.

Record Outcome := mkOutcome {
  oc_Status : DeliveryStatus;
  oc_AttemptCount : Z;
  oc_NextRetryAt : option time
}.

Definition applyJitter (p : Policy) (draw : float64) (d : duration) : duration :=
  if f64_leb (JitterRatio p) (f64_of_int 0) then d else
  let delta := f64_mul (f64_of_int d) (JitterRatio p) in
  let offset :=
    f64_mul (f64_sub (f64_mul draw (f64_of_int 2)) (f64_of_int 1)) delta in
  let jittered := int64_of_f64 f64_overflow (f64_add (f64_of_int d) offset) in
  if (jittered <? 0)%Z then 0%Z else jittered.

Definition backoffFor (p : Policy) (draw : float64) (attempt : Z) : option duration :=
  let n := Z.of_nat (length (Backoff p)) in
  if (n =? 0)%Z then Some Minute else
  let idx := wrap64 (attempt - 1) in
  let idx := if (idx >=? n)%Z then (n - 1)%Z else idx in
  if (idx <? 0)%Z then None else
  base ← Backoff p !! Z.to_nat idx;
  Some (applyJitter p draw base).

Definition EvaluateFailure (p : Policy) (draw : float64) (now : time)
    (currentAttempts : Z) (perr : option ProviderError) : option Outcome :=
  let attempts := wrap64 (currentAttempts + 1) in
  let permanent :=
    match perr with Some e => pe_Permanent e | None => false end in
  if permanent then Some (mkOutcome DeliveryFailed attempts None) else
  if (attempts >=? MaxAttempts p)%Z
  then Some (mkOutcome DeliveryFailed attempts None) else
  let retryAfter :=
    match perr with
    | Some e =>
        match pe_RetryAfter e with
        | Some d => if (d >? 0)%Z then Some d else None
        | None => None
        end
    | None => None
    end in
  wait ← (match retryAfter with
          | Some d => Some d
          | None => backoffFor p draw attempts
          end);
  Some (mkOutcome DeliveryRetrying attempts (Some (now + wait)%Z)).

(** Repeated failures of one delivery: the attempt count is fed back, as the
    worker stores it in the row and reads it at the next claim. The result is
    the attempt count of each evaluation and the final status. *)
Fixpoint retry_run (p : Policy) (failures : list (float64 * time * option ProviderError))
    (currentAttempts : Z) : option (list Z * DeliveryStatus) :=
  match failures with
  | [] => Some ([], DeliveryRetrying)
  | (draw, now, perr) :: rest =>
      oc ← EvaluateFailure p draw now currentAttempts perr;
      match oc_Status oc with
      | DeliveryFailed => Some ([oc_AttemptCount oc], DeliveryFailed)
      | _ =>
          '(counts, st) ← retry_run p rest (oc_AttemptCount oc);
          Some (oc_AttemptCount oc :: counts, st)
      end
  end.
End policy.

(** ** Lemmas *)

(** The attempt counts the database can hold: a PostgreSQL INTEGER. *)
Definition attempt_ok (n : Z) : Prop := (0 <= n < 2 ^ 31)%Z.

Lemma attempt_succ n : attempt_ok n -> wrap64 (n + 1) = (n + 1)%Z.
Proof.
  unfold attempt_ok. intros. apply wrap64_id.
  unfold in_int64, int64_min, int64_max. lia.
Qed.

Section lemmas.
Context (f64_overflow : float64 -> Z).
Implicit Types (p : Policy) (draw : float64) (perr : option ProviderError).
Local Abbreviation EvaluateFailure := (EvaluateFailure f64_overflow).
Local Abbreviation backoffFor := (backoffFor f64_overflow).
Local Abbreviation applyJitter := (applyJitter f64_overflow).
Local Abbreviation retry_run := (retry_run f64_overflow).

(** The wait before attempt number [n + 1], by the documented policy. *)
Definition scheduled_wait p draw (n : Z) : duration :=
  match Backoff p with
  | [] => Minute
  | _ => applyJitter p draw
           (nth (Nat.min (Z.to_nat n) (length (Backoff p) - 1)) (Backoff p) 0%Z)
  end.

Definition provider_wait perr : option duration :=
  match perr with
  | Some e => d ← pe_RetryAfter e; if (0 <? d)%Z then Some d else None
  | None => None
  end.

Definition is_permanent perr : bool :=
  match perr with Some e => pe_Permanent e | None => false end.

Lemma backoffFor_spec p draw n :
  attempt_ok n -> backoffFor p draw (n + 1) = Some (scheduled_wait p draw n).
Proof.
  intros Hn. unfold backoffFor, scheduled_wait, attempt_ok in *.
  destruct (Backoff p) as [|b bs] eqn:E; [done|].
  change (Z.of_nat (length (b :: bs)) =? 0)%Z with false. cbv iota.
  rewrite Z.add_simpl_r, wrap64_id by (unfold in_int64, int64_min, int64_max; lia).
  set (l := length (b :: bs)) in *.
  assert (Hl : (1 <= l)%nat) by (subst l; simpl; lia).
  assert (Hidx : exists k, (k < l)%nat /\ k = Nat.min (Z.to_nat n) (l - 1) /\
    (if (n >=? Z.of_nat l)%Z then (Z.of_nat l - 1)%Z else n) = Z.of_nat k).
  { exists (Nat.min (Z.to_nat n) (l - 1)).
    rewrite Z.geb_leb. destruct (Z.leb_spec (Z.of_nat l) n); lia. }
  destruct Hidx as (k & Hk & Hmin & ->).
  destruct (Z.ltb_spec (Z.of_nat k) 0); [lia|].
  rewrite Nat2Z.id, <- Hmin.
  destruct (lookup_lt_is_Some_2 (b :: bs) k Hk) as [base Hb].
  rewrite Hb. by rewrite (nth_lookup_Some _ _ 0%Z _ Hb).
Qed.

Lemma EvaluateFailure_cases p draw now n perr :
  attempt_ok n ->
  EvaluateFailure p draw now n perr =
  if is_permanent perr || (MaxAttempts p <=? n + 1)%Z
  then Some (mkOutcome DeliveryFailed (n + 1) None)
  else Some (mkOutcome DeliveryRetrying (n + 1)
               (Some (now + default (scheduled_wait p draw n) (provider_wait perr))%Z)).
Proof.
  intros Hn. unfold EvaluateFailure. rewrite attempt_succ by done.
  fold (is_permanent perr). destruct (is_permanent perr); [done|].
  rewrite Z.geb_leb. simpl.
  destruct (Z.leb_spec (MaxAttempts p) (n + 1)); [done|].
  rewrite backoffFor_spec by done. unfold provider_wait.
  destruct perr as [e|]; [|done]. destruct (pe_RetryAfter e) as [d|]; [|done].
  simpl. rewrite Z.gtb_ltb. by destruct (0 <? d)%Z.
Qed.

Lemma applyJitter_nonneg p draw d : (0 <= d)%Z -> (0 <= applyJitter p draw d)%Z.
Proof.
  intros Hd. unfold applyJitter. destruct (f64_leb _ _); [done|].
  match goal with |- context [(?x <? 0)%Z] => destruct (Z.ltb_spec x 0); lia end.
Qed.

Lemma scheduled_wait_nonneg p draw n :
  Forall (fun d => 0 <= d)%Z (Backoff p) -> (0 <= scheduled_wait p draw n)%Z.
Proof.
  intros Hall. unfold scheduled_wait. destruct (Backoff p) as [|b bs]; [done|].
  apply applyJitter_nonneg.
  destruct (nth_in_or_default (Nat.min (Z.to_nat n) (length (b :: bs) - 1)) (b :: bs) 0%Z)
    as [Hin| ->]; [|done].
  rewrite Forall_forall in Hall. apply Hall. by rewrite list_elem_of_In.
Qed.

Lemma retry_run_bound p failures n :
  attempt_ok n -> (n < MaxAttempts p)%Z -> (MaxAttempts p < 2 ^ 31)%Z ->
  (Z.to_nat (MaxAttempts p - n) <= length failures)%nat ->
  exists k, (1 <= k <= MaxAttempts p - n)%Z /\
    retry_run p failures n = Some (seqZ (n + 1) k, DeliveryFailed).
Proof.
  revert n. induction failures as [|[[draw now] perr] rest IH]; intros n Hn Hlt Hmax Hlen.
  { change (length []) with 0%nat in Hlen. unfold attempt_ok in *. lia. }
  simpl. rewrite EvaluateFailure_cases by done.
  destruct (is_permanent perr || (MaxAttempts p <=? n + 1)%Z) eqn:E; simpl.
  { exists 1%Z. split; [lia|]. done. }
  apply orb_false_iff in E as [_ E]. bool_to_prop. unfold attempt_ok in *.
  destruct (IH (n + 1)%Z) as (k & Hk & Hrun); [lia|lia|lia|simpl in Hlen; lia|].
  rewrite Hrun. simpl. exists (k + 1)%Z. split; [lia|].
  rewrite (seqZ_cons (n + 1)) by lia.
  replace (Z.succ (n + 1)) with (n + 1 + 1)%Z by lia.
  by replace (Z.pred (k + 1)) with k by lia.
Qed.
End lemmas.

(** ** Properties *)

(** [EvaluateFailure] never panics on a stored attempt count and implements
    the documented policy on every branch: the attempt is always counted; a
    permanent error or an exhausted budget fails the delivery without a retry
    time; any other failure is retried at [now] plus the provider's positive
    Retry-After, or else plus the backoff entry of this attempt (the last entry
    beyond the schedule, one minute for an empty schedule). *)
Theorem EvaluateFailure_policy overflow p draw now n perr :
  attempt_ok n ->
  exists oc, EvaluateFailure overflow p draw now n perr = Some oc /\
    oc_AttemptCount oc = (n + 1)%Z /\
    (is_permanent perr = true \/ (MaxAttempts p <= n + 1)%Z ->
       oc_Status oc = DeliveryFailed /\ oc_NextRetryAt oc = None) /\
    (is_permanent perr = false -> (n + 1 < MaxAttempts p)%Z ->
       oc_Status oc = DeliveryRetrying /\
       oc_NextRetryAt oc =
         Some (now + default (scheduled_wait overflow p draw n) (provider_wait perr))%Z).
Proof.
  intros Hn. rewrite EvaluateFailure_cases by done.
  destruct (is_permanent perr) eqn:P; simpl.
  { eexists. split; [done|]. simpl. naive_solver. }
  destruct (Z.leb_spec (MaxAttempts p) (n + 1)); (eexists; split; [done|]); simpl;
    (split; [done|]); (split; [intros [?|?]|intros _ ?]; try done; lia).
Qed.

(** The policy used by the witnesses: three attempts, a one and a five minute
    backoff, no jitter. *)
Definition sample_policy : Policy :=
  NewPolicy 3 [Minute; 5 * Minute]%Z (f64_of_int 0).

Lemma EvaluateFailure_policy_witness :
  exists oc,
    EvaluateFailure (fun _ => 0%Z) sample_policy (f64_of_int 0) 0 1 None = Some oc /\
    oc_Status oc = DeliveryRetrying /\ oc_NextRetryAt oc = Some (5 * Minute)%Z.
Proof.
  destruct (EvaluateFailure_policy (fun _ => 0%Z) sample_policy (f64_of_int 0) 0 1 None)
    as (oc & E & _ & _ & H); [split; vm_compute; congruence|].
  exists oc. split; [exact E|]. apply H; reflexivity.
Defined.

(** Retries are bounded: feeding the stored attempt count back, any sequence
    of at least [MaxAttempts] failures, with whatever errors, jitter draws and
    times, ends in FAILED after at most [MaxAttempts] sends, and the counts
    stored on the way are 1, 2, 3, ... without a gap. *)
Theorem retries_bounded overflow p failures :
  (1 <= MaxAttempts p < 2 ^ 31)%Z ->
  (Z.to_nat (MaxAttempts p) <= length failures)%nat ->
  exists k, (1 <= k <= MaxAttempts p)%Z /\
    retry_run overflow p failures 0 = Some (seqZ 1 k, DeliveryFailed).
Proof.
  intros Hmax Hlen.
  destruct (retry_run_bound overflow p failures 0) as (k & Hk & Hrun);
    [split; lia|lia|lia|by rewrite Z.sub_0_r|].
  exists k. split; [lia|done].
Qed.

Lemma retries_bounded_witness :
  exists k, (1 <= k <= 3)%Z /\
    retry_run (fun _ => 0%Z) sample_policy (replicate 3 (f64_of_int 0, 0%Z, None)) 0
    = Some (seqZ 1 k, DeliveryFailed).
Proof.
  apply (retries_bounded (fun _ => 0%Z) sample_policy); [split|]; vm_compute;
    try congruence; lia.
Defined.

(** A retry is never scheduled in the past: with a non-negative schedule,
    whatever the jitter draw (even a draw or a ratio that is not a number) and
    the provider's Retry-After, the retry time is at or after [now]; and without
    jitter the wait is exactly the schedule's entry. *)
Theorem retry_not_in_past overflow p draw now n perr oc :
  attempt_ok n -> Forall (fun d => 0 <= d)%Z (Backoff p) ->
  EvaluateFailure overflow p draw now n perr = Some oc ->
  (forall next, oc_NextRetryAt oc = Some next -> (now <= next)%Z) /\
  (f64_leb (JitterRatio p) (f64_of_int 0) = true ->
   forall d, applyJitter overflow p draw d = d).
Proof.
  intros Hn Hall E. split.
  - rewrite EvaluateFailure_cases in E by done.
    pose proof (scheduled_wait_nonneg overflow p draw n Hall).
    destruct (_ || _); simplify_eq; simpl; [done|]. intros next [= <-].
    destruct (provider_wait perr) as [d|] eqn:Ed; simpl; [|lia].
    unfold provider_wait in Ed. destruct perr as [e|]; [|done].
    destruct (pe_RetryAfter e); simplify_eq/=. case_match; simplify_eq. bool_to_prop. lia.
  - intros Hj d. unfold applyJitter. by rewrite Hj.
Qed.

Lemma retry_not_in_past_witness :
  exists oc next,
    EvaluateFailure (fun _ => 0%Z) sample_policy (f64_of_int 0) 7 0 None = Some oc /\
    oc_NextRetryAt oc = Some next /\ (7 <= next)%Z.
Proof.
  eexists _, _. split; [reflexivity|]. split; [reflexivity|].
  eapply (retry_not_in_past (fun _ => 0%Z) sample_policy (f64_of_int 0) 7 0 None);
    [split; vm_compute; congruence| |reflexivity|reflexivity].
  repeat constructor; vm_compute; congruence.
Defined.

(** The default schedule with a 20% jitter, on extreme and middle draws. *)
Example jitter_samples :
  let p := NewPolicy 5 [Minute] (f64_div (f64_of_int 1) (f64_of_int 5)) in
  (applyJitter (fun _ => 0%Z) p (f64_of_int 0) Minute,
   applyJitter (fun _ => 0%Z) p (f64_lit 1 (-1)) Minute,
   applyJitter (fun _ => 0%Z) p (f64_lit 3 (-2)) Minute)
  = (48 * Second, 60 * Second, 66 * Second)%Z.
Proof. vm_compute. reflexivity. Qed.
