(* ===== verification/Template.v ===== *)
(** * Message templates (internal/template)

    [RenderContent] substitutes the placeholders the regular expression
    [\{\{\s*([a-zA-Z0-9_]+)\s*\}\}] matches; [MissingVariables] validates the
    variables; [Render] is the service operation, over a template repository. *)

From S2P Require Import Prelude GoStrings Domain.
From stdpp Require Import gmap.
From Stdlib Require Import Ascii.

Local Open Scope string_scope.
Local Open Scope list_scope.

(** ** The placeholder expression *)

(** RE2's [\s]. *)
Definition re_space (a : ascii) : bool :=
  let n := byte_of a in ((n =? 9) || (n =? 10) || (n =? 12) || (n =? 13) || (n =? 32))%N.

(** [[a-zA-Z0-9_]] *)
Definition re_word (a : ascii) : bool :=
  let n := byte_of a in
  ((97 <=? n) && (n <=? 122) || (65 <=? n) && (n <=? 90)
   || (48 <=? n) && (n <=? 57) || (n =? 95))%N.

Definition lbrace : ascii := "{"%char.
Definition rbrace : ascii := "}"%char.

(** The longest prefix in a character class, and the rest. *)
Fixpoint span (p : ascii -> bool) (l : bytes) : bytes * bytes :=
  match l with
  | [] => ([], [])
  | a :: rest => if p a then let '(u, v) := span p rest in (a :: u, v) else ([], l)
  end.

(** The expression at the head of [l]: the captured key and the length of the
    match. The classes of consecutive parts are disjoint, so the greedy choice is
    the only one. *)
Definition placeholderRe (l : bytes) : option (bytes * nat) :=
  match l with
  | a :: b :: l1 =>
      if bool_decide (a = lbrace) && bool_decide (b = lbrace) then
        let '(sp1, l2) := span re_space l1 in
        let '(key, l3) := span re_word l2 in
        if bool_decide (key = []) then None else
        let '(sp2, l4) := span re_space l3 in
        match l4 with
        | c :: d :: _ =>
            if bool_decide (c = rbrace) && bool_decide (d = rbrace)
            then Some (key, 2 + length sp1 + length key + length sp2 + 2)
            else None
        | _ => None
        end
      else None
  | _ => None
  end.

(** ** Rendering *)

(** The replacement function of [ReplaceAllStringFunc]. *)
Definition substitute (variables : gmap string string) (key match_ : bytes) : bytes :=
  match variables !! TrimSpace (string_of key) with
  | Some val => bytes_of val
  | None => match_
  end.

(** Scan left to right; [skip] counts the bytes of the current match that are
    still to be passed over. *)
Fixpoint render_loop (variables : gmap string string) (skip : nat) (l : bytes) : bytes :=
  match l with
  | [] => []
  | a :: rest =>
      match skip with
      | S skip => render_loop variables skip rest
      | O =>
          match placeholderRe l with
          | Some (key, n) =>
              substitute variables key (firstn n l) ++ render_loop variables (n - 1) rest
          | None => a :: render_loop variables 0 rest
          end
      end
  end.

Definition RenderContent (content : string) (variables : gmap string string) : string :=
  string_of (render_loop variables 0 (bytes_of content)).

(** ** Validation *)

Definition variable_missing (variables : gmap string string) (key : string) : bool :=
  match variables !! key with
  | Some v => blank v
  | None => true
  end.

Definition MissingVariables (required : list string) (variables : gmap string string)
    : list string :=
  sort_Strings (where_ (variable_missing variables) required).

(** ** The service

    [GetTemplateByID] is the repository port; [Quote] is [strconv.Quote], the %q
    verb of the message. *)
Class TemplateRepository (W : Type) := {
  GetTemplateByID : uuid -> eff W error Template
}.

Section service.
Context {W : Type} `{!TemplateRepository W} (Quote : string -> string).

Definition Render (templateID : uuid) (channel : Channel) (variables : gmap string string)
    : eff W error (Template * string) :=
  tmpl ← GetTemplateByID templateID;
  if negb (String.eqb (t_Channel tmpl) channel) then
    raise (NewValidationError "channel"
      ("template channel " +:+ Quote (t_Channel tmpl)
       +:+ " does not match notification channel " +:+ Quote channel))
  else
    let missing := MissingVariables (t_RequiredVariables tmpl) variables in
    match missing with
    | _ :: _ =>
        raise (EWrapped "" ErrTemplateVariablesMissing (": " +:+ strings_Join missing ", "))
    | [] => mret (tmpl, RenderContent (t_Content tmpl) variables)
    end.
End service.

(** ** Specification: templates as token lists *)

(** A literal without an opening brace, or a placeholder with its white space. *)
Inductive token :=
| Lit (s : bytes)
| Var (sp1 key sp2 : bytes).

Definition token_ok (t : token) : Prop :=
  match t with
  | Lit s => lbrace ∉ s
  | Var sp1 key sp2 =>
      Forall (fun a => re_space a = true) sp1 /\ Forall (fun a => re_space a = true) sp2 /\
      key <> [] /\ Forall (fun a => re_word a = true) key
  end.

Definition print_token (t : token) : bytes :=
  match t with
  | Lit s => s
  | Var sp1 key sp2 => [lbrace; lbrace] ++ sp1 ++ key ++ sp2 ++ [rbrace; rbrace]
  end.

Definition eval_token (variables : gmap string string) (t : token) : bytes :=
  match t with
  | Lit s => s
  | Var sp1 key sp2 =>
      match variables !! string_of key with
      | Some v => bytes_of v
      | None => print_token t
      end
  end.

Definition print_tokens (ts : list token) : string := string_of (concat (map print_token ts)).
Definition eval_tokens (vs : gmap string string) (ts : list token) : string :=
  string_of (concat (map (eval_token vs) ts)).

(** ** Lemmas *)

Lemma span_app p u v :
  Forall (fun a => p a = true) u ->
  match v with [] => True | a :: _ => p a = false end ->
  span p (u ++ v) = (u, v).
Proof.
  intros Hu Hv. induction Hu as [|a u Ha Hu IH]; simpl.
  - destruct v; [done|]. simpl. by rewrite Hv.
  - by rewrite Ha, IH.
Qed.

Lemma re_word_not_space a : re_word a = true -> re_space a = false.
Proof.
  unfold re_word, re_space. cbv zeta. intros H.
  destruct (re_space a) eqn:E; unfold re_space in E; [|done].
  apply not_true_iff_false. intros E'.
  repeat (apply orb_true_iff in E' as [E'|E']); apply N.eqb_eq in E'; rewrite E' in H; done.
Qed.

Lemma braces_not_in_class :
  re_space lbrace = false /\ re_word lbrace = false /\
  re_space rbrace = false /\ re_word rbrace = false.
Proof. done. Qed.

(** A key of word characters is not changed by [TrimSpace]. *)
Lemma re_word_byte a : re_word a = true -> space1 a = false /\ (byte_of a < 128)%N.
Proof.
  unfold re_word, space1. cbv zeta. intros H.
  repeat (apply orb_true_iff in H as [H|H]);
    try (apply andb_true_iff in H as [H1 H2]; apply N.leb_le in H1, H2);
    try apply N.eqb_eq in H;
    (split; [|lia]); apply not_true_iff_false; intros E;
    apply orb_true_iff in E as [E|E];
    try (apply andb_true_iff in E as [E1 E2]; apply N.leb_le in E1, E2);
    try apply N.eqb_eq in E; lia.
Qed.

Lemma trim_front_word s2 s3 a l :
  space1 a = false ->
  (forall b, s2 a b = false) -> (forall b c, s3 a b c = false) ->
  trim_front s2 s3 (a :: l) = a :: l.
Proof.
  intros H1 H2 H3. simpl. rewrite H1. destruct l as [|b l]; [done|].
  rewrite H2. destruct l as [|c l]; [done|]. by rewrite H3.
Qed.

Lemma ascii_multibyte a x y :
  (byte_of a < 128)%N ->
  space2 a x = false /\ space2 x a = false /\
  space3 a x y = false /\ space3 y x a = false.
Proof.
  intros H. unfold space2, space3. cbv zeta.
  assert (Hne : forall n, (128 <= n)%N -> (byte_of a =? n)%N = false)
    by (intros; apply N.eqb_neq; lia).
  assert (Hle : (128 <=? byte_of a)%N = false) by (apply N.leb_gt; lia).
  rewrite !Hne, Hle by lia. simpl. rewrite ?andb_false_r, ?orb_false_r. done.
Qed.

Lemma TrimSpace_word key :
  Forall (fun a => re_word a = true) key -> TrimSpace (string_of key) = string_of key.
Proof.
  intros H. unfold TrimSpace. rewrite bytes_of_string_of. f_equal.
  assert (Hl : trim_left key = key).
  { destruct H as [|a l Ha H]; [done|]. apply re_word_byte in Ha as [? ?].
    apply trim_front_word; [done| |]; intros; by apply (ascii_multibyte a). }
  rewrite Hl. unfold trim_right.
  assert (Hr : Forall (fun a => re_word a = true) (rev key)).
  { rewrite Forall_forall in *. intros x Hx. apply H.
    rewrite list_elem_of_In, <- in_rev, <- list_elem_of_In in Hx. done. }
  rewrite <- (rev_involutive key) at 2. f_equal.
  destruct Hr as [|a l Ha Hr]; [done|]. apply re_word_byte in Ha as [? ?].
  apply trim_front_word; [done| |]; intros; by apply (ascii_multibyte a).
Qed.

Lemma placeholderRe_token sp1 key sp2 rest :
  token_ok (Var sp1 key sp2) ->
  placeholderRe (print_token (Var sp1 key sp2) ++ rest) =
  Some (key, length (print_token (Var sp1 key sp2))).
Proof.
  intros (H1 & H2 & Hne & Hk). unfold print_token. simpl.
  rewrite <- !app_assoc. rewrite span_app; [|done|].
  2: { destruct Hk as [|a l Ha Hk]; [done|]. simpl. by apply re_word_not_space. }
  rewrite span_app; [|done|].
  2: { destruct H2 as [|a l Ha H2]; [done|]. simpl.
       destruct (re_word a) eqn:E; [|done]. apply re_word_not_space in E. congruence. }
  rewrite bool_decide_false by done. rewrite span_app; [|done|done].
  simpl. do 2 f_equal. rewrite !length_app. simpl. lia.
Qed.

Lemma placeholderRe_not_brace a l : a <> lbrace -> placeholderRe (a :: l) = None.
Proof.
  intros H. unfold placeholderRe. destruct l; [done|].
  by rewrite (bool_decide_false (a = lbrace)) by done.
Qed.

Lemma render_loop_skip vs n u l :
  length u = n -> render_loop vs n (u ++ l) = render_loop vs 0 l.
Proof. intros <-. induction u as [|a u IH]; [done|]. simpl. done. Qed.

Lemma render_loop_token vs t l :
  token_ok t -> render_loop vs 0 (print_token t ++ l) = eval_token vs t ++ render_loop vs 0 l.
Proof.
  destruct t as [s|sp1 key sp2].
  - simpl. intros H. induction s as [|a s IH]; [done|].
    rewrite not_elem_of_cons in H. destruct H as [Ha Hs].
    simpl app. cbn [render_loop]. rewrite placeholderRe_not_brace by congruence.
    rewrite IH by done. done.
  - intros Hok. set (m := print_token (Var sp1 key sp2)).
    assert (Hm : m = lbrace :: tail m) by done.
    rewrite Hm at 1. cbn [app render_loop].
    change (lbrace :: tail m ++ l) with ((lbrace :: tail m) ++ l). rewrite <- Hm.
    unfold m at 1. rewrite placeholderRe_token by done. fold m.
    rewrite take_app_length. rewrite render_loop_skip by (rewrite Hm; simpl; lia).
    unfold substitute, eval_token. destruct Hok as (_ & _ & _ & Hk).
    by rewrite TrimSpace_word.
Qed.

Lemma render_tokens vs ts :
  Forall token_ok ts ->
  render_loop vs 0 (concat (map print_token ts)) = concat (map (eval_token vs) ts).
Proof.
  induction 1 as [|t ts Ht Hts IH]; [done|]. simpl.
  by rewrite render_loop_token, IH.
Qed.

(** ** Properties *)

(** C40: rendering substitutes exactly the placeholders of the template, in one
    pass: a template written as literals (without an opening brace) and
    placeholders, with any white space inside the braces, renders to the
    literals and the variables' values; an unknown placeholder stays as written
    and a value is never scanned again. *)
Theorem RenderContent_tokens vs ts :
  Forall token_ok ts -> RenderContent (print_tokens ts) vs = eval_tokens vs ts.
Proof.
  intros H. unfold RenderContent, print_tokens, eval_tokens.
  by rewrite bytes_of_string_of, render_tokens.
Qed.

Definition sample_tokens : list token :=
  [Lit (bytes_of "Hi "); Var [] (bytes_of "name") []; Lit (bytes_of ", code ");
   Var (bytes_of " ") (bytes_of "code") (bytes_of " ");
   Lit (bytes_of " and "); Var [] (bytes_of "missing") []].

Definition sample_variables : gmap string string :=
  {["name" := "{{code}}"; "code" := "123"]}.

Lemma RenderContent_tokens_witness :
  print_tokens sample_tokens = "Hi {{name}}, code {{ code }} and {{missing}}" /\
  RenderContent (print_tokens sample_tokens) sample_variables
    = "Hi {{code}}, code 123 and {{missing}}".
Proof.
  split; [reflexivity|]. rewrite (RenderContent_tokens sample_variables sample_tokens).
  - reflexivity.
  - repeat constructor; try (apply (bool_decide_unpack _); reflexivity); discriminate.
Defined.

Lemma MissingVariables_elem required vs k :
  k ∈ MissingVariables required vs <-> k ∈ required /\ variable_missing vs k = true.
Proof.
  unfold MissingVariables. rewrite sort_Strings_Permutation. apply elem_of_where.
Qed.

Lemma MissingVariables_nil required vs :
  MissingVariables required vs = [] <->
  forall k, k ∈ required -> exists v, vs !! k = Some v /\ blank v = false.
Proof.
  assert (Hk : forall k, variable_missing vs k = false <->
    exists v, vs !! k = Some v /\ blank v = false).
  { intros k. unfold variable_missing. destruct (vs !! k); naive_solver. }
  setoid_rewrite <- Hk. rewrite <- where_nil_iff. unfold MissingVariables.
  pose proof (sort_Strings_Permutation (where_ (variable_missing vs) required)) as P.
  split; intros E; rewrite E in *; [by apply Permutation_nil_l in P|done].
Qed.

(** [MissingVariables] returns, in sorted order and with their
    multiplicities, exactly the required variables that are absent or blank. *)
Theorem MissingVariables_correct required vs :
  Sorted string_le (MissingVariables required vs) /\
  MissingVariables required vs ≡ₚ where_ (variable_missing vs) required /\
  (MissingVariables required vs = [] <->
   forall k, k ∈ required -> exists v, vs !! k = Some v /\ blank v = false).
Proof.
  split_and!; [apply Sorted_merge_sort; apply _|apply sort_Strings_Permutation|].
  apply MissingVariables_nil.
Qed.

(** [Render] succeeds exactly when the template exists, is for the
    notification's channel and has a non-blank value for every required
    variable, and then returns the template with its substituted content;
    otherwise it changes nothing beyond the lookup and reports, in this order,
    the lookup's error, a channel validation error, or a
    missing-variables error. *)
Theorem Render_contract {W} `{!TemplateRepository W} Quote id ch vs (w : W) :
  let '(r, w') := Render Quote id ch vs w in
  let '(got, w1) := GetTemplateByID id w in
  w' = w1 /\
  match r with
  | Ok (t, content) =>
      got = Ok t /\ t_Channel t = ch /\
      (forall k, k ∈ t_RequiredVariables t -> exists v, vs !! k = Some v /\ blank v = false) /\
      content = RenderContent (t_Content t) vs
  | Err e =>
      match got with
      | Err e1 => e = e1
      | Ok t =>
          if String.eqb (t_Channel t) ch
          then errors_Is e ErrTemplateVariablesMissing = true /\
               errors_As_Validation e = None /\
               exists k, k ∈ t_RequiredVariables t /\ variable_missing vs k = true
          else ve_Field <$> errors_As_Validation e = Some "channel"
      end
  end.
Proof.
  unfold Render, mbind, eff_bind.
  destruct (GetTemplateByID id w) as [[t|e] w1]; [|done].
  destruct (String.eqb_spec (t_Channel t) ch) as [Hch|Hne]; simpl; [|done].
  destruct (MissingVariables _ vs) as [|k ks] eqn:E; simpl.
  - split; [done|]. split; [done|]. split; [done|]. split; [|done].
    by apply MissingVariables_nil.
  - split_and!; try done. exists k. apply MissingVariables_elem. rewrite E. left.
Qed.
