(* ===== verification/Store.v ===== *)
(** * The PostgreSQL store (internal/adapters/postgres, migrations)

    The tables, the SQL statements as functions on them, and one definition per
    method of [Store]. A method runs in [eff Sess error]: the session holds the
    database, the replica the reader pool may point at, the outcome of the next
    round trips and the source of [uuid.New]. A round trip (a statement, a begin or
    a commit) may be refused with any error, or be done by the server and its reply
    lost. A transaction whose body fails is rolled back; one whose commit is refused
    too; one whose commit's reply is lost is applied. [now] arguments are the
    transaction timestamp SQL's [now()] returns; [locked] predicates are the rows
    other transactions hold, which SKIP LOCKED passes over. *)

From S2P Require Import Prelude GoStrings Domain Template.

Local Open Scope string_scope.
Local Open Scope list_scope.

(** ** Times in the database *)

(** A Go time has nanoseconds, a TIMESTAMPTZ column or parameter whole microseconds:
    the driver drops the rest. *)
Definition timestamptz (t : time) : time := (t - t mod 1000)%Z.

(** ** Tables *)

Record OutboxRow := mkOutboxRow {
  ob_id : uuid;
  ob_delivery_id : uuid;
  ob_delivery_created_at : time;
  ob_stream : string;
  ob_payload : string;
  ob_created_at : time;
  ob_published_at : option time
}.

(** A day is the number of days since the epoch; [partitions] are the days whose
    dated partition exists, every other row lies in the default partition. *)
Record DB := mkDB {
  batches : list Batch;
  templates : list Template;
  requests : list Request;
  deliveries : list Delivery;
  archive : list Delivery;
  partitions : list Z;
  outbox : list OutboxRow
}.

Definition set_batches (l : list Batch) (d : DB) : DB :=
  mkDB l (templates d) (requests d) (deliveries d) (archive d) (partitions d) (outbox d).
Definition set_requests (l : list Request) (d : DB) : DB :=
  mkDB (batches d) (templates d) l (deliveries d) (archive d) (partitions d) (outbox d).
Definition set_deliveries (l : list Delivery) (d : DB) : DB :=
  mkDB (batches d) (templates d) (requests d) l (archive d) (partitions d) (outbox d).
Definition set_archive (l : list Delivery) (d : DB) : DB :=
  mkDB (batches d) (templates d) (requests d) (deliveries d) l (partitions d) (outbox d).
Definition set_partitions (l : list Z) (d : DB) : DB :=
  mkDB (batches d) (templates d) (requests d) (deliveries d) (archive d) l (outbox d).
Definition set_outbox (l : list OutboxRow) (d : DB) : DB :=
  mkDB (batches d) (templates d) (requests d) (deliveries d) (archive d) (partitions d) l.

(** After the migrations there are templates, at least the seeded one, and nothing
    else; the program only reads them. *)
Definition fresh_db (ts : list Template) : DB := mkDB [] ts [] [] [] [] [].
Definition empty_db : DB := fresh_db [].

(** ** Sessions *)

(** A failure of a round trip: the server did nothing and the caller reads [e]; or it
    did its part and the caller reads that the connection broke. *)
Inductive fault :=
| Refused (e : error)
| Unheard (text : string).

Definition lost_reply (text : string) : error := Errorf text (ELib "unexpected EOF").

Definition fault_error (f : fault) : error :=
  match f with Refused e => e | Unheard text => lost_reply text end.

(** What the caller reads of an answer. *)
Definition hears {A} (f : option fault) (r : result error A) : result error A :=
  match f with Some f => Err (fault_error f) | None => r end.

Record Sess := mkSess {
  db : DB;
  replica : option DB;
  faults : list (option fault);
  entropy : N
}.

Definition set_db (d : DB) (s : Sess) : Sess :=
  mkSess d (replica s) (faults s) (entropy s).

(** One round trip to the server: how it fails, if it fails. *)
Definition round_trip (s : Sess) : option fault * Sess :=
  match faults s with
  | [] => (None, s)
  | f :: fs => (f, mkSess (db s) (replica s) fs (entropy s))
  end.

(** The external generator behind [uuid.New], and JSON encoding of a message as
    it goes through the JSONB payload column. *)
Class UuidSource := uuid_New : N -> uuid.
Class MessageCodec := {
  marshalMessage : DeliveryMessage -> result error string;
  unmarshalMessage : string -> result error DeliveryMessage
}.

Definition New_uuid `{UuidSource} : eff Sess error uuid := fun s =>
  (Ok (uuid_New (entropy s)),
   mkSess (db s) (replica s) (faults s) (entropy s + 1)%N).

(** A statement on the primary. *)
Definition Exec {A} (f : DB -> result error (A * DB)) : eff Sess error A := fun s =>
  match round_trip s with
  | (Some (Refused e), s) => (Err e, s)
  | (lost, s) =>
      match f (db s) with
      | Ok (a, d) => (hears lost (Ok a), set_db d s)
      | Err e => (hears lost (Err e), s)
      end
  end.

(** A read on the primary, and one on the reader pool. *)
Definition Query {A} (f : DB -> A) : eff Sess error A := Exec (fun d => Ok (f d, d)).
Definition QueryReader {A} (f : DB -> A) : eff Sess error A := fun s =>
  let '(lost, s) := round_trip s in (hears lost (Ok (f (default (db s) (replica s)))), s).

Definition ErrNoRows : error := ELib "no rows in result set".

(** [QueryRow(...).Scan(...)] *)
Definition Scan {A} (m : eff Sess error (list A)) : eff Sess error A :=
  rows ← m;
  match rows with [] => raise ErrNoRows | x :: _ => mret x end.

(** [scanRequest], [scanDelivery], [scanBatch]: the translation of the driver's
    errors. *)
Definition scan_entity {A} (op : string) (m : eff Sess error A) : eff Sess error A :=
  r ← attempt m;
  match r with
  | Ok a => mret a
  | Err e => if errors_Is e ErrNoRows then raise ErrNotFound else raise (Errorf op e)
  end.

Definition scanRequest (m : eff Sess error Request) : eff Sess error Request :=
  scan_entity "scan request" m.
Definition scanDelivery (m : eff Sess error Delivery) : eff Sess error Delivery :=
  scan_entity "scan delivery" m.
Definition scanBatch (m : eff Sess error Batch) : eff Sess error Batch :=
  scan_entity "scan batch" m.

(** [fmt.Errorf("op: %w", err)] on a failing call. *)
Definition wrap {A} (op : string) (m : eff Sess error A) : eff Sess error A :=
  r ← attempt m;
  match r with Ok a => mret a | Err e => raise (Errorf op e) end.

(** [withTx]: begin, run, commit. On an error of the body, or when the server refuses
    the commit, the tables are rolled back. When the commit's reply is lost the
    transaction is applied and the caller reads an error. *)
Definition withTx {A} (fn : eff Sess error A) : eff Sess error A := fun s =>
  match round_trip s with
  | (Some f, s) => (Err (Errorf "begin tx" (fault_error f)), s)
  | (None, s) =>
      let before := db s in
      match fn s with
      | (Err e, s') => (Err e, set_db before s')
      | (Ok a, s') =>
          match round_trip s' with
          | (Some (Refused e), s') => (Err e, set_db before s')
          | (lost, s') => (hears lost (Ok a), s')
          end
      end
  end.

(** ** PostgreSQL errors *)

Definition uniqueViolationCode : string := "23505".
Definition unique_violation : error :=
  EPgError uniqueViolationCode "duplicate key value violates unique constraint".
Definition foreign_key_violation : error :=
  EPgError "23503" "insert violates foreign key constraint".
Definition bad_text : error := EPgError "22001" "value not valid for its column type".
Definition out_of_range : error := EPgError "22003" "integer out of range".
Definition negative_limit : error := EPgError "2201W" "LIMIT must not be negative".
Definition undefined_column : error := EPgError "42703" "column does not exist".

Fixpoint isUniqueViolation (e : error) : bool :=
  match e with
  | EPgError code _ => String.eqb code uniqueViolationCode
  | EProviderError _ _ _ _ (Some inner) => isUniqueViolation inner
  | EWrapped _ inner _ => isUniqueViolation inner
  | _ => false
  end.

(** An INTEGER column. *)
Definition int4 (n : Z) : bool := ((- 2 ^ 31 <=? n) && (n <? 2 ^ 31))%Z.

Definition limit_rows {A} (limit : Z) (l : list A) : result error (list A) :=
  if (limit <? 0)%Z then Err negative_limit else Ok (take (Z.to_nat limit) l).

Definition key_le {A} (key : A -> Z) (a b : A) : Prop := (key a <= key b)%Z.
#[export] Instance key_le_dec {A} (key : A -> Z) : RelDecision (key_le key).
Proof. intros a b. unfold key_le. apply _. Defined.

(** [ORDER BY key] *)
Definition order_by {A} (key : A -> Z) (l : list A) : list A := merge_sort (key_le key) l.

(** ** Requests (request.go) *)

(** The partial unique index on (user_id, idempotency_key). *)
Definition request_idem (user key : string) (r : Request) : bool :=
  String.eqb (r_UserID r) user && bool_decide (r_IdempotencyKey r = Some key).

Definition request_conflict (r : Request) (rs : list Request) : bool :=
  match r_IdempotencyKey r with
  | None => false
  | Some key => existsb (request_idem (r_UserID r) key) rs
  end.

Definition request_columns_ok (r : Request) : bool :=
  varchar 255 (r_UserID r) && varchar 255 (r_Recipient r) && varchar 16 (r_Channel r)
  && varchar 16 (r_Priority r) && pg_text (r_RenderedContent r)
  && match r_IdempotencyKey r with Some k => varchar 255 k | None => true end.

Definition request_fk_ok (r : Request) (d : DB) : bool :=
  match r_BatchID r with
  | Some b => existsb (fun x => b_ID x =? b)%N (batches d) | None => true end
  && match r_TemplateID r with
     | Some t => existsb (fun x => t_ID x =? t)%N (templates d) | None => true end.

(** The row of a request: its creation time at the column's precision. *)
Definition stored_request (r : Request) : Request :=
  mkRequest (r_ID r) (r_UserID r) (r_BatchID r) (r_Recipient r) (r_Channel r)
    (r_Priority r) (r_TemplateID r) (r_RenderedContent r) (r_IdempotencyKey r) (r_Status r)
    (timestamptz (r_CreatedAt r)).

Definition insert_request_sql (r : Request) (d : DB) : result error (() * DB) :=
  if negb (request_columns_ok r) then Err bad_text
  else if existsb (fun x => r_ID x =? r_ID r)%N (requests d) then Err unique_violation
  else if request_conflict r (requests d) then Err unique_violation
  else if negb (request_fk_ok r d) then Err foreign_key_violation
  else Ok ((), set_requests (requests d ++ [stored_request r]) d).

Definition insertRequest (r : Request) : eff Sess error () :=
  res ← attempt (Exec (insert_request_sql r));
  match res with
  | Ok _ => mret ()
  | Err e => if isUniqueViolation e then raise ErrConflict
             else raise (Errorf "insert request" e)
  end.

(** [ON CONFLICT (user_id, idempotency_key) ... DO NOTHING]: the rows affected. *)
Definition insert_request_on_conflict_sql (r : Request) (d : DB) : result error (nat * DB) :=
  if negb (request_columns_ok r) then Err bad_text
  else if request_conflict r (requests d) then Ok (0, d)
  else match insert_request_sql r d with
       | Ok (_, d') => Ok (1, d')
       | Err e => Err e
       end.

Definition insertRequestOnConflict (r : Request) : eff Sess error bool :=
  n ← wrap "insert request on conflict" (Exec (insert_request_on_conflict_sql r));
  mret (bool_decide (n = 1)).

Definition by_request_id (id : uuid) (r : Request) : bool := bool_decide (r_ID r = id).

Definition GetRequestByID (id : uuid) : eff Sess error Request :=
  scanRequest (Scan (QueryReader (fun d => where_ (by_request_id id) (requests d)))).

Definition GetRequestByIdempotencyKey (userID key : string) : eff Sess error Request :=
  scanRequest (Scan (Query (fun d => where_ (request_idem userID key) (requests d)))).

(** ** Listing *)

(** [(created_at, id) < ($at, $id)], the row comparison of the keyset. *)
Definition keyset_lt (r : Request) (at_ : time) (id : uuid) : bool :=
  ((r_CreatedAt r <? timestamptz at_)
   || ((r_CreatedAt r =? timestamptz at_) && (r_ID r <? id)%N))%Z.

Definition opt_test {A} (o : option A) (p : A -> bool) : bool :=
  match o with Some a => p a | None => true end.

Definition list_where (f : ListFilter) (r : Request) : bool :=
  String.eqb (r_UserID r) (lf_UserID f)
  && opt_test (lf_Status f) (fun s => String.eqb (RequestStatus_String (r_Status r)) s)
  && opt_test (lf_Channel f) (fun c => String.eqb (r_Channel r) c)
  && opt_test (lf_From f) (fun t => (timestamptz t <=? r_CreatedAt r)%Z)
  && opt_test (lf_To f) (fun t => (r_CreatedAt r <=? timestamptz t)%Z)
  && match lf_Cursor f, lf_CursorAt f with
     | Some id, Some at_ => keyset_lt r at_ id
     | _, _ => true
     end.

(** [ORDER BY created_at DESC, id DESC] *)
Definition list_order (a b : Request) : Prop :=
  (r_CreatedAt b < r_CreatedAt a \/ r_CreatedAt a = r_CreatedAt b /\ (r_ID b <= r_ID a)%N)%Z.
#[export] Instance list_order_dec : RelDecision list_order.
Proof. intros a b. unfold list_order. apply _. Defined.

(** The list columns leave rendered_content out. *)
Definition scanRequestList (r : Request) : Request :=
  mkRequest (r_ID r) (r_UserID r) (r_BatchID r) (r_Recipient r) (r_Channel r)
    (r_Priority r) (r_TemplateID r) "" (r_IdempotencyKey r) (r_Status r) (r_CreatedAt r).

Definition list_sql (f : ListFilter) (limit : Z) (d : DB) : result error (list Request) :=
  limit_rows limit
    (map scanRequestList (merge_sort list_order (where_ (list_where f) (requests d)))).

Definition ListRequests (f : ListFilter) : eff Sess error Page :=
  let f := Normalize f in
  rows ← wrap "list requests" (r ← QueryReader (list_sql f (lf_Limit f + 1)); of_result r);
  let items := rows in
  if (Z.of_nat (length items) >? lf_Limit f)%Z then
    match items !! Z.to_nat (lf_Limit f - 1) with
    | Some last => mret (mkPage (take (Z.to_nat (lf_Limit f)) items)
                           (Some (r_ID last)) (Some (r_CreatedAt last)))
    | None => mret (mkPage items None None)
    end
  else mret (mkPage items None None).

(** ** Deliveries (delivery.go) *)

Definition del_key (d : Delivery) : uuid * time := (d_ID d, d_CreatedAt d).
(** [id = $id AND created_at = $createdAt] *)
Definition by_delivery_key (id : uuid) (createdAt : time) (d : Delivery) : bool :=
  bool_decide (del_key d = (id, timestamptz createdAt)).
Definition by_request (rid : uuid) (d : Delivery) : bool := bool_decide (d_RequestID d = rid).
Definition has_status (s : DeliveryStatus) (d : Delivery) : bool := bool_decide (d_Status d = s).

Definition opt_text (o : option string) : bool := opt_test o pg_text.

Definition delivery_columns_ok (d : Delivery) : bool :=
  varchar 16 (d_Channel d) && varchar 16 (d_Priority d) && int4 (d_AttemptCount d)
  && opt_test (d_ProviderMessageID d) (varchar 255) && opt_text (d_LastError d).

(** The row of a delivery: its times at the columns' precision. *)
Definition stored_delivery (x : Delivery) : Delivery :=
  mkDelivery (d_ID x) (d_RequestID x) (d_Channel x) (d_Priority x) (d_Status x)
    (d_AttemptCount x) (d_ProviderMessageID x) (d_LastError x)
    (timestamptz <$> d_NextRetryAt x) (timestamptz <$> d_LockedUntil x)
    (timestamptz <$> d_SendAt x) (timestamptz (d_CreatedAt x)) (timestamptz (d_UpdatedAt x)).

Definition insert_delivery_sql (x : Delivery) (d : DB) : result error (() * DB) :=
  if negb (delivery_columns_ok x) then Err bad_text
  else if existsb (by_delivery_key (d_ID x) (d_CreatedAt x)) (deliveries d)
  then Err unique_violation
  else Ok ((), set_deliveries (deliveries d ++ [stored_delivery x]) d).

Definition insertDelivery (x : Delivery) : eff Sess error () :=
  wrap "insert delivery" (Exec (insert_delivery_sql x)).

Definition GetDelivery (id : uuid) (createdAt : time) : eff Sess error Delivery :=
  scanDelivery (Scan (Query (fun d => where_ (by_delivery_key id createdAt) (deliveries d)))).

Definition GetDeliveriesByRequest (rid : uuid) : eff Sess error (list Delivery) :=
  wrap "get deliveries"
    (QueryReader (fun d => order_by d_CreatedAt (where_ (by_request rid) (deliveries d)))).

(** The SET clauses of the status changes. *)
Definition claim_row (leaseUntil now : time) (d : Delivery) : Delivery :=
  mkDelivery (d_ID d) (d_RequestID d) (d_Channel d) (d_Priority d) DeliveryProcessing
    (d_AttemptCount d) (d_ProviderMessageID d) (d_LastError d) (d_NextRetryAt d)
    (Some (timestamptz leaseUntil)) (d_SendAt d) (d_CreatedAt d) now.

Definition sent_row (providerMessageID : string) (now : time) (d : Delivery) : Delivery :=
  mkDelivery (d_ID d) (d_RequestID d) (d_Channel d) (d_Priority d) DeliverySent
    (d_AttemptCount d) (Some providerMessageID) None (d_NextRetryAt d)
    None (d_SendAt d) (d_CreatedAt d) now.

Definition retrying_row (attemptCount : Z) (nextRetryAt : time) (lastErr : string)
    (now : time) (d : Delivery) : Delivery :=
  mkDelivery (d_ID d) (d_RequestID d) (d_Channel d) (d_Priority d) DeliveryRetrying
    attemptCount (d_ProviderMessageID d) (Some lastErr) (Some (timestamptz nextRetryAt))
    None (d_SendAt d) (d_CreatedAt d) now.

Definition failed_row (attemptCount : Z) (lastErr : string) (now : time) (d : Delivery)
    : Delivery :=
  mkDelivery (d_ID d) (d_RequestID d) (d_Channel d) (d_Priority d) DeliveryFailed
    attemptCount (d_ProviderMessageID d) (Some lastErr) (d_NextRetryAt d)
    None (d_SendAt d) (d_CreatedAt d) now.

Definition cancelled_row (now : time) (d : Delivery) : Delivery :=
  mkDelivery (d_ID d) (d_RequestID d) (d_Channel d) (d_Priority d) DeliveryCancelled
    (d_AttemptCount d) (d_ProviderMessageID d) (d_LastError d) (d_NextRetryAt d)
    (d_LockedUntil d) (d_SendAt d) (d_CreatedAt d) now.

Definition pending_row (now : time) (d : Delivery) : Delivery :=
  mkDelivery (d_ID d) (d_RequestID d) (d_Channel d) (d_Priority d) DeliveryPending
    (d_AttemptCount d) (d_ProviderMessageID d) (d_LastError d) (d_NextRetryAt d)
    (d_LockedUntil d) (d_SendAt d) (d_CreatedAt d) now.

Definition reaped_row (now : time) (d : Delivery) : Delivery :=
  mkDelivery (d_ID d) (d_RequestID d) (d_Channel d) (d_Priority d) DeliveryRetrying
    (d_AttemptCount d) (d_ProviderMessageID d) (d_LastError d) (Some now)
    None (d_SendAt d) (d_CreatedAt d) now.

(** [UPDATE ... WHERE id=$1 AND created_at=$2 AND <guard>] with RETURNING. *)
Definition update_deliveries (p : Delivery -> bool) (f : Delivery -> Delivery) (d : DB) : DB :=
  set_deliveries (update_where p f (deliveries d)) d.

Definition claimable (id : uuid) (createdAt : time) (d : Delivery) : bool :=
  by_delivery_key id createdAt d
  && (has_status DeliveryPending d || has_status DeliveryRetrying d).

Definition claim_sql (id : uuid) (createdAt leaseUntil now : time) (d : DB)
    : result error (list Delivery * DB) :=
  Ok (map (claim_row leaseUntil now) (where_ (claimable id createdAt) (deliveries d)),
      update_deliveries (claimable id createdAt) (claim_row leaseUntil now) d).

(** [None] is [claimed = false]. *)
Definition ClaimDelivery (id : uuid) (createdAt leaseUntil now : time)
    : eff Sess error (option Delivery) :=
  r ← attempt (scanDelivery (Scan (Exec (claim_sql id createdAt leaseUntil now))));
  match r with
  | Ok d => mret (Some d)
  | Err e => if errors_Is e ErrNotFound then mret None else raise e
  end.

(** ** Batch counters (batch.go) *)

Definition bucketColumn (s : RequestStatus) : string :=
  match s with
  | RequestSent | RequestPartial => "sent_count"
  | RequestFailed => "failed_count"
  | RequestCancelled => "cancelled_count"
  | _ => "pending_count"
  end.

Definition batch_column (col : string) (b : Batch) : option Z :=
  if String.eqb col "pending_count" then Some (b_PendingCount b)
  else if String.eqb col "sent_count" then Some (b_SentCount b)
  else if String.eqb col "failed_count" then Some (b_FailedCount b)
  else if String.eqb col "cancelled_count" then Some (b_CancelledCount b)
  else None.

Definition set_batch_column (col : string) (n : Z) (b : Batch) : Batch :=
  let pick c old := if String.eqb col c then n else old in
  mkBatch (b_ID b) (b_UserID b) (b_IdempotencyKey b) (b_TotalCount b)
    (pick "pending_count" (b_PendingCount b)) (pick "sent_count" (b_SentCount b))
    (pick "failed_count" (b_FailedCount b)) (pick "cancelled_count" (b_CancelledCount b))
    (b_CreatedAt b).

Definition by_batch_id (id : uuid) (b : Batch) : bool := bool_decide (b_ID b = id).

(** [SET from = GREATEST(from - 1, 0), to = to + 1]: both read the old row. *)
Definition move_unit (fromCol toCol : string) (b : Batch) : Batch :=
  match batch_column fromCol b, batch_column toCol b with
  | Some x, Some y =>
      set_batch_column toCol (y + 1)%Z (set_batch_column fromCol (Z.max (x - 1) 0) b)
  | _, _ => b
  end.

Definition move_unit_sql (id : uuid) (fromCol toCol : string) (d : DB)
    : result error (() * DB) :=
  Ok ((), set_batches (update_where (by_batch_id id) (move_unit fromCol toCol) (batches d)) d).

Definition adjustBatchCountersTx (batchID : uuid) (from to : RequestStatus)
    : eff Sess error () :=
  let fromCol := bucketColumn from in
  let toCol := bucketColumn to in
  if String.eqb fromCol toCol then mret ()
  else wrap "adjust batch counters" (Exec (move_unit_sql batchID fromCol toCol)).

(** ** Status recomputation (delivery.go) *)

Definition set_Status (st : RequestStatus) (r : Request) : Request :=
  mkRequest (r_ID r) (r_UserID r) (r_BatchID r) (r_Recipient r) (r_Channel r)
    (r_Priority r) (r_TemplateID r) (r_RenderedContent r) (r_IdempotencyKey r) st
    (r_CreatedAt r).

Definition set_request_status_sql (id : uuid) (st : RequestStatus) (d : DB)
    : result error (() * DB) :=
  Ok ((), set_requests (update_where (by_request_id id) (set_Status st) (requests d)) d).

Definition statuses_of (rid : uuid) (d : DB) : list DeliveryStatus :=
  map d_Status (where_ (by_request rid) (deliveries d)).

Definition recomputeRequestStatusTx (requestID : uuid) : eff Sess error () :=
  old ← wrap "load request for recompute"
          (Scan (Query (fun d => map (fun r => (r_Status r, r_BatchID r))
                                   (where_ (by_request_id requestID) (requests d)))));
  let '(oldStatus, batchID) := old in
  statuses ← wrap "load delivery statuses" (Query (statuses_of requestID));
  let newStatus := AggregateRequestStatus statuses in
  if bool_decide (newStatus = oldStatus) then mret ()
  else
    wrap "update request status" (Exec (set_request_status_sql requestID newStatus)) ≫= fun _ =>
    match batchID with
    | Some b => adjustBatchCountersTx b oldStatus newStatus
    | None => mret ()
    end.

(** ** Finalizing a delivery (delivery.go) *)

Definition mark_sql (valid : bool) (id : uuid) (createdAt : time) (f : Delivery -> Delivery)
    (d : DB) : result error (() * DB) :=
  if valid then Ok ((), update_deliveries (by_delivery_key id createdAt) f d)
  else Err bad_text.

Definition MarkSent (id : uuid) (createdAt : time) (requestID : uuid)
    (providerMessageID : string) (now : time) : eff Sess error () :=
  withTx (
    wrap "mark sent" (Exec (mark_sql (varchar 255 providerMessageID) id createdAt
                              (sent_row providerMessageID now))) ≫= fun _ =>
    recomputeRequestStatusTx requestID).

Definition MarkRetrying (id : uuid) (createdAt : time) (attemptCount : Z)
    (nextRetryAt : time) (lastErr : string) (now : time) : eff Sess error () :=
  wrap "mark retrying" (Exec (mark_sql (pg_text lastErr && int4 attemptCount) id createdAt
                                (retrying_row attemptCount nextRetryAt lastErr now))).

Definition MarkFailed (id : uuid) (createdAt : time) (requestID : uuid) (attemptCount : Z)
    (lastErr : string) (now : time) : eff Sess error () :=
  withTx (
    wrap "mark failed" (Exec (mark_sql (pg_text lastErr && int4 attemptCount) id createdAt
                                (failed_row attemptCount lastErr now))) ≫= fun _ =>
    recomputeRequestStatusTx requestID).

(** ** Cancellation (request.go) *)

Definition cancellable (rid : uuid) (d : Delivery) : bool :=
  by_request rid d &&
  (has_status DeliveryScheduled d || has_status DeliveryPending d
   || has_status DeliveryRetrying d).

(** The UPDATE and its RowsAffected. *)
Definition cancel_sql (rid : uuid) (now : time) (d : DB) : result error (nat * DB) :=
  Ok (count_where (cancellable rid) (deliveries d),
      update_deliveries (cancellable rid) (cancelled_row now) d).

Definition select_request (id : uuid) : eff Sess error Request :=
  scanRequest (Scan (Query (fun d => where_ (by_request_id id) (requests d)))).

Definition CancelRequest (id : uuid) (now : time) : eff Sess error Request :=
  withTx (
    select_request id ≫= fun _ =>
    n ← wrap "cancel deliveries" (Exec (cancel_sql id now));
    if bool_decide (n = 0) then raise ErrCancelNotAllowed else
    recomputeRequestStatusTx id ≫= fun _ =>
    select_request id).

(** ** Outbox (outbox.go) *)

Section outbox.
Context `{!MessageCodec}.

Definition insert_outbox_sql (row : OutboxRow) (d : DB) : result error (() * DB) :=
  if negb (varchar 64 (ob_stream row)) then Err bad_text
  else if existsb (fun x => ob_id x =? ob_id row)%N (outbox d) then Err unique_violation
  else Ok ((), set_outbox (outbox d ++ [row]) d).

Definition insertOutbox (o : OutboxRecord) (now : time) : eff Sess error () :=
  payload ← wrap "marshal message" (of_result (marshalMessage (o_Message o)));
  wrap "insert outbox"
    (Exec (insert_outbox_sql
             (mkOutboxRow (o_ID o) (o_DeliveryID o) (timestamptz (o_DeliveryCreatedAt o))
                (o_Stream o) payload now None))).

Definition unpublished (row : OutboxRow) : bool :=
  match ob_published_at row with None => true | Some _ => false end.

Definition fetch_outbox_sql (locked : uuid -> bool) (limit : Z) (d : DB)
    : result error (list OutboxRow) :=
  limit_rows limit
    (order_by ob_created_at
       (where_ (fun row => unpublished row && negb (locked (ob_id row))) (outbox d))).

(** Decoding stops at the first row whose payload does not parse. *)
Fixpoint decode_outbox (rows : list OutboxRow) : result error (list OutboxEntry) :=
  match rows with
  | [] => Ok []
  | row :: rest =>
      match unmarshalMessage (ob_payload row) with
      | Err e => Err (Errorf "unmarshal message" e)
      | Ok m =>
          match decode_outbox rest with
          | Ok es => Ok (mkOutboxEntry (ob_id row) (ob_stream row) m :: es)
          | Err e => Err e
          end
      end
  end.

Definition FetchUnpublishedOutbox (locked : uuid -> bool) (limit : Z)
    : eff Sess error (list OutboxEntry) :=
  rows ← wrap "fetch outbox"
           (r ← Query (fetch_outbox_sql locked limit); of_result r);
  of_result (decode_outbox rows).

Definition published_row (now : time) (row : OutboxRow) : OutboxRow :=
  mkOutboxRow (ob_id row) (ob_delivery_id row) (ob_delivery_created_at row)
    (ob_stream row) (ob_payload row) (ob_created_at row) (Some now).

Definition id_in (ids : list uuid) (id : uuid) : bool := existsb (N.eqb id) ids.

Definition mark_published_sql (ids : list uuid) (now : time) (d : DB)
    : result error (() * DB) :=
  Ok ((), set_outbox
        (update_where (fun row => id_in ids (ob_id row)) (published_row now) (outbox d)) d).

Definition MarkOutboxPublished (ids : list uuid) (now : time) : eff Sess error () :=
  if bool_decide (length ids = 0) then mret () else
  wrap "mark outbox published" (Exec (mark_published_sql ids now)).

Definition CountUnpublishedOutbox : eff Sess error Z :=
  Query (fun d => Z.of_nat (count_where unpublished (outbox d))).

(** ** Creation (request.go, batch.go) *)

Definition CreateNotification (req : Request) (del : Delivery)
    (outbox_ : option OutboxRecord) (now : time) : eff Sess error () :=
  withTx (
    insertRequest req ≫= fun _ =>
    insertDelivery del ≫= fun _ =>
    match outbox_ with
    | Some o => insertOutbox o now
    | None => mret ()
    end).

Definition batch_idem (user key : string) (b : Batch) : bool :=
  String.eqb (b_UserID b) user && bool_decide (b_IdempotencyKey b = Some key).

Definition batch_conflict (b : Batch) (bs : list Batch) : bool :=
  match b_IdempotencyKey b with
  | None => false
  | Some key => existsb (batch_idem (b_UserID b) key) bs
  end.

(** The row is inserted with zero counters. *)
Definition insert_batch_sql (b : Batch) (d : DB) : result error (() * DB) :=
  if negb (varchar 255 (b_UserID b)
           && match b_IdempotencyKey b with Some k => varchar 255 k | None => true end)
  then Err bad_text
  else if existsb (fun x => b_ID x =? b_ID b)%N (batches d) then Err unique_violation
  else if batch_conflict b (batches d) then Err unique_violation
  else Ok ((), set_batches
             (batches d ++ [mkBatch (b_ID b) (b_UserID b) (b_IdempotencyKey b)
                              0 0 0 0 0 (timestamptz (b_CreatedAt b))]) d).

Definition set_counts (created : Z) (b : Batch) : Batch :=
  mkBatch (b_ID b) (b_UserID b) (b_IdempotencyKey b) created created
    (b_SentCount b) (b_FailedCount b) (b_CancelledCount b) (b_CreatedAt b).

Definition set_counts_sql (id : uuid) (created : Z) (d : DB) : result error (() * DB) :=
  Ok ((), set_batches (update_where (by_batch_id id) (set_counts created) (batches d)) d).

(** One iteration of the loop over the items: whether a row was created. *)
Definition create_item (now : time) (item : BatchItem) : eff Sess error bool :=
  inserted ← insertRequestOnConflict (bi_Request item);
  if negb inserted then mret false else
  insertDelivery (bi_Delivery item) ≫= fun _ =>
  match bi_Outbox item with
  | Some o => insertOutbox o now ≫= fun _ => mret true
  | None => mret true
  end.

Fixpoint create_items (now : time) (items : list BatchItem) (created : Z)
    : eff Sess error Z :=
  match items with
  | [] => mret created
  | item :: rest =>
      create_item now item ≫= fun inserted : bool =>
      create_items now rest (if inserted then created + 1 else created)%Z
  end.

Definition CreateBatch (batch : Batch) (items : list BatchItem) (now : time)
    : eff Sess error BatchResult :=
  withTx (
    (res ← attempt (Exec (insert_batch_sql batch));
     match res with
     | Ok _ => mret ()
     | Err e => if isUniqueViolation e then raise ErrConflict
                else raise (Errorf "insert batch" e)
     end) ≫= fun _ =>
    created ← create_items now items 0;
    wrap "update batch counts" (Exec (set_counts_sql (b_ID batch) created)) ≫= fun _ =>
    mret (mkBatchResult (set_counts created batch) created
            (Z.of_nat (length items) - created))).

Definition GetBatchByID (id : uuid) : eff Sess error Batch :=
  scanBatch (Scan (QueryReader (fun d => where_ (by_batch_id id) (batches d)))).

Definition GetBatchByIdempotencyKey (userID key : string) : eff Sess error Batch :=
  scanBatch (Scan (Query (fun d => where_ (batch_idem userID key) (batches d)))).

(** ** Promotion, sweep, reconciliation (scheduler.go) *)

Record dueRow := mkDueRow {
  due_id : uuid;
  due_createdAt : time;
  due_requestID : uuid;
  due_channel : Channel;
  due_priority : Priority
}.

Definition due_of (d : Delivery) : dueRow :=
  mkDueRow (d_ID d) (d_CreatedAt d) (d_RequestID d) (d_Channel d) (d_Priority d).

Definition enqueueDueTx `{!UuidSource} (now : time) (r : dueRow) : eff Sess error () :=
  id ← New_uuid;
  insertOutbox (mkOutboxRecord id (due_id r) (due_createdAt r)
    (Stream (due_priority r) (due_channel r))
    (mkDeliveryMessage (due_id r) (due_createdAt r) (due_requestID r)
       (due_channel r) (due_priority r) "")) now.

(** The statements of the two transitions: select the due rows that no other
    transaction holds, oldest first, up to the limit, and update exactly them. *)
Definition transition_sql (due : Delivery -> bool) (key : Delivery -> Z)
    (locked : uuid * time -> bool) (now : time) (limit : Z) (d : DB)
    : result error (list dueRow * DB) :=
  match limit_rows limit
          (order_by key (where_ (fun x => due x && negb (locked (del_key x)))
                           (deliveries d))) with
  | Err e => Err e
  | Ok rows =>
      let chosen x := bool_decide (del_key x ∈ map del_key rows) in
      Ok (map due_of (where_ chosen (deliveries d)),
          update_deliveries chosen (pending_row now) d)
  end.

Definition transitionAndEnqueue `{!UuidSource}
    (query : Z -> DB -> result error (list dueRow * DB)) (now : time) (limit : Z)
    : eff Sess error Z :=
  withTx (
    due ← wrap "transition query" (Exec (query limit));
    for_each (enqueueDueTx now) due ≫= fun _ =>
    mret (Z.of_nat (length due))).

Definition time_le (o : option time) (now : time) : bool :=
  match o with Some t => (t <=? now)%Z | None => false end.

Definition scheduled_due (now : time) (d : Delivery) : bool :=
  has_status DeliveryScheduled d && time_le (d_SendAt d) now.
Definition retry_due (now : time) (d : Delivery) : bool :=
  has_status DeliveryRetrying d && time_le (d_NextRetryAt d) now.

Definition PromoteDue `{!UuidSource} (locked : uuid * time -> bool) (now : time) (limit : Z)
    : eff Sess error Z :=
  transitionAndEnqueue
    (transition_sql (scheduled_due now) (fun d => default 0%Z (d_SendAt d)) locked now)
    now limit.

Definition SweepRetries `{!UuidSource} (locked : uuid * time -> bool) (now : time) (limit : Z)
    : eff Sess error Z :=
  transitionAndEnqueue
    (transition_sql (retry_due now) (fun d => default 0%Z (d_NextRetryAt d)) locked now)
    now limit.

Definition has_unpublished (x : Delivery) (d : DB) : bool :=
  existsb (fun row => (ob_delivery_id row =? d_ID x)%N && unpublished row) (outbox d).

Definition orphaned (cutoff : time) (d : DB) (x : Delivery) : bool :=
  has_status DeliveryPending x && (d_UpdatedAt x <? cutoff)%Z
  && negb (has_unpublished x d).

Definition reconcile_sql (locked : uuid * time -> bool) (cutoff : time) (limit : Z) (d : DB)
    : result error (list dueRow) :=
  match limit_rows limit
          (order_by d_UpdatedAt
             (where_ (fun x => orphaned cutoff d x && negb (locked (del_key x)))
                (deliveries d))) with
  | Ok rows => Ok (map due_of rows)
  | Err e => Err e
  end.

(** [clock] is [time.Now()] of the scheduler's host. *)
Definition ReconcilePending `{!UuidSource} (locked : uuid * time -> bool)
    (clock now : time) (olderThan : duration) (limit : Z) : eff Sess error Z :=
  let cutoff := timestamptz (clock - olderThan) in
  withTx (
    due ← wrap "reconcile query"
            (r ← Query (reconcile_sql locked cutoff limit); of_result r);
    for_each (enqueueDueTx now) due ≫= fun _ =>
    mret (Z.of_nat (length due))).
End outbox.

Definition lease_expired (now : time) (d : Delivery) : bool :=
  has_status DeliveryProcessing d &&
  match d_LockedUntil d with Some t => (t <? now)%Z | None => false end.

(** The UPDATE and its RowsAffected. *)
Definition reap_sql (now : time) (d : DB) : result error (nat * DB) :=
  Ok (count_where (lease_expired now) (deliveries d),
      update_deliveries (lease_expired now) (reaped_row now) d).

Definition ReapStuck (now : time) : eff Sess error Z :=
  wrap "reap stuck" (Exec (reap_sql now)) ≫= fun n => mret (Z.of_nat n).

(** Nanoseconds since the oldest due, unpromoted delivery. The outer
    [WHERE sub.oldest IS NOT NULL] leaves no row when nothing is due. *)
Definition due_times (now : time) (d : DB) : list time :=
  omap d_SendAt (where_ (scheduled_due now) (deliveries d))
  ++ omap d_NextRetryAt (where_ (retry_due now) (deliveries d)).

Definition lag_sql (now : time) (d : DB) : list duration :=
  match due_times now d with
  | [] => []
  | t :: ts => [(now - foldr Z.min t ts)%Z]
  end.

Definition OldestDueLagSeconds (now : time) : eff Sess error duration :=
  wrap "oldest due lag" (Scan (Query (lag_sql now))).

(** ** Partitions and retention (scheduler.go, 000004_maintenance.up.sql) *)

Definition Day : duration := (24 * Hour)%Z.
Definition day_of (t : time) : Z := (t / Day)%Z.
Definition in_day (p_day : Z) (d : Delivery) : bool := (day_of (d_CreatedAt d) =? p_day)%Z.

Definition partition_exists (p_day : Z) (d : DB) : bool :=
  existsb (Z.eqb p_day) (partitions d).

Definition default_partition_violation : error :=
  EPgError "23514" "updated partition constraint for default partition would be violated by some row".

(** Creating a partition fails when the default partition already holds rows of
    that day. *)
Definition create_delivery_partition (p_day : Z) (d : DB) : result error (() * DB) :=
  if partition_exists p_day d then Ok ((), d)
  else if existsb (in_day p_day) (deliveries d) then Err default_partition_violation
  else Ok ((), set_partitions (partitions d ++ [p_day]) d).

Definition archive_and_drop_partition (p_day : Z) (d : DB) : result error (() * DB) :=
  if partition_exists p_day d then
    let rows := where_ (in_day p_day) (deliveries d) in
    let terminal := where_ (fun x => IsTerminal (d_Status x)) rows in
    if existsb (fun x => existsb (fun y => bool_decide (del_key y = del_key x)) (archive d)) terminal
    then Err unique_violation
    else Ok ((), set_partitions (where_ (fun q => negb (q =? p_day)%Z) (partitions d))
               (set_deliveries (where_ (fun x => negb (in_day p_day x)) (deliveries d))
                  (set_archive (archive d ++ terminal) d)))
  else Ok ((), d).

Definition CreateDeliveryPartition (day : time) : eff Sess error () :=
  wrap "create partition" (Exec (create_delivery_partition (day_of day))).

Definition ArchiveAndDropPartition (day : time) : eff Sess error () :=
  wrap "archive/drop partition" (Exec (archive_and_drop_partition (day_of day))).

Definition purgeable (before : time) (row : OutboxRow) : bool :=
  match ob_published_at row with Some t => (t <? before)%Z | None => false end.

Definition purge_published_outbox (before : time) (d : DB) : result error (nat * DB) :=
  Ok (count_where (purgeable before) (outbox d),
      set_outbox (where_ (fun row => negb (purgeable before row)) (outbox d)) d).

Definition PurgePublishedOutbox (before : time) : eff Sess error Z :=
  wrap "purge outbox" (Exec (purge_published_outbox (timestamptz before))) ≫= fun n => mret (Z.of_nat n).

(** ** Templates (template.go) *)

Definition GetTemplate (id : uuid) : eff Sess error Template :=
  r ← attempt (Scan (QueryReader (fun d => where_ (fun t => t_ID t =? id)%N (templates d))));
  match r with
  | Ok t => mret t
  | Err e => if errors_Is e ErrNoRows then raise ErrNotFound
             else raise (Errorf "get template" e)
  end.

#[export] Instance store_templates : TemplateRepository Sess :=
  { GetTemplateByID := GetTemplate }.
