(* ===== verification/StoreRuns.v ===== *)
(** * What a successful store operation does to the tables

    [runs m d a d']: some session over the tables [d] runs [m] successfully,
    with the value [a] and the tables [d'] after it. The lemmas of this file
    invert the operations of [Store] to equations on the tables; the invariants
    and the functional theorems build on them. *)

From S2P Require Import Prelude GoStrings Domain Template Store.

(** ** Times at the database's precision *)

Definition micros (t : time) : Prop := timestamptz t = t.

Lemma timestamptz_le t : (timestamptz t <= t < timestamptz t + 1000)%Z.
Proof. unfold timestamptz. pose proof (Z.mod_pos_bound t 1000). lia. Qed.

Lemma timestamptz_micros t : micros (timestamptz t).
Proof.
  unfold micros, timestamptz. assert (((t - t mod 1000) mod 1000 = 0)%Z) as ->; [|lia].
  rewrite Zminus_mod_idemp_r. by rewrite Z.sub_diag.
Qed.

Lemma timestamptz_mono t u : (t <= u)%Z -> (timestamptz t <= timestamptz u)%Z.
Proof.
  intros H. unfold timestamptz. pose proof (Z.div_mod t 1000). pose proof (Z.div_mod u 1000).
  pose proof (Z.div_le_mono t u 1000). lia.
Qed.

(** A stored time is after another exactly when it is after its stored value. *)
Lemma micros_le t u : micros t -> (t <= u)%Z <-> (t <= timestamptz u)%Z.
Proof.
  intros Ht. split; intros H; [rewrite <- Ht; by apply timestamptz_mono|].
  pose proof (timestamptz_le u). lia.
Qed.

Lemma stored_request_micros r : micros (r_CreatedAt r) -> stored_request r = r.
Proof. intros H. unfold stored_request. rewrite H. by destruct r. Qed.

(** ** Successful runs *)

Definition runs {A} (m : eff Sess error A) (d : DB) (a : A) (d' : DB) : Prop :=
  exists s s', db s = d /\ m s = (Ok a, s') /\ db s' = d'.

(** Any outcome: the error case included. *)
Definition ends {A} (m : eff Sess error A) (d : DB) (r : result error A) (d' : DB) : Prop :=
  exists s s', db s = d /\ m s = (r, s') /\ db s' = d'.

Lemma ends_ok {A} (m : eff Sess error A) d a d' : ends m d (Ok a) d' -> runs m d a d'.
Proof. done. Qed.

Lemma run_runs {A} (m : eff Sess error A) s a s' :
  m s = (Ok a, s') -> runs m (db s) a (db s').
Proof. intros H. by exists s, s'. Qed.

(** ** The session primitives *)

Lemma round_trip_db s f s' : round_trip s = (f, s') -> db s' = db s.
Proof. unfold round_trip. destruct (faults s); naive_solver. Qed.

Section primitives.
Context {A B : Type}.
Implicit Types (m : eff Sess error A).

Lemma runs_bind m (k : A -> eff Sess error B) d b d' :
  runs (m ≫= k) d b d' -> exists a d1, runs m d a d1 /\ runs (k a) d1 b d'.
Proof.
  intros (s & s' & <- & H & <-). apply bind_ok in H as (a & s1 & H1 & H2).
  exists a, (db s1). split; eauto using run_runs.
Qed.

Lemma runs_ret (a b : A) d d' : runs (mret a) d b d' -> b = a /\ d' = d.
Proof. intros (s & s' & <- & H & <-). apply ret_ok in H as [<- <-]. done. Qed.

Lemma runs_raise e (a : A) d d' : runs (raise e) d a d' -> False.
Proof. by intros (s & s' & _ & H & _). Qed.

Lemma runs_of_result (r : result error A) a d d' :
  runs (of_result r) d a d' -> r = Ok a /\ d' = d.
Proof. intros (s & s' & <- & H & <-). unfold of_result in H. by simplify_eq. Qed.

Lemma attempt_runs m r d d' : runs (attempt m) d r d' -> ends m d r d'.
Proof. intros (s & s' & <- & H & <-). apply attempt_ok_inv in H. by exists s, s'. Qed.

Lemma Exec_ends (f : DB -> result error (A * DB)) d r d' :
  ends (Exec f) d r d' ->
  match r with
  | Ok a => f d = Ok (a, d')
  | Err e => d' = d \/ exists a, f d = Ok (a, d')
  end.
Proof.
  intros (s & s' & <- & H & <-). unfold Exec in H.
  destruct (round_trip s) as [[[e|t]|] s1] eqn:E; apply round_trip_db in E; [by simplify_eq; left| |];
    rewrite E in H; destruct (f (db s)) as [[a d1]|e] eqn:F; simpl in H; simplify_eq; simpl; eauto.
Qed.

Lemma Exec_runs (f : DB -> result error (A * DB)) d a d' :
  runs (Exec f) d a d' -> f d = Ok (a, d').
Proof. apply (Exec_ends f d (Ok a)). Qed.

Lemma wrap_runs op m d a d' : runs (wrap op m) d a d' -> runs m d a d'.
Proof.
  intros (s & s' & <- & H & <-). unfold wrap in H.
  apply bind_ok in H as (r & s1 & H1 & H2). apply attempt_ok_inv in H1.
  destruct r as [x|e]; [|by apply raise_ok in H2]. apply ret_ok in H2 as [-> ->].
  eauto using run_runs.
Qed.

Lemma withTx_runs m d a d' : runs (withTx m) d a d' -> runs m d a d'.
Proof.
  intros (s & s' & <- & H & <-). unfold withTx in H.
  destruct (round_trip s) as [[e|] s1] eqn:E; [done|]. apply round_trip_db in E as <-.
  destruct (m s1) as [[a1|e] s2] eqn:Em; [|done].
  destruct (round_trip s2) as [[[e|t]|] s3] eqn:E2; [done..|]. apply round_trip_db in E2.
  simpl in H. simplify_eq. rewrite E2. eauto using run_runs.
Qed.

(** A transaction that returns an error is rolled back, or was committed unheard. *)
Lemma withTx_err m s e s' :
  withTx m s = (Err e, s') ->
  db s' = db s \/ (exists t, e = lost_reply t) /\ exists a, runs m (db s) a (db s').
Proof.
  intros H. unfold withTx in H.
  destruct (round_trip s) as [[e1|] s1] eqn:E; apply round_trip_db in E; [left; naive_solver|].
  destruct (m s1) as [[a1|e1] s2] eqn:Em; [|left; naive_solver].
  destruct (round_trip s2) as [[[e1|t]|] s3] eqn:E2; [left; naive_solver| |by simplify_eq/=].
  apply round_trip_db in E2. simpl in H. simplify_eq. right. split; [by exists t|].
  exists a1. rewrite E2, <- E. by apply run_runs.
Qed.
End primitives.

Lemma Query_runs {A} (f : DB -> A) d a d' : runs (Query f) d a d' -> a = f d /\ d' = d.
Proof. intros H. apply Exec_runs in H. by simplify_eq. Qed.

Lemma QueryReader_db {A} (f : DB -> A) s r s' : QueryReader f s = (r, s') -> db s' = db s.
Proof.
  unfold QueryReader. destruct (round_trip s) as [lost s1] eqn:E; apply round_trip_db in E.
  by intros [= _ <-].
Qed.

Lemma QueryReader_runs {A} (f : DB -> A) d a d' : runs (QueryReader f) d a d' -> d' = d.
Proof. intros (s & s' & <- & H & <-). by apply QueryReader_db in H. Qed.

Lemma Scan_runs {A} (m : eff Sess error (list A)) d x d' :
  runs (Scan m) d x d' -> exists rows, runs m d rows d' /\ head rows = Some x.
Proof.
  intros H. apply runs_bind in H as (rows & d1 & H1 & H2).
  destruct rows as [|y rows]; [by apply runs_raise in H2|].
  apply runs_ret in H2 as [-> ->]. by exists (y :: rows).
Qed.

Lemma scan_entity_runs {A} op (m : eff Sess error A) d x d' :
  runs (scan_entity op m) d x d' -> runs m d x d'.
Proof.
  intros H. apply runs_bind in H as (r & d1 & H1 & H2). apply attempt_runs in H1.
  destruct r as [a|e].
  - apply runs_ret in H2 as [-> ->]. exact H1.
  - destruct (errors_Is e ErrNoRows); by apply runs_raise in H2.
Qed.

(** The scans run their statement once and change nothing else. *)
Lemma Scan_state {A} (m : eff Sess error (list A)) s r s' :
  Scan m s = (r, s') -> exists r1, m s = (r1, s').
Proof.
  unfold Scan, mbind, eff_bind. destruct (m s) as [[[|x l]|e] s1]; intros [= <- <-]; eauto.
Qed.

Lemma scan_entity_state {A} op (m : eff Sess error A) s r s' :
  scan_entity op m s = (r, s') -> exists r1, m s = (r1, s').
Proof.
  unfold scan_entity, attempt, mbind, eff_bind.
  destruct (m s) as [[x|e] s1]; [|destruct (errors_Is e ErrNoRows)]; intros [= <- <-]; eauto.
Qed.

(** ** Runs do not depend on later round trips *)

Definition with_faults (fs : list (option fault)) (s : Sess) : Sess :=
  mkSess (db s) (replica s) fs (entropy s).
#[local] Arguments with_faults : simpl never.

Lemma with_faults_eta s : with_faults (faults s) s = s.
Proof. by destruct s. Qed.

(** A run uses up the outcomes [l] of its round trips (the ones that [s] does not
    list succeed), and does the same whatever comes after them. *)
Definition framed {A} (m : eff Sess error A) : Prop :=
  forall s r s', m s = (r, s') -> exists l k,
    faults s ++ replicate k None = l ++ faults s' /\
    forall fs, m (with_faults (l ++ fs) s) = (r, with_faults fs s').

Lemma round_trip_framed s f s' :
  round_trip s = (f, s') -> exists k, faults s ++ replicate k None = f :: faults s' /\
    db s' = db s /\ forall fs, round_trip (with_faults (f :: fs) s) = (f, with_faults fs s').
Proof.
  unfold round_trip, with_faults. destruct s as [d rep [|f0 fs0] n]; simpl; intros [= <- <-].
  - by exists 1.
  - exists 0. by rewrite app_nil_r.
Qed.

Section framing.
Context {A B : Type}.
Implicit Types (m : eff Sess error A).

Lemma framed_pure (r : result error A) : framed (fun s => (r, s)).
Proof. intros s r' s' [= <- <-]. exists [], 0. by rewrite app_nil_r. Qed.

Lemma framed_ret (a : A) : framed (mret a).
Proof. exact (framed_pure (Ok a)). Qed.

Lemma framed_raise e : framed (raise e : eff Sess error A).
Proof. exact (framed_pure (Err e)). Qed.

Lemma framed_of_result (r : result error A) : framed (of_result r).
Proof. exact (framed_pure r). Qed.

Lemma framed_attempt m : framed m -> framed (attempt m).
Proof.
  intros Hm s r s' H. unfold attempt in H. destruct (m s) as [r1 s1] eqn:E.
  destruct (Hm _ _ _ E) as (l & k & Hl & Hfs). simplify_eq. exists l, k. split; [done|].
  intros fs. unfold attempt. by rewrite Hfs.
Qed.

Lemma framed_Exec (f : DB -> result error (A * DB)) : framed (Exec f).
Proof.
  intros s r s' H. unfold Exec in H. destruct (round_trip s) as [lost s1] eqn:E.
  destruct (round_trip_framed _ _ _ E) as (k & Hk & _ & Hfs). exists [lost], k. simpl.
  assert (Hf : faults s' = faults s1) by (repeat case_match; by simplify_eq).
  rewrite Hf. split; [done|]. intros fs. unfold Exec. rewrite Hfs. simpl.
  repeat case_match; by simplify_eq.
Qed.

Lemma framed_QueryReader (f : DB -> A) : framed (QueryReader f).
Proof.
  intros s r s' H. unfold QueryReader in H. destruct (round_trip s) as [lost s1] eqn:E.
  destruct (round_trip_framed _ _ _ E) as (k & Hk & _ & Hfs). simplify_eq. exists [lost], k.
  split; [done|]. intros fs. unfold QueryReader. cbn [app]. by rewrite Hfs.
Qed.

Lemma replicate_None k j : replicate k None ++ replicate j None = replicate (k + j) (@None fault).
Proof. symmetry. apply replicate_add. Qed.

Lemma framed_bind m (c : A -> eff Sess error B) :
  framed m -> (forall a, framed (c a)) -> framed (m ≫= c).
Proof.
  intros Hm Hc s r s' H. unfold mbind, eff_bind in H. destruct (m s) as [[a|e] s1] eqn:E;
    destruct (Hm _ _ _ E) as (l & k & Hl & Hfs).
  - destruct (Hc a _ _ _ H) as (l2 & k2 & Hl2 & Hfs2). exists (l ++ l2), (k + k2). split.
    + by rewrite <- replicate_None, app_assoc, Hl, <- !app_assoc, Hl2.
    + intros fs. unfold mbind, eff_bind. by rewrite <- app_assoc, Hfs, Hfs2.
  - simplify_eq. exists l, k. split; [done|]. intros fs. unfold mbind, eff_bind. by rewrite Hfs.
Qed.

Lemma framed_withTx m : framed m -> framed (withTx m).
Proof.
  intros Hm s r s' H. unfold withTx in H. destruct (round_trip s) as [[f|] s1] eqn:E;
    destruct (round_trip_framed _ _ _ E) as (k & Hk & Hd & Hfs).
  - simplify_eq. exists [Some f], k. split; [done|]. intros fs. unfold withTx. cbn [app]. by rewrite Hfs.
  - destruct (m s1) as [[a|e] s2] eqn:Em; destruct (Hm _ _ _ Em) as (l & k2 & Hl & Hfs2).
    + destruct (round_trip s2) as [c s3] eqn:E3.
      destruct (round_trip_framed _ _ _ E3) as (k3 & Hk3 & _ & Hfs3).
      exists (None :: l ++ [c]), (k + (k2 + k3)).
      assert (Hf : faults s' = faults s3) by (repeat case_match; by simplify_eq).
      rewrite Hf. split.
      * rewrite <- !replicate_None, !app_assoc, Hk. simpl. f_equal.
        by rewrite <- !app_assoc, (app_assoc (faults s1)), Hl, <- app_assoc, Hk3.
      * intros fs. unfold withTx. cbn [app]. rewrite Hfs, <- app_assoc, Hfs2. cbn [app]. rewrite Hfs3.
        repeat case_match; by simplify_eq.
    + simplify_eq. exists (None :: l), (k + k2). simpl. split.
      * rewrite <- replicate_None, app_assoc, Hk. simpl. f_equal. by rewrite Hl.
      * intros fs. unfold withTx. cbn [app]. by rewrite Hfs, Hfs2.
Qed.
End framing.

Section framed_operations.
Context {A : Type}.
Implicit Types (m : eff Sess error A).

Lemma framed_wrap op m : framed m -> framed (wrap op m).
Proof.
  intros Hm. apply framed_bind; [by apply framed_attempt|]. intros [a|e]; [apply framed_ret|apply framed_raise].
Qed.

Lemma framed_Scan (m : eff Sess error (list A)) : framed m -> framed (Scan m).
Proof. intros Hm. apply framed_bind; [done|]. intros [|a l]; [apply framed_raise|apply framed_ret]. Qed.

Lemma framed_scan_entity op m : framed m -> framed (scan_entity op m).
Proof.
  intros Hm. apply framed_bind; [by apply framed_attempt|].
  intros [a|e]; [apply framed_ret|destruct (errors_Is _ _); apply framed_raise].
Qed.

Lemma framed_for_each (f : A -> eff Sess error ()) l : (forall x, framed (f x)) -> framed (for_each f l).
Proof.
  intros Hf. induction l as [|x l IH]; simpl; [exact (framed_pure (Ok ()))|].
  intros s r s' H. unfold mbind, eff_bind in H. destruct (f x s) as [[[]|e] s1] eqn:E;
    destruct (Hf _ _ _ _ E) as (l1 & k & Hl & Hfs).
  - destruct (IH _ _ _ H) as (l2 & k2 & Hl2 & Hfs2). exists (l1 ++ l2), (k + k2). split.
    + by rewrite <- replicate_None, app_assoc, Hl, <- !app_assoc, Hl2.
    + intros fs. unfold mbind, eff_bind. by rewrite <- app_assoc, Hfs, Hfs2.
  - simplify_eq. exists l1, k. split; [done|]. intros fs. unfold mbind, eff_bind. by rewrite Hfs.
Qed.

(** What a transaction does is what its body does. *)
Lemma runs_withTx m d a d' : framed m -> runs m d a d' -> runs (withTx m) d a d'.
Proof.
  intros Hm (s & s' & <- & H & <-). destruct (Hm _ _ _ H) as (l & k & _ & Hfs).
  exists (with_faults (None :: l ++ []) s), (with_faults [] s'). split_and!; try done.
  unfold withTx.
  change (round_trip (with_faults (None :: l ++ []) s)) with (@None fault, with_faults (l ++ []) s).
  cbv beta iota zeta. by rewrite Hfs.
Qed.
End framed_operations.

Lemma framed_New_uuid `{!UuidSource} : framed New_uuid.
Proof.
  intros s r s' E. unfold New_uuid in E. simplify_eq. exists [], 0. by rewrite app_nil_r.
Qed.

Ltac framed :=
  repeat first
    [ progress intros
    | apply framed_ret | apply framed_raise | apply framed_of_result | apply framed_Exec
    | apply framed_QueryReader | apply framed_New_uuid
    | apply framed_withTx | apply framed_wrap | apply framed_Scan | apply framed_scan_entity
    | apply framed_for_each | apply framed_attempt | apply framed_bind
    | match goal with |- framed (let _ := _ in _) => cbv zeta end
    | match goal with |- framed (match ?x with _ => _ end) => destruct x end ].

(** ** All or nothing *)

(** No reply of the next round trips is lost: every failure is the server's. *)
Definition heard (s : Sess) : Prop := Forall (fun f => forall t, f <> Some (Unheard t)) (faults s).

Lemma heard_quiet d rep n : heard (mkSess d rep [] n).
Proof. constructor. Qed.

Lemma not_heard s t : Some (Unheard t) ∈ faults s -> ~ heard s.
Proof. unfold heard. rewrite Forall_forall. intros Hin H. by apply (H _ Hin t). Qed.

Lemma framed_heard {A} (m : eff Sess error A) s r s' : framed m -> heard s -> m s = (r, s') -> heard s'.
Proof.
  intros Hm Hs H. destruct (Hm _ _ _ H) as (l & k & Hl & _).
  assert (Hall : Forall (fun f => forall t, f <> Some (Unheard t)) (faults s ++ replicate k None))
    by (apply Forall_app; split; [done|by apply Forall_replicate]).
  rewrite Hl in Hall. by apply Forall_app in Hall as [_ ?].
Qed.

Lemma round_trip_heard s f s' : heard s -> round_trip s = (f, s') -> heard s' /\ forall t, f <> Some (Unheard t).
Proof.
  intros Hs H. destruct (round_trip_framed _ _ _ H) as (k & Hk & _).
  assert (Hall : Forall (fun f => forall t, f <> Some (Unheard t)) (faults s ++ replicate k None))
    by (apply Forall_app; split; [done|by apply Forall_replicate]).
  rewrite Hk in Hall. by apply Forall_cons in Hall as [? ?].
Qed.

(** An operation that returns an error has changed nothing, or it did all it does and
    a reply was lost. *)
Definition atomic {A} (m : eff Sess error A) : Prop :=
  forall s e s', m s = (Err e, s') ->
    db s' = db s \/ ~ heard s /\ exists a, runs m (db s) a (db s').

Section atomic_lemmas.
Context {A : Type}.

Lemma withTx_atomic (m : eff Sess error A) : framed m -> atomic (withTx m).
Proof.
  intros Hm s e s' H. unfold withTx in H.
  destruct (round_trip s) as [[e1|] s1] eqn:E; pose proof (round_trip_db _ _ _ E) as Ed; [left; naive_solver|].
  destruct (m s1) as [[a1|e1] s2] eqn:Em; [|left; naive_solver].
  destruct (round_trip s2) as [[[e1|t]|] s3] eqn:E2; [left; naive_solver| |by simplify_eq/=].
  pose proof (round_trip_db _ _ _ E2) as E2d. simpl in H. simplify_eq. right. split.
  - intros Hs. destruct (round_trip_heard _ _ _ Hs E) as [H1 _].
    destruct (round_trip_heard _ _ _ (framed_heard _ _ _ _ Hm H1 Em) E2) as [_ H2]. by destruct (H2 t).
  - exists a1. apply runs_withTx; [done|]. rewrite E2d, <- Ed. by apply run_runs.
Qed.

Lemma Exec_applied (f : DB -> result error (A * DB)) d a d' : f d = Ok (a, d') -> runs (Exec f) d a d'.
Proof.
  intros H. exists (mkSess d None [] 0), (mkSess d' None [] 0). split_and!; try done.
  unfold Exec. simpl. by rewrite H.
Qed.

Lemma Exec_atomic (f : DB -> result error (A * DB)) : atomic (Exec f).
Proof.
  intros s e s' H. unfold Exec in H.
  destruct (round_trip s) as [[[e1|t]|] s1] eqn:E; pose proof (round_trip_db _ _ _ E) as Ed; rewrite ?Ed in H.
  - left. by simplify_eq.
  - destruct (f (db s)) as [[a d1]|e1] eqn:F; simpl in H; simplify_eq; [|by left]. right. split.
    + intros Hs. destruct (round_trip_heard _ _ _ Hs E) as [_ H1]. by destruct (H1 t).
    + exists a. by apply Exec_applied.
  - destruct (f (db s)) as [[a d1]|e1] eqn:F; simpl in H; by simplify_eq; left.
Qed.

Lemma runs_wrap op (m : eff Sess error A) d a d' : runs m d a d' -> runs (wrap op m) d a d'.
Proof.
  intros (s & s' & ? & H & ?). exists s, s'. split_and!; try done.
  unfold wrap, attempt, mbind, eff_bind. by rewrite H.
Qed.

Lemma wrap_atomic op (m : eff Sess error A) : atomic m -> atomic (wrap op m).
Proof.
  intros Hm s e s' H. unfold wrap, attempt, mbind, eff_bind in H.
  destruct (m s) as [[a|e1] s1] eqn:E; simpl in H; [done|].
  injection H as _ <-. destruct (Hm _ _ _ E) as [?|(? & a & ?)]; [by left|right].
  split; [done|]. exists a. by apply runs_wrap.
Qed.

Lemma runs_then_ret {B} (m : eff Sess error A) (f : A -> B) d a d' :
  runs m d a d' -> runs (m ≫= fun a => mret (f a)) d (f a) d'.
Proof.
  intros (s & s' & ? & H & ?). exists s, s'. split_and!; try done. unfold mbind, eff_bind. by rewrite H.
Qed.

Lemma atomic_then_ret {B} (m : eff Sess error A) (f : A -> B) :
  atomic m -> atomic (m ≫= fun a => mret (f a)).
Proof.
  intros Hm s e s' H. apply bind_err in H as [H|(a & s1 & _ & H)]; [|by unfold mret, eff_ret in H].
  destruct (Hm _ _ _ H) as [?|(? & a & ?)]; [by left|right].
  split; [done|]. exists (f a). by apply runs_then_ret.
Qed.

Lemma atomic_heard (m : eff Sess error A) s e s' :
  atomic m -> heard s -> m s = (Err e, s') -> db s' = db s.
Proof. intros Hm Hs H. by destruct (Hm _ _ _ H) as [?|[? _]]. Qed.

(** Whatever an atomic operation returns, its effect is all or nothing. *)
Lemma atomic_cases (m : eff Sess error A) s r s' :
  atomic m -> m s = (r, s') -> db s' = db s \/ exists a, runs m (db s) a (db s').
Proof.
  intros Hm H. destruct r as [a|e]; [right; exists a; by apply run_runs|].
  destruct (Hm _ _ _ H) as [?|[_ ?]]; auto.
Qed.
End atomic_lemmas.

Lemma for_each_runs {A} (f : A -> eff Sess error ()) (P : DB -> Prop) l d d' :
  (forall x d d', x ∈ l -> P d -> runs (f x) d () d' -> P d') ->
  P d -> runs (for_each f l) d () d' -> P d'.
Proof.
  revert d. induction l as [|x l IH]; intros d Hf HP H; simpl in H.
  - by apply runs_ret in H as [_ ->].
  - apply runs_bind in H as ([] & d1 & H1 & H2).
    eapply (IH d1); [|eapply Hf; [left| |]|]; eauto. intros. eapply Hf; eauto. by right.
Qed.

(** Peel the successful steps of an operation. *)
Ltac inv_runs :=
  repeat match goal with
  | H : runs (_ ≫= _) _ _ _ |- _ =>
      let a := fresh "a" in let d := fresh "d" in let H1 := fresh "Hr" in
      apply runs_bind in H as (a & d & H1 & H)
  | H : runs (mret _) _ _ _ |- _ =>
      let E := fresh "Hret" in
      apply runs_ret in H as [E ->];
      lazymatch type of E with
      | () = () => clear E
      | ?a = _ => first [is_var a; subst a | idtac]
      end
  | H : runs (raise _) _ _ _ |- _ => by apply runs_raise in H
  | H : runs (of_result _) _ _ _ |- _ =>
      let E := fresh "Hres" in apply runs_of_result in H as [E ->]
  | H : runs (wrap _ _) _ _ _ |- _ => apply wrap_runs in H
  | H : runs (scan_entity _ _) _ _ _ |- _ => apply scan_entity_runs in H
  | H : runs (withTx _) _ _ _ |- _ => apply withTx_runs in H
  | H : runs (attempt _) _ _ _ |- _ => apply attempt_runs in H
  | H : runs (Query _) _ _ _ |- _ =>
      let E := fresh "Hq" in
      apply Query_runs in H as [E ->];
      lazymatch type of E with
      | ?a = _ => first [is_var a; subst a | idtac]
      end
  | H : runs (Scan _) _ _ _ |- _ =>
      let rows := fresh "rows" in let H0 := fresh "Hrows" in let H1 := fresh "Hhead" in
      apply Scan_runs in H as (rows & H0 & H1)
  | H : runs (Exec _) _ _ _ |- _ => apply Exec_runs in H
  | H : ends _ _ (Ok _) _ |- _ => apply ends_ok in H
  | H : runs (if ?b then _ else _) _ _ _ |- _ => destruct b eqn:?
  | u : () |- _ => destruct u
  end.
