(* ===== verification/StoreInv.v ===== *)
(** * The invariant of the tables, and that every store operation keeps it

    [db_wf] says: the primary keys and the idempotency index are unique; every
    delivery has its request and every request its batch; a request has at most
    one delivery; its stored status is the aggregate of its deliveries'
    statuses; the denormalized counters of a batch are the numbers of its
    requests per bucket; exactly the PROCESSING rows carry a lease; and the creation
    times are whole microseconds. *)

From S2P Require Import Prelude GoStrings Domain Template Store StoreRuns.

(** ** The invariant *)

Definition in_batch (b : uuid) (r : Request) : bool := bool_decide (r_BatchID r = Some b).
Definition in_bucket (col : string) (r : Request) : bool :=
  bool_decide (bucketColumn (r_Status r) = col).
Definition bucket_count (rs : list Request) (b : uuid) (col : string) : Z :=
  Z.of_nat (count_where (fun r => in_batch b r && in_bucket col r) rs).
Definition batch_size (rs : list Request) (b : uuid) : Z :=
  Z.of_nat (count_where (in_batch b) rs).

Record counters_ok (rs : list Request) (b : Batch) : Prop := {
  co_total : b_TotalCount b = batch_size rs (b_ID b);
  co_pending : b_PendingCount b = bucket_count rs (b_ID b) "pending_count";
  co_sent : b_SentCount b = bucket_count rs (b_ID b) "sent_count";
  co_failed : b_FailedCount b = bucket_count rs (b_ID b) "failed_count";
  co_cancelled : b_CancelledCount b = bucket_count rs (b_ID b) "cancelled_count"
}.

Definition status_ok (d : DB) (r : Request) : Prop :=
  statuses_of (r_ID r) d <> [] ->
  r_Status r = AggregateRequestStatus (statuses_of (r_ID r) d).

Definition lease_ok (x : Delivery) : Prop :=
  d_Status x = DeliveryProcessing <-> is_Some (d_LockedUntil x).

(** A SCHEDULED row knows when to send, a RETRYING one when to retry. *)
Definition times_ok (x : Delivery) : Prop :=
  (d_Status x = DeliveryScheduled -> is_Some (d_SendAt x)) /\
  (d_Status x = DeliveryRetrying -> is_Some (d_NextRetryAt x)).

Definition row_ok (x : Delivery) : Prop := lease_ok x /\ times_ok x.

Definition same_idem (r1 r2 : Request) : Prop :=
  r_UserID r1 = r_UserID r2 /\ r_IdempotencyKey r1 = r_IdempotencyKey r2
  /\ is_Some (r_IdempotencyKey r1).

(** [skip] and [skipb]: the requests whose status, and the batches whose
    counters, are being changed by the running transaction. *)
Record db_wf_but (skip skipb : uuid -> Prop) (d : DB) : Prop := {
  wf_request_ids : NoDup (map r_ID (requests d));
  wf_batch_ids : NoDup (map b_ID (batches d));
  wf_delivery_keys : NoDup (map del_key (deliveries d));
  wf_one_delivery : NoDup (map d_RequestID (deliveries d));
  wf_outbox_ids : NoDup (map ob_id (outbox d));
  wf_idem : forall r1 r2, r1 ∈ requests d -> r2 ∈ requests d ->
    same_idem r1 r2 -> r_ID r1 = r_ID r2;
  wf_delivery_request : forall x, x ∈ deliveries d ->
    exists r, r ∈ requests d /\ r_ID r = d_RequestID x;
  wf_request_batch : forall r b, r ∈ requests d -> r_BatchID r = Some b ->
    exists x, x ∈ batches d /\ b_ID x = b;
  wf_rows : forall x, x ∈ deliveries d -> row_ok x;
  wf_status : forall r, r ∈ requests d -> ~ skip (r_ID r) -> status_ok d r;
  wf_counters : forall b, b ∈ batches d -> ~ skipb (b_ID b) -> counters_ok (requests d) b;
  wf_micros : (forall x, x ∈ deliveries d -> micros (d_CreatedAt x)) /\
    (forall r, r ∈ requests d -> micros (r_CreatedAt r))
}.

Definition nothing : uuid -> Prop := fun _ => False.
Lemma not_nothing i : ~ nothing i.
Proof. by intros []. Qed.
Definition db_wf : DB -> Prop := db_wf_but nothing nothing.

Lemma fresh_db_wf ts : db_wf (fresh_db ts).
Proof. split; simpl; try apply NoDup_nil_2; set_solver. Qed.

(** ** Statuses of a request *)

Lemma statuses_update rid p f d :
  (forall x, p x = true -> d_RequestID (f x) = d_RequestID x) ->
  statuses_of rid (update_deliveries p f d) =
  map (fun x => d_Status (if p x then f x else x)) (where_ (by_request rid) (deliveries d)).
Proof.
  intros Hf. unfold statuses_of, update_deliveries, update_where, where_. simpl.
  induction (deliveries d) as [|x l IH]; [done|]. simpl.
  assert (by_request rid (if p x then f x else x) = by_request rid x) as ->.
  { destruct (p x) eqn:E; [|done]. unfold by_request. by rewrite Hf. }
  destruct (by_request rid x); simpl; by rewrite IH.
Qed.

Lemma statuses_update_other rid p f d :
  (forall x, p x = true -> d_RequestID (f x) = d_RequestID x) ->
  (forall x, x ∈ deliveries d -> p x = true -> d_RequestID x <> rid) ->
  statuses_of rid (update_deliveries p f d) = statuses_of rid d.
Proof.
  intros Hf Hp. rewrite statuses_update by done. unfold statuses_of.
  apply map_ext_in. intros x Hx. rewrite <- list_elem_of_In, elem_of_where in Hx.
  destruct Hx as [Hx Hr]. unfold by_request in Hr. bool_to_prop.
  destruct (p x) eqn:E; [|done]. by destruct (Hp x Hx E).
Qed.

Lemma statuses_elem rid d st :
  st ∈ statuses_of rid d <-> exists x, x ∈ deliveries d /\ d_RequestID x = rid /\ d_Status x = st.
Proof.
  unfold statuses_of. rewrite list_elem_of_fmap. setoid_rewrite elem_of_where.
  unfold by_request. setoid_rewrite bool_decide_eq_true. naive_solver.
Qed.

Lemma statuses_nil rid d :
  statuses_of rid d = [] <-> forall x, x ∈ deliveries d -> d_RequestID x <> rid.
Proof.
  transitivity (where_ (by_request rid) (deliveries d) = []).
  { unfold statuses_of. destruct (where_ _ _); simpl; split; congruence. }
  rewrite where_nil_iff. unfold by_request. by setoid_rewrite bool_decide_eq_false.
Qed.

(** A change of deliveries in progress to deliveries in progress does not change
    the aggregate of any request. *)
Lemma aggregate_update_progress rid p f d :
  (forall x, p x = true -> d_RequestID (f x) = d_RequestID x) ->
  (forall x, x ∈ deliveries d -> p x = true ->
     IsTerminal (d_Status x) = false /\ IsTerminal (d_Status (f x)) = false) ->
  AggregateRequestStatus (statuses_of rid (update_deliveries p f d)) =
  AggregateRequestStatus (statuses_of rid d).
Proof.
  intros Hf Hp.
  destruct (decide (Exists (fun x => p x = true /\ d_RequestID x = rid) (deliveries d)))
    as [Hex|Hno].
  - apply Exists_exists in Hex as (x & Hx & Hpx & Hrid).
    destruct (Hp x Hx Hpx) as [Ht Ht'].
    rewrite (aggregate_nonterminal (statuses_of rid d) (d_Status x)); [|by apply statuses_elem; eauto|done].
    apply (aggregate_nonterminal _ (d_Status (f x))); [|done].
    apply statuses_elem. exists (f x). split; [|split; [by rewrite Hf|done]].
    unfold update_deliveries. simpl. apply elem_of_update. exists x. by rewrite Hpx.
  - rewrite statuses_update_other; [done|done|].
    intros x Hx Hpx E. apply Hno. apply Exists_exists. eauto.
Qed.

(** ** Updates of deliveries *)

(** What every status-changing SET clause of the program respects. *)
Record row_update (l : list Delivery) (p : Delivery -> bool) (f : Delivery -> Delivery)
    : Prop := {
  ru_key : forall x, p x = true -> del_key (f x) = del_key x;
  ru_request : forall x, p x = true -> d_RequestID (f x) = d_RequestID x;
  ru_row : forall x, x ∈ l -> p x = true -> row_ok x -> row_ok (f x)
}.

Lemma wf_update_but skip skipb p f d :
  db_wf_but skip skipb d -> row_update (deliveries d) p f ->
  (forall r, r ∈ requests d -> ~ skip (r_ID r) ->
     statuses_of (r_ID r) (update_deliveries p f d) = statuses_of (r_ID r) d \/
     AggregateRequestStatus (statuses_of (r_ID r) (update_deliveries p f d)) =
     AggregateRequestStatus (statuses_of (r_ID r) d)) ->
  db_wf_but skip skipb (update_deliveries p f d).
Proof.
  intros [H1 H2 H3 H4 H5 H6 H7 H8 H9 H10 H11 H12] [K R L] Hst.
  assert (Hin : forall y, y ∈ update_where p f (deliveries d) ->
    exists x, x ∈ deliveries d /\ y = if p x then f x else x) by (intros; by apply elem_of_update).
  split; try done; simpl.
  - by rewrite map_update_key.
  - by rewrite map_update_key.
  - intros y (x & Hx & ->)%Hin. destruct (p x) eqn:E; [rewrite R by done|]; eauto.
  - intros y (x & Hx & ->)%Hin. destruct (p x) eqn:E; eauto.
  - intros r Hr Hs Hne. pose proof (H10 r Hr Hs) as Hok. unfold status_ok in Hok.
    assert (Hne' : statuses_of (r_ID r) d <> []).
    { intros E. apply Hne. rewrite statuses_update by done. unfold statuses_of in E.
      apply map_eq_nil in E. by rewrite E. }
    destruct (Hst r Hr Hs) as [E|E]; rewrite E; by apply Hok.
  - split; [|apply H12]. intros y (x & Hx & ->)%Hin. destruct (p x) eqn:E; [|by apply H12].
    specialize (K x E). unfold del_key in K. injection K as _ ->. by apply H12.
Qed.

(** A change of rows in progress keeps the invariant. *)
Lemma wf_update_progress skip skipb p f d :
  db_wf_but skip skipb d -> row_update (deliveries d) p f ->
  (forall x, x ∈ deliveries d -> p x = true ->
     IsTerminal (d_Status x) = false /\ IsTerminal (d_Status (f x)) = false) ->
  db_wf_but skip skipb (update_deliveries p f d).
Proof.
  intros Hwf Hru Hp. apply wf_update_but; try done.
  intros r _ _. right. apply aggregate_update_progress; [apply Hru|done].
Qed.

(** A change of one request's rows keeps everything but that request's status. *)
Lemma wf_update_request rid p f d :
  db_wf d -> row_update (deliveries d) p f ->
  (forall x, x ∈ deliveries d -> p x = true -> d_RequestID x = rid) ->
  db_wf_but (eq rid) nothing (update_deliveries p f d).
Proof.
  intros Hwf Hru Hp. apply wf_update_but; [|done|].
  - destruct Hwf; split; try done. intros r Hr _. by apply wf_status0, not_nothing.
  - intros r Hr Hne. left. apply statuses_update_other; [apply Hru|].
    intros x Hx Hpx E. apply Hne. rewrite <- E. symmetry. eauto.
Qed.

Lemma claim_row_update l id at_ lease now :
  row_update l (claimable id at_) (claim_row lease now).
Proof. by split. Qed.

Lemma mark_row_update l p f :
  (forall x, del_key (f x) = del_key x) -> (forall x, d_RequestID (f x) = d_RequestID x) ->
  (forall x, d_LockedUntil (f x) = None /\ d_Status (f x) <> DeliveryProcessing /\ times_ok (f x)) ->
  row_update l p f.
Proof.
  intros K R L. split; [done|done|]. intros x _ _ _. destruct (L x) as (E & N & T).
  split; [|done]. split; [done|]. rewrite E. by intros [? ?].
Qed.

(** A SET clause that leaves the lease alone, on rows that hold none. *)
Lemma unlocked_row_update l p f :
  (forall x, del_key (f x) = del_key x) -> (forall x, d_RequestID (f x) = d_RequestID x) ->
  (forall x, d_LockedUntil (f x) = d_LockedUntil x /\ d_Status (f x) <> DeliveryProcessing /\ times_ok (f x)) ->
  (forall x, x ∈ l -> p x = true -> d_Status x <> DeliveryProcessing) ->
  row_update l p f.
Proof.
  intros K R L N. split; [done|done|]. intros x Hx Hp [[H1 H2] _]. destruct (L x) as (E & N' & T).
  split; [|done]. split; [done|]. rewrite E. intros Hs. by destruct (N x Hx Hp); apply H2.
Qed.

Lemma has_status_eq s x : has_status s x = true <-> d_Status x = s.
Proof. unfold has_status. apply bool_decide_eq_true. Qed.

(** ** Recomputation *)

Lemma adjust_runs b from to d d' :
  runs (adjustBatchCountersTx b from to) d () d' ->
  d' = if String.eqb (bucketColumn from) (bucketColumn to) then d
       else set_batches (update_where (by_batch_id b)
              (move_unit (bucketColumn from) (bucketColumn to)) (batches d)) d.
Proof.
  unfold adjustBatchCountersTx. intros H. inv_runs; [done|].
  unfold move_unit_sql in H. by simplify_eq.
Qed.

(** The tables after the recomputation of one request. *)
Definition recomputed (r : Request) (d : DB) : DB :=
  let newStatus := AggregateRequestStatus (statuses_of (r_ID r) d) in
  if bool_decide (newStatus = r_Status r) then d else
  let d1 := set_requests (update_where (by_request_id (r_ID r)) (set_Status newStatus)
                            (requests d)) d in
  match r_BatchID r with
  | None => d1
  | Some b =>
      if String.eqb (bucketColumn (r_Status r)) (bucketColumn newStatus) then d1
      else set_batches (update_where (by_batch_id b)
             (move_unit (bucketColumn (r_Status r)) (bucketColumn newStatus)) (batches d1)) d1
  end.

Lemma head_where_request rid d r :
  first_where (by_request_id rid) (requests d) = Some r -> r ∈ requests d /\ r_ID r = rid.
Proof.
  intros [? H]%first_where_Some. unfold by_request_id in H. by bool_to_prop.
Qed.

Lemma head_map {A B} (f : A -> B) l y :
  head (map f l) = Some y -> exists x, head l = Some x /\ y = f x.
Proof. destruct l; naive_solver. Qed.

Lemma recompute_runs rid d d' :
  runs (recomputeRequestStatusTx rid) d () d' ->
  exists r, r ∈ requests d /\ r_ID r = rid /\ d' = recomputed r d.
Proof.
  unfold recomputeRequestStatusTx. intros H. inv_runs.
  apply head_map in Hhead as (r & Hr & ->).
  apply head_where_request in Hr as [Hr Hid].
  exists r. split; [done|]. split; [done|]. subst rid. unfold recomputed.
  inv_runs; [done|]. unfold set_request_status_sql in *. simplify_eq.
  destruct (r_BatchID r); inv_runs; [|done]. by apply adjust_runs in H.
Qed.

Lemma in_batch_id b r : in_batch b r = true <-> r_BatchID r = Some b.
Proof. unfold in_batch. apply bool_decide_eq_true. Qed.

(** How the bucket counts move when one request changes status. *)
Lemma bucket_count_set_Status rs r st b col :
  NoDup (map r_ID rs) -> r ∈ rs ->
  (bucket_count (update_where (by_request_id (r_ID r)) (set_Status st) rs) b col
   + Z.b2z (in_batch b r && bool_decide (bucketColumn (r_Status r) = col))
   = bucket_count rs b col
   + Z.b2z (in_batch b r && bool_decide (bucketColumn st = col)))%Z.
Proof.
  intros Hnd Hr. unfold bucket_count, by_request_id.
  pose proof (count_update_key r_ID (fun r => in_batch b r && in_bucket col r)
                (set_Status st) rs r Hnd Hr) as H.
  unfold in_bucket in *. simpl in H. unfold in_batch in *. simpl in H.
  destruct (bool_decide (r_BatchID r = Some b)), (bool_decide (bucketColumn (r_Status r) = col)),
    (bool_decide (bucketColumn st = col)); simpl in *; lia.
Qed.

Lemma batch_size_set_Status rs p st b :
  batch_size (update_where p (set_Status st) rs) b = batch_size rs b.
Proof. unfold batch_size. f_equal. by apply count_update_same. Qed.

Lemma bucketColumn_cases s :
  bucketColumn s = "pending_count" \/ bucketColumn s = "sent_count" \/
  bucketColumn s = "failed_count" \/ bucketColumn s = "cancelled_count".
Proof. destruct s; auto. Qed.

(** A bucket with a request in it is not empty, so [GREATEST] never clamps. *)
Lemma bucket_count_pos rs r b :
  r ∈ rs -> r_BatchID r = Some b -> (1 <= bucket_count rs b (bucketColumn (r_Status r)))%Z.
Proof.
  intros Hr Hb. unfold bucket_count.
  destruct (count_where _ rs) eqn:E; [|lia]. apply count_zero_iff with (x := r) in E; [|done].
  unfold in_batch, in_bucket in E. by rewrite !bool_decide_true in E.
Qed.

Lemma counters_move rs r st x :
  NoDup (map r_ID rs) -> r ∈ rs -> r_BatchID r = Some (b_ID x) -> counters_ok rs x ->
  let rs' := update_where (by_request_id (r_ID r)) (set_Status st) rs in
  counters_ok rs'
    (if String.eqb (bucketColumn (r_Status r)) (bucketColumn st) then x
     else move_unit (bucketColumn (r_Status r)) (bucketColumn st) x).
Proof.
  intros Hnd Hr Hb [T P S F C] rs'.
  pose proof (bucket_count_pos rs r _ Hr Hb) as Hpos.
  assert (Hbk : forall col, (bucket_count rs' (b_ID x) col
     + Z.b2z (bool_decide (bucketColumn (r_Status r) = col))
     = bucket_count rs (b_ID x) col + Z.b2z (bool_decide (bucketColumn st = col)))%Z).
  { intros col. pose proof (bucket_count_set_Status rs r st (b_ID x) col Hnd Hr) as H.
    by rewrite (proj2 (in_batch_id _ _) Hb) in H. }
  pose proof (Hbk "pending_count"%string) as HP. pose proof (Hbk "sent_count"%string) as HS.
  pose proof (Hbk "failed_count"%string) as HF. pose proof (Hbk "cancelled_count"%string) as HC.
  assert (HT : batch_size rs' (b_ID x) = batch_size rs (b_ID x)) by apply batch_size_set_Status.
  destruct x as [id u k tc pc sc fc cc ct]. simpl in *.
  destruct (bucketColumn_cases (r_Status r)) as [E|[E|[E|E]]]; rewrite E in *;
    destruct (bucketColumn_cases st) as [E'|[E'|[E'|E']]]; rewrite E' in *;
    split; simpl in *; lia.
Qed.

Lemma counters_other rs r st x :
  NoDup (map r_ID rs) -> r ∈ rs -> r_BatchID r <> Some (b_ID x) -> counters_ok rs x ->
  counters_ok (update_where (by_request_id (r_ID r)) (set_Status st) rs) x.
Proof.
  intros Hnd Hr Hb [T P S F C].
  assert (Hbk : forall col, bucket_count (update_where (by_request_id (r_ID r)) (set_Status st) rs)
     (b_ID x) col = bucket_count rs (b_ID x) col).
  { intros col. pose proof (bucket_count_set_Status rs r st (b_ID x) col Hnd Hr) as H.
    assert (in_batch (b_ID x) r = false) as Hf by (by apply bool_decide_false).
    rewrite Hf in H. simpl in H. lia. }
  split; rewrite ?Hbk, ?batch_size_set_Status; done.
Qed.

(** Updating the status of one request and moving its unit keeps all counters. *)
Lemma counters_set_Status rs r st bs :
  NoDup (map r_ID rs) -> NoDup (map b_ID bs) -> r ∈ rs ->
  (forall b, b ∈ bs -> counters_ok rs b) ->
  let rs' := update_where (by_request_id (r_ID r)) (set_Status st) rs in
  let from := bucketColumn (r_Status r) in let to := bucketColumn st in
  forall b, b ∈ match r_BatchID r with
                | None => bs
                | Some id => if String.eqb from to then bs
                             else update_where (by_batch_id id) (move_unit from to) bs
                end -> counters_ok rs' b.
Proof.
  intros Hnd _ Hr Hok rs' from to b Hb.
  destruct (r_BatchID r) as [id|] eqn:E; [|by apply counters_other; [..|rewrite E|auto]].
  destruct (String.eqb from to) eqn:Ec.
  - destruct (decide (b_ID b = id)) as [<-|Hne].
    + pose proof (counters_move rs r st b Hnd Hr E (Hok b Hb)) as H.
      fold from to in H. by rewrite Ec in H.
    + apply counters_other; [done|done|congruence|auto].
  - apply elem_of_update in Hb as (x & Hx & ->). unfold by_batch_id.
    case_bool_decide as Hid.
    + subst id. pose proof (counters_move rs r st x Hnd Hr E (Hok x Hx)) as H.
      fold from to in H. by rewrite Ec in H.
    + apply counters_other; [done|done|congruence|auto].
Qed.

Lemma statuses_set_requests rid l d : statuses_of rid (set_requests l d) = statuses_of rid d.
Proof. done. Qed.
Lemma statuses_set_batches rid l d : statuses_of rid (set_batches l d) = statuses_of rid d.
Proof. done. Qed.

(** A request after [set_Status] on the requests with one id. *)
Lemma elem_of_set_Status rid st rs q :
  q ∈ update_where (by_request_id rid) (set_Status st) rs ->
  exists q0, q0 ∈ rs /\ r_ID q = r_ID q0 /\ r_BatchID q = r_BatchID q0 /\ r_UserID q = r_UserID q0 /\
    r_IdempotencyKey q = r_IdempotencyKey q0 /\
    r_Status q = if bool_decide (r_ID q0 = rid) then st else r_Status q0.
Proof. intros (q0 & Hq & ->)%elem_of_update. exists q0. unfold by_request_id. by case_bool_decide. Qed.

(** The recomputation of a request restores the invariant. *)
Lemma recomputed_wf r d :
  db_wf_but (eq (r_ID r)) nothing d -> r ∈ requests d -> db_wf (recomputed r d).
Proof.
  intros [H1 H2 H3 H4 H5 H6 H7 H8 H9 H10 H11 H12] Hr. unfold recomputed.
  set (st := AggregateRequestStatus (statuses_of (r_ID r) d)).
  case_bool_decide as Hst.
  { split; try done. intros q Hq _ Hne. destruct (decide (r_ID r = r_ID q)) as [E|E].
    - apply (NoDup_key_inj r_ID _ _ _ H1 Hr Hq) in E as <-. by rewrite <- Hst.
    - by apply (H10 q Hq E). }
  set (rs := update_where (by_request_id (r_ID r)) (set_Status st) (requests d)).
  assert (Hids : map r_ID rs = map r_ID (requests d)) by (by apply map_update_key).
  pose proof (elem_of_set_Status (r_ID r) st (requests d)) as Hin. fold rs in Hin.
  set (d' := match r_BatchID r with
             | None => set_requests rs d
             | Some b => if String.eqb (bucketColumn (r_Status r)) (bucketColumn st)
                 then set_requests rs d
                 else set_batches (update_where (by_batch_id b)
                        (move_unit (bucketColumn (r_Status r)) (bucketColumn st))
                        (batches (set_requests rs d))) (set_requests rs d)
             end).
  assert (Hd : requests d' = rs /\ deliveries d' = deliveries d /\ outbox d' = outbox d /\
    batches d' = match r_BatchID r with
                 | None => batches d
                 | Some id => if String.eqb (bucketColumn (r_Status r)) (bucketColumn st)
                     then batches d
                     else update_where (by_batch_id id)
                       (move_unit (bucketColumn (r_Status r)) (bucketColumn st)) (batches d)
                 end).
  { unfold d'. destruct (r_BatchID r); [destruct (String.eqb _ _)|]; done. }
  destruct Hd as (Er & Ed & Eo & Eb).
  assert (Hbids : map b_ID (batches d') = map b_ID (batches d)).
  { rewrite Eb. destruct (r_BatchID r); [destruct (String.eqb _ _)|]; try done.
    apply map_update_key. intros x _. unfold move_unit.
    destruct (batch_column _ _); [destruct (batch_column _ _)|]; done. }
  split; rewrite ?Er, ?Ed, ?Eo, ?Hbids, ?Hids; try done.
  - intros q1 q2 (p1 & Hp1 & E1 & _ & U1 & K1 & _)%Hin (p2 & Hp2 & E2 & _ & U2 & K2 & _)%Hin.
    unfold same_idem. rewrite E1, E2, U1, U2, K1, K2. by apply H6.
  - intros x Hx. destruct (H7 x Hx) as (q & Hq & E).
    exists (if by_request_id (r_ID r) q then set_Status st q else q).
    split; [apply elem_of_update; eauto|]. by destruct (by_request_id _ _).
  - intros q b (q0 & Hq & E & Ebt & _)%Hin Hb. rewrite Ebt in Hb.
    destruct (H8 q0 b Hq Hb) as (x & Hx & Hxb).
    assert (Hm : b ∈ map b_ID (batches d')).
    { rewrite Hbids. apply list_elem_of_fmap. eauto. }
    apply list_elem_of_fmap in Hm as (y & -> & Hy). eauto.
  - intros q (q0 & Hq & E & _ & _ & _ & Es)%Hin _ Hne.
    assert (Hso : statuses_of (r_ID q) d' = statuses_of (r_ID q0) d).
    { unfold statuses_of. by rewrite Ed, E. }
    rewrite Hso in Hne |- *. rewrite Es. case_bool_decide as Eq; [by unfold st; rewrite Eq|].
    by apply H10.
  - intros b Hb _. rewrite Eb in Hb.
    apply (counters_set_Status (requests d) r st (batches d)); try done.
    intros b0 Hb0. apply H11; [done|apply not_nothing].
  - split; [by apply H12|]. intros q (q0 & Hq & ->)%elem_of_update.
    destruct (by_request_id _ _); simpl; by apply H12.
Qed.

Lemma recompute_wf rid d d' :
  db_wf_but (eq rid) nothing d -> runs (recomputeRequestStatusTx rid) d () d' -> db_wf d'.
Proof.
  intros Hwf (r & Hr & <- & ->)%recompute_runs. by apply recomputed_wf.
Qed.

(** ** Status-changing operations *)

Lemma wf_weaken skip skipb skip' skipb' d :
  (forall i, skip i -> skip' i) -> (forall i, skipb i -> skipb' i) ->
  db_wf_but skip skipb d -> db_wf_but skip' skipb' d.
Proof. intros H H' []. split; try done; naive_solver. Qed.

Lemma set_deliveries_id d : set_deliveries (deliveries d) d = d.
Proof. by destruct d. Qed.

Lemma claim_runs id at_ lease now d o d' :
  runs (ClaimDelivery id at_ lease now) d o d' ->
  d' = d \/ d' = update_deliveries (claimable id at_) (claim_row lease now) d.
Proof.
  unfold ClaimDelivery. intros H. inv_runs.
  assert (d' = d0) as ->.
  { destruct a as [x|e]; [|destruct (errors_Is e ErrNotFound)]; by inv_runs. }
  destruct Hr as (s & s' & <- & Hm & <-).
  apply scan_entity_state in Hm as (r1 & Hm). apply Scan_state in Hm as (r2 & Hm).
  assert (He : ends (Exec (claim_sql id at_ lease now)) (db s) r2 (db s')) by (by exists s, s').
  apply Exec_ends in He. unfold claim_sql in He.
  destruct r2; [|destruct He as [->|[? He]]; [by left|]]; right; by simplify_eq.
Qed.

Lemma claim_wf id at_ lease now d o d' :
  runs (ClaimDelivery id at_ lease now) d o d' -> db_wf d -> db_wf d'.
Proof.
  intros Hd%claim_runs Hwf.
  destruct Hd as [->| ->]; [done|].
  apply wf_update_progress; [done|apply claim_row_update|].
  intros x _ Hx. split; [|done]. unfold claimable in Hx.
  apply andb_true_iff in Hx as [_ Hx]. apply orb_true_iff in Hx as [Hx|Hx];
    apply has_status_eq in Hx; by rewrite Hx.
Qed.

Lemma mark_sql_runs valid id at_ f d d' :
  runs (Exec (mark_sql valid id at_ f)) d () d' ->
  valid = true /\ d' = update_deliveries (by_delivery_key id at_) f d.
Proof. intros H. apply Exec_runs in H. unfold mark_sql in H. by destruct valid; simplify_eq. Qed.

(** The caller passes the request id of the row it finalizes. *)
Definition request_of_row (id : uuid) (at_ : time) (rid : uuid) (d : DB) : Prop :=
  forall x, x ∈ deliveries d -> del_key x = (id, timestamptz at_) -> d_RequestID x = rid.

Lemma finalize_wf id at_ rid f d d1 d' :
  (forall x, del_key (f x) = del_key x) -> (forall x, d_RequestID (f x) = d_RequestID x) ->
  (forall x, d_LockedUntil (f x) = None /\ d_Status (f x) <> DeliveryProcessing /\ times_ok (f x)) ->
  request_of_row id at_ rid d -> db_wf d ->
  d1 = update_deliveries (by_delivery_key id at_) f d ->
  runs (recomputeRequestStatusTx rid) d1 () d' -> db_wf d'.
Proof.
  intros K R L Hrow Hwf -> H. eapply recompute_wf, H.
  apply wf_update_request; [done|by apply mark_row_update|].
  intros x Hx Hp. unfold by_delivery_key in Hp. bool_to_prop. by apply Hrow.
Qed.

Lemma MarkSent_wf id at_ rid pmid now d d' :
  runs (MarkSent id at_ rid pmid now) d () d' ->
  request_of_row id at_ rid d -> db_wf d -> db_wf d'.
Proof.
  unfold MarkSent. intros H Hrow Hwf. inv_runs.
  unfold mark_sql in Hr. case_match; simplify_eq.
  by eapply (finalize_wf id at_ rid (sent_row pmid now)).
Qed.

Lemma MarkFailed_wf id at_ rid n err now d d' :
  runs (MarkFailed id at_ rid n err now) d () d' ->
  request_of_row id at_ rid d -> db_wf d -> db_wf d'.
Proof.
  unfold MarkFailed. intros H Hrow Hwf. inv_runs.
  unfold mark_sql in Hr. case_match; simplify_eq.
  by eapply (finalize_wf id at_ rid (failed_row n err now)).
Qed.

(** The row to be retried is still in progress: its lease has not been lost to a
    finalizer. *)
Definition row_in_progress (id : uuid) (at_ : time) (d : DB) : Prop :=
  forall x, x ∈ deliveries d -> del_key x = (id, timestamptz at_) -> IsTerminal (d_Status x) = false.

Lemma MarkRetrying_wf id at_ n next err now d d' :
  runs (MarkRetrying id at_ n next err now) d () d' ->
  row_in_progress id at_ d -> db_wf d -> db_wf d'.
Proof.
  unfold MarkRetrying. intros H Hrow Hwf. inv_runs.
  unfold mark_sql in H. case_match; simplify_eq.
  apply wf_update_progress; [done|by apply mark_row_update|].
  intros x Hx Hp. unfold by_delivery_key in Hp. bool_to_prop. split; [by apply Hrow|done].
Qed.

Lemma cancellable_spec rid x :
  cancellable rid x = true <->
  d_RequestID x = rid /\
  (d_Status x = DeliveryScheduled \/ d_Status x = DeliveryPending \/ d_Status x = DeliveryRetrying).
Proof.
  unfold cancellable, by_request. rewrite andb_true_iff, !orb_true_iff, bool_decide_eq_true.
  rewrite !has_status_eq. tauto.
Qed.

Lemma CancelRequest_steps rid now d r d' :
  runs (CancelRequest rid now) d r d' ->
  count_where (cancellable rid) (deliveries d) <> 0 /\
  runs (recomputeRequestStatusTx rid)
    (update_deliveries (cancellable rid) (cancelled_row now) d) () d' /\
  r ∈ requests d' /\ r_ID r = rid.
Proof.
  unfold CancelRequest, select_request, scanRequest. intros H. inv_runs.
  unfold cancel_sql in *. simplify_eq. bool_to_prop.
  split_and!; [done|done| |]; by eapply head_where_request.
Qed.

Lemma CancelRequest_wf rid now d r d' :
  runs (CancelRequest rid now) d r d' -> db_wf d -> db_wf d'.
Proof.
  intros (_ & H & _)%CancelRequest_steps Hwf. eapply recompute_wf, H.
  apply wf_update_request; [done| |].
  - apply unlocked_row_update; try done. intros x _ Hx. apply cancellable_spec in Hx.
    destruct Hx as [_ [E|[E|E]]]; by rewrite E.
  - intros x _ Hx. by apply cancellable_spec in Hx as [? _].
Qed.

Lemma ReapStuck_wf now d n d' : runs (ReapStuck now) d n d' -> db_wf d -> db_wf d'.
Proof.
  unfold ReapStuck. intros H Hwf. inv_runs. unfold reap_sql in Hr. simplify_eq.
  apply wf_update_progress; [done|by apply mark_row_update|].
  intros x _ Hx. unfold lease_expired in Hx. bool_to_prop.
  match goal with H : has_status _ _ = true |- _ => apply has_status_eq in H; by rewrite H end.
Qed.

(** ** Operations on the outbox *)

Section outbox_wf.
Context `{codec : !MessageCodec}.

Lemma wf_set_outbox skip skipb l d :
  NoDup (map ob_id l) -> db_wf_but skip skipb d -> db_wf_but skip skipb (set_outbox l d).
Proof. intros Hnd []. by split. Qed.

Lemma insertOutbox_runs o now d d' :
  runs (insertOutbox o now) d () d' ->
  exists payload, marshalMessage (o_Message o) = Ok payload /\
    o_ID o ∉ map ob_id (outbox d) /\
    d' = set_outbox (outbox d ++ [mkOutboxRow (o_ID o) (o_DeliveryID o)
           (timestamptz (o_DeliveryCreatedAt o)) (o_Stream o) payload now None]) d.
Proof.
  unfold insertOutbox. intros H. inv_runs. exists a. split; [done|].
  unfold insert_outbox_sql in H. simpl in H.
  destruct (varchar 64 (o_Stream o)); [|done]. simpl in H.
  destruct (existsb _ (outbox d)) eqn:E; simplify_eq. split; [|done].
  rewrite list_elem_of_fmap. intros (row & Hid & Hrow).
  rewrite <- not_true_iff_false, existsb_exists in E. apply E.
  exists row. rewrite <- list_elem_of_In. split; [done|]. by apply N.eqb_eq.
Qed.

Lemma wf_append_outbox skip skipb row d :
  ob_id row ∉ map ob_id (outbox d) ->
  db_wf_but skip skipb d -> db_wf_but skip skipb (set_outbox (outbox d ++ [row]) d).
Proof.
  intros Hnew Hwf. apply wf_set_outbox; [|done].
  rewrite map_app. simpl. apply NoDup_app. split_and!.
  - apply Hwf.
  - set_solver.
  - apply NoDup_singleton.
Qed.

Lemma insertOutbox_wf skip skipb o now d d' :
  runs (insertOutbox o now) d () d' -> db_wf_but skip skipb d -> db_wf_but skip skipb d'.
Proof.
  intros (payload & _ & Hnew & ->)%insertOutbox_runs. by apply wf_append_outbox.
Qed.

Context `{uuids : !UuidSource}.

Lemma New_uuid_runs d id d' : runs New_uuid d id d' -> d' = d.
Proof. intros (s & s' & <- & H & <-). unfold New_uuid in H. by simplify_eq. Qed.

Lemma enqueueDueTx_wf now r d d' :
  runs (enqueueDueTx now r) d () d' -> db_wf d -> db_wf d'.
Proof.
  unfold enqueueDueTx. intros H Hwf. inv_runs. apply New_uuid_runs in Hr as ->.
  by eapply insertOutbox_wf.
Qed.

Lemma enqueue_all_wf now l d d' :
  runs (for_each (enqueueDueTx now) l) d () d' -> db_wf d -> db_wf d'.
Proof.
  intros H Hwf. eapply (for_each_runs (enqueueDueTx now) db_wf); [|done|done].
  intros x d1 d2 _ H1 H2. by eapply enqueueDueTx_wf.
Qed.

Lemma transition_wf due key locked now limit d rows d' :
  (forall x, due x = true -> d_Status x = DeliveryScheduled \/ d_Status x = DeliveryRetrying) ->
  transition_sql due key locked now limit d = Ok (rows, d') -> db_wf d -> db_wf d'.
Proof.
  intros Hdue H Hwf. unfold transition_sql, limit_rows in H.
  destruct (limit <? 0)%Z; simplify_eq.
  set (sel := take _ _).
  assert (Hsel : forall x, x ∈ sel -> x ∈ deliveries d /\
    (d_Status x = DeliveryScheduled \/ d_Status x = DeliveryRetrying)).
  { intros x Hx. apply elem_of_take in Hx as (i & Hi & _).
    apply list_elem_of_lookup_2 in Hi. unfold order_by in Hi.
    rewrite merge_sort_Permutation in Hi. apply elem_of_where in Hi as [Hi Hd].
    apply andb_true_iff in Hd as [Hd _]. auto. }
  assert (Hch : forall x, x ∈ deliveries d -> del_key x ∈ map del_key sel ->
    d_Status x = DeliveryScheduled \/ d_Status x = DeliveryRetrying).
  { intros x Hx Hk. apply list_elem_of_fmap in Hk as (y & Hk & Hy).
    destruct (Hsel y Hy) as [Hy1 Hy2].
    by rewrite (NoDup_key_inj del_key (deliveries d) x y (wf_delivery_keys _ _ _ Hwf) Hx Hy1 Hk). }
  apply wf_update_progress; [done| |].
  - apply unlocked_row_update; try done. intros x Hx Hk. bool_to_prop.
    destruct (Hch x Hx Hk) as [E|E]; by rewrite E.
  - intros x Hx Hk. bool_to_prop. destruct (Hch x Hx Hk) as [E|E]; by rewrite E.
Qed.

Lemma transitionAndEnqueue_wf query now limit d n d' :
  (forall d rows d', query limit d = Ok (rows, d') -> db_wf d -> db_wf d') ->
  runs (transitionAndEnqueue query now limit) d n d' -> db_wf d -> db_wf d'.
Proof.
  unfold transitionAndEnqueue. intros Hq H Hwf. inv_runs.
  eapply enqueue_all_wf; eauto.
Qed.

Lemma PromoteDue_wf locked now limit d n d' :
  runs (PromoteDue locked now limit) d n d' -> db_wf d -> db_wf d'.
Proof.
  apply transitionAndEnqueue_wf. intros ???. apply transition_wf.
  intros x Hx. apply andb_true_iff in Hx as [Hx _]. apply has_status_eq in Hx. auto.
Qed.

Lemma SweepRetries_wf locked now limit d n d' :
  runs (SweepRetries locked now limit) d n d' -> db_wf d -> db_wf d'.
Proof.
  apply transitionAndEnqueue_wf. intros ???. apply transition_wf.
  intros x Hx. apply andb_true_iff in Hx as [Hx _]. apply has_status_eq in Hx. auto.
Qed.

Lemma ReconcilePending_wf locked clock now older limit d n d' :
  runs (ReconcilePending locked clock now older limit) d n d' -> db_wf d -> db_wf d'.
Proof.
  unfold ReconcilePending. intros H Hwf. inv_runs.
  match goal with H : _ = Ok _ |- _ => clear H | _ => idtac end.
  eapply enqueue_all_wf; eauto.
Qed.

Lemma MarkOutboxPublished_wf ids now d d' :
  runs (MarkOutboxPublished ids now) d () d' -> db_wf d -> db_wf d'.
Proof.
  unfold MarkOutboxPublished. intros H Hwf. inv_runs; [done|].
  unfold mark_published_sql in H. simplify_eq.
  apply wf_set_outbox; [|done]. rewrite map_update_key; [apply Hwf|done].
Qed.

Lemma PurgePublishedOutbox_wf before d n d' :
  runs (PurgePublishedOutbox before) d n d' -> db_wf d -> db_wf d'.
Proof.
  unfold PurgePublishedOutbox. intros H Hwf. inv_runs.
  unfold purge_published_outbox in Hr. simplify_eq. apply wf_set_outbox; [|done].
  by apply NoDup_map_where, Hwf.
Qed.
End outbox_wf.
