(* ===== verification/StoreCreate.v ===== *)
(** * Creation of notifications and batches

    What [CreateNotification] and [CreateBatch] insert, as functions on the
    tables, and that they keep the invariant of [StoreInv] for the rows the
    service builds ([new_item]). [keep] is the reference definition of a batch's
    deduplication. *)

From S2P Require Import Prelude GoStrings Domain Template Store StoreRuns StoreInv.

(** ** Appending one row *)

Lemma map_append {A B} (f : A -> B) l x : map f (l ++ [x]) = map f l ++ [f x].
Proof. by rewrite map_app. Qed.

Lemma NoDup_append {A} (l : list A) x : NoDup l -> x ∉ l -> NoDup (l ++ [x]).
Proof. intros Hl Hx. apply NoDup_app. split_and!; [done|set_solver|apply NoDup_singleton]. Qed.

Lemma elem_of_append {A} (l : list A) x y : y ∈ l ++ [x] <-> y ∈ l \/ y = x.
Proof. set_solver. Qed.

Lemma existsb_key {A} (k : A -> N) (l : list A) i :
  existsb (fun x => k x =? i)%N l = false <-> i ∉ map k l.
Proof.
  rewrite <- not_true_iff_false, existsb_exists, list_elem_of_fmap.
  setoid_rewrite N.eqb_eq. setoid_rewrite <- list_elem_of_In. naive_solver.
Qed.

Lemma request_conflict_same r rs q :
  request_conflict r rs = false -> q ∈ rs -> same_idem q r -> False.
Proof.
  unfold request_conflict, same_idem. intros H Hq (U & K & S). rewrite <- K in H.
  destruct (r_IdempotencyKey q) as [k|] eqn:E; [|by destruct S].
  rewrite <- not_true_iff_false, existsb_exists in H. apply H. exists q.
  rewrite <- list_elem_of_In. split; [done|]. unfold request_idem.
  by rewrite U, String.eqb_refl, E, bool_decide_true.
Qed.

Lemma insert_request_sql_ok r d d' :
  insert_request_sql r d = Ok ((), d') ->
  r_ID r ∉ map r_ID (requests d) /\ request_conflict r (requests d) = false /\
  request_fk_ok r d = true /\ d' = set_requests (requests d ++ [stored_request r]) d.
Proof.
  unfold insert_request_sql. destruct (negb (request_columns_ok r)); [done|].
  destruct (existsb _ (requests d)) eqn:E; [done|]. apply existsb_key in E.
  destruct (request_conflict r (requests d)); [done|].
  destruct (request_fk_ok r d); [|done]. simpl. intros. by simplify_eq.
Qed.

Lemma insertRequest_runs r d d' :
  runs (insertRequest r) d () d' -> insert_request_sql r d = Ok ((), d').
Proof.
  unfold insertRequest. intros H. inv_runs. destruct a as [[]|e]; by inv_runs.
Qed.

Lemma insertRequestOnConflict_runs r d b d' :
  runs (insertRequestOnConflict r) d b d' ->
  if request_conflict r (requests d) then b = false /\ d' = d
  else b = true /\ insert_request_sql r d = Ok ((), d').
Proof.
  unfold insertRequestOnConflict. intros H. inv_runs.
  unfold insert_request_on_conflict_sql in Hr.
  destruct (negb (request_columns_ok r)); [done|].
  destruct (request_conflict r (requests d)); [by simplify_eq|].
  destruct (insert_request_sql r d) as [[[] d1]|e]; by simplify_eq.
Qed.

Lemma insertDelivery_runs x d d' :
  runs (insertDelivery x) d () d' ->
  del_key (stored_delivery x) ∉ map del_key (deliveries d) /\
  d' = set_deliveries (deliveries d ++ [stored_delivery x]) d.
Proof.
  unfold insertDelivery. intros H. inv_runs. unfold insert_delivery_sql in H.
  destruct (negb (delivery_columns_ok x)); [done|].
  destruct (existsb _ (deliveries d)) eqn:E; simplify_eq. split; [|done].
  rewrite list_elem_of_fmap. intros (y & Hk & Hy).
  rewrite <- not_true_iff_false, existsb_exists in E. apply E. exists y.
  rewrite <- list_elem_of_In. split; [done|]. unfold by_delivery_key, del_key in *.
  by apply bool_decide_eq_true.
Qed.

(** ** The invariant under insertion *)

Lemma batch_size_append rs r b :
  batch_size (rs ++ [r]) b = (batch_size rs b + Z.b2z (in_batch b r))%Z.
Proof.
  unfold batch_size. rewrite count_app, count_cons. change (count_where _ []) with 0.
  destruct (in_batch b r); simpl; lia.
Qed.

Lemma bucket_count_append rs r b col :
  bucket_count (rs ++ [r]) b col
  = (bucket_count rs b col + Z.b2z (in_batch b r && in_bucket col r))%Z.
Proof.
  unfold bucket_count. rewrite count_app, count_cons. change (count_where _ []) with 0.
  destruct (in_batch b r && in_bucket col r); simpl; lia.
Qed.

Lemma counters_append rs r b :
  r_BatchID r <> Some (b_ID b) -> counters_ok rs b -> counters_ok (rs ++ [r]) b.
Proof.
  intros Hb []. assert (in_batch (b_ID b) r = false) as E by (by apply bool_decide_false).
  split; rewrite ?batch_size_append, ?bucket_count_append, E; simpl; lia.
Qed.

Lemma wf_no_deliveries skip skipb d i :
  db_wf_but skip skipb d -> i ∉ map r_ID (requests d) ->
  forall x, x ∈ deliveries d -> d_RequestID x <> i.
Proof.
  intros Hwf Hi x Hx E. destruct (wf_delivery_request _ _ _ Hwf x Hx) as (r & Hr & Er).
  apply Hi, list_elem_of_fmap. exists r. split; congruence.
Qed.

Lemma fk_batch r d b :
  request_fk_ok r d = true -> r_BatchID r = Some b -> exists x, x ∈ batches d /\ b_ID x = b.
Proof.
  unfold request_fk_ok. intros [H _]%andb_true_iff E. rewrite E in H.
  apply existsb_exists in H as (x & Hx & Hb). apply N.eqb_eq in Hb.
  exists x. by rewrite list_elem_of_In.
Qed.

Lemma wf_append_request skipb r d d' :
  db_wf_but nothing skipb d -> insert_request_sql r d = Ok ((), d') ->
  (forall b, r_BatchID r = Some b -> skipb b) -> db_wf_but nothing skipb d'.
Proof.
  intros Hwf (Hid & Hconf & Hfk & ->)%insert_request_sql_ok Hb.
  pose proof (wf_no_deliveries _ _ _ _ Hwf Hid) as Hnone.
  destruct Hwf as [H1 H2 H3 H4 H5 H6 H7 H8 H9 H10 H11 H12]. split; try done; simpl.
  - rewrite map_append. by apply NoDup_append.
  - intros r1 r2. rewrite !elem_of_append. intros [Hr1| ->] [Hr2| ->] Hs; try done; eauto.
    + by destruct (request_conflict_same r (requests d) r1).
    + destruct (request_conflict_same r (requests d) r2); try done.
      destruct Hs as (U & K & S). by rewrite K in S.
  - intros x Hx. destruct (H7 x Hx) as (q & Hq & E). exists q. set_solver.
  - intros q b. rewrite elem_of_append. intros [Hq| ->] E; eauto using fk_batch.
  - intros q. rewrite elem_of_append. intros [Hq| ->] Hs; [by apply H10|].
    intros Hne. destruct Hne. by apply statuses_nil.
  - intros b Hin Hs. apply counters_append; [|auto]. intros E. by apply Hs, Hb.
  - split; [apply H12|]. intros q. rewrite elem_of_append. intros [Hq| ->]; [by apply H12|].
    apply timestamptz_micros.
Qed.

Lemma wf_append_delivery skipb x r d :
  db_wf_but nothing skipb d -> del_key x ∉ map del_key (deliveries d) ->
  r ∈ requests d -> r_ID r = d_RequestID x -> r_Status r = RequestPending ->
  (forall y, y ∈ deliveries d -> d_RequestID y <> r_ID r) ->
  IsTerminal (d_Status x) = false -> row_ok x -> micros (d_CreatedAt x) ->
  db_wf_but nothing skipb (set_deliveries (deliveries d ++ [x]) d).
Proof.
  intros [H1 H2 H3 H4 H5 H6 H7 H8 H9 H10 H11 H12] Hk Hr Hid Hst Hnone Hterm Hl Hm.
  split; try done; simpl.
  - rewrite map_append. by apply NoDup_append.
  - rewrite map_append. apply NoDup_append; [done|]. rewrite list_elem_of_fmap.
    intros (y & E & Hy). apply (Hnone y Hy). congruence.
  - intros y. rewrite elem_of_append. intros [Hy| ->]; eauto.
  - intros y. rewrite elem_of_append. intros [Hy| ->]; eauto.
  - intros q Hq _. unfold status_ok, statuses_of. simpl. rewrite where_app, map_app.
    assert (Ew : where_ (by_request (r_ID q)) [x] =
      if bool_decide (d_RequestID x = r_ID q) then [x] else []) by done.
    rewrite Ew. case_bool_decide as E; [|simpl; rewrite app_nil_r; exact (H10 q Hq (not_nothing _))].
    intros _. assert (q = r) as -> by (apply (NoDup_key_inj r_ID _ _ _ H1 Hq Hr); congruence).
    rewrite Hst. symmetry. apply (aggregate_nonterminal _ (d_Status x)); [|done]. set_solver.
  - split; [|apply H12]. intros y. rewrite elem_of_append. intros [Hy| ->]; [by apply H12|done].
Qed.

(** ** The rows the service builds *)

Record new_item (batch : option uuid) (r : Request) (x : Delivery) : Prop := {
  ni_batch : r_BatchID r = batch;
  ni_status : r_Status r = RequestPending;
  ni_request : d_RequestID x = r_ID r;
  ni_delivery : d_Status x = DeliveryPending \/ d_Status x = DeliveryScheduled;
  ni_lock : d_LockedUntil x = None;
  ni_time : d_Status x = DeliveryScheduled -> is_Some (d_SendAt x)
}.

Lemma wf_append_item skipb batch r x d d1 :
  db_wf_but nothing skipb d -> new_item batch r x ->
  insert_request_sql r d = Ok ((), d1) -> (forall b, batch = Some b -> skipb b) ->
  del_key (stored_delivery x) ∉ map del_key (deliveries d1) ->
  db_wf_but nothing skipb (set_deliveries (deliveries d1 ++ [stored_delivery x]) d1).
Proof.
  intros Hwf [] Hins Hb Hk.
  assert (Hwf1 : db_wf_but nothing skipb d1)
    by (eapply wf_append_request; [done|done|]; subst batch; done).
  apply insert_request_sql_ok in Hins as (Hid & _ & _ & ->).
  apply (wf_append_delivery skipb (stored_delivery x) (stored_request r)); try done; simpl.
  - set_solver.
  - by eapply wf_no_deliveries.
  - by destruct ni_delivery0 as [-> | ->].
  - unfold row_ok, lease_ok, times_ok. simpl. rewrite ni_lock0. split; [|split; [|]].
    + destruct ni_delivery0 as [-> | ->]; (split; [done|by intros []]).
    + intros E. destruct (ni_time0 E) as [t ->]. by eexists.
    + by destruct ni_delivery0 as [-> | ->].
  - apply timestamptz_micros.
Qed.

Section create.
Context `{codec : !MessageCodec}.

(** The outbox row of a record whose message encodes. *)
Definition outbox_row (now : time) (o : OutboxRecord) : option OutboxRow :=
  match marshalMessage (o_Message o) with
  | Ok payload => Some (mkOutboxRow (o_ID o) (o_DeliveryID o) (timestamptz (o_DeliveryCreatedAt o))
                          (o_Stream o) payload now None)
  | Err _ => None
  end.

(** Every message of the records encodes. *)
Definition encodes (now : time) (os : list OutboxRecord) : Prop :=
  Forall (fun o => is_Some (outbox_row now o)) os.

(** The tables with one item more. *)
Definition add_item (now : time) (r : Request) (x : Delivery) (o : option OutboxRecord)
    (d : DB) : DB :=
  set_outbox (outbox d ++ omap (outbox_row now) (option_list o))
    (set_deliveries (deliveries d ++ [stored_delivery x])
       (set_requests (requests d ++ [stored_request r]) d)).

Lemma set_outbox_nil d : set_outbox (outbox d ++ []) d = d.
Proof. rewrite app_nil_r. by destruct d. Qed.

Lemma opt_outbox_runs o now d d' :
  runs (match o with Some o => insertOutbox o now | None => mret () end) d () d' ->
  d' = set_outbox (outbox d ++ omap (outbox_row now) (option_list o)) d /\
  encodes now (option_list o) /\
  forall skip skipb, db_wf_but skip skipb d -> db_wf_but skip skipb d'.
Proof.
  destruct o as [o|]; intros H.
  - split_and!; [| |intros skip skipb; by eapply insertOutbox_wf];
      apply insertOutbox_runs in H as (payload & E & _ & ->).
    + simpl. unfold outbox_row. by rewrite E.
    + apply Forall_singleton. unfold outbox_row. by rewrite E.
  - inv_runs. rewrite set_outbox_nil. split_and!; [done|by apply Forall_nil|done].
Qed.

Lemma add_item_runs r x o now d d1 d2 d' :
  insert_request_sql r d = Ok ((), d1) -> runs (insertDelivery x) d1 () d2 ->
  runs (match o with Some o => insertOutbox o now | None => mret () end) d2 () d' ->
  request_conflict r (requests d) = false /\ d' = add_item now r x o d /\
  encodes now (option_list o) /\
  forall skipb batch, (forall b, batch = Some b -> skipb b) -> new_item batch r x ->
    db_wf_but nothing skipb d -> db_wf_but nothing skipb d'.
Proof.
  intros H1 [Hk ->]%insertDelivery_runs Ho.
  apply (opt_outbox_runs o now) in Ho as (-> & Henc & Hwf).
  pose proof (insert_request_sql_ok _ _ _ H1) as (_ & Hc & _ & E). split_and!; [done|by rewrite E|done|].
  intros skipb batch Hb Hnew Hd. apply Hwf. by eapply wf_append_item.
Qed.

Lemma CreateNotification_runs r x o now d d' :
  runs (CreateNotification r x o now) d () d' ->
  request_conflict r (requests d) = false /\ d' = add_item now r x o d /\
  encodes now (option_list o) /\ (new_item None r x -> db_wf d -> db_wf d').
Proof.
  unfold CreateNotification. intros H. inv_runs. apply insertRequest_runs in Hr.
  destruct (add_item_runs r x o now d d0 d1 d' Hr Hr0 H) as (Hc & E & Henc & Hwf).
  split_and!; [done|done|done|]. intros Hnew. by apply (Hwf nothing None).
Qed.

(** ** Batches *)

(** The items of a batch that are created: those whose idempotency key is
    neither in the table nor used by an earlier item. *)
Fixpoint keep (rs : list Request) (items : list BatchItem) : list BatchItem :=
  match items with
  | [] => []
  | item :: rest =>
      if request_conflict (bi_Request item) rs then keep rs rest
      else item :: keep (rs ++ [stored_request (bi_Request item)]) rest
  end.

Definition add_items (now : time) (items : list BatchItem) (d : DB) : DB :=
  foldl (fun d item => add_item now (bi_Request item) (bi_Delivery item) (bi_Outbox item) d)
    d items.

Lemma create_item_runs now item d b d' :
  runs (create_item now item) d b d' ->
  if request_conflict (bi_Request item) (requests d) then b = false /\ d' = d
  else b = true /\
    d' = add_item now (bi_Request item) (bi_Delivery item) (bi_Outbox item) d /\
    encodes now (option_list (bi_Outbox item)) /\
    forall skipb batch, (forall b, batch = Some b -> skipb b) ->
      new_item batch (bi_Request item) (bi_Delivery item) ->
      db_wf_but nothing skipb d -> db_wf_but nothing skipb d'.
Proof.
  unfold create_item. intros H. inv_runs.
  - apply insertRequestOnConflict_runs in Hr. bool_to_prop. subst a. 
    destruct (request_conflict _ _); naive_solver.
  - apply insertRequestOnConflict_runs in Hr. bool_to_prop. subst a.
    destruct (request_conflict _ _); [naive_solver|]. destruct Hr as [_ Hr].
    assert (Hb : b = true /\ runs (match bi_Outbox item with
                  | Some o => insertOutbox o now | None => mret () end) d1 () d').
    { destruct (bi_Outbox item); inv_runs; [done|].
      split; [done|]. exists (mkSess d1 None [] 0), (mkSess d1 None [] 0). done. }
    destruct Hb as [-> Ho].
    destruct (add_item_runs _ _ _ _ _ _ _ _ Hr Hr0 Ho) as (_ & E & Henc & Hwf). done.
Qed.

Lemma create_items_runs now items n d m d' :
  runs (create_items now items n) d m d' ->
  d' = add_items now (keep (requests d) items) d /\
  encodes now (omap bi_Outbox (keep (requests d) items)) /\
  m = (n + Z.of_nat (length (keep (requests d) items)))%Z.
Proof.
  revert n d. induction items as [|item items IH]; intros n d H; simpl in H.
  - inv_runs. simpl. split_and!; [done|by apply Forall_nil|lia].
  - inv_runs. apply create_item_runs in Hr. simpl.
    destruct (request_conflict _ _).
    + destruct Hr as [-> ->]. by apply IH.
    + destruct Hr as (-> & E & Henc & _). apply IH in H as (-> & Hall & ->). subst d0. simpl.
      split_and!; [done| |lia].
      destruct (bi_Outbox item); [|exact Hall]. apply Forall_cons. split; [|exact Hall].
      by apply (Forall_singleton (fun o => is_Some (outbox_row now o))) in Henc.
Qed.

Lemma add_items_proj now items d :
  requests (add_items now items d) =
    requests d ++ map (fun i => stored_request (bi_Request i)) items /\
  deliveries (add_items now items d) =
    deliveries d ++ map (fun i => stored_delivery (bi_Delivery i)) items /\
  outbox (add_items now items d) =
    outbox d ++ omap (outbox_row now) (omap bi_Outbox items) /\
  batches (add_items now items d) = batches d.
Proof.
  unfold add_items. revert d. induction items as [|item items IH]; intros d; simpl.
  - by rewrite !app_nil_r.
  - destruct (IH (add_item now (bi_Request item) (bi_Delivery item) (bi_Outbox item) d))
      as (-> & -> & -> & ->). simpl. rewrite <- !app_assoc. simpl.
    split_and!; try done. f_equal. destruct (bi_Outbox item) as [o|]; simpl; [|done].
    by destruct (outbox_row now o).
Qed.

Lemma add_items_others now items d :
  (templates (add_items now items d), archive (add_items now items d), partitions (add_items now items d))
  = (templates d, archive d, partitions d).
Proof. unfold add_items. revert d. induction items as [|item items IH]; intros d; simpl; [done|]. by rewrite IH. Qed.

Lemma create_items_wf now b items n d m d' :
  runs (create_items now items n) d m d' ->
  Forall (fun item => new_item (Some b) (bi_Request item) (bi_Delivery item)) items ->
  db_wf_but nothing (eq b) d -> db_wf_but nothing (eq b) d'.
Proof.
  revert n d. induction items as [|item items IH]; intros n d H Hall Hwf; simpl in H.
  - by inv_runs.
  - inv_runs. apply Forall_cons in Hall as [Hitem Hall].
    eapply IH; [exact H|done|]. apply create_item_runs in Hr.
    destruct (request_conflict _ _); [by destruct Hr as [_ ->]|].
    destruct Hr as (_ & _ & _ & Hr). apply (Hr _ (Some b)); naive_solver.
Qed.

Lemma keep_sublist rs items item : item ∈ keep rs items -> item ∈ items.
Proof.
  revert rs. induction items as [|x items IH]; intros rs; simpl; [done|].
  destruct (request_conflict _ _); [set_solver|].
  rewrite !elem_of_cons. intros [->|?]; [by left|right; eauto].
Qed.

Definition empty_batch (b : Batch) : Batch :=
  mkBatch (b_ID b) (b_UserID b) (b_IdempotencyKey b) 0 0 0 0 0 (timestamptz (b_CreatedAt b)).

Lemma CreateBatch_runs batch items now d res d' :
  runs (CreateBatch batch items now) d res d' ->
  b_ID batch ∉ map b_ID (batches d) /\ batch_conflict batch (batches d) = false /\
  exists n d1, let d0 := set_batches (batches d ++ [empty_batch batch]) d in
    runs (create_items now items 0) d0 n d1 /\
    d' = set_batches (update_where (by_batch_id (b_ID batch)) (set_counts n) (batches d1)) d1 /\
    res = mkBatchResult (set_counts n batch) n (Z.of_nat (length items) - n).
Proof.
  unfold CreateBatch. intros H. apply withTx_runs in H.
  apply runs_bind in H as ([] & d0 & Hb & H).
  apply runs_bind in H as (n & d1 & Hitems & H).
  assert (Hins : insert_batch_sql batch d = Ok ((), d0)).
  { apply runs_bind in Hb as (res1 & d2 & Hb & Hk). apply attempt_runs in Hb.
    destruct res1 as [[]|e]; by inv_runs. }
  clear Hb. inv_runs.
  unfold insert_batch_sql in Hins.
  destruct (negb _); [done|]. destruct (existsb _ (batches d)) eqn:E; [done|].
  apply existsb_key in E. destruct (batch_conflict batch (batches d)); [done|]. simplify_eq.
  split_and!; [done|done|]. exists n, d1. split; [done|].
  unfold set_counts_sql in *. by simplify_eq.
Qed.

Lemma CreateBatch_others batch items now d res d' :
  runs (CreateBatch batch items now) d res d' ->
  (templates d', archive d', partitions d') = (templates d, archive d, partitions d).
Proof.
  intros (_ & _ & n & d1 & H & -> & _)%CreateBatch_runs. apply create_items_runs in H as (-> & _ & _).
  simpl. by rewrite add_items_others.
Qed.

Lemma wf_append_batch batch d :
  b_ID batch ∉ map b_ID (batches d) -> db_wf d ->
  db_wf (set_batches (batches d ++ [empty_batch batch]) d) /\
  batch_size (requests d) (b_ID batch) = 0%Z.
Proof.
  intros Hid Hwf.
  assert (Hnone : forall r, r ∈ requests d -> in_batch (b_ID batch) r = false).
  { intros r Hr. apply bool_decide_false. intros E.
    destruct (wf_request_batch _ _ _ Hwf r _ Hr E) as (x & Hx & Ex).
    apply Hid, list_elem_of_fmap. eauto. }
  assert (Hz : batch_size (requests d) (b_ID batch) = 0%Z).
  { unfold batch_size. by rewrite count_none. }
  split; [|done]. destruct Hwf as [H1 H2 H3 H4 H5 H6 H7 H8 H9 H10 H11 H12].
  split; try done; simpl.
  - rewrite map_append. by apply NoDup_append.
  - intros r b Hr E. destruct (H8 r b Hr E) as (x & Hx & ?). exists x. set_solver.
  - intros b. rewrite elem_of_append. intros [Hb| ->] _; [by apply H11, not_nothing|].
    assert (Hb0 : forall col, bucket_count (requests d) (b_ID batch) col = 0%Z).
    { intros col. unfold bucket_count. rewrite count_none; [done|].
      intros r Hr. by rewrite Hnone. }
    split; simpl; by rewrite ?Hb0, ?Hz.
Qed.

(** All requests of a batch pending: its counters are those of [set_counts]. *)
Lemma counters_all_pending rs b n :
  (forall r, r ∈ rs -> r_BatchID r = Some (b_ID b) -> r_Status r = RequestPending) ->
  batch_size rs (b_ID b) = n -> counters_ok rs (set_counts n (empty_batch b)).
Proof.
  intros Hp Hn.
  assert (Hc : forall col, bucket_count rs (b_ID b) col =
    if String.eqb col "pending_count" then n else 0%Z).
  { intros col. unfold bucket_count. destruct (String.eqb_spec col "pending_count") as [->|Hne].
    - rewrite <- Hn. unfold batch_size. f_equal. apply count_ext. intros r Hr.
      destruct (in_batch (b_ID b) r) eqn:E; [|done]. unfold in_bucket.
      apply in_batch_id in E. by rewrite (Hp r Hr E).
    - rewrite count_none; [done|]. intros r Hr.
      destruct (in_batch (b_ID b) r) eqn:E; [|done]. simpl. unfold in_bucket.
      apply in_batch_id in E. rewrite (Hp r Hr E). by apply bool_decide_false. }
  split; simpl; by rewrite ?Hc.
Qed.

Lemma batch_size_kept rs items b :
  Forall (fun item => new_item (Some b) (bi_Request item) (bi_Delivery item)) items ->
  batch_size (rs ++ map (fun i => stored_request (bi_Request i)) items) b
  = (batch_size rs b + Z.of_nat (length items))%Z.
Proof.
  intros Hall. unfold batch_size. rewrite count_app.
  enough (count_where (in_batch b) (map (fun i => stored_request (bi_Request i)) items) = length items) by lia.
  unfold count_where. rewrite where_all; [by rewrite length_map|].
  intros r (item & -> & Hin)%list_elem_of_fmap.
  rewrite Forall_forall in Hall. apply in_batch_id, (Hall item Hin).
Qed.

Lemma CreateBatch_wf batch items now d res d' :
  runs (CreateBatch batch items now) d res d' ->
  Forall (fun item => new_item (Some (b_ID batch)) (bi_Request item) (bi_Delivery item)) items ->
  db_wf d -> db_wf d'.
Proof.
  intros (Hid & _ & n & d1 & H & -> & _)%CreateBatch_runs Hall Hwf.
  destruct (wf_append_batch batch d Hid Hwf) as [Hwf0 Hz].
  pose proof (create_items_wf _ (b_ID batch) _ _ _ _ _ H Hall
                (wf_weaken _ _ _ _ _ (fun _ F => F) (fun _ F => False_ind _ F) Hwf0)) as Hwf1.
  apply create_items_runs in H as (E & _ & ->). simpl in E, Hwf1 |- *.
  set (kept := keep (requests d) items) in *.
  assert (Hkept : Forall (fun item => new_item (Some (b_ID batch)) (bi_Request item)
                                        (bi_Delivery item)) kept).
  { apply Forall_forall. intros item Hi. rewrite Forall_forall in Hall.
    by apply Hall, (keep_sublist (requests d)). }
  pose proof (add_items_proj now kept (set_batches (batches d ++ [empty_batch batch]) d))
    as (Er & _ & _ & Eb). rewrite <- E in Er, Eb. simpl in Er, Eb.
  destruct Hwf1 as [H1 H2 H3 H4 H5 H6 H7 H8 H9 H10 H11 H12]. split; try done; simpl.
  - by rewrite map_update_key.
  - intros r b Hr Hb. destruct (H8 r b Hr Hb) as (x & Hx & <-).
    exists (if by_batch_id (b_ID batch) x then set_counts (Z.of_nat (length kept)) x else x).
    split; [apply elem_of_update; eauto|]. by destruct (by_batch_id _ x).
  - intros b (x & Hx & ->)%elem_of_update _. unfold by_batch_id. case_bool_decide as Ex.
    2: { apply H11; [done|congruence]. }
    assert (x = empty_batch batch) as ->.
    { apply (NoDup_key_inj b_ID (batches d1)); [done|done| |done]. rewrite Eb. set_solver. }
    apply counters_all_pending.
    + intros r. rewrite Er, elem_of_app. intros [Hr|Hr] Hrb.
      * exfalso. destruct (wf_request_batch _ _ _ Hwf r _ Hr Hrb) as (y & Hy & Ey).
        apply Hid, list_elem_of_fmap. eauto.
      * apply list_elem_of_fmap in Hr as (item & -> & Hi).
        rewrite Forall_forall in Hkept. apply (Hkept item Hi).
    + rewrite Er, batch_size_kept, Hz by done. lia.
Qed.
End create.
