(* ===== verification/StoreCalls.v ===== *)
(** * The store as a whole: every mutating call, atomicity, reachable tables

    [call] lists the mutating methods of [Store] with their arguments, [exec]
    runs one. A call is [legal] when its arguments are what the service, the
    worker and the scheduler pass. [reachable] closes the empty database under
    legal calls, failing ones included; the properties of this file hold of every
    reachable database. *)

From S2P Require Import Prelude GoStrings Domain Template Store StoreRuns StoreInv.
From S2P Require Import StoreCreate.

(** ** Partitions keep the invariant *)

Lemma CreateDeliveryPartition_wf day d d' :
  runs (CreateDeliveryPartition day) d () d' -> db_wf d -> db_wf d'.
Proof.
  unfold CreateDeliveryPartition. intros H Hwf. inv_runs. unfold create_delivery_partition in H.
  destruct (partition_exists _ d); [by simplify_eq|].
  destruct (existsb _ (deliveries d)); simplify_eq. by destruct Hwf; split.
Qed.

(** With at most one delivery per request, removing rows leaves a request's
    statuses alone or removes them all. *)
Lemma statuses_removed q rid d :
  NoDup (map d_RequestID (deliveries d)) ->
  statuses_of rid (set_deliveries (where_ q (deliveries d)) d) = statuses_of rid d \/
  statuses_of rid (set_deliveries (where_ q (deliveries d)) d) = [].
Proof.
  unfold statuses_of. simpl. induction (deliveries d) as [|x l IH]; simpl; [by left|].
  rewrite NoDup_cons. intros [Hx Hl].
  assert (Hn : by_request rid x = true -> where_ (by_request rid) l = []).
  { unfold by_request. intros E. apply where_none. intros y Hy.
    apply bool_decide_false. intros Ey. bool_to_prop.
    apply Hx, list_elem_of_fmap. exists y. split; congruence. }
  assert (Hn' : by_request rid x = true -> where_ (by_request rid) (where_ q l) = []).
  { intros E. apply where_none. intros y [Hy _]%elem_of_where.
    by apply (proj1 (where_nil_iff _ _) (Hn E)). }
  unfold where_ in *. simpl. destruct (by_request rid x) eqn:E, (q x); simpl; rewrite ?E; simpl.
  - left. by rewrite Hn, Hn'.
  - right. by rewrite Hn'.
  - by apply IH.
  - by apply IH.
Qed.

Lemma ArchiveAndDropPartition_wf day d d' :
  runs (ArchiveAndDropPartition day) d () d' -> db_wf d -> db_wf d'.
Proof.
  unfold ArchiveAndDropPartition. intros H Hwf. inv_runs. unfold archive_and_drop_partition in H.
  destruct (partition_exists _ d); [|by simplify_eq].
  destruct (existsb _ _); simplify_eq. set (q := fun x : Delivery => negb _).
  pose proof (fun rid => statuses_removed q rid d (wf_one_delivery _ _ _ Hwf)) as Hst.
  destruct Hwf as [H1 H2 H3 H4 H5 H6 H7 H8 H9 H10 H11 H12]. split; try done; simpl.
  - by apply NoDup_map_where.
  - by apply NoDup_map_where.
  - intros x [Hx _]%elem_of_where. auto.
  - intros x [Hx _]%elem_of_where. auto.
  - intros r Hr Hs Hne. specialize (H10 r Hr Hs). unfold status_ok in *.
    change (statuses_of (r_ID r) _) with
      (statuses_of (r_ID r) (set_deliveries (where_ q (deliveries d)) d)) in Hne |- *.
    destruct (Hst (r_ID r)) as [E|E]; rewrite E in *; [auto|done].
  - split; [|apply H12]. intros x [Hx _]%elem_of_where. by apply H12.
Qed.

(** ** Atomicity *)

Lemma claim_atomic id at_ lease now : atomic (ClaimDelivery id at_ lease now).
Proof.
  intros s e s' H. unfold ClaimDelivery, attempt, mbind, eff_bind in H.
  destruct (scanDelivery _ s) as [[x|e1] s1] eqn:E; simpl in H; [done|].
  destruct (errors_Is e1 ErrNotFound) eqn:En; [done|]. injection H as -> <-.
  unfold scanDelivery, scan_entity, attempt, mbind, eff_bind in E.
  destruct (Scan _ s) as [[x|e2] s2] eqn:E2; [by unfold mret, eff_ret in E|].
  destruct (errors_Is e2 ErrNoRows) eqn:Er; unfold raise in E; simplify_eq.
  unfold Scan, mbind, eff_bind in E2.
  destruct (Exec _ s) as [[[|x l]|e3] s3] eqn:E3; unfold raise, mret, eff_ret in *; simplify_eq; try done.
  destruct (Exec_atomic _ _ _ _ E3) as [?|(Hh & rows & Hr)]; [by left|right].
  split; [done|]. apply Exec_runs in Hr. unfold claim_sql in Hr. injection Hr as _ <-.
  exists (head (map (claim_row lease now) (where_ (claimable id at_) (deliveries (db s))))).
  exists (mkSess (db s) None [] 0).
  exists (mkSess (update_deliveries (claimable id at_) (claim_row lease now) (db s)) None [] 0).
  split_and!; [done| |].
  - unfold ClaimDelivery, scanDelivery, scan_entity, Scan, attempt, mbind, eff_bind, Exec. simpl.
    by destruct (map _ _).
  - done.
Qed.

(** ** The calls *)

Section calls.
Context `{codec : !MessageCodec} `{uuids : !UuidSource}.

Inductive call :=
| CallCreateNotification (r : Request) (x : Delivery) (o : option OutboxRecord) (now : time)
| CallCreateBatch (b : Batch) (items : list BatchItem) (now : time)
| CallCancelRequest (id : uuid) (now : time)
| CallClaimDelivery (id : uuid) (createdAt leaseUntil now : time)
| CallMarkSent (id : uuid) (createdAt : time) (rid : uuid) (messageID : string) (now : time)
| CallMarkFailed (id : uuid) (createdAt : time) (rid : uuid) (n : Z) (err : string) (now : time)
| CallMarkRetrying (id : uuid) (createdAt : time) (n : Z) (next : time) (err : string)
    (now : time)
| CallPromoteDue (locked : uuid * time -> bool) (now : time) (limit : Z)
| CallSweepRetries (locked : uuid * time -> bool) (now : time) (limit : Z)
| CallReconcilePending (locked : uuid * time -> bool) (clock now : time)
    (olderThan : duration) (limit : Z)
| CallReapStuck (now : time)
| CallMarkOutboxPublished (ids : list uuid) (now : time)
| CallCreateDeliveryPartition (day : time)
| CallArchiveAndDropPartition (day : time)
| CallPurgePublishedOutbox (before : time).

Definition ignore {A} (m : eff Sess error A) : eff Sess error () := m ≫= fun _ => mret ().

Definition exec (c : call) : eff Sess error () :=
  match c with
  | CallCreateNotification r x o now => CreateNotification r x o now
  | CallCreateBatch b items now => ignore (CreateBatch b items now)
  | CallCancelRequest id now => ignore (CancelRequest id now)
  | CallClaimDelivery id at_ lease now => ignore (ClaimDelivery id at_ lease now)
  | CallMarkSent id at_ rid m now => MarkSent id at_ rid m now
  | CallMarkFailed id at_ rid n err now => MarkFailed id at_ rid n err now
  | CallMarkRetrying id at_ n next err now => MarkRetrying id at_ n next err now
  | CallPromoteDue locked now limit => ignore (PromoteDue locked now limit)
  | CallSweepRetries locked now limit => ignore (SweepRetries locked now limit)
  | CallReconcilePending locked clock now older limit =>
      ignore (ReconcilePending locked clock now older limit)
  | CallReapStuck now => ignore (ReapStuck now)
  | CallMarkOutboxPublished ids now => MarkOutboxPublished ids now
  | CallCreateDeliveryPartition day => CreateDeliveryPartition day
  | CallArchiveAndDropPartition day => ArchiveAndDropPartition day
  | CallPurgePublishedOutbox before => ignore (PurgePublishedOutbox before)
  end.

(** What the callers guarantee. [CreateNotification] gets the rows of
    [Service.Create], [CreateBatch] those of [Service.CreateBatch]; the worker
    passes the request id of the row it claimed, and reschedules a row that no
    other actor has finished. *)
Definition legal (c : call) (d : DB) : Prop :=
  match c with
  | CallCreateNotification r x _ _ => new_item None r x
  | CallCreateBatch b items _ =>
      Forall (fun i => new_item (Some (b_ID b)) (bi_Request i) (bi_Delivery i)) items
  | CallMarkSent id at_ rid _ _ => request_of_row id at_ rid d
  | CallMarkFailed id at_ rid _ _ _ => request_of_row id at_ rid d
  | CallMarkRetrying id at_ _ _ _ _ => row_in_progress id at_ d
  | _ => True
  end.

Lemma create_items_framed now items k : framed (create_items now items k).
Proof. revert k. induction items as [|i items IH]; intros k; simpl; framed; apply IH. Qed.

Lemma adjust_framed id old new : framed (adjustBatchCountersTx id old new).
Proof. unfold adjustBatchCountersTx. framed. Qed.

Lemma exec_framed c : framed (exec c).
Proof.
  destruct c; simpl; framed; auto using create_items_framed, adjust_framed.
  unfold MarkOutboxPublished. framed.
Qed.

(** A call that returns an error has changed nothing, or it did all it does and the
    reply was lost. *)
Lemma exec_atomic c : atomic (exec c).
Proof.
  destruct c; simpl; unfold ignore;
    try (apply (atomic_then_ret _ (fun _ => ())));
    try (apply withTx_atomic; solve [framed; auto using create_items_framed, adjust_framed]).
  - apply claim_atomic.
  - apply wrap_atomic, Exec_atomic.
  - unfold ReapStuck. apply (atomic_then_ret _ Z.of_nat), wrap_atomic, Exec_atomic.
  - unfold MarkOutboxPublished. destruct (bool_decide _); [by intros s e s'|].
    apply wrap_atomic, Exec_atomic.
  - apply wrap_atomic, Exec_atomic.
  - apply wrap_atomic, Exec_atomic.
  - unfold PurgePublishedOutbox. apply (atomic_then_ret _ Z.of_nat), wrap_atomic, Exec_atomic.
Qed.

Lemma exec_ok_wf c d d' :
  legal c d -> runs (exec c) d () d' -> db_wf d -> db_wf d'.
Proof.
  destruct c; simpl; intros Hl H Hwf; unfold ignore in H;
    try (apply runs_bind in H as (? & ? & H & Hret); apply runs_ret in Hret as [_ ->]).
  - by apply CreateNotification_runs in H as (_ & _ & _ & Hw); apply Hw.
  - by eapply CreateBatch_wf.
  - by eapply CancelRequest_wf.
  - by eapply claim_wf.
  - by eapply MarkSent_wf.
  - by eapply MarkFailed_wf.
  - by eapply MarkRetrying_wf.
  - by eapply PromoteDue_wf.
  - by eapply SweepRetries_wf.
  - by eapply ReconcilePending_wf.
  - by eapply ReapStuck_wf.
  - by eapply MarkOutboxPublished_wf.
  - by eapply CreateDeliveryPartition_wf.
  - by eapply ArchiveAndDropPartition_wf.
  - by eapply PurgePublishedOutbox_wf.
Qed.

(** A call has its whole effect or none. *)
Lemma exec_cases c s r s' :
  exec c s = (r, s') -> db s' = db s \/ runs (exec c) (db s) () (db s').
Proof.
  intros H. destruct (atomic_cases _ _ _ _ (exec_atomic c) H) as [?|[[] ?]]; auto.
Qed.

(** A failure the caller hears of has changed nothing. *)
Lemma exec_heard c s e s' : heard s -> exec c s = (Err e, s') -> db s' = db s.
Proof. apply atomic_heard, exec_atomic. Qed.

Lemma exec_wf c s r s' :
  legal c (db s) -> exec c s = (r, s') -> db_wf (db s) -> db_wf (db s').
Proof.
  intros Hl [E|H]%exec_cases Hwf; [by rewrite E|by eapply exec_ok_wf].
Qed.

(** ** Reachable databases *)

Inductive reachable : DB -> Prop :=
| reach_fresh ts : reachable (fresh_db ts)
| reach_call c s r s' :
    reachable (db s) -> legal c (db s) -> exec c s = (r, s') -> reachable (db s').

Lemma reachable_wf d : reachable d -> db_wf d.
Proof.
  induction 1 as [|c s r s' _ IH Hl H]; [apply fresh_db_wf|]. by eapply exec_wf.
Qed.

Lemma bucket_total rs b :
  (bucket_count rs b "pending_count" + bucket_count rs b "sent_count"
   + bucket_count rs b "failed_count" + bucket_count rs b "cancelled_count"
   = batch_size rs b)%Z.
Proof.
  unfold bucket_count, batch_size. induction rs as [|r rs IH]; [done|].
  rewrite !count_cons, !Nat2Z.inj_add, <- IH. unfold in_bucket.
  destruct (in_batch b r); [|simpl; lia]. destruct (r_Status r); simpl; lia.
Qed.

(** ** Properties *)

(** C1: the store keeps the tables consistent. Take any sequence of its calls,
    whichever round trips to the database were refused or not answered on the way,
    that are [legal]: a creation passes rows as the service builds them, a final
    write of a worker names the request of its row, and a worker reschedules a row
    only while no other actor has finished it (a worker that outlives its lease may
    break that, and then a RETRYING delivery sits under a request that reads SENT:
    [late_worker_overwrites]). Then keys and idempotency keys are unique, no row
    dangles, every request's stored status is the aggregate of its deliveries,
    exactly the PROCESSING rows carry a lease, and SCHEDULED and RETRYING rows have
    the time they wait for. *)
Theorem reachable_consistent d :
  reachable d ->
  NoDup (map r_ID (requests d)) /\ NoDup (map del_key (deliveries d)) /\
  (forall r1 r2, r1 ∈ requests d -> r2 ∈ requests d -> same_idem r1 r2 -> r1 = r2) /\
  (forall x, x ∈ deliveries d -> exists r, r ∈ requests d /\ r_ID r = d_RequestID x) /\
  (forall r, r ∈ requests d -> statuses_of (r_ID r) d <> [] ->
     r_Status r = AggregateRequestStatus (statuses_of (r_ID r) d)) /\
  (forall x, x ∈ deliveries d ->
     (d_Status x = DeliveryProcessing <-> is_Some (d_LockedUntil x)) /\
     (d_Status x = DeliveryScheduled -> is_Some (d_SendAt x)) /\
     (d_Status x = DeliveryRetrying -> is_Some (d_NextRetryAt x))).
Proof.
  intros [H1 H2 H3 H4 H5 H6 H7 H8 H9 H10 H11 H12]%reachable_wf. split_and!; try done.
  - intros r1 r2 Hr1 Hr2 Hs. apply (NoDup_key_inj r_ID (requests d)); auto.
  - intros r Hr. apply (H10 r Hr), not_nothing.
Qed.

(** C15: a batch's denormalized counters never drift: in every database reached by
    legal calls [TotalCount] is the number of the batch's requests, each of the
    four counters is the number of them in its bucket, and the four add up to
    the total. *)
Theorem batch_counters_exact d b :
  reachable d -> b ∈ batches d ->
  b_TotalCount b = Z.of_nat (count_where (in_batch (b_ID b)) (requests d)) /\
  (b_PendingCount b + b_SentCount b + b_FailedCount b + b_CancelledCount b
   = b_TotalCount b)%Z /\
  (forall st col, bucketColumn st = col ->
     batch_column col b = Some (bucket_count (requests d) (b_ID b) col)).
Proof.
  intros Hwf%reachable_wf Hb. pose proof (bucket_total (requests d) (b_ID b)) as Ht.
  destruct (wf_counters _ _ _ Hwf b Hb (not_nothing _)) as [T P S F C].
  split_and!; [done|lia|].
  intros st col <-. destruct st; unfold batch_column; simpl; by f_equal.
Qed.

(** C25: every mutating call is all or nothing, whichever of its round trips fail
    (the begin, any statement, the commit), and whether the server refuses them or
    does its part and the reply is lost: the tables are exactly what they were, or
    exactly what a call that succeeds makes of them. A call that succeeds is the
    second; one that returns an error without a lost reply is the first. *)
Theorem store_calls_atomic c s r s' : exec c s = (r, s') ->
  (db s' = db s \/ runs (exec c) (db s) () (db s')) /\
  (r = Ok () -> runs (exec c) (db s) () (db s')) /\
  (heard s -> r <> Ok () -> db s' = db s).
Proof.
  intros H. split_and!; [by eapply exec_cases|intros ->; by apply run_runs|].
  intros Hs Hr. destruct r as [[]|e]; [done|by eapply exec_heard].
Qed.
End calls.
