(* ===== verification/StoreQuiet.v ===== *)
(** * Store operations on a server that answers

    With no fault scheduled a call is a function of the tables. [quiet] sessions
    make that function explicit: each lemma rewrites a call to its result, every
    branch included. *)

From S2P Require Import Prelude GoStrings Domain Template Store StoreRuns StoreInv.

Definition quiet (d : DB) (rep : option DB) (n : N) : Sess := mkSess d rep [] n.

Lemma quiet_sess s : faults s = [] -> s = quiet (db s) (replica s) (entropy s).
Proof. destruct s. simpl. by intros ->. Qed.

Section quiet.
Context (rep : option DB) (n : N).
Notation Q d := (quiet d rep n).

Lemma Exec_quiet {A} (f : DB -> result error (A * DB)) d :
  Exec f (Q d) = match f d with
                 | Ok (a, d') => (Ok a, Q d')
                 | Err e => (Err e, Q d)
                 end.
Proof. done. Qed.

Lemma Query_quiet {A} (f : DB -> A) d : Query f (Q d) = (Ok (f d), Q d).
Proof. done. Qed.

Lemma wrap_quiet {A} op (m : eff Sess error A) d :
  wrap op m (Q d) = match m (Q d) with
                    | (Ok a, s) => (Ok a, s)
                    | (Err e, s) => (Err (Errorf op e), s)
                    end.
Proof. unfold wrap, attempt, mbind, eff_bind. by destruct (m (Q d)) as [[a|e] s]. Qed.

Lemma withTx_quiet {A} (m : eff Sess error A) d r d' :
  m (Q d) = (r, Q d') ->
  withTx m (Q d) = match r with Ok a => (Ok a, Q d') | Err e => (Err e, Q d) end.
Proof. unfold withTx. simpl. intros ->. by destruct r. Qed.

Lemma bind_quiet {A B} (m : eff Sess error A) (k : A -> eff Sess error B) d a s :
  m (Q d) = (Ok a, s) -> (m ≫= k) (Q d) = k a s.
Proof. apply bind_step_ok. Qed.

(** A point query for one entity. *)
Definition lookup_entity {A} (rows : list A) : result error A :=
  match rows with [] => Err ErrNotFound | x :: _ => Ok x end.

Lemma scan_entity_quiet {A} op (f : DB -> list A) d :
  scan_entity op (Scan (Query f)) (Q d) = (lookup_entity (f d), Q d).
Proof.
  unfold scan_entity, Scan, attempt, mbind, eff_bind. rewrite Query_quiet.
  by destruct (f d).
Qed.

Lemma select_request_quiet id d :
  select_request id (Q d)
  = (match first_where (by_request_id id) (requests d) with
     | Some r => Ok r | None => Err ErrNotFound end, Q d).
Proof.
  unfold select_request, scanRequest. rewrite scan_entity_quiet.
  unfold first_where. by destruct (where_ _ (requests d)).
Qed.

(** ** Creation under a taken idempotency key *)

Lemma insertRequest_conflict_quiet r d :
  request_columns_ok r = true -> request_conflict r (requests d) = true ->
  insertRequest r (Q d) = (Err ErrConflict, Q d).
Proof.
  intros Hcols Hc. unfold insertRequest, attempt, mbind, eff_bind. rewrite Exec_quiet.
  unfold insert_request_sql. rewrite Hcols, Hc. by destruct (existsb _ _).
Qed.

(** ** Claims *)

Lemma ClaimDelivery_quiet id at_ lease now d :
  ClaimDelivery id at_ lease now (Q d)
  = (Ok (claim_row lease now <$> first_where (claimable id at_) (deliveries d)),
     Q (update_deliveries (claimable id at_) (claim_row lease now) d)).
Proof.
  unfold ClaimDelivery, scanDelivery, scan_entity, Scan, attempt, mbind, eff_bind.
  rewrite Exec_quiet. unfold claim_sql, first_where.
  by destruct (where_ _ (deliveries d)).
Qed.

(** ** Recomputation and finalization *)

Lemma adjust_quiet b from to d :
  adjustBatchCountersTx b from to (Q d)
  = (Ok (), Q (if String.eqb (bucketColumn from) (bucketColumn to) then d
               else set_batches (update_where (by_batch_id b)
                      (move_unit (bucketColumn from) (bucketColumn to)) (batches d)) d)).
Proof. unfold adjustBatchCountersTx. by destruct (String.eqb _ _). Qed.

Lemma first_where_rows {A} (p : A -> bool) l x :
  first_where p l = Some x -> exists rest, where_ p l = x :: rest.
Proof. unfold first_where. destruct (where_ p l); naive_solver. Qed.

Lemma recompute_quiet rid r d :
  first_where (by_request_id rid) (requests d) = Some r ->
  recomputeRequestStatusTx rid (Q d) = (Ok (), Q (recomputed r d)).
Proof.
  intros H. pose proof (proj2 (head_where_request _ _ _ H)) as Hid.
  apply first_where_rows in H as (rest & Hw). unfold recomputeRequestStatusTx.
  erewrite bind_quiet; [|by rewrite wrap_quiet; unfold Scan; erewrite bind_quiet;
    [|apply Query_quiet]; rewrite Hw].
  simpl. erewrite bind_quiet; [|by rewrite wrap_quiet, Query_quiet].
  unfold recomputed. subst rid.
  set (st := AggregateRequestStatus (statuses_of (r_ID r) d)).
  destruct (bool_decide (st = r_Status r)); [done|].
  erewrite bind_quiet; [|by rewrite wrap_quiet, Exec_quiet].
  destruct (r_BatchID r); [|done]. rewrite adjust_quiet.
  by destruct (String.eqb _ _).
Qed.

Lemma recompute_quiet_none rid d :
  first_where (by_request_id rid) (requests d) = None ->
  recomputeRequestStatusTx rid (Q d)
  = (Err (Errorf "load request for recompute" ErrNoRows), Q d).
Proof.
  intros H.
  assert (E : where_ (by_request_id rid) (requests d) = []).
  { apply where_nil_iff. by apply (first_where_None (by_request_id rid) (requests d)). }
  unfold recomputeRequestStatusTx. apply bind_step_err.
  rewrite wrap_quiet. unfold Scan. erewrite bind_quiet; [|apply Query_quiet]. by rewrite E.
Qed.

Lemma finalize_quiet op valid id at_ rid f d r :
  first_where (by_request_id rid) (requests d) = Some r -> valid = true ->
  withTx (wrap op (Exec (mark_sql valid id at_ f)) ≫= fun _ => recomputeRequestStatusTx rid)
    (Q d)
  = (Ok (), Q (recomputed r (update_deliveries (by_delivery_key id at_) f d))).
Proof.
  intros Hr ->. erewrite withTx_quiet; [|erewrite bind_quiet;
    [|by rewrite wrap_quiet, Exec_quiet]; by apply recompute_quiet]. done.
Qed.

Lemma MarkSent_quiet id at_ rid messageID now d r :
  first_where (by_request_id rid) (requests d) = Some r -> varchar 255 messageID = true ->
  MarkSent id at_ rid messageID now (Q d)
  = (Ok (), Q (recomputed r (update_deliveries (by_delivery_key id at_)
                               (sent_row messageID now) d))).
Proof. apply finalize_quiet. Qed.

Lemma MarkFailed_quiet id at_ rid k err now d r :
  first_where (by_request_id rid) (requests d) = Some r ->
  pg_text err && int4 k = true ->
  MarkFailed id at_ rid k err now (Q d)
  = (Ok (), Q (recomputed r (update_deliveries (by_delivery_key id at_)
                               (failed_row k err now) d))).
Proof. apply finalize_quiet. Qed.

Lemma MarkRetrying_quiet id at_ k next err now d :
  pg_text err && int4 k = true ->
  MarkRetrying id at_ k next err now (Q d)
  = (Ok (), Q (update_deliveries (by_delivery_key id at_) (retrying_row k next err now) d)).
Proof. unfold MarkRetrying. intros E. rewrite wrap_quiet, Exec_quiet. unfold mark_sql. by rewrite E. Qed.

(** ** Cancellation *)

Lemma recomputed_lookup r d :
  first_where (by_request_id (r_ID r)) (requests d) = Some r ->
  first_where (by_request_id (r_ID r)) (requests (recomputed r d))
  = Some (set_Status (AggregateRequestStatus (statuses_of (r_ID r) d)) r).
Proof.
  intros Hr. unfold recomputed. set (st := AggregateRequestStatus _).
  case_bool_decide as E.
  { rewrite Hr, E. by destruct r. }
  assert (Hu : first_where (by_request_id (r_ID r))
    (update_where (by_request_id (r_ID r)) (set_Status st) (requests d)) = Some (set_Status st r)).
  { unfold first_where, where_ in Hr |- *. unfold update_where.
    induction (requests d) as [|q l IH]; [done|]. simpl in Hr |- *.
    destruct (by_request_id (r_ID r) q) eqn:Eq.
    - simpl in Hr. simplify_eq. simpl. unfold by_request_id in Eq |- *. simpl. by rewrite Eq.
    - rewrite Eq. by apply IH. }
  by destruct (r_BatchID r); [destruct (String.eqb _ _)|].
Qed.

Lemma CancelRequest_quiet id now d :
  CancelRequest id now (Q d)
  = match first_where (by_request_id id) (requests d) with
    | None => (Err ErrNotFound, Q d)
    | Some r =>
        if bool_decide (count_where (cancellable id) (deliveries d) = 0)
        then (Err ErrCancelNotAllowed, Q d)
        else let d1 := update_deliveries (cancellable id) (cancelled_row now) d in
             (Ok (set_Status (AggregateRequestStatus (statuses_of id d1)) r),
              Q (recomputed r d1))
    end.
Proof.
  unfold CancelRequest. pose proof (select_request_quiet id d) as Hs.
  destruct (first_where _ (requests d)) as [r|] eqn:Hr.
  2: { by rewrite (withTx_quiet _ _ (Err ErrNotFound) d) by by apply bind_step_err. }
  pose proof (proj2 (head_where_request _ _ _ Hr)) as Hid.
  case_bool_decide as Hc.
  - rewrite (withTx_quiet _ _ (Err ErrCancelNotAllowed)
      (update_deliveries (cancellable id) (cancelled_row now) d)); [done|].
    erewrite bind_quiet; [|done]. erewrite bind_quiet; [|by rewrite wrap_quiet, Exec_quiet].
    by rewrite bool_decide_true.
  - set (d1 := update_deliveries _ _ d). cbv zeta.
    set (st := AggregateRequestStatus (statuses_of id d1)).
    rewrite (withTx_quiet _ _ (Ok (set_Status st r)) (recomputed r d1)); [done|].
    erewrite bind_quiet; [|done]. erewrite bind_quiet; [|by rewrite wrap_quiet, Exec_quiet].
    rewrite bool_decide_false by done.
    erewrite bind_quiet; [|by apply recompute_quiet].
    rewrite select_request_quiet. subst id.
    fold d1. by rewrite (recomputed_lookup r d1).
Qed.

(** ** Reading back one row *)

Lemma GetRequestByID_quiet id d :
  GetRequestByID id (Q d)
  = (lookup_entity (where_ (by_request_id id) (requests (default d rep))), Q d).
Proof.
  unfold GetRequestByID, scanRequest, scan_entity, Scan, attempt, mbind, eff_bind, QueryReader.
  simpl. by destruct (where_ _ _).
Qed.
End quiet.
