(* ===== verification/Harness.v ===== *)
(** * Seeding, test databases and the test clock

    What prepares the tables: the seed migration (migrations/000005_seed.up.sql) and
    the store's [ResetIntegrationDB]; the advisory lock tests share a database under
    (adapters/postgres/store.go); the controllable clock (platform/clock). *)

From Stdlib Require Import Ascii.
From S2P Require Import Prelude GoStrings Domain Template Store StoreRuns StoreInv StoreQuiet.

Local Open Scope string_scope.
Local Open Scope list_scope.

(** ** Templates *)

(** [00000000-0000-0000-0000-000000000001] *)
Definition sample_template_id : uuid := 1%N.

(** [INSERT INTO templates ... ON CONFLICT (id) DO NOTHING] *)
Definition insert_template_sql (t : Template) (d : DB) : result error (unit * DB) :=
  if existsb (fun x => t_ID x =? t_ID t)%N (templates d) then Ok (tt, d)
  else Ok (tt, mkDB (batches d) (templates d ++ [t]) (requests d) (deliveries d) (archive d)
                 (partitions d) (outbox d)).

(** Migration 5, at the time [now]. *)
Definition seeded_template (now : time) : Template :=
  mkTemplate sample_template_id "verification_code" "sms"
    "Your verification code is {{code}}. Expires in {{expire_minutes}} minutes."
    ["code"; "expire_minutes"] now.

Definition seed_up (now : time) : DB -> result error (unit * DB) :=
  insert_template_sql (seeded_template now).

(** The tables a new installation starts with. *)
Definition migrated_db (now : time) : DB := fresh_db [seeded_template now].

Lemma migrated_db_seed now : seed_up now empty_db = Ok (tt, migrated_db now).
Proof. done. Qed.

(** ** ResetIntegrationDB *)

(** [TRUNCATE outbox, notification_deliveries, notification_requests,
    notification_batches, templates]: the archive and the partitions stay. *)
Definition truncate_sql (d : DB) : result error (unit * DB) :=
  Ok (tt, mkDB [] [] [] [] (archive d) (partitions d) []).

Definition reset_template (now : time) : Template :=
  mkTemplate sample_template_id "verification_code" "sms" "Your code is {{code}}" ["code"] now.

Definition ResetIntegrationDB (now : time) : eff Sess error () :=
  r ← attempt (Exec truncate_sql);
  match r with
  | Err err => raise (Errorf "truncate" err)
  | Ok _ =>
      r ← attempt (Exec (insert_template_sql (reset_template now)));
      match r with
      | Err err => raise (Errorf "seed template" err)
      | Ok _ => mret ()
      end
  end.

Lemma truncated_wf d : db_wf (mkDB [] [] [] [] (archive d) (partitions d) []).
Proof. split; simpl; try apply NoDup_nil_2; set_solver. Qed.

Lemma reset_template_renders code vs :
  vs !! "code" = Some code ->
  RenderContent "Your code is {{code}}" vs = "Your code is " +:+ code.
Proof.
  intros Hc. unfold RenderContent.
  change (bytes_of "Your code is {{code}}") with
    (concat (map print_token [Lit (bytes_of "Your code is "); Var [] (bytes_of "code") []])).
  rewrite render_tokens.
  - simpl concat. rewrite app_nil_r. cbn [eval_token]. change (string_of (bytes_of "code")) with "code".
    rewrite Hc. etrans; [|apply string_of_bytes_of]. by rewrite bytes_of_app.
  - repeat constructor; try (apply (bool_decide_unpack _); reflexivity); discriminate.
Qed.

(** Resetting is two statements and no transaction. When it succeeds, the tables hold
    nothing but the template, are consistent, and the template renders with its code;
    when the second statement fails there is no template either; when the first one
    fails, nothing changed; and a statement whose reply is lost was done. *)
Theorem ResetIntegrationDB_spec now s r s' :
  ResetIntegrationDB now s = (r, s') ->
  let emptied ts := mkDB [] ts [] [] (archive (db s)) (partitions (db s)) [] in
  match r with
  | Ok _ =>
      db s' = emptied [reset_template now] /\ db_wf (db s') /\
      forall Quote code vs, vs !! "code" = Some code -> blank code = false ->
        Render Quote sample_template_id "sms" vs (quiet (db s') None 0)
        = (Ok (reset_template now, "Your code is " +:+ code),
           quiet (db s') None 0)
  | Err e =>
      (exists e', e = Errorf "truncate" e' /\ (db s' = db s \/ ~ heard s /\ db s' = emptied [])) \/
      (exists e', e = Errorf "seed template" e' /\ db_wf (db s') /\
         (db s' = emptied [] \/ ~ heard s /\ db s' = emptied [reset_template now]))
  end.
Proof.
  intros H emptied. destruct s as [d rep fs n].
  assert (Hwf : db_wf (emptied [reset_template now]))
    by (split; simpl; try apply NoDup_nil_2; set_solver).
  destruct fs as [|[[e1|t1]|] [|[[e2|t2]|] fs]]; cbn in H; injection H as <- <-; simpl db;
    try (left; eexists; split; [done|]; by left);
    try (left; eexists; split; [done|]; right; split; [apply (not_heard _ t1); set_solver|done]);
    try (right; eexists; split_and!; [done|apply truncated_wf|by left]);
    try (right; eexists; split_and!; [done|exact Hwf|right; split; [apply (not_heard _ t2); set_solver|done]]).
  all: split_and!; [done|exact Hwf|].
  all: intros Quote code vs Hc Hb; unfold Render, mbind, eff_bind; simpl;
    assert (MissingVariables ["code"] vs = []) as -> by
      (apply MissingVariables_nil; intros k ->%list_elem_of_singleton; by exists code);
    unfold mret, eff_ret; simpl; by rewrite (reset_template_renders code).
Qed.

(** ** The advisory lock of the tests *)

(** A connection of the primary pool: taking one, locking and unlocking on it, giving
    it back. *)
Class PoolConn (W : Type) := {
  pool_Acquire : eff W error nat;
  conn_Lock : nat -> eff W error ();
  conn_Unlock : nat -> eff W error ();
  conn_Release : nat -> W -> W
}.

(** The field [conn] of the lock; [Release] sets it to nil. *)
Definition integrationTestLock : Type := option nat.

Section lock.
Context {W : Type} `{conns : !PoolConn W}.

Definition give_back (conn : nat) : eff W error () := fun w => (Ok (), conn_Release conn w).

Definition HoldIntegrationTestLock : eff W error integrationTestLock :=
  r ← attempt pool_Acquire;
  match r with
  | Err err => raise (Errorf "acquire conn" err)
  | Ok conn =>
      r ← attempt (conn_Lock conn);
      match r with
      | Err err => give_back conn ≫= fun _ => raise (Errorf "advisory lock" err)
      | Ok _ => mret (Some conn)
      end
  end.

(** [Release] on the pointer [l] and the lock it points to after it. *)
Definition Lock_Release (l : option integrationTestLock) (w : W) : option integrationTestLock * W :=
  match l with
  | None => (None, w)
  | Some None => (Some None, w)
  | Some (Some conn) =>
      let '(_, w) := conn_Unlock conn w in
      (Some None, conn_Release conn w)
  end.

Definition releaseIntegrationLock (lock : option integrationTestLock) (w : W)
    : option integrationTestLock * W :=
  match lock with
  | Some l => Lock_Release (Some l) w
  | None => (None, w)
  end.
End lock.

(** A pool that records: the outcomes of the next calls, the connections handed out,
    the sessions that hold the lock, the connections given back. *)
Record LockWorld := mkLockWorld {
  lw_outcomes : list (option error);
  lw_next : nat;
  lw_holding : list nat;
  lw_released : list nat
}.

Definition lock_call {A} (f : LockWorld -> A * LockWorld) : eff LockWorld error A := fun w =>
  match lw_outcomes w with
  | Some e :: l => (Err e, mkLockWorld l (lw_next w) (lw_holding w) (lw_released w))
  | _ :: l => let '(a, w') := f (mkLockWorld l (lw_next w) (lw_holding w) (lw_released w)) in (Ok a, w')
  | [] => let '(a, w') := f w in (Ok a, w')
  end.

#[export] Instance recorded_conns : PoolConn LockWorld := {
  pool_Acquire := lock_call (fun w =>
    (lw_next w, mkLockWorld (lw_outcomes w) (S (lw_next w)) (lw_holding w) (lw_released w)));
  conn_Lock c := lock_call (fun w =>
    (tt, mkLockWorld (lw_outcomes w) (lw_next w) (c :: lw_holding w) (lw_released w)));
  conn_Unlock c := lock_call (fun w =>
    (tt, mkLockWorld (lw_outcomes w) (lw_next w) (where_ (fun x => negb (x =? c)%nat) (lw_holding w))
           (lw_released w)));
  conn_Release c w := mkLockWorld (lw_outcomes w) (lw_next w) (lw_holding w) (c :: lw_released w)
}.

(** Releasing the lock [n] times. *)
Fixpoint releases (n : nat) (p : option integrationTestLock * LockWorld)
    : option integrationTestLock * LockWorld :=
  match n with
  | 0 => p
  | S n => releases n (releaseIntegrationLock (fst p) (snd p))
  end.

Lemma releases_S n p : releases (S n) p = releases n (releaseIntegrationLock (fst p) (snd p)).
Proof. done. Qed.

(** The lock is taken, then released [n] times. *)
Definition lock_session (n : nat) (w : LockWorld) : LockWorld :=
  let '(r, w) := HoldIntegrationTestLock w in
  let l := match r with Ok l => Some l | Err _ => None end in
  snd (releases n (l, w)).

(** Releasing a released lock does nothing. *)
Lemma releases_done n w :
  releases n (Some None, w) = (Some None, w) /\ releases n (None, w) = (None, w).
Proof. induction n as [|n [IH1 IH2]]; [done|]. simpl. by rewrite IH1, IH2. Qed.

Lemma hold_cases outcomes :
  match HoldIntegrationTestLock (mkLockWorld outcomes 0 [] []) with
  | (Ok l, w) => l = Some 0 /\ exists left, w = mkLockWorld left 1 [0] [] /\ (outcomes = [] -> left = [])
  | (Err _, w) => lw_released w = seq 0 (lw_next w) /\ outcomes <> []
  end.
Proof. destruct outcomes as [|[e1|] [|[e2|] l]]; simpl; try done; split; try done; by eexists. Qed.

(** Whichever calls fail, a connection that was acquired is given back once, however
    often the lock is released; when nothing fails nobody keeps the lock. *)
Theorem lock_released n outcomes :
  let w := lock_session (S n) (mkLockWorld outcomes 0 [] []) in
  lw_released w = seq 0 (lw_next w) /\ (outcomes = [] -> lw_holding w = []).
Proof.
  unfold lock_session. cbv zeta. pose proof (hold_cases outcomes) as H.
  destruct (HoldIntegrationTestLock _) as [[l|e] w]; rewrite releases_S.
  - destruct H as (-> & left & -> & Hl).
    destruct left as [|[e|] left]; cbn -[releases]; rewrite (proj1 (releases_done n _)); try done.
    split; [done|]. intros E. by specialize (Hl E).
  - change (releaseIntegrationLock _ _) with (@None integrationTestLock, w).
    rewrite (proj2 (releases_done n _)). by destruct H.
Qed.

(** An unlock that fails is ignored: the connection goes back to the pool with the
    lock, and the next session that wants it waits for that connection to end. *)
Theorem lock_kept_by_pool e :
  let w := lock_session 1 (mkLockWorld [None; None; Some e] 0 [] []) in
  lw_released w = [0] /\ lw_holding w = [0].
Proof. done. Qed.

(** ** The clock (platform/clock) *)

(** [Clock]: the port; production reads the wall clock, tests a value they move. *)
Class Clock (C : Type) := Clock_Now : C -> time.

Record WallClock := mkWallClock { wall : time }.
#[export] Instance System_Now : Clock WallClock := wall.

Record Fake := mkFake { current : time }.
Definition NewFake (t : time) : Fake := mkFake t.
#[export] Instance Fake_Now : Clock Fake := current.
Definition Advance (d : duration) (f : Fake) : Fake := mkFake (current f + d).
Definition Fake_Set (t : time) (_ : Fake) : Fake := mkFake t.

(** A test's moves: the clock reads the last time set, plus what it was advanced by
    since. *)
Inductive clock_move := MoveAdvance (d : duration) | MoveSet (t : time).

Definition move (f : Fake) (m : clock_move) : Fake :=
  match m with MoveAdvance d => Advance d f | MoveSet t => Fake_Set t f end.

Definition read_after (t : time) (ms : list clock_move) : time :=
  foldl (fun t m => match m with MoveAdvance d => t + d | MoveSet t' => t' end)%Z t ms.

Theorem Fake_reads t ms : Clock_Now (foldl move (NewFake t) ms) = read_after t ms.
Proof.
  unfold read_after, NewFake. change t with (current (mkFake t)) at 2. generalize (mkFake t).
  induction ms as [|[d|t'] ms IH]; intros f; [done|apply IH|apply IH].
Qed.
