(* ===== verification/StoreSamples.v ===== *)
(** * Concrete rows, and a database reached by calls

    The inputs the witnesses evaluate: a lawful message codec, a generator of
    identifiers, and the database after one notification, one batch, a claim and
    a completed send. *)

From Stdlib Require Import Ascii.
From S2P Require Import Prelude GoStrings Domain GoText Template Store StoreRuns StoreInv.
From S2P Require Import StoreCreate StoreCalls.

Local Open Scope string_scope.
Local Open Scope list_scope.

(** ** A codec that round-trips every message *)

Definition message_tuple (m : DeliveryMessage) :=
  (dm_DeliveryID m, dm_DeliveryCreatedAt m, dm_RequestID m, dm_Channel m, dm_Priority m,
   dm_CorrelationID m).

Definition tuple_message (t : N * Z * N * string * string * string) : DeliveryMessage :=
  let '(a, b, c, d, e, f) := t in mkDeliveryMessage a b c d e f.

#[export] Instance sample_codec : MessageCodec := {
  marshalMessage m := Ok (to_text (message_tuple m));
  unmarshalMessage s :=
    match of_text s with
    | Some t => Ok (tuple_message t)
    | None => Err (ELib "unexpected end of JSON input")
    end
}.

#[export] Instance sample_uuids : UuidSource := fun n => (1000 + n)%N.

(** ** Rows *)

Definition sample_request (id : uuid) (batch : option uuid) (key : option string) : Request :=
  mkRequest id "alice" batch "+905551234567" "sms" "high" None "hello" key RequestPending 100000.

Definition sample_delivery (id rid : uuid) (st : DeliveryStatus) (sendAt : option time)
    : Delivery :=
  mkDelivery id rid "sms" "high" st 0 None None None None sendAt 100000 100000.

Definition sample_message (id rid : uuid) : DeliveryMessage :=
  mkDeliveryMessage id 100000 rid "sms" "high" "corr".

Definition sample_outbox (oid id rid : uuid) : OutboxRecord :=
  mkOutboxRecord oid id 100000 (Stream "high" "sms") (sample_message id rid).

Definition sample_batch : Batch := mkBatch 50 "alice" (Some "b1") 0 0 0 0 0 100000.

Definition sample_items : list BatchItem := [
  mkBatchItem (sample_request 2 (Some 50%N) (Some "k2")) (sample_delivery 12 2 DeliveryPending None)
    (Some (sample_outbox 22 12 2));
  mkBatchItem (sample_request 3 (Some 50%N) (Some "k2")) (sample_delivery 13 3 DeliveryPending None)
    (Some (sample_outbox 23 13 3));
  mkBatchItem (sample_request 4 (Some 50%N) None)
    (sample_delivery 14 4 DeliveryScheduled (Some 500000%Z)) None ].

Definition sample_calls : list call := [
  CallCreateNotification (sample_request 1 None (Some "k1"))
    (sample_delivery 11 1 DeliveryPending None) (Some (sample_outbox 21 11 1)) 100000;
  CallCreateBatch sample_batch sample_items 110000;
  CallClaimDelivery 12 100000 160000 120000;
  CallMarkSent 12 100000 2 "prov-1" 130000 ].

Definition start : Sess := mkSess empty_db None [] 0.

Definition run_calls (cs : list call) (s : Sess) : Sess :=
  foldl (fun s c => snd (exec c s)) s cs.

(** Notification 1 is pending; of batch 50, request 2 is sent, 3 was a duplicate
    and 4 is scheduled for time 500000. *)
Definition sample_db : DB := Eval vm_compute in db (run_calls sample_calls start).

Lemma reachable_step c s : reachable (db s) -> legal c (db s) -> reachable (db (snd (exec c s))).
Proof. intros. destruct (exec c s) as [r s'] eqn:E. simpl. by eapply reach_call. Qed.

(** Every call of a script is legal on the tables it finds. *)
Fixpoint legal_script (cs : list call) (s : Sess) : Prop :=
  match cs with
  | [] => True
  | c :: cs => legal c (db s) /\ legal_script cs (snd (exec c s))
  end.

Lemma reachable_script cs s :
  reachable (db s) -> legal_script cs s -> reachable (db (run_calls cs s)).
Proof.
  revert s. induction cs as [|c cs IH]; intros s Hs; [done|]. intros [Hc Hcs].
  apply IH; [|done]. by apply reachable_step.
Qed.

Lemma run_calls_snoc cs c s : run_calls (cs ++ [c]) s = snd (exec c (run_calls cs s)).
Proof. unfold run_calls. by rewrite foldl_app. Qed.

Lemma script_runs cs c s :
  fst (exec c (run_calls cs s)) = Ok () ->
  runs (exec c) (db (run_calls cs s)) () (db (run_calls (cs ++ [c]) s)).
Proof.
  rewrite run_calls_snoc. intros E. apply run_runs. by destruct (exec c _); simpl in E; subst.
Qed.

Lemma request_of_row_check id at_ rid d :
  forallb (fun x => implb (by_delivery_key id at_ x) (by_request rid x)) (deliveries d) = true ->
  request_of_row id at_ rid d.
Proof.
  intros H x Hx Hk. rewrite forallb_forall in H. specialize (H x (proj1 (list_elem_of_In _ _) Hx)).
  unfold by_delivery_key, by_request in H. rewrite bool_decide_true in H by done. simpl in H.
  by bool_to_prop.
Qed.

Lemma sample_items_new :
  Forall (fun i => new_item (Some (b_ID sample_batch)) (bi_Request i) (bi_Delivery i)) sample_items.
Proof. repeat apply Forall_cons_2; try apply Forall_nil_2; split; simpl; eauto; done. Qed.

Lemma sample_db_reachable : reachable sample_db.
Proof.
  change sample_db with (db (run_calls sample_calls start)).
  apply reachable_script; [apply (reach_fresh [])|]. unfold sample_calls.
  split; [split; simpl; eauto; done|]. split; [apply sample_items_new|]. split; [exact I|].
  split; [|exact I]. apply request_of_row_check. by vm_compute.
Qed.

(** ** A worker that comes back late

    Notification 1 is claimed, its lease runs out and it is reaped; then it is
    cancelled, or claimed again and sent. *)

Definition reaped_script : list call := [
  CallCreateNotification (sample_request 1 None (Some "k1"))
    (sample_delivery 11 1 DeliveryPending None) (Some (sample_outbox 21 11 1)) 100000;
  CallClaimDelivery 11 100000 160000 120000;
  CallReapStuck 170000 ].

Definition late_sent : call := CallMarkSent 11 100000 1 "prov-1" 300000.
Definition late_retry : call := CallMarkRetrying 11 100000 1 400000 "timeout" 300000.
Definition cancelled_script : list call := reaped_script ++ [CallCancelRequest 1 180000].
Definition finished_script : list call :=
  reaped_script ++ [CallClaimDelivery 11 100000 260000 180000; late_sent].

Lemma reaped_script_legal rest :
  legal_script rest (run_calls reaped_script start) -> legal_script (reaped_script ++ rest) start.
Proof.
  intros H. split; [split; simpl; eauto; done|]. split; [exact I|]. split; [exact I|]. exact H.
Qed.

Lemma cancelled_reachable : reachable (db (run_calls cancelled_script start)).
Proof. apply reachable_script; [apply (reach_fresh [])|]. apply reaped_script_legal.
  by split. Qed.

Lemma finished_reachable : reachable (db (run_calls finished_script start)).
Proof.
  apply reachable_script; [apply (reach_fresh [])|]. apply reaped_script_legal.
  split; [exact I|]. split; [|exact I]. apply request_of_row_check. by vm_compute.
Qed.

Lemma cancelled_then_sent_reachable :
  reachable (db (run_calls (cancelled_script ++ [late_sent]) start)).
Proof.
  rewrite run_calls_snoc. apply reachable_step; [apply cancelled_reachable|].
  apply request_of_row_check. by vm_compute.
Qed.

(** ** Witnesses of the properties of [StoreCalls] *)

Lemma reachable_consistent_witness : NoDup (map r_ID (requests sample_db)).
Proof. apply (reachable_consistent sample_db). apply sample_db_reachable. Defined.

Lemma batch_counters_exact_witness :
  exists b, b ∈ batches sample_db /\ b_TotalCount b = 2%Z /\
    (b_PendingCount b + b_SentCount b + b_FailedCount b + b_CancelledCount b
     = b_TotalCount b)%Z.
Proof.
  exists (mkBatch 50 "alice" (Some "b1") 2 1 1 0 0 100000).
  split; [left|]. split; [reflexivity|].
  apply (batch_counters_exact sample_db); [apply sample_db_reachable|left].
Defined.

(** A creation whose commit the server refuses, or whose commit's reply is lost. *)
Definition creation : call :=
  CallCreateNotification (sample_request 1 None (Some "k1")) (sample_delivery 11 1 DeliveryPending None)
    (Some (sample_outbox 21 11 1)) 100000.

Definition at_commit (f : fault) : Sess := mkSess empty_db None [None; None; None; None; Some f] 0.
Definition refused_commit : Sess := at_commit (Refused (ELib "commit refused")).
Definition unheard_commit : Sess := at_commit (Unheard "commit").

Lemma store_calls_atomic_witness :
  db (snd (exec creation refused_commit)) = empty_db /\
  (fst (exec creation unheard_commit) = Err (lost_reply "commit") /\
   requests (db (snd (exec creation unheard_commit))) <> [] /\
   runs (exec creation) empty_db () (db (snd (exec creation unheard_commit)))).
Proof.
  destruct (store_calls_atomic creation refused_commit _ _ (surjective_pairing _)) as (_ & _ & H1).
  destruct (store_calls_atomic creation unheard_commit _ _ (surjective_pairing _)) as (H2 & _).
  split; [|split_and!].
  - apply H1; [|vm_compute; discriminate]. by repeat constructor.
  - vm_compute. reflexivity.
  - vm_compute. discriminate.
  - destruct H2 as [H2|H2]; [|exact H2]. exfalso. revert H2. vm_compute. discriminate.
Defined.
