(* ===== verification/StoreSpec.v ===== *)
(** * What the store's operations promise

    The contracts of creation, claiming, finalization, cancellation, promotion,
    recovery and retention, each on every branch the statements have. *)

From S2P Require Import Prelude GoStrings Domain Template Store StoreRuns StoreInv.
From S2P Require Import StoreCreate StoreCalls StoreQuiet StoreSamples.

Local Open Scope string_scope.
Local Open Scope list_scope.

(** ** Creation *)

Section creation.
Context `{codec : !MessageCodec}.

Lemma request_conflict_elem r rs q :
  q ∈ rs -> same_idem q r -> request_conflict r rs = true.
Proof.
  intros Hq Hs. destruct (request_conflict r rs) eqn:E; [done|].
  by destruct (request_conflict_same r rs q E Hq Hs).
Qed.

Lemma request_conflict_true r rs :
  request_conflict r rs = true -> exists q, q ∈ rs /\ same_idem q r.
Proof.
  unfold request_conflict. destruct (r_IdempotencyKey r) as [k|] eqn:E; [|done].
  intros (q & Hq & H)%existsb_exists. unfold request_idem in H.
  apply andb_true_iff in H as [U K]. apply String.eqb_eq in U. bool_to_prop.
  exists q. rewrite list_elem_of_In. split; [done|]. by split_and!; [|congruence|eauto].
Qed.

(** A round trip fails, or the next statement sees the same tables. *)
Lemma withTx_insert_fails {A} r (k : eff Sess error A) s :
  request_conflict r (requests (db s)) = true ->
  exists e s', withTx (insertRequest r ≫= fun _ => k) s = (Err e, s') /\ db s' = db s /\
    (faults s = [] -> request_columns_ok r = true -> e = ErrConflict).
Proof.
  intros Hc. destruct (withTx _ s) as [[a|e] s'] eqn:E.
  - exfalso. apply run_runs in E. inv_runs. apply insertRequest_runs in Hr.
    apply insert_request_sql_ok in Hr as (_ & Hc' & _). congruence.
  - exists e, s'. split; [done|]. split.
    { destruct (withTx_err _ _ _ _ E) as [?|[_ [a H]]]; [done|exfalso]. inv_runs.
      apply insertRequest_runs in Hr. apply insert_request_sql_ok in Hr as (_ & Hc' & _). congruence. }
    intros Hf Hcols.
    destruct s as [d rep fs n]. simpl in *. subst fs.
    rewrite (withTx_quiet rep n _ d (Err ErrConflict) d) in E; [by simplify_eq|].
    by apply bind_step_err, insertRequest_conflict_quiet.
Qed.

Lemma encodes_rows now os :
  encodes now os -> Forall2 (fun o row => outbox_row now o = Some row) os (omap (outbox_row now) os).
Proof.
  unfold encodes. induction 1 as [|o os [row Hrow] _ IH]; simpl; [constructor|].
  rewrite Hrow. by constructor.
Qed.

(** A successful [CreateNotification] writes the request, its delivery and
    its outbox row together and nothing else; a later creation under the same
    user and idempotency key never succeeds and writes nothing, and on a server
    that answers it reports [ErrConflict]. *)
Theorem CreateNotification_once r x o now d d' :
  runs (CreateNotification r x o now) d () d' ->
  requests d' = requests d ++ [stored_request r] /\
  deliveries d' = deliveries d ++ [stored_delivery x] /\
  batches d' = batches d /\
  (exists rows, outbox d' = outbox d ++ rows /\
     Forall2 (fun o row => outbox_row now o = Some row) (option_list o) rows) /\
  (is_Some (r_IdempotencyKey r) -> forall r2 x2 o2 now2 s,
     db s = d' -> r_UserID r2 = r_UserID r -> r_IdempotencyKey r2 = r_IdempotencyKey r ->
     exists e s', CreateNotification r2 x2 o2 now2 s = (Err e, s') /\ db s' = d' /\
       (faults s = [] -> request_columns_ok r2 = true -> e = ErrConflict)).
Proof.
  intros (Hc & -> & Henc & _)%CreateNotification_runs.
  split_and!; [done|done|done|by eexists; split; [|apply encodes_rows]|].
  intros Hk r2 x2 o2 now2 s Hs Hu Hk2. rewrite <- Hs. apply withTx_insert_fails.
  apply (request_conflict_elem r2 _ (stored_request r)); [|by split_and!; simpl; try congruence].
  rewrite Hs. simpl. set_solver.
Qed.

Lemma keep_dropped rs items item :
  item ∈ items ->
  item ∈ keep rs items \/
  request_conflict (bi_Request item) (rs ++ map (fun i => stored_request (bi_Request i)) (keep rs items)) = true.
Proof.
  revert rs. induction items as [|i items IH]; intros rs; simpl; [by intros ?%not_elem_of_nil|].
  rewrite elem_of_cons. destruct (request_conflict (bi_Request i) rs) eqn:E; intros [->|Hin].
  - right. apply request_conflict_true in E as (q & Hq & Hs).
    apply (request_conflict_elem _ _ q); [set_solver|done].
  - auto.
  - left. left.
  - destruct (IH (rs ++ [stored_request (bi_Request i)]) Hin) as [H|H]; [left; by right|right].
    simpl. by rewrite <- app_assoc in H.
Qed.

Lemma update_last {A} (p : A -> bool) f l x :
  (forall y, y ∈ l -> p y = false) -> p x = true -> update_where p f (l ++ [x]) = l ++ [f x].
Proof. intros Hl Hx. rewrite update_app, update_none by done. simpl. by rewrite Hx. Qed.

(** [CreateBatch] creates exactly the items [keep] selects, in order, each
    with its delivery and outbox row, and one batch row whose total and pending
    counters are their number; every dropped item's user and idempotency key
    are already stored; created and duplicate counts add up to the items; a
    second batch under the same user and key fails and writes nothing. *)
Theorem CreateBatch_dedup batch items now d res d' :
  runs (CreateBatch batch items now) d res d' ->
  let kept := keep (requests d) items in
  requests d' = requests d ++ map (fun i => stored_request (bi_Request i)) kept /\
  deliveries d' = deliveries d ++ map (fun i => stored_delivery (bi_Delivery i)) kept /\
  (exists rows, outbox d' = outbox d ++ rows /\
     Forall2 (fun o row => outbox_row now o = Some row) (omap bi_Outbox kept) rows) /\
  batches d' = batches d ++ [set_counts (Z.of_nat (length kept)) (empty_batch batch)] /\
  br_CreatedCount res = Z.of_nat (length kept) /\
  (br_CreatedCount res + br_DuplicateCount res)%Z = Z.of_nat (length items) /\
  (forall item, item ∈ items -> item ∈ kept \/
     exists q, q ∈ requests d' /\ same_idem q (bi_Request item)) /\
  (is_Some (b_IdempotencyKey batch) -> forall b2 items2 now2 d2 res2,
     b_UserID b2 = b_UserID batch -> b_IdempotencyKey b2 = b_IdempotencyKey batch ->
     ~ runs (CreateBatch b2 items2 now2) d' res2 d2).
Proof.
  intros (Hid & _ & n & d1 & H & -> & ->)%CreateBatch_runs kept.
  apply create_items_runs in H as (-> & Henc & ->). simpl in Henc |- *. fold kept in Henc |- *.
  pose proof (add_items_proj now kept (set_batches (batches d ++ [empty_batch batch]) d))
    as (-> & -> & -> & ->). simpl.
  assert (Hb : update_where (by_batch_id (b_ID batch)) (set_counts (Z.of_nat (length kept)))
    (batches d ++ [empty_batch batch])
    = batches d ++ [set_counts (Z.of_nat (length kept)) (empty_batch batch)]).
  { apply update_last; [|by apply bool_decide_true]. intros y Hy. apply bool_decide_false.
    intros E. apply Hid, list_elem_of_fmap. eauto. }
  split_and!; try done; [by eexists; split; [|apply encodes_rows]|lia| |].
  - intros item Hi. destruct (keep_dropped (requests d) items item Hi) as [?|Hc]; [by left|right].
    by apply request_conflict_true in Hc.
  - intros [k Hk] b2 items2 now2 d2 res2 Hu Hk2 (_ & Hc & _)%CreateBatch_runs.
    simpl in Hc. rewrite Z.add_0_l, Hb in Hc. unfold batch_conflict in Hc. rewrite Hk2, Hk in Hc.
    rewrite existsb_app in Hc. apply orb_false_iff in Hc as [_ Hc].
    unfold batch_idem in Hc. simpl in Hc. rewrite Hu, Hk, String.eqb_refl in Hc.
    by rewrite bool_decide_true in Hc.
Qed.
End creation.

Lemma CreateNotification_once_witness :
  requests (db (snd (exec (hd (CallReapStuck 0) sample_calls) start)))
  = [sample_request 1 None (Some "k1")].
Proof.
  apply (CreateNotification_once (sample_request 1 None (Some "k1"))
           (sample_delivery 11 1 DeliveryPending None) (Some (sample_outbox 21 11 1)) 100000 empty_db).
  exists start. eexists. split_and!; vm_compute; reflexivity.
Defined.

(** Request 3 of the batch repeats request 2's key: two of three are created. *)
Lemma CreateBatch_dedup_witness :
  exists d', runs (CreateBatch sample_batch sample_items 110000) empty_db
    (mkBatchResult (set_counts 2 sample_batch) 2 1) d' /\
  map r_ID (requests d') = [2%N; 4%N].
Proof.
  eexists. assert (H : runs (CreateBatch sample_batch sample_items 110000) empty_db
    (mkBatchResult (set_counts 2 sample_batch) 2 1)
    (db (snd (exec (CallCreateBatch sample_batch sample_items 110000) start)))).
  { exists start. eexists. split_and!; vm_compute; reflexivity. }
  split; [exact H|].
  destruct (CreateBatch_dedup _ _ _ _ _ _ H) as [E _]. rewrite E. vm_compute. reflexivity.
Defined.

(** ** Claims *)

Lemma claimable_spec id at_ x :
  claimable id at_ x = true <->
  del_key x = (id, timestamptz at_) /\ (d_Status x = DeliveryPending \/ d_Status x = DeliveryRetrying).
Proof.
  unfold claimable, by_delivery_key.
  rewrite andb_true_iff, orb_true_iff, bool_decide_eq_true, !has_status_eq. done.
Qed.

Lemma claim_runs_Some id at_ lease now d y d' :
  runs (ClaimDelivery id at_ lease now) d (Some y) d' ->
  exists x, x ∈ deliveries d /\ claimable id at_ x = true /\ y = claim_row lease now x /\
    d' = update_deliveries (claimable id at_) (claim_row lease now) d.
Proof.
  unfold ClaimDelivery. intros H. apply runs_bind in H as (a & d1 & Hr & H).
  apply attempt_runs in Hr. destruct a as [z|e]; [|destruct (errors_Is e _); by inv_runs].
  apply ends_ok in Hr. inv_runs. simplify_eq. unfold scanDelivery in Hr. inv_runs.
  unfold claim_sql in Hrows. simplify_eq. apply head_map in Hhead as (x & Hx & ->).
  apply first_where_Some in Hx as [Hx Hc]. eauto.
Qed.

Lemma claim_taken id at_ lease now d x :
  x ∈ deliveries (update_deliveries (claimable id at_) (claim_row lease now) d) ->
  claimable id at_ x = false.
Proof.
  intros (y & _ & ->)%elem_of_update. destruct (claimable id at_ y) eqn:E; [|done].
  apply not_true_iff_false. rewrite claimable_spec. by intros [_ [?|?]].
Qed.

(** C10: a delivery is claimed by at most one worker. On a server that answers, a
    claim of a PENDING or RETRYING row returns it PROCESSING under the given
    lease and changes no other row; a claim of anything else returns
    [claimed = false] and changes nothing; and once a claim has run, no claim of
    the same delivery succeeds on the tables it left, whatever fails. *)
Theorem ClaimDelivery_exclusive d id at_ lease now rep n :
  reachable d ->
  let d' := update_deliveries (claimable id at_) (claim_row lease now) d in
  (forall x, x ∈ deliveries d -> del_key x = (id, timestamptz at_) ->
     d_Status x = DeliveryPending \/ d_Status x = DeliveryRetrying ->
     ClaimDelivery id at_ lease now (quiet d rep n)
     = (Ok (Some (claim_row lease now x)), quiet d' rep n)) /\
  ((forall x, x ∈ deliveries d -> del_key x = (id, timestamptz at_) ->
      d_Status x <> DeliveryPending /\ d_Status x <> DeliveryRetrying) ->
     ClaimDelivery id at_ lease now (quiet d rep n) = (Ok None, quiet d rep n)) /\
  (forall x, x ∈ deliveries d -> del_key x <> (id, timestamptz at_) -> x ∈ deliveries d') /\
  (forall lease2 now2 y d2, ~ runs (ClaimDelivery id at_ lease2 now2) d' (Some y) d2).
Proof.
  intros Hwf%reachable_wf d'. split_and!.
  - intros x Hx Hk Hs. rewrite ClaimDelivery_quiet. rewrite (first_where_single _ _ x); try done.
    + intros y Hy [Hky _]%claimable_spec.
      apply (NoDup_key_inj del_key (deliveries d)); [apply Hwf|done|done|congruence].
    + by apply claimable_spec.
  - intros Hno. rewrite ClaimDelivery_quiet.
    assert (Hf : forall x, x ∈ deliveries d -> claimable id at_ x = false).
    { intros x Hx. apply not_true_iff_false. rewrite claimable_spec.
      intros [Hk [E|E]]; destruct (Hno x Hx Hk); congruence. }
    rewrite (proj2 (first_where_None _ _) Hf). unfold update_deliveries.
    rewrite (update_none _ _ _ Hf). by destruct d.
  - intros x Hx Hk. apply elem_of_update. exists x. split; [done|].
    destruct (claimable id at_ x) eqn:E; [|done]. by apply claimable_spec in E as [? _].
  - intros lease2 now2 y d2 (x & Hx & Hc & _)%claim_runs_Some.
    by rewrite (claim_taken id at_ lease now d x Hx) in Hc.
Qed.

Lemma ClaimDelivery_exclusive_witness :
  ClaimDelivery 11 100000 999000 500000 (quiet sample_db None 0)
  = (Ok (Some (claim_row 999000 500000 (sample_delivery 11 1 DeliveryPending None))),
     quiet (update_deliveries (claimable 11 100000) (claim_row 999000 500000) sample_db) None 0).
Proof.
  apply (ClaimDelivery_exclusive sample_db 11 100000 999000 500000 None 0 sample_db_reachable).
  - left.
  - reflexivity.
  - left. reflexivity.
Defined.

(** ** Finalization *)

Lemma by_key_spec id at_ x : by_delivery_key id at_ x = true <-> del_key x = (id, timestamptz at_).
Proof. unfold by_delivery_key. apply bool_decide_eq_true. Qed.

(** With one delivery per request, an update of it decides the statuses. *)
Lemma statuses_after_update d p f x :
  db_wf d -> x ∈ deliveries d -> (forall y, d_RequestID (f y) = d_RequestID y) ->
  p x = true -> statuses_of (d_RequestID x) (update_deliveries p f d) = [d_Status (f x)].
Proof.
  intros Hwf Hx Hf Hp. rewrite statuses_update by done.
  unfold by_request. rewrite (where_single d_RequestID); [|apply Hwf|done]. simpl. by rewrite Hp.
Qed.

(** The request of a delivery, in the tables of a consistent database. *)
Lemma delivery_request d x :
  db_wf d -> x ∈ deliveries d ->
  exists r, first_where (by_request_id (d_RequestID x)) (requests d) = Some r.
Proof.
  intros Hwf Hx. destruct (wf_delivery_request _ _ _ Hwf x Hx) as (r & Hr & E).
  exists r. apply first_where_single; [|done|by apply bool_decide_true].
  intros q Hq Hid. unfold by_request_id in Hid. bool_to_prop.
  apply (NoDup_key_inj r_ID (requests d)); [apply Hwf|done|done|congruence].
Qed.

Lemma recomputed_tables r d :
  deliveries (recomputed r d) = deliveries d /\ outbox (recomputed r d) = outbox d.
Proof.
  unfold recomputed. case_bool_decide; [done|].
  by destruct (r_BatchID r); [destruct (String.eqb _ _)|].
Qed.

(** [d'] is [d] with the delivery [x] replaced by [x'] and its request, if it has
    a status of its own, showing [st]. *)
Record settled (d : DB) (x x' : Delivery) (st : RequestStatus) (d' : DB) : Prop := {
  se_delivery : x' ∈ deliveries d';
  se_others : forall y, y ∈ deliveries d -> y <> x -> y ∈ deliveries d';
  se_count : length (deliveries d') = length (deliveries d);
  se_request : exists r, r ∈ requests d' /\ r_ID r = d_RequestID x /\ r_Status r = st;
  se_outbox : outbox d' = outbox d;
  se_wf : db_wf d'
}.

Lemma settle_runs d x p f r st :
  db_wf d -> x ∈ deliveries d -> row_update (deliveries d) p f ->
  (forall y, y ∈ deliveries d -> p y = true <-> y = x) ->
  (forall y, d_RequestID (f y) = d_RequestID y) ->
  AggregateRequestStatus [d_Status (f x)] = st ->
  first_where (by_request_id (d_RequestID x)) (requests d) = Some r ->
  settled d x (f x) st (recomputed r (update_deliveries p f d)).
Proof.
  intros Hwf Hx Hru Hp Hf Hst Hr. pose proof (head_where_request _ _ _ Hr) as [Hin Hid].
  assert (Hpx : p x = true) by by apply Hp.
  pose proof (recomputed_tables r (update_deliveries p f d)) as [Ed Eo].
  pose proof (statuses_after_update d p f x Hwf Hx Hf Hpx) as Hss.
  split; rewrite ?Ed, ?Eo; simpl; try done.
  - apply elem_of_update. exists x. by rewrite Hpx.
  - intros y Hy Hne. apply elem_of_update. exists y. split; [done|].
    destruct (p y) eqn:E; [|done]. by apply Hp in E.
  - apply length_update.
  - rewrite <- Hid in Hr. pose proof (recomputed_lookup r (update_deliveries p f d) Hr) as Hl.
    rewrite Hid, Hss, Hst in Hl. apply first_where_Some in Hl as [Hl _]. by eexists.
  - apply recomputed_wf; [|done]. rewrite Hid. apply wf_update_request; [done|done|].
    intros y Hy Hpy. apply Hp in Hpy; [by subst|done].
Qed.

Lemma key_only d x : db_wf d -> x ∈ deliveries d ->
  forall y, y ∈ deliveries d -> by_delivery_key (d_ID x) (d_CreatedAt x) y = true <-> y = x.
Proof.
  intros Hwf Hx y Hy. rewrite by_key_spec.
  assert (E : (d_ID x, timestamptz (d_CreatedAt x)) = del_key x)
    by (unfold del_key; f_equal; by apply (wf_micros _ _ _ Hwf)).
  rewrite E. split; [|by intros ->].
  apply (NoDup_key_inj del_key (deliveries d)); [apply Hwf|done|done].
Qed.

(** The worker's final writes settle a delivery: on a server that answers
    [MarkSent] leaves the row SENT with the provider's id and the request SENT,
    [MarkFailed] leaves it FAILED with the attempt count and error and the
    request FAILED; both release the lease, touch no other delivery, and keep the
    tables (batch counters included) consistent. *)
Theorem Mark_settles d x messageID k err now rep n :
  reachable d -> x ∈ deliveries d ->
  (varchar 255 messageID = true -> exists d',
     MarkSent (d_ID x) (d_CreatedAt x) (d_RequestID x) messageID now (quiet d rep n)
     = (Ok (), quiet d' rep n) /\
     settled d x (sent_row messageID now x) RequestSent d') /\
  (pg_text err && int4 k = true -> exists d',
     MarkFailed (d_ID x) (d_CreatedAt x) (d_RequestID x) k err now (quiet d rep n)
     = (Ok (), quiet d' rep n) /\
     settled d x (failed_row k err now x) RequestFailed d').
Proof.
  intros Hwf%reachable_wf Hx. destruct (delivery_request d x Hwf Hx) as (r & Hr).
  split; intros Hok; eexists.
  - split; [by apply MarkSent_quiet|].
    apply settle_runs; try done; [by apply mark_row_update|by apply key_only].
  - split; [by apply MarkFailed_quiet|].
    apply settle_runs; try done; [by apply mark_row_update|by apply key_only].
Qed.

Lemma Mark_settles_witness :
  exists d', MarkSent 11 100000 1 "prov-2" 500000 (quiet sample_db None 0) = (Ok (), quiet d' None 0) /\
    settled sample_db (sample_delivery 11 1 DeliveryPending None)
      (sent_row "prov-2" 500000 (sample_delivery 11 1 DeliveryPending None)) RequestSent d'.
Proof.
  apply (Mark_settles sample_db (sample_delivery 11 1 DeliveryPending None) "prov-2" 1 "boom" 500000
           None 0 sample_db_reachable).
  - left.
  - vm_compute. reflexivity.
Defined.

(** The three [Mark] methods test the row's key and not its status. A worker
    whose lease was reaped while it waited for the provider overwrites a
    cancellation the user was told about (CANCELLED becomes SENT), and reopens a
    delivery another worker finished: the row is RETRYING under a request that
    still reads SENT. *)
Theorem late_worker_overwrites :
  (exists d1 d2, reachable d1 /\ reachable d2 /\
     map d_Status (deliveries d1) = [DeliveryCancelled] /\
     map r_Status (requests d1) = [RequestCancelled] /\
     runs (MarkSent 11 100000 1 "prov-1" 300000) d1 () d2 /\
     map d_Status (deliveries d2) = [DeliverySent] /\
     map r_Status (requests d2) = [RequestSent]) /\
  (exists d1 d2, reachable d1 /\
     map d_Status (deliveries d1) = [DeliverySent] /\
     runs (MarkRetrying 11 100000 1 400000 "timeout" 300000) d1 () d2 /\
     map d_Status (deliveries d2) = [DeliveryRetrying] /\
     map r_Status (requests d2) = [RequestSent]).
Proof.
  split.
  - exists (db (run_calls cancelled_script start)),
      (db (run_calls (cancelled_script ++ [late_sent]) start)).
    split_and!; [apply cancelled_reachable|apply cancelled_then_sent_reachable|by vm_compute..| |
                 by vm_compute|by vm_compute].
    apply (script_runs cancelled_script late_sent). by vm_compute.
  - exists (db (run_calls finished_script start)),
      (db (run_calls (finished_script ++ [late_retry]) start)).
    split_and!; [apply finished_reachable|by vm_compute| |by vm_compute|by vm_compute].
    apply (script_runs finished_script late_retry). by vm_compute.
Qed.

(** A provider message id longer than the column makes [MarkSent] fail on
    every server and change nothing; the row stays PROCESSING, and when its lease
    runs out [ReapStuck] reschedules it with the attempt count it had, so the
    retry policy never gives up on it. *)
Theorem MarkSent_long_message_id d x messageID now later rep n s :
  reachable d -> x ∈ deliveries d -> d_Status x = DeliveryProcessing ->
  (default later (d_LockedUntil x) < later)%Z -> varchar 255 messageID = false ->
  (exists e s', MarkSent (d_ID x) (d_CreatedAt x) (d_RequestID x) messageID now s = (Err e, s') /\
     db s' = db s) /\
  (exists d', ReapStuck later (quiet d rep n)
     = (Ok (Z.of_nat (count_where (lease_expired later) (deliveries d))), quiet d' rep n) /\
     reaped_row later x ∈ deliveries d' /\
     d_Status (reaped_row later x) = DeliveryRetrying /\
     d_AttemptCount (reaped_row later x) = d_AttemptCount x).
Proof.
  intros Hwf%reachable_wf Hx Hst Hlate Hlong. split.
  - destruct (MarkSent _ _ _ _ _ s) as [[[]|e] s'] eqn:E.
    + exfalso. apply run_runs in E. unfold MarkSent in E. inv_runs.
      unfold mark_sql in Hr. by rewrite Hlong in Hr.
    + exists e, s'. split; [done|].
      destruct (withTx_err _ _ _ _ E) as [?|[_ [a H]]]; [done|exfalso]. inv_runs.
      unfold mark_sql in Hr. by rewrite Hlong in Hr.
  - exists (update_deliveries (lease_expired later) (reaped_row later) d).
    split_and!; [done| |done|done].
    apply elem_of_update. exists x. split; [done|].
    assert (Hl : lease_expired later x = true); [|by rewrite Hl].
    unfold lease_expired. rewrite (proj2 (has_status_eq _ _) Hst). simpl.
    destruct (proj1 (proj1 (wf_rows _ _ _ Hwf x Hx)) Hst) as [t Ht]. rewrite Ht in *. simpl in Hlate.
    by apply Z.ltb_lt.
Qed.

(** Request 4's delivery claimed under a lease that ends at 600000. *)
Definition claimed_script : list call :=
  [CallCreateNotification (sample_request 1 None (Some "k1"))
     (sample_delivery 11 1 DeliveryPending None) (Some (sample_outbox 21 11 1)) 100000;
   CallClaimDelivery 11 100000 600000 500000].
Definition claimed_db : DB := Eval vm_compute in db (run_calls claimed_script start).
Definition claimed_row : Delivery :=
  claim_row 600000 500000 (sample_delivery 11 1 DeliveryPending None).

Lemma claimed_db_reachable : reachable claimed_db.
Proof.
  change claimed_db with (db (run_calls claimed_script start)).
  apply reachable_script; [apply (reach_fresh [])|].
  split; [split; simpl; eauto; done|]. by split.
Qed.

Lemma MarkSent_long_message_id_witness :
  exists e s', MarkSent 11 100000 1 (String.concat "" (repeat "x" 256)) 700000 (quiet claimed_db None 0)
    = (Err e, s') /\ db s' = claimed_db.
Proof.
  apply (MarkSent_long_message_id claimed_db claimed_row (String.concat "" (repeat "x" 256))
           700000 700000 None 0 (quiet claimed_db None 0) claimed_db_reachable).
  - left.
  - reflexivity.
  - vm_compute. reflexivity.
  - vm_compute. reflexivity.
Defined.

(** ** Cancellation *)

Lemma cancel_row_update d id now :
  row_update (deliveries d) (cancellable id) (cancelled_row now).
Proof.
  apply unlocked_row_update; try done. intros y _ Hy. apply cancellable_spec in Hy.
  destruct Hy as [_ [E|[E|E]]]; by rewrite E.
Qed.

Lemma same_request d x y :
  db_wf d -> x ∈ deliveries d -> y ∈ deliveries d -> d_RequestID x = d_RequestID y -> x = y.
Proof. intros Hwf. apply (NoDup_key_inj d_RequestID), Hwf. Qed.

(** C36: cancellation, on every branch, on a server that answers. An unknown id is
    [ErrNotFound]; a notification whose delivery is SENT, FAILED or CANCELLED (or
    gone), and also one whose delivery is PROCESSING, is refused with
    [ErrCancelNotAllowed]; both leave the tables alone. (README.md and openapi.yaml
    promise the cancellation of every delivery that is not terminal, which PROCESSING
    is not; the code refuses it.)
    Otherwise the delivery becomes CANCELLED, the returned request and the stored
    one are CANCELLED, no other delivery changes and the tables stay consistent,
    whatever batch the request is in. *)
Theorem CancelRequest_spec d id now rep n :
  reachable d ->
  (id ∉ map r_ID (requests d) ->
     CancelRequest id now (quiet d rep n) = (Err ErrNotFound, quiet d rep n)) /\
  (id ∈ map r_ID (requests d) ->
   (forall x, x ∈ deliveries d -> d_RequestID x = id ->
      d_Status x = DeliveryProcessing \/ IsTerminal (d_Status x) = true) ->
     CancelRequest id now (quiet d rep n) = (Err ErrCancelNotAllowed, quiet d rep n)) /\
  (forall x, x ∈ deliveries d -> d_RequestID x = id ->
     d_Status x = DeliveryScheduled \/ d_Status x = DeliveryPending \/
     d_Status x = DeliveryRetrying ->
     exists r d', CancelRequest id now (quiet d rep n) = (Ok r, quiet d' rep n) /\
       r_ID r = id /\ r_Status r = RequestCancelled /\
       settled d x (cancelled_row now x) RequestCancelled d').
Proof.
  intros Hwf%reachable_wf. rewrite CancelRequest_quiet. split_and!.
  - intros Hid. assert (first_where (by_request_id id) (requests d) = None) as ->; [|done].
    apply first_where_None. intros r Hr. apply bool_decide_false. intros <-.
    apply Hid, list_elem_of_fmap. eauto.
  - intros Hid Hno. destruct (first_where _ _) eqn:E.
    + rewrite bool_decide_true; [done|]. apply count_none. intros x Hx.
      apply not_true_iff_false. rewrite cancellable_spec. intros [Hr Hs].
      destruct (Hno x Hx Hr) as [E'|E']; destruct Hs as [S|[S|S]]; by rewrite S in E'.
    + apply list_elem_of_fmap in Hid as (r & -> & Hr).
      pose proof (proj1 (first_where_None _ _) E r Hr) as F.
      unfold by_request_id in F. by rewrite bool_decide_true in F.
  - intros x Hx <- Hs. destruct (delivery_request d x Hwf Hx) as (r & Hr). rewrite Hr.
    assert (Hc : cancellable (d_RequestID x) x = true) by (by apply cancellable_spec).
    rewrite bool_decide_false.
    2: { intros Hz. rewrite (proj1 (count_zero_iff _ _) Hz x Hx) in Hc. done. }
    cbv zeta. rewrite (statuses_after_update d _ _ x Hwf Hx) by done.
    eexists _, _. split; [done|]. split; [exact (proj2 (head_where_request _ _ _ Hr))|]. split; [done|].
    apply settle_runs; try done; [apply cancel_row_update|].
    intros y Hy. rewrite cancellable_spec. split; [|by intros ->].
    intros [E _]. by apply (same_request d).
Qed.

(** Request 4 of the batch is scheduled and can be cancelled; request 2 was sent. *)
Lemma CancelRequest_spec_witness :
  CancelRequest 2 600000 (quiet sample_db None 0) = (Err ErrCancelNotAllowed, quiet sample_db None 0) /\
  exists r d', CancelRequest 4 600000 (quiet sample_db None 0) = (Ok r, quiet d' None 0) /\
    r_ID r = 4%N /\ r_Status r = RequestCancelled /\
    settled sample_db (sample_delivery 14 4 DeliveryScheduled (Some 500000%Z))
      (cancelled_row 600000 (sample_delivery 14 4 DeliveryScheduled (Some 500000%Z)))
      RequestCancelled d'.
Proof.
  split.
  - apply (CancelRequest_spec sample_db 2 600000 None 0 sample_db_reachable).
    + apply (bool_decide_unpack _). vm_compute. exact I.
    + intros x Hx Hr. right. revert x Hx Hr.
      apply (proj1 (Forall_forall (fun x => d_RequestID x = 2%N -> IsTerminal (d_Status x) = true) _)).
      repeat apply Forall_cons_2; try apply Forall_nil_2; vm_compute; congruence.
  - apply (CancelRequest_spec sample_db 4 600000 None 0 sample_db_reachable).
    + right. right. left.
    + reflexivity.
    + left. reflexivity.
Defined.
