(* ===== verification/StoreDue.v ===== *)
(** * Promotion, sweep, recovery and retention

    What the scheduler's statements select and change: the due rows, oldest
    first, up to the limit, each moved to PENDING with exactly one outbox row in
    the same transaction. *)

From S2P Require Import Prelude GoStrings Domain Template Store StoreRuns StoreInv.
From S2P Require Import StoreCreate StoreCalls StoreQuiet StoreSamples.

Local Open Scope string_scope.
Local Open Scope list_scope.

(** ** ORDER BY ... LIMIT *)

Section order_limit.
Context {A : Type} (key : A -> Z).

#[local] Instance key_le_trans : Transitive (key_le key).
Proof. intros x y z. unfold key_le. lia. Qed.
#[local] Instance key_le_total : Total (key_le key).
Proof. intros x y. unfold key_le. lia. Qed.

Lemma order_by_perm l : order_by key l ≡ₚ l.
Proof. apply merge_sort_Permutation. Qed.

(** The rows taken are not younger than those left. *)
Lemma order_take_oldest l k x y :
  x ∈ take k (order_by key l) -> y ∈ l -> y ∉ take k (order_by key l) ->
  (key x <= key y)%Z.
Proof.
  intros Hx Hy Hny.
  assert (Hs : StronglySorted (key_le key) (order_by key l))
    by (apply StronglySorted_merge_sort; apply _).
  rewrite <- (take_drop k (order_by key l)) in Hs.
  apply (StronglySorted_app_1_elem_of _ _ _ x y Hs Hx).
  assert (Hin : y ∈ order_by key l) by (by rewrite order_by_perm).
  rewrite <- (take_drop k (order_by key l)), elem_of_app in Hin. tauto.
Qed.

Lemma elem_of_order_take l k x : x ∈ take k (order_by key l) -> x ∈ l.
Proof.
  intros H. rewrite <- (order_by_perm l).
  rewrite <- (take_drop k (order_by key l)). set_solver.
Qed.
End order_limit.

(** The rows whose key is among the keys of some of them are exactly those. *)
Lemma where_key_among {A B} `{EqDecision B} (k : A -> B) (l sel : list A) :
  NoDup (map k l) -> NoDup (map k sel) -> (forall x, x ∈ sel -> x ∈ l) ->
  where_ (fun x => bool_decide (k x ∈ map k sel)) l ≡ₚ sel.
Proof.
  intros Hl Hs Hsub. apply NoDup_Permutation.
  - apply (NoDup_fmap_1 k). by apply (NoDup_map_where k).
  - by apply (NoDup_fmap_1 k).
  - intros x. rewrite elem_of_where, bool_decide_eq_true, list_elem_of_fmap. split.
    + intros [Hx (y & E & Hy)]. rewrite (NoDup_key_inj k l x y); auto.
    + intros Hx. split; [auto|]. eauto.
Qed.

(** ** The transition and its outbox rows *)

Section transition.
Context `{codec : !MessageCodec} `{uuids : !UuidSource}.

Definition due_message (x : Delivery) : DeliveryMessage :=
  mkDeliveryMessage (d_ID x) (d_CreatedAt x) (d_RequestID x) (d_Channel x) (d_Priority x) "".

(** The unpublished row that carries a delivery to its stream. *)
Record enqueued (now : time) (x : Delivery) (row : OutboxRow) : Prop := {
  eq_id : ob_delivery_id row = d_ID x;
  eq_created : ob_delivery_created_at row = timestamptz (d_CreatedAt x);
  eq_stream : ob_stream row = Stream (d_Priority x) (d_Channel x);
  eq_payload : marshalMessage (due_message x) = Ok (ob_payload row);
  eq_at : ob_created_at row = now;
  eq_published : ob_published_at row = None
}.

Lemma enqueue_all_runs now l d d' :
  runs (for_each (enqueueDueTx now) (map due_of l)) d () d' ->
  exists rows, d' = set_outbox (outbox d ++ rows) d /\ Forall2 (enqueued now) l rows.
Proof.
  revert d. induction l as [|x l IH]; intros d H; simpl in H.
  - inv_runs. exists []. rewrite set_outbox_nil. split; [done|constructor].
  - apply runs_bind in H as ([] & d1 & H1 & H). unfold enqueueDueTx in H1. inv_runs.
    apply New_uuid_runs in Hr as ->.
    apply insertOutbox_runs in H1 as (payload & Hp & _ & ->). simpl in *.
    apply IH in H as (rows & -> & Hall). eexists (_ :: rows). simpl.
    rewrite <- app_assoc. split; [done|]. by constructor.
Qed.

Lemma NoDup_take_order {B} (k : Delivery -> B) (key : Delivery -> Z) p l j :
  NoDup (map k l) -> NoDup (map k (take j (order_by key (where_ p l)))).
Proof.
  intros Hl. assert (H : NoDup (map k (order_by key (where_ p l)))).
  { rewrite (order_by_perm key). by apply NoDup_map_where. }
  rewrite <- (take_drop j (order_by key (where_ p l))), map_app in H.
  by apply NoDup_app in H as [? _].
Qed.

(** What one batch of a transition did. *)
Record transitioned (due : Delivery -> bool) (key : Delivery -> Z)
    (locked : uuid * time -> bool) (now : time) (limit : Z) (d : DB) (moved : Z) (d' : DB)
    (sel : list Delivery) : Prop := {
  tr_due : forall x, x ∈ sel -> x ∈ deliveries d /\ due x = true /\ locked (del_key x) = false;
  tr_oldest : forall x y, x ∈ sel -> y ∈ deliveries d -> due y = true ->
    locked (del_key y) = false -> y ∉ sel -> (key x <= key y)%Z;
  tr_moved : moved = Z.min limit
    (Z.of_nat (count_where (fun x => due x && negb (locked (del_key x))) (deliveries d)));
  tr_length : moved = Z.of_nat (length sel);
  tr_keys : NoDup (map del_key sel);
  tr_rows : deliveries d' =
    update_where (fun x => bool_decide (del_key x ∈ map del_key sel)) (pending_row now)
      (deliveries d);
  tr_outbox : exists rows new, outbox d' = outbox d ++ rows /\ new ≡ₚ sel /\
    Forall2 (enqueued now) new rows;
  tr_requests : requests d' = requests d
}.

Lemma transition_spec due key locked now limit d n d' :
  NoDup (map del_key (deliveries d)) ->
  runs (transitionAndEnqueue (transition_sql due key locked now) now limit) d n d' ->
  exists sel, transitioned due key locked now limit d n d' sel.
Proof.
  intros Hnd H. unfold transitionAndEnqueue in H. inv_runs.
  unfold transition_sql, limit_rows in Hr. destruct (Z.ltb_spec limit 0); [done|].
  set (cand := where_ (fun x => due x && negb (locked (del_key x))) (deliveries d)) in *.
  set (sel := take (Z.to_nat limit) (order_by key cand)) in *. simplify_eq.
  assert (Hsub : forall x, x ∈ sel -> x ∈ cand) by (intros x; apply elem_of_order_take).
  assert (Hcand : forall x, x ∈ cand <->
    x ∈ deliveries d /\ due x = true /\ locked (del_key x) = false).
  { intros x. unfold cand. rewrite elem_of_where, andb_true_iff, negb_true_iff. tauto. }
  assert (Hsel : NoDup (map del_key sel)) by by apply NoDup_take_order.
  pose proof (where_key_among del_key (deliveries d) sel Hnd Hsel
                (fun x Hx => proj1 (proj1 (Hcand x) (Hsub x Hx)))) as Hperm.
  apply enqueue_all_runs in Hr0 as (rows & -> & Hrows). exists sel. split; simpl.
  - intros x Hx. by apply Hcand, Hsub.
  - intros x y Hx Hy Hdue Hl Hny. apply (order_take_oldest key cand (Z.to_nat limit)); try done.
    by apply Hcand.
  - rewrite length_map, Hperm. unfold sel. rewrite length_take, (order_by_perm key).
    unfold count_where. fold cand. lia.
  - by rewrite length_map, Hperm.
  - done.
  - done.
  - eauto.
  - done.
Qed.

(** One transaction of [PromoteDue] moves exactly the due SCHEDULED
    deliveries no other transaction holds, oldest [send_at] first, as many as
    the limit allows: each becomes PENDING and gets one unpublished outbox row
    with its own stream and message, and nothing else changes. [SweepRetries]
    does the same for RETRYING deliveries by [next_retry_at]. *)
Theorem PromoteDue_SweepRetries_spec locked now limit d n d' :
  reachable d ->
  (runs (PromoteDue locked now limit) d n d' -> exists sel,
     transitioned (scheduled_due now) (fun x => default 0%Z (d_SendAt x))
       locked now limit d n d' sel) /\
  (runs (SweepRetries locked now limit) d n d' -> exists sel,
     transitioned (retry_due now) (fun x => default 0%Z (d_NextRetryAt x))
       locked now limit d n d' sel).
Proof. intros Hwf%reachable_wf. split; apply transition_spec; apply Hwf. Qed.

(** ** Reconciliation *)

(** The tables after [MarkOutboxPublished] on [ids]. *)
Definition all_published (ids : list uuid) (now : time) (d : DB) : DB :=
  set_outbox (update_where (fun row => id_in ids (ob_id row)) (published_row now) (outbox d)) d.

Lemma orphaned_again c c' d ids later rows x :
  (c <= c')%Z -> orphaned c d x = true ->
  (forall row, row ∈ outbox d ++ rows -> id_in ids (ob_id row) = true) ->
  orphaned c' (all_published ids later (set_outbox (outbox d ++ rows) d)) x = true.
Proof.
  unfold orphaned. intros Hc [[Hs Ht]%andb_true_iff _]%andb_true_iff Hids.
  rewrite Hs, (proj2 (Z.ltb_lt _ _)) by (apply Z.ltb_lt in Ht; lia). simpl.
  apply negb_true_iff, not_true_iff_false. unfold has_unpublished. simpl.
  intros (row & Hrow & H)%existsb_exists. rewrite <- list_elem_of_In in Hrow.
  apply elem_of_update in Hrow as (row0 & Hrow & ->). rewrite (Hids row0 Hrow) in H.
  apply andb_true_iff in H as [_ H]. done.
Qed.

(** [ReconcilePending] changes no delivery and no request: it appends one
    unpublished outbox row for each of the oldest PENDING deliveries not
    updated since the cutoff that have no unpublished row, up to the limit. It
    leaves [updated_at] alone: once the relay has published those rows, the same
    deliveries are candidates of the next tick again, consumed or not. *)
Theorem ReconcilePending_spec locked clock now older limit d n d' :
  runs (ReconcilePending locked clock now older limit) d n d' ->
  let cand := where_ (fun x => orphaned (timestamptz (clock - older)) d x && negb (locked (del_key x)))
                (deliveries d) in
  exists sel rows, d' = set_outbox (outbox d ++ rows) d /\ Forall2 (enqueued now) sel rows /\
    (forall x, x ∈ sel -> x ∈ cand) /\ n = Z.of_nat (length sel) /\
    n = Z.min limit (Z.of_nat (length cand)) /\
    (forall x y, x ∈ sel -> y ∈ cand -> y ∉ sel -> (d_UpdatedAt x <= d_UpdatedAt y)%Z) /\
    (forall x ids later clock', x ∈ sel -> (clock <= clock')%Z ->
       (forall row, row ∈ outbox d' -> id_in ids (ob_id row) = true) ->
       orphaned (timestamptz (clock' - older)) (all_published ids later d') x = true).
Proof.
  intros H cand. unfold ReconcilePending in H. inv_runs.
  match goal with H : _ = Ok _ |- _ => rename H into Hq end.
  unfold reconcile_sql, limit_rows in Hq. destruct (Z.ltb_spec limit 0); [done|].
  fold cand in Hq. simplify_eq. set (sel := take _ _) in *.
  match goal with H : runs (for_each _ _) _ _ _ |- _ =>
    apply enqueue_all_runs in H as (rows & -> & Hrows) end.
  exists sel, rows. split_and!; try done.
  - intros x. apply elem_of_order_take.
  - by rewrite length_map.
  - rewrite length_map. unfold sel. rewrite length_take, (order_by_perm d_UpdatedAt). lia.
  - intros x y. apply order_take_oldest.
  - intros x ids later clock' Hx Hc Hids. apply elem_of_order_take in Hx.
    apply elem_of_where in Hx as [_ Hx]. bool_to_prop.
    by apply (orphaned_again (timestamptz (clock - older))); [apply timestamptz_mono; lia|..].
Qed.
End transition.

Definition no_lock (_ : uuid * time) : bool := false.

(** At time 600000 request 4's delivery, scheduled for 500000, is due. *)
Lemma PromoteDue_SweepRetries_spec_witness :
  exists d' sel, transitioned (scheduled_due 600000) (fun x => default 0%Z (d_SendAt x))
    no_lock 600000 10 sample_db 1 d' sel /\
    map d_ID (where_ (has_status DeliveryPending) (deliveries d')) = [11%N; 14%N].
Proof.
  assert (H : runs (PromoteDue no_lock 600000 10) sample_db 1%Z
    (db (snd (exec (CallPromoteDue no_lock 600000 10) (quiet sample_db None 0))))).
  { exists (quiet sample_db None 0). eexists. split_and!; vm_compute; reflexivity. }
  destruct (proj1 (PromoteDue_SweepRetries_spec no_lock 600000 10 sample_db 1 _ sample_db_reachable) H)
    as [sel Hsel].
  eexists _, sel. split; [exact Hsel|]. vm_compute. reflexivity.
Defined.

Lemma ReconcilePending_spec_witness :
  exists sel rows, Forall2 (enqueued 900000) sel rows /\
    1%Z = Z.of_nat (length sel).
Proof.
  assert (H : runs (ReconcilePending no_lock 900000 900000 60 1)
    (all_published [21%N; 22%N] 120000 sample_db) 1%Z
    (db (snd (exec (CallReconcilePending no_lock 900000 900000 60 1)
               (quiet (all_published [21%N; 22%N] 120000 sample_db) None 0))))).
  { exists (quiet (all_published [21%N; 22%N] 120000 sample_db) None 0). eexists.
    split_and!; vm_compute; reflexivity. }
  destruct (ReconcilePending_spec _ _ _ _ _ _ _ _ H) as (sel & rows & _ & Hrows & _ & Hn & _).
  by exists sel, rows.
Defined.

(** ** Recovery of stuck deliveries *)

Lemma lease_expired_spec now x :
  lease_expired now x = true <->
  d_Status x = DeliveryProcessing /\ exists t, d_LockedUntil x = Some t /\ (t < now)%Z.
Proof.
  unfold lease_expired. rewrite andb_true_iff, has_status_eq.
  destruct (d_LockedUntil x); rewrite ?Z.ltb_lt; naive_solver.
Qed.

(** A crashed worker loses no delivery. On a server that answers, [ReapStuck]
    turns every PROCESSING row whose lease has expired into a RETRYING row that
    is due at once, with its attempt count, and leaves every other row, a live
    lease included, as it is; after it no expired lease is left, and each reaped
    row is among the candidates of the next sweep. *)
Theorem ReapStuck_recovers d now rep n :
  reachable d -> exists d',
    ReapStuck now (quiet d rep n)
    = (Ok (Z.of_nat (count_where (lease_expired now) (deliveries d))), quiet d' rep n) /\
    (forall x t, x ∈ deliveries d -> d_Status x = DeliveryProcessing ->
       d_LockedUntil x = Some t -> (t < now)%Z ->
       exists y, y ∈ deliveries d' /\ del_key y = del_key x /\
         d_AttemptCount y = d_AttemptCount x /\ d_LockedUntil y = None /\
         forall later, (now <= later)%Z -> retry_due later y = true) /\
    (forall x, x ∈ deliveries d ->
       (d_Status x <> DeliveryProcessing \/
        exists t, d_LockedUntil x = Some t /\ (now <= t)%Z) -> x ∈ deliveries d') /\
    (forall y, y ∈ deliveries d' -> d_Status y = DeliveryProcessing ->
       exists t, d_LockedUntil y = Some t /\ (now <= t)%Z) /\
    requests d' = requests d /\ reachable d'.
Proof.
  intros Hreach. pose proof (reachable_wf d Hreach) as Hwf.
  exists (update_deliveries (lease_expired now) (reaped_row now) d). split_and!; try done.
  - intros x t Hx Hst Ht Hlt. exists (reaped_row now x). split_and!; try done.
    + apply elem_of_update. exists x. split; [done|].
      by rewrite (proj2 (lease_expired_spec now x)); eauto.
    + intros later Hl. unfold retry_due. simpl. by apply Z.leb_le.
  - intros x Hx Hlive. apply elem_of_update. exists x. split; [done|].
    destruct (lease_expired now x) eqn:E; [|done].
    apply lease_expired_spec in E as (Hs & t & Ht & Hlt).
    destruct Hlive as [?|(t' & Ht' & Hle)]; [done|]. simplify_eq. lia.
  - intros y (x & Hx & ->)%elem_of_update. destruct (lease_expired now x) eqn:E; [done|].
    intros Hs. destruct (proj1 (proj1 (wf_rows _ _ _ Hwf x Hx)) Hs) as [t Ht]. exists t.
    split; [done|]. destruct (Z.le_gt_cases now t); [done|].
    rewrite (proj2 (lease_expired_spec now x)) in E; [done|]. eauto.
  - change (update_deliveries (lease_expired now) (reaped_row now) d)
      with (db (snd (exec (CallReapStuck now) (quiet d None 0)))).
    by apply (reach_call (CallReapStuck now) (quiet d None 0) (Ok ())).
Qed.

Lemma ReapStuck_recovers_witness :
  exists d', ReapStuck 700000 (quiet (db (run_calls reaped_script start)) None 0)
    = (Ok 0%Z, quiet d' None 0) /\ requests d' = [sample_request 1 None (Some "k1")].
Proof.
  destruct (ReapStuck_recovers (db (run_calls reaped_script start)) 700000 None 0) as (d' & E & _ & _ & _ & Er & _).
  - apply reachable_script; [apply (reach_fresh [])|].
    apply (reaped_script_legal []). exact I.
  - exists d'. split; [rewrite E; vm_compute; reflexivity|]. rewrite Er. vm_compute. reflexivity.
Defined.

(** ** Retention *)

(** Dropping a day's partition archives the day's terminal deliveries, keeps
    every delivery of the other days and every request, and deletes the day's
    other deliveries without a trace: a delivery still SCHEDULED, PENDING,
    PROCESSING or RETRYING is afterwards in no table, although its request is
    still listed as PENDING. The retention window bounds [created_at], not
    [send_at], so a notification scheduled past it is lost. *)
Theorem ArchiveAndDropPartition_effect d day rep n :
  reachable d -> partition_exists (day_of day) d = true ->
  (forall x y, x ∈ deliveries d -> y ∈ archive d -> del_key x <> del_key y) ->
  exists d', ArchiveAndDropPartition day (quiet d rep n) = (Ok (), quiet d' rep n) /\
    (forall x, x ∈ deliveries d -> in_day (day_of day) x = true ->
       IsTerminal (d_Status x) = true -> x ∈ archive d') /\
    (forall x, x ∈ deliveries d' <-> x ∈ deliveries d /\ in_day (day_of day) x = false) /\
    requests d' = requests d /\
    (forall x, x ∈ deliveries d -> in_day (day_of day) x = true ->
       IsTerminal (d_Status x) = false ->
       (forall y, y ∈ deliveries d' \/ y ∈ archive d' -> del_key y <> del_key x) /\
       exists r, r ∈ requests d' /\ r_ID r = d_RequestID x /\ r_Status r = RequestPending).
Proof.
  intros Hwf%reachable_wf Hpart Harch.
  set (terminal := where_ (fun x => IsTerminal (d_Status x))
                     (where_ (in_day (day_of day)) (deliveries d))).
  assert (Hnew : existsb (fun x => existsb (fun y => bool_decide (del_key y = del_key x)) (archive d))
                   terminal = false).
  { apply not_true_iff_false. intros (x & Hx & H)%existsb_exists.
    apply existsb_exists in H as (y & Hy & Hk). bool_to_prop.
    apply list_elem_of_In, elem_of_where in Hx as [[Hx _]%elem_of_where _].
    apply (Harch x y Hx); [by apply list_elem_of_In|done]. }
  eexists. split_and!.
  - unfold ArchiveAndDropPartition. rewrite wrap_quiet, Exec_quiet.
    unfold archive_and_drop_partition. rewrite Hpart. fold terminal. rewrite Hnew. done.
  - intros x Hx Hd Ht. simpl. apply elem_of_app. right.
    apply elem_of_where. split; [by apply elem_of_where|done].
  - intros x. simpl. rewrite elem_of_where, negb_true_iff. done.
  - done.
  - intros x Hx Hd Ht. split.
    + simpl. intros y [[Hy Hyd]%elem_of_where|[Hy|Hy]%elem_of_app] E.
      * rewrite (NoDup_key_inj del_key (deliveries d) y x (wf_delivery_keys _ _ _ Hwf) Hy Hx E) in Hyd.
        by rewrite Hd in Hyd.
      * by apply (Harch x y Hx Hy).
      * apply elem_of_where in Hy as [[Hy _]%elem_of_where Hyt].
        rewrite (NoDup_key_inj del_key (deliveries d) y x (wf_delivery_keys _ _ _ Hwf) Hy Hx E) in Hyt.
        congruence.
    + simpl. destruct (wf_delivery_request _ _ _ Hwf x Hx) as (r & Hr & Er).
      exists r. split_and!; [done|done|].
      assert (Hin : d_Status x ∈ statuses_of (r_ID r) d) by (apply statuses_elem; eauto).
      rewrite (wf_status _ _ _ Hwf r Hr (not_nothing _)) by (intros E; rewrite E in Hin;
        by apply not_elem_of_nil in Hin).
      by apply (aggregate_nonterminal _ (d_Status x)).
Qed.

(** A notification scheduled ten years ahead, in the partition of day 0. *)
Definition far_delivery : Delivery :=
  sample_delivery 11 1 DeliveryScheduled (Some (3650 * Day)%Z).
Definition far_script : list call := [
  CallCreateDeliveryPartition 0;
  CallCreateNotification (sample_request 1 None None) far_delivery None 100000 ].
Definition far_db : DB := Eval vm_compute in db (run_calls far_script start).

Lemma far_db_reachable : reachable far_db.
Proof.
  change far_db with (db (run_calls far_script start)).
  apply reachable_script; [apply (reach_fresh [])|]. split; [exact I|].
  split; [split; simpl; auto|exact I].
Qed.

Lemma ArchiveAndDropPartition_effect_witness :
  exists d', ArchiveAndDropPartition 100000 (quiet far_db None 0) = (Ok (), quiet d' None 0) /\
    far_delivery ∈ deliveries far_db /\
    (forall y, y ∈ deliveries d' \/ y ∈ archive d' -> del_key y <> del_key far_delivery).
Proof.
  destruct (ArchiveAndDropPartition_effect far_db 100000 None 0) as (d' & E & _ & _ & _ & Hlost).
  - apply far_db_reachable.
  - vm_compute. reflexivity.
  - intros x y _ Hy. by apply not_elem_of_nil in Hy.
  - exists d'. split; [exact E|]. split; [left|].
    apply (Hlost far_delivery); [left|vm_compute; reflexivity|reflexivity].
Defined.

(** ** The lag gauge *)

Lemma foldr_min_elem u us : foldr Z.min u us ∈ u :: us.
Proof.
  induction us as [|v us IH]; simpl; [left|].
  destruct (Z.min_spec v (foldr Z.min u us)) as [[_ ->]|[_ ->]]; set_solver.
Qed.

Lemma foldr_min_le u us v : v ∈ u :: us -> (foldr Z.min u us <= v)%Z.
Proof.
  induction us as [|w us IH]; simpl; [rewrite list_elem_of_singleton; intros ->; lia|].
  rewrite !elem_of_cons in *. intros [->|[->|Hv]]; [|lia|].
  - assert (foldr Z.min u us <= u)%Z by (apply IH; by left). lia.
  - assert (foldr Z.min u us <= v)%Z by (apply IH; by right). lia.
Qed.

Lemma due_times_le now d t : t ∈ due_times now d -> (t <= now)%Z.
Proof.
  unfold due_times, scheduled_due, retry_due, time_le.
  rewrite elem_of_app, !list_elem_of_omap. setoid_rewrite elem_of_where.
  intros [(x & [_ H] & E)|(x & [_ H] & E)]; rewrite E in H;
    apply andb_true_iff in H as [_ H]; by apply Z.leb_le.
Qed.

(** [OldestDueLagSeconds] returns the age of the oldest due SCHEDULED or
    RETRYING delivery; when nothing is due its statement yields no row and the
    call is an error, not the zero its comment promises. *)
Theorem OldestDueLagSeconds_spec d now rep n :
  (due_times now d = [] ->
     OldestDueLagSeconds now (quiet d rep n)
     = (Err (Errorf "oldest due lag" ErrNoRows), quiet d rep n)) /\
  (forall t, t ∈ due_times now d -> exists oldest,
     OldestDueLagSeconds now (quiet d rep n) = (Ok (now - oldest)%Z, quiet d rep n) /\
     oldest ∈ due_times now d /\ (forall u, u ∈ due_times now d -> (oldest <= u <= now)%Z)).
Proof.
  assert (Hrun : OldestDueLagSeconds now (quiet d rep n) =
    (match lag_sql now d with [] => Err (Errorf "oldest due lag" ErrNoRows) | x :: _ => Ok x end,
     quiet d rep n)).
  { unfold OldestDueLagSeconds. rewrite wrap_quiet. unfold Scan.
    erewrite bind_quiet; [|apply Query_quiet]. by destruct (lag_sql now d). }
  split; [intros E; rewrite Hrun; unfold lag_sql; by rewrite E|].
  intros t Ht. rewrite Hrun. unfold lag_sql.
  destruct (due_times now d) as [|u us] eqn:E; [by apply not_elem_of_nil in Ht|].
  exists (foldr Z.min u us). split; [done|]. rewrite <- E. split; [rewrite E; apply foldr_min_elem|].
  intros v Hv. split; [rewrite E in Hv; by apply foldr_min_le|by apply (due_times_le now d)].
Qed.

Lemma OldestDueLagSeconds_spec_witness :
  OldestDueLagSeconds 400000 (quiet sample_db None 0)
  = (Err (Errorf "oldest due lag" ErrNoRows), quiet sample_db None 0) /\
  exists oldest, OldestDueLagSeconds 650000 (quiet sample_db None 0)
    = (Ok (650000 - oldest)%Z, quiet sample_db None 0) /\ oldest ∈ due_times 650000 sample_db.
Proof.
  split.
  - apply (OldestDueLagSeconds_spec sample_db 400000 None 0). vm_compute. reflexivity.
  - destruct (proj2 (OldestDueLagSeconds_spec sample_db 650000 None 0) 500000%Z) as (o & E & Ho & _);
      [vm_compute; left|]. by exists o.
Defined.
