(* ===== verification/StoreLater.v ===== *)
(** * Requests over time

    [later]: what the store may become by legal calls, of whatever sessions, workers
    and schedulers. A request stays, with everything but its status
    ([later_request]). *)

From S2P Require Import Prelude GoStrings Domain Template Store StoreRuns StoreInv.
From S2P Require Import StoreCreate StoreCalls StoreDue.

Section later.
Context `{codec : !MessageCodec} `{uuids : !UuidSource}.

(** Runs of legal calls from [d], failing ones included. *)
Inductive later (d : DB) : DB -> Prop :=
| later_here : later d d
| later_call c s r s' :
    later d (db s) -> legal c (db s) -> exec c s = (r, s') -> later d (db s').

Lemma later_reachable d d' : reachable d -> later d d' -> reachable d'.
Proof. intros Hd. induction 1; [done|]. by eapply reach_call. Qed.

Lemma set_Status_same r : set_Status (r_Status r) r = r.
Proof. by destruct r. Qed.

(** The request is in the tables, perhaps with another status. *)
Definition has_request (r : Request) (d : DB) : Prop := exists st, set_Status st r ∈ requests d.

Lemma has_request_same r d d' : requests d' = requests d -> has_request r d -> has_request r d'.
Proof. intros E [st H]. exists st. by rewrite E. Qed.

Lemma has_request_append r d d' l :
  requests d' = requests d ++ l -> has_request r d -> has_request r d'.
Proof. intros E [st H]. exists st. rewrite E. apply elem_of_app. by left. Qed.

Lemma has_request_recomputed r q d : has_request r d -> has_request r (recomputed q d).
Proof.
  intros [st H]. unfold recomputed. case_bool_decide; [by exists st|].
  set (st' := AggregateRequestStatus _).
  assert (Hin : has_request r (set_requests (update_where (by_request_id (r_ID q)) (set_Status st')
    (requests d)) d)).
  { exists (if by_request_id (r_ID q) (set_Status st r) then st' else st).
    apply elem_of_update. exists (set_Status st r). split; [done|]. by destruct (by_request_id _ _). }
  destruct (r_BatchID q); [destruct (String.eqb _ _)|]; exact Hin.
Qed.

Lemma requests_enqueued now l d d' :
  runs (for_each (enqueueDueTx now) l) d () d' -> requests d' = requests d.
Proof.
  revert d. induction l as [|x l IH]; intros d H; simpl in H; [by inv_runs|].
  apply runs_bind in H as ([] & d1 & H1 & H). rewrite (IH _ H). unfold enqueueDueTx in H1.
  inv_runs. apply New_uuid_runs in Hr as ->. by apply insertOutbox_runs in H1 as (p & _ & _ & ->).
Qed.

Lemma transition_requests due key locked now limit d n d' :
  runs (transitionAndEnqueue (transition_sql due key locked now) now limit) d n d' ->
  requests d' = requests d.
Proof.
  intros H. unfold transitionAndEnqueue in H. inv_runs.
  match goal with H : runs (for_each _ _) _ _ _ |- _ => apply requests_enqueued in H as -> end.
  unfold transition_sql in Hr. by case_match; simplify_eq.
Qed.

Lemma run_request c d d' r :
  runs (exec c) d () d' -> has_request r d -> has_request r d'.
Proof.
  intros H Hr. destruct c; simpl in H; unfold ignore in H;
    try (apply runs_bind in H as (? & ? & H & Hret); apply runs_ret in Hret as [_ ->]).
  - apply CreateNotification_runs in H as (_ & -> & _). by eapply has_request_append.
  - apply CreateBatch_runs in H as (_ & _ & m & d1 & H1 & -> & _).
    apply create_items_runs in H1 as (-> & _ & _).
    eapply has_request_append; [|exact Hr]. simpl. by rewrite (proj1 (add_items_proj _ _ _)).
  - apply CancelRequest_steps in H as (_ & (q & _ & _ & ->)%recompute_runs & _).
    by apply has_request_recomputed.
  - apply claim_runs in H as [-> | ->]; done.
  - unfold MarkSent in H. inv_runs. unfold mark_sql in Hr0. case_match; simplify_eq.
    apply recompute_runs in H as (q & _ & _ & ->). by apply has_request_recomputed.
  - unfold MarkFailed in H. inv_runs. unfold mark_sql in Hr0. case_match; simplify_eq.
    apply recompute_runs in H as (q & _ & _ & ->). by apply has_request_recomputed.
  - unfold MarkRetrying in H. inv_runs. unfold mark_sql in H. by case_match; simplify_eq.
  - eapply has_request_same; [by eapply transition_requests|done].
  - eapply has_request_same; [by eapply transition_requests|done].
  - eapply has_request_same; [|done]. unfold ReconcilePending in H. inv_runs.
    by eapply requests_enqueued.
  - unfold ReapStuck in H. inv_runs. unfold reap_sql in *. by simplify_eq.
  - unfold MarkOutboxPublished in H. inv_runs; [done|]. unfold mark_published_sql in H. by simplify_eq.
  - unfold CreateDeliveryPartition in H. inv_runs. unfold create_delivery_partition in H.
    by repeat case_match; simplify_eq.
  - unfold ArchiveAndDropPartition in H. inv_runs. unfold archive_and_drop_partition in H.
    by repeat case_match; simplify_eq.
  - unfold PurgePublishedOutbox in H. inv_runs. unfold purge_published_outbox in *. by simplify_eq.
Qed.

Lemma later_request d d' r : later d d' -> has_request r d -> has_request r d'.
Proof.
  intros H Hr. induction H as [|c s rr s' _ IH _ E]; [done|]. specialize (IH).
  destruct (exec_cases c s rr s' E) as [-> |H]; [done|by eapply run_request].
Qed.
End later.
