(* ===== verification/StoreList.v ===== *)
(** * Keyset pagination

    [list_all] is the client that follows the cursors of [ListRequests] to the
    end. It reads every matching request exactly once, in order. *)

From S2P Require Import Prelude GoStrings Domain Template Store StoreRuns StoreQuiet.
From S2P Require Import StoreInv StoreCreate StoreCalls StoreSamples.

(** ** The client *)

Definition set_cursor (id : uuid) (at_ : time) (f : ListFilter) : ListFilter :=
  mkListFilter (lf_UserID f) (lf_Status f) (lf_Channel f) (lf_From f) (lf_To f) (lf_Limit f)
    (Some id) (Some at_).

Fixpoint list_all (fuel : nat) (f : ListFilter) : eff Sess error (list Request) :=
  match fuel with
  | 0 => raise (ELib "out of fuel")
  | S fuel =>
      p ← ListRequests f;
      match pg_NextCursor p, pg_NextAt p with
      | Some id, Some at_ =>
          rest ← list_all fuel (set_cursor id at_ f);
          mret (pg_Items p ++ rest)
      | _, _ => mret (pg_Items p)
      end
  end.

(** ** The order *)

#[local] Instance list_order_trans : Transitive list_order.
Proof. intros x y z. unfold list_order. lia. Qed.
#[local] Instance list_order_total : Total list_order.
Proof. intros x y. unfold list_order. lia. Qed.

Definition listing (f : ListFilter) (rs : list Request) : list Request :=
  merge_sort list_order (where_ (list_where f) rs).

Lemma listing_sorted f rs : StronglySorted list_order (listing f rs).
Proof. apply StronglySorted_merge_sort; apply _. Qed.

Lemma listing_perm f rs : listing f rs ≡ₚ where_ (list_where f) rs.
Proof. apply merge_sort_Permutation. Qed.

Lemma listing_NoDup f rs : NoDup (map r_ID rs) -> NoDup (map r_ID (listing f rs)).
Proof. intros H. rewrite listing_perm. by apply NoDup_map_where. Qed.

(** [keyset_lt r at id] is "strictly after the row (id, at)". *)
Lemma keyset_lt_spec r x :
  micros (r_CreatedAt x) -> keyset_lt r (r_CreatedAt x) (r_ID x) = true <-> ~ list_order r x.
Proof.
  intros Hx. unfold keyset_lt, list_order. rewrite Hx.
  rewrite orb_true_iff, andb_true_iff, Z.ltb_lt, Z.eqb_eq, N.ltb_lt. lia.
Qed.

Lemma where_sorted_after l1 x l2 :
  StronglySorted list_order (l1 ++ x :: l2) -> NoDup (map r_ID (l1 ++ x :: l2)) ->
  micros (r_CreatedAt x) ->
  where_ (fun r => keyset_lt r (r_CreatedAt x) (r_ID x)) (l1 ++ x :: l2) = l2.
Proof.
  intros Hs Hnd Hm. rewrite where_app, where_none, app_nil_l.
  2: { intros y Hy. apply not_true_iff_false. rewrite keyset_lt_spec by done. intros H. apply H.
       clear -Hs Hy. induction l1 as [|z l1 IH]; [by apply not_elem_of_nil in Hy|].
       apply StronglySorted_inv in Hs as [Hs Hall]. apply elem_of_cons in Hy as [->|Hy]; [|auto].
       rewrite Forall_forall in Hall. apply Hall. set_solver. }
  assert (Hx : keyset_lt x (r_CreatedAt x) (r_ID x) = false).
  { apply not_true_iff_false. rewrite keyset_lt_spec by done. unfold list_order. lia. }
  unfold where_. simpl. rewrite Hx. apply where_all. intros y Hy. apply keyset_lt_spec; [done|].
  intros H. assert (Hxy : list_order x y).
  { clear -Hs Hy. induction l1 as [|z l1 IH]; simpl in Hs; apply StronglySorted_inv in Hs as [Hs Hall];
      [|auto]. rewrite Forall_forall in Hall. auto. }
  rewrite map_app in Hnd. apply NoDup_app in Hnd as (_ & _ & Hnd). apply NoDup_cons in Hnd as [Hnd _].
  apply Hnd, list_elem_of_fmap. exists y. split; [|done]. unfold list_order in *. lia.
Qed.

Lemma StronglySorted_where {A} (R : A -> A -> Prop) p (l : list A) :
  StronglySorted R l -> StronglySorted R (where_ p l).
Proof.
  induction 1 as [|x l Hs IH Hall]; [constructor|]. unfold where_ in *. simpl.
  destruct (p x); [|done]. constructor; [done|]. rewrite Forall_forall in *.
  intros y Hy. apply Hall. change (y ∈ where_ p l) in Hy. by apply elem_of_where in Hy as [? _].
Qed.

(** Sorting the filtered rows is filtering the sorted rows. *)
Lemma sort_where (p q : Request -> bool) rs :
  NoDup (map r_ID rs) ->
  merge_sort list_order (where_ q (where_ p rs)) = where_ q (merge_sort list_order (where_ p rs)).
Proof.
  intros Hnd. apply (StronglySorted_unique_strong list_order).
  - intros x1 x2 H1 H2 H12 H21. rewrite merge_sort_Permutation in H1.
    apply elem_of_where in H1 as [[H1 _]%elem_of_where _].
    apply elem_of_where in H2 as [H2 _]. rewrite merge_sort_Permutation in H2.
    apply elem_of_where in H2 as [H2 _].
    apply (NoDup_key_inj r_ID rs); try done. unfold list_order in *. lia.
  - apply StronglySorted_merge_sort; apply _.
  - apply StronglySorted_where, StronglySorted_merge_sort; apply _.
  - rewrite merge_sort_Permutation. apply where_perm. by rewrite merge_sort_Permutation.
Qed.

Lemma listing_cursor f rs l1 x l2 :
  NoDup (map r_ID rs) -> (forall r, r ∈ rs -> micros (r_CreatedAt r)) -> lf_Cursor f = None -> listing f rs = l1 ++ x :: l2 ->
  listing (set_cursor (r_ID x) (r_CreatedAt x) f) rs = l2.
Proof.
  intros Hnd Hm Hc E. unfold listing.
  transitivity (merge_sort list_order (where_ (fun r => keyset_lt r (r_CreatedAt x) (r_ID x))
    (where_ (list_where f) rs))).
  { rewrite where_where. f_equal. apply where_ext. intros r _. unfold list_where. simpl.
    rewrite Hc. by rewrite andb_true_r. }
  rewrite sort_where by done. fold (listing f rs). rewrite E. apply where_sorted_after.
  - rewrite <- E. apply listing_sorted.
  - rewrite <- E. by apply listing_NoDup.
  - apply Hm. assert (Hx : x ∈ listing f rs) by (rewrite E; set_solver).
    rewrite listing_perm in Hx. by apply elem_of_where in Hx as [? _].
Qed.

(** ** One page *)

Lemma list_where_Normalize f : list_where (Normalize f) = list_where f.
Proof.
  unfold Normalize, set_Limit. cbv zeta.
  repeat match goal with |- context [if ?b then _ else _] => destruct b end; by destruct f.
Qed.

Lemma list_where_ids f r : list_where f (scanRequestList r) = list_where f r.
Proof. done. Qed.

Lemma Normalize_range f : (1 <= lf_Limit (Normalize f) <= 200)%Z.
Proof.
  unfold Normalize, set_Limit. destruct (Z.leb_spec (lf_Limit f) 0); simpl; [lia|].
  rewrite Z.gtb_ltb. destruct (Z.ltb_spec 200 (lf_Limit f)); simpl; lia.
Qed.

(** The page [ListRequests] returns from the rows that match. *)
Definition page_of (limit : nat) (l : list Request) : Page :=
  if decide (limit < length l) then
    match l !! (limit - 1) with
    | Some last => mkPage (map scanRequestList (take limit l)) (Some (r_ID last))
                     (Some (r_CreatedAt last))
    | None => mkPage (map scanRequestList l) None None
    end
  else mkPage (map scanRequestList l) None None.

Lemma ListRequests_quiet f d rep n :
  ListRequests f (quiet d rep n)
  = (Ok (page_of (Z.to_nat (lf_Limit (Normalize f))) (listing f (requests (default d rep)))),
     quiet d rep n).
Proof.
  pose proof (Normalize_range f) as HL. set (L := lf_Limit (Normalize f)) in *.
  unfold ListRequests. fold L. set (l := listing f (requests (default d rep))).
  assert (Hsql : list_sql (Normalize f) (L + 1) (default d rep)
    = Ok (map scanRequestList (take (Z.to_nat L + 1) l))).
  { unfold list_sql, limit_rows. destruct (Z.ltb_spec (L + 1) 0); [lia|].
    rewrite list_where_Normalize, <- firstn_map, Z2Nat.inj_add by lia. done. }
  erewrite bind_quiet; [|rewrite wrap_quiet; unfold QueryReader; simpl;
    unfold mbind, eff_bind; simpl; rewrite Hsql; done].
  cbv zeta. rewrite length_map, length_take. unfold page_of.
  rewrite Z.gtb_ltb. destruct (Z.ltb_spec L (Z.of_nat (Nat.min (Z.to_nat L + 1) (length l)))).
  - rewrite decide_True by lia.
    rewrite list_lookup_fmap, lookup_take_lt by lia.
    replace (Z.to_nat (L - 1)) with (Z.to_nat L - 1) by lia.
    destruct (l !! (Z.to_nat L - 1)) as [x|] eqn:Ex; simpl.
    + rewrite firstn_map, take_take.
      by replace (Nat.min (Z.to_nat L) (Z.to_nat L + 1)) with (Z.to_nat L) by lia.
    + apply lookup_ge_None in Ex. lia.
  - rewrite decide_False by lia. by rewrite take_ge by lia.
Qed.

(** ** All pages *)

(** The page of a query on fixed rows, and the client on them. *)
Definition page_at (rs : list Request) (f : ListFilter) : Page :=
  page_of (Z.to_nat (lf_Limit (Normalize f))) (listing f rs).

Fixpoint follow (rs : list Request) (fuel : nat) (f : ListFilter) : option (list Request) :=
  match fuel with
  | 0 => None
  | S fuel =>
      let p := page_at rs f in
      match pg_NextCursor p, pg_NextAt p with
      | Some id, Some at_ =>
          match follow rs fuel (set_cursor id at_ f) with
          | Some rest => Some (pg_Items p ++ rest)
          | None => None
          end
      | _, _ => Some (pg_Items p)
      end
  end.

(** A page is the last one, or its cursor is one of the rows. *)
Lemma page_at_next rs f :
  pg_NextCursor (page_at rs f) = None \/
  exists x, x ∈ rs /\ pg_NextCursor (page_at rs f) = Some (r_ID x) /\
    pg_NextAt (page_at rs f) = Some (r_CreatedAt x).
Proof.
  unfold page_at, page_of. destruct (decide _); [|by left].
  destruct (listing f rs !! _) as [x|] eqn:Ex; [|by left]. right. exists x.
  split; [|done]. apply list_elem_of_lookup_2 in Ex. rewrite listing_perm in Ex.
  by apply elem_of_where in Ex as [? _].
Qed.

Lemma list_all_quiet d rep n fuel f :
  list_all fuel f (quiet d rep n) =
  (match follow (requests (default d rep)) fuel f with
   | Some l => Ok l | None => Err (ELib "out of fuel")
   end, quiet d rep n).
Proof.
  revert f. induction fuel as [|fuel IH]; intros f; [done|]. simpl.
  erewrite bind_quiet; [|apply ListRequests_quiet]. fold (page_at (requests (default d rep)) f).
  destruct (pg_NextCursor _) as [id|]; [|done]. destruct (pg_NextAt _) as [at_|]; [|done].
  unfold mbind, eff_bind. rewrite IH. by destruct (follow _ _ _).
Qed.

Section pages.
Context (rs : list Request) (f0 : ListFilter).
Context (Hnd : NoDup (map r_ID rs)) (Hm : forall r, r ∈ rs -> micros (r_CreatedAt r)) (Hc : lf_Cursor f0 = None).

(** [f] is the first request of the client or follows a cursor. *)
Definition from_cursor (f : ListFilter) : Prop :=
  f = f0 \/ exists id at_, f = set_cursor id at_ f0.

Lemma follow_from fuel f pre l :
  from_cursor f -> listing f0 rs = pre ++ l -> listing f rs = l -> length l < fuel ->
  follow rs fuel f = Some (map scanRequestList l).
Proof.
  revert f pre l. induction fuel as [|fuel IH]; intros f pre l Hf Hpre Hl Hfuel; [lia|].
  simpl. pose proof (Normalize_range f) as HL. unfold page_at.
  set (L := Z.to_nat (lf_Limit (Normalize f))) in *. assert (HL1 : 1 <= L) by lia.
  rewrite Hl. unfold page_of. destruct (decide (L < length l)) as [Hmore|]; [|done].
  destruct (l !! (L - 1)) as [x|] eqn:Ex; [|apply lookup_ge_None in Ex; lia]. simpl.
  assert (Hsplit : l = take (L - 1) l ++ x :: drop L l).
  { rewrite <- (take_drop_middle l (L - 1) x Ex) at 1. do 3 f_equal. lia. }
  assert (Hcur : listing (set_cursor (r_ID x) (r_CreatedAt x) f) rs = drop L l).
  { assert (set_cursor (r_ID x) (r_CreatedAt x) f = set_cursor (r_ID x) (r_CreatedAt x) f0) as ->
      by (destruct Hf as [->|(? & ? & ->)]; done).
    apply (listing_cursor f0 rs (pre ++ take (L - 1) l)); [done|done|done|].
    by rewrite Hpre, <- app_assoc, <- Hsplit. }
  rewrite (IH _ (pre ++ take L l) (drop L l)); try done.
  - by rewrite <- map_app, take_drop.
  - right. exists (r_ID x), (r_CreatedAt x). by destruct Hf as [->|(? & ? & ->)].
  - by rewrite <- app_assoc, take_drop.
  - rewrite length_drop. lia.
Qed.
End pages.

Lemma follow_complete rs f fuel :
  NoDup (map r_ID rs) -> (forall r, r ∈ rs -> micros (r_CreatedAt r)) -> lf_Cursor f = None ->
  length (where_ (list_where f) rs) < fuel ->
  follow rs fuel f = Some (map scanRequestList (listing f rs)).
Proof.
  intros Hnd Hm Hc Hfuel. apply (follow_from rs f Hnd Hm Hc fuel f []); [by left|done|done|].
  by rewrite listing_perm.
Qed.

(** Following the cursors of [ListRequests] terminates and returns every
    matching request of the reader's snapshot exactly once, newest first, with
    ties on the creation time broken by id, whatever page limit the client asks
    for; as many calls as there are matches, plus one, are enough. *)
Theorem list_all_complete d rep n f fuel :
  NoDup (map r_ID (requests (default d rep))) ->
  (forall r, r ∈ requests (default d rep) -> micros (r_CreatedAt r)) -> lf_Cursor f = None ->
  length (where_ (list_where f) (requests (default d rep))) < fuel ->
  exists rs, list_all fuel f (quiet d rep n) = (Ok (map scanRequestList rs), quiet d rep n) /\
    rs ≡ₚ where_ (list_where f) (requests (default d rep)) /\
    StronglySorted list_order rs /\ NoDup (map r_ID rs).
Proof.
  intros Hnd Hm Hc Hfuel. exists (listing f (requests (default d rep))).
  split; [|split_and!; [apply listing_perm|apply listing_sorted|by apply listing_NoDup]].
  by rewrite list_all_quiet, follow_complete.
Qed.

(** Alice's three requests, one per page. *)
Definition sample_filter : ListFilter := mkListFilter "alice" None None None None 1 None None.

Lemma list_all_complete_witness :
  exists rs, list_all 4 sample_filter (quiet sample_db None 0)
    = (Ok (map scanRequestList rs), quiet sample_db None 0) /\ length rs = 3.
Proof.
  destruct (list_all_complete sample_db None 0 sample_filter 4) as (rs & E & Hp & _).
  - apply (bool_decide_unpack _). vm_compute. exact I.
  - apply (wf_micros _ _ _ (reachable_wf _ sample_db_reachable)).
  - reflexivity.
  - vm_compute. lia.
  - exists rs. split; [exact E|]. rewrite Hp. vm_compute. reflexivity.
Defined.
