(* ===== verification/Notification.v ===== *)
(** * The notification service (internal/notification)

    Input validation, the rows built from an input, and the use cases [Create],
    [Get], [List], [Cancel], [GetBatch] and [CreateBatch], written against the
    ports [Repository], [Renderer], [Runtime] (clock, identifiers, metrics).
    [NotificationStore] instantiates the ports with the store. *)

From S2P Require Import Prelude GoStrings Domain Template.

Local Open Scope string_scope.
Local Open Scope list_scope.

(** ** Input (input.go) *)

(** The map's zero value for a channel it does not hold is 0. *)
Definition maxContentLength (c : Channel) : Z :=
  if String.eqb c ChannelSMS then 1600
  else if String.eqb c ChannelEmail then 100000
  else if String.eqb c ChannelPush then 4000
  else 0.

Definition maxBatchSize : Z := 1000.

Record CreateInput := mkCreateInput {
  ci_UserID : string;
  ci_Recipient : string;
  ci_Channel : Channel;
  ci_Priority : Priority;
  ci_TemplateID : option uuid;
  ci_Content : string;
  ci_Variables : gmap string string;
  ci_IdempotencyKey : option string;
  ci_SendAt : option time
}.

Definition isNone {A} (o : option A) : bool := match o with None => true | Some _ => false end.

(** [len(s)]: the bytes of a string. *)
Definition byte_len (s : string) : Z := Z.of_nat (String.length s).

Definition CreateInput_validate (i : CreateInput) : result error () :=
  if blank (ci_Recipient i) then
    Err (NewValidationError "recipient" "recipient is required")
  else if negb (Channel_Valid (ci_Channel i)) then
    Err (NewValidationError "channel" "channel must be one of sms, email, push")
  else if negb (Priority_Valid (ci_Priority i)) then
    Err (NewValidationError "priority" "priority must be one of high, normal, low")
  else if isNone (ci_TemplateID i) && blank (ci_Content i) then
    Err (NewValidationError "content" "either content or template_id is required")
  else if isNone (ci_TemplateID i)
          && (byte_len (ci_Content i) >? maxContentLength (ci_Channel i))%Z then
    Err (NewValidationError "content" "content exceeds maximum length for channel")
  else if match ci_IdempotencyKey i with Some k => (byte_len k >? 255)%Z | None => false end then
    Err (NewValidationError "idempotency_key" "idempotency_key too long")
  else Ok ().

Record BatchInput := mkBatchInput {
  bn_UserID : string;
  bn_IdempotencyKey : option string;
  bn_Items : list CreateInput
}.

Fixpoint validate_items (items : list CreateInput) : result error () :=
  match items with
  | [] => Ok ()
  | i :: rest =>
      match CreateInput_validate i with
      | Err e => Err e
      | Ok _ => validate_items rest
      end
  end.

Definition BatchInput_validate (b : BatchInput) : result error () :=
  if Nat.eqb (length (bn_Items b)) 0 then
    Err (NewValidationError "notifications" "at least one notification is required")
  else if (Z.of_nat (length (bn_Items b)) >? maxBatchSize)%Z then
    Err (NewValidationError "notifications" "batch exceeds maximum of 1000 notifications")
  else validate_items (bn_Items b).

(** ** Ports (service.go) *)

Class Repository (W : Type) := {
  repo_CreateNotification : Request -> Delivery -> option OutboxRecord -> eff W error ();
  repo_GetRequestByID : uuid -> eff W error Request;
  repo_GetRequestByIdempotencyKey : string -> string -> eff W error Request;
  repo_ListRequests : ListFilter -> eff W error Page;
  repo_CancelRequest : uuid -> eff W error Request;
  repo_GetDeliveriesByRequest : uuid -> eff W error (list Delivery);
  repo_CreateBatch : Batch -> list BatchItem -> eff W error BatchResult;
  repo_GetBatchByID : uuid -> eff W error Batch;
  repo_GetBatchByIdempotencyKey : string -> string -> eff W error Batch
}.

Class Renderer (W : Type) := {
  renderer_Render : uuid -> Channel -> gmap string string -> eff W error (Template * string)
}.

(** The clock, [uuid.New] and the metrics recorder: none of them fails. *)
Class Runtime (W : Type) := {
  clock_Now : eff W error time;
  rt_uuid_New : eff W error uuid;
  metrics_IncCreated : Channel -> Priority -> eff W error ()
}.

(** ** The service *)

Record View := mkView { v_Request : Request; v_Deliveries : list Delivery }.

Record CreateResult := mkCreateResult { cr_Request : Request; cr_Duplicate : bool }.

Record builtNotification := mkBuilt {
  bt_Request : Request;
  bt_Delivery : Delivery;
  bt_Outbox : option OutboxRecord
}.

Record BatchCreateResult := mkBatchCreateResult {
  bcr_Batch : Batch;
  bcr_Duplicate : bool;
  bcr_CreatedCount : Z;
  bcr_DuplicateCount : Z
}.

(** [in.SendAt != nil && in.SendAt.After(now)] *)
Definition scheduled_for_later (i : CreateInput) (now : time) : bool :=
  match ci_SendAt i with Some t => (t >? now)%Z | None => false end.

(** The zero value of [domain.DeliveryStatus] is never written: both branches of
    [build] set it. *)
Definition built_rows (corr : string) (i : CreateInput) (batchID templateID : option uuid)
    (content : string) (now : time) (requestID deliveryID outboxID : uuid)
    : builtNotification :=
  let req := mkRequest requestID (ci_UserID i) batchID (ci_Recipient i) (ci_Channel i)
    (ci_Priority i) templateID content (ci_IdempotencyKey i) RequestPending now in
  let del st sendAt := mkDelivery deliveryID requestID (ci_Channel i) (ci_Priority i) st 0
    None None None None sendAt now now in
  if scheduled_for_later i now then
    mkBuilt req (del DeliveryScheduled (ci_SendAt i)) None
  else
    mkBuilt req (del DeliveryPending None)
      (Some (mkOutboxRecord outboxID deliveryID now (Stream (ci_Priority i) (ci_Channel i))
         (mkDeliveryMessage deliveryID now requestID (ci_Channel i) (ci_Priority i) corr))).

Definition set_UserID (u : string) (i : CreateInput) : CreateInput :=
  mkCreateInput u (ci_Recipient i) (ci_Channel i) (ci_Priority i) (ci_TemplateID i)
    (ci_Content i) (ci_Variables i) (ci_IdempotencyKey i) (ci_SendAt i).

Section service.
Context {W : Type} `{!Repository W} `{!Renderer W} `{!Runtime W}.
(** [logging.CorrelationID(ctx)] *)
Context (corr : string).

Definition build (i : CreateInput) (batchID : option uuid) : eff W error builtNotification :=
  ct ← match ci_TemplateID i with
       | Some t =>
           renderer_Render t (ci_Channel i) (ci_Variables i) ≫= fun p : Template * string =>
           mret (snd p, Some t)
       | None => mret (ci_Content i, None)
       end;
  let '(content, templateID) := ct in
  now ← clock_Now;
  requestID ← rt_uuid_New;
  deliveryID ← rt_uuid_New;
  outboxID ← (if scheduled_for_later i now then mret 0%N else rt_uuid_New);
  mret (built_rows corr i batchID templateID content now requestID deliveryID outboxID).

Definition Create (i : CreateInput) : eff W error CreateResult :=
  of_result (CreateInput_validate i) ≫= fun _ =>
  replay ← match ci_IdempotencyKey i with
           | Some key =>
               attempt (repo_GetRequestByIdempotencyKey (ci_UserID i) key) ≫= fun r =>
               match r with
               | Ok existing => mret (Some existing)
               | Err e => if negb (errors_Is e ErrNotFound) then raise e else mret None
               end
           | None => mret None
           end;
  match replay with
  | Some existing => mret (mkCreateResult existing true)
  | None =>
      built ← build i None;
      res ← attempt (repo_CreateNotification (bt_Request built) (bt_Delivery built)
                       (bt_Outbox built));
      match res with
      | Err e =>
          match ci_IdempotencyKey i with
          | Some key =>
              if errors_Is e ErrConflict then
                existing ← repo_GetRequestByIdempotencyKey (ci_UserID i) key;
                mret (mkCreateResult existing true)
              else raise e
          | None => raise e
          end
      | Ok _ =>
          metrics_IncCreated (r_Channel (bt_Request built)) (r_Priority (bt_Request built))
            ≫= fun _ => mret (mkCreateResult (bt_Request built) false)
      end
  end.

Definition Get (userID : string) (id : uuid) : eff W error View :=
  req ← repo_GetRequestByID id;
  if negb (String.eqb (r_UserID req) userID) then raise ErrNotFound else
  deliveries ← repo_GetDeliveriesByRequest id;
  mret (mkView req deliveries).

Definition List (f : ListFilter) : eff W error Page := repo_ListRequests f.

Definition Cancel (userID : string) (id : uuid) : eff W error Request :=
  req ← repo_GetRequestByID id;
  if negb (String.eqb (r_UserID req) userID) then raise ErrNotFound else
  repo_CancelRequest id.

Definition GetBatch (userID : string) (id : uuid) : eff W error Batch :=
  batch ← repo_GetBatchByID id;
  if negb (String.eqb (b_UserID batch) userID) then raise ErrNotFound else mret batch.

(** ** Batches (batch.go) *)

Fixpoint build_items (userID : string) (batchID : uuid) (items : list CreateInput)
    : eff W error (list BatchItem) :=
  match items with
  | [] => mret []
  | i :: rest =>
      built ← build (set_UserID userID i) (Some batchID);
      items ← build_items userID batchID rest;
      mret (mkBatchItem (bt_Request built) (bt_Delivery built) (bt_Outbox built) :: items)
  end.

Definition CreateBatch (b : BatchInput) : eff W error BatchCreateResult :=
  of_result (BatchInput_validate b) ≫= fun _ =>
  replay ← match bn_IdempotencyKey b with
           | Some key =>
               attempt (repo_GetBatchByIdempotencyKey (bn_UserID b) key) ≫= fun r =>
               match r with
               | Ok existing => mret (Some existing)
               | Err e => if negb (errors_Is e ErrNotFound) then raise e else mret None
               end
           | None => mret None
           end;
  match replay with
  | Some existing => mret (mkBatchCreateResult existing true 0 0)
  | None =>
      batchID ← rt_uuid_New;
      now ← clock_Now;
      let batch := mkBatch batchID (bn_UserID b) (bn_IdempotencyKey b) 0 0 0 0 0 now in
      items ← build_items (bn_UserID b) batchID (bn_Items b);
      res ← attempt (repo_CreateBatch batch items);
      match res with
      | Err e =>
          match bn_IdempotencyKey b with
          | Some key =>
              if errors_Is e ErrConflict then
                existing ← repo_GetBatchByIdempotencyKey (bn_UserID b) key;
                mret (mkBatchCreateResult existing true 0 0)
              else raise e
          | None => raise e
          end
      | Ok res =>
          for_each (fun it => metrics_IncCreated (r_Channel (bi_Request it))
                                (r_Priority (bi_Request it))) items ≫= fun _ =>
          mret (mkBatchCreateResult (br_Batch res) false (br_CreatedCount res)
                  (br_DuplicateCount res))
      end
  end.
End service.

(** ** Validation *)

(** The six rules, in the order they are checked, with the field each reports. *)
Definition input_rules : list (string * (CreateInput -> bool)) := [
  ("recipient", fun i => negb (blank (ci_Recipient i)));
  ("channel", fun i => Channel_Valid (ci_Channel i));
  ("priority", fun i => Priority_Valid (ci_Priority i));
  ("content", fun i => bool_decide (is_Some (ci_TemplateID i)) || negb (blank (ci_Content i)));
  ("content", fun i => bool_decide (is_Some (ci_TemplateID i))
                       || (byte_len (ci_Content i) <=? maxContentLength (ci_Channel i))%Z);
  ("idempotency_key", fun i =>
     match ci_IdempotencyKey i with Some k => (byte_len k <=? 255)%Z | None => true end) ].

Definition first_broken (i : CreateInput) : option string :=
  fst <$> head (where_ (fun rule => negb (snd rule i)) input_rules).

Lemma isNone_bool {A} (o : option A) : isNone o = negb (bool_decide (is_Some o)).
Proof. destruct o; [by rewrite bool_decide_true by eauto|done]. Qed.

Lemma validate_rules i :
  match first_broken i with
  | None => CreateInput_validate i = Ok ()
  | Some f => exists m, CreateInput_validate i = Err (NewValidationError f m)
  end.
Proof.
  unfold CreateInput_validate, first_broken, where_, input_rules. simpl.
  rewrite !isNone_bool, !Z.gtb_ltb, !Z.leb_antisym.
  destruct (blank (ci_Recipient i)); [by eexists|]. simpl.
  destruct (Channel_Valid _); [|by eexists]. simpl.
  destruct (Priority_Valid _); [|by eexists]. simpl.
  destruct (bool_decide (is_Some (ci_TemplateID i))) eqn:Et; simpl.
  - destruct (ci_IdempotencyKey i) as [k|]; simpl; [|done].
    rewrite ?Z.gtb_ltb, ?Z.leb_antisym. destruct (255 <? byte_len k)%Z; [by eexists|done].
  - destruct (blank (ci_Content i)); [by eexists|]. simpl.
    destruct (maxContentLength _ <? _)%Z; [by eexists|]. simpl.
    destruct (ci_IdempotencyKey i) as [k|]; simpl; [|done].
    rewrite ?Z.gtb_ltb, ?Z.leb_antisym. destruct (255 <? byte_len k)%Z; [by eexists|done].
Qed.

Lemma validate_items_ok items :
  match validate_items items with
  | Ok _ => Forall (fun i => CreateInput_validate i = Ok ()) items
  | Err e => exists k i, items !! k = Some i /\ CreateInput_validate i = Err e /\
      Forall (fun j => CreateInput_validate j = Ok ()) (take k items)
  end.
Proof.
  induction items as [|i items IH]; simpl; [constructor|].
  destruct (CreateInput_validate i) as [[]|e] eqn:E; [|by exists 0, i].
  destruct (validate_items items); [by constructor|].
  destruct IH as (k & j & ? & ? & ?). exists (S k), j. split_and!; [done|done|].
  simpl. by constructor.
Qed.

(** ** Properties of the input *)

(** C39: validation reports exactly the first broken rule, with its field: the
    recipient is blank, the channel or the priority is not one of the three, the
    content is missing (no template and blank), longer in bytes than its channel
    allows (no template), or the idempotency key is longer than 255 bytes; an
    input that breaks none is accepted. A batch is accepted exactly when it has
    between 1 and 1000 items and each of them is, and otherwise reports its size
    or its first bad item; every rejection is an [ErrValidation]. *)
Theorem validate_correct :
  (forall i, match first_broken i with
             | None => CreateInput_validate i = Ok ()
             | Some f => exists m, CreateInput_validate i = Err (NewValidationError f m)
             end) /\
  (forall b, match BatchInput_validate b with
     | Ok _ => 1 <= length (bn_Items b) <= 1000 /\
         Forall (fun i => first_broken i = None) (bn_Items b)
     | Err e => errors_Is e ErrValidation = true /\
         (length (bn_Items b) = 0 \/ 1000 < length (bn_Items b) \/
          exists k i, bn_Items b !! k = Some i /\ CreateInput_validate i = Err e /\
            Forall (fun j => first_broken j = None) (take k (bn_Items b)))
     end).
Proof.
  assert (Hnone : forall i, CreateInput_validate i = Ok () -> first_broken i = None).
  { intros i E. pose proof (validate_rules i) as H.
    destruct (first_broken i); [|done]. destruct H as [m H]. congruence. }
  split; [apply validate_rules|]. intros b. unfold BatchInput_validate, maxBatchSize.
  rewrite Z.gtb_ltb. destruct (Nat.eqb_spec (length (bn_Items b)) 0); [by auto|].
  destruct (Z.ltb_spec 1000 (Z.of_nat (length (bn_Items b)))); [split; [done|lia]|].
  pose proof (validate_items_ok (bn_Items b)) as H0.
  destruct (validate_items (bn_Items b)) as [[]|e].
  - split; [lia|]. eapply Forall_impl; [done|]. apply Hnone.
  - destruct H0 as (k & i & Hk & Hi & Hall). split.
    + pose proof (validate_rules i) as H1. destruct (first_broken i); [|congruence].
      destruct H1 as [m H1]. rewrite Hi in H1. by simplify_eq.
    + right. right. exists k, i. split_and!; [done|done|].
      eapply Forall_impl; [done|]. apply Hnone.
Qed.
