(* ===== verification/NotificationStore.v ===== *)
(** * The notification service over the store

    [App] instantiates the service's ports: a store session, what other sessions
    commit between its calls ([app_env]), the two clocks and the metrics counter.
    The theorems state the service's use cases as transitions of the tables, with
    arbitrary failing round trips, and that the service only makes legal calls. *)

From Stdlib Require Import Ascii.
From S2P Require Import Prelude GoStrings Domain Template Store StoreRuns StoreInv.
From S2P Require Import StoreCreate StoreCalls StoreQuiet StoreSamples StoreSpec Notification.

Local Open Scope string_scope.
Local Open Scope list_scope.

(** ** The instance *)

Record App := mkApp {
  app_sess : Sess;
  app_env : list (DB -> DB);
  app_clock : time;
  app_db_clock : time;
  app_created : list (Channel * Priority)
}.

Definition tables (a : App) : DB := db (app_sess a).

Definition with_sess (s : Sess) (env : list (DB -> DB)) (a : App) : App :=
  mkApp s env (app_clock a) (app_db_clock a) (app_created a).

(** One call on the store: first the other sessions commit. *)
Definition port {A} (m : time -> eff Sess error A) : eff App error A := fun a =>
  let s := match app_env a with
           | [] => app_sess a
           | f :: _ => set_db (f (db (app_sess a))) (app_sess a)
           end in
  let '(r, s') := m (app_db_clock a) s in
  (r, with_sess s' (tail (app_env a)) a).

Section ports.
Context `{codec : !MessageCodec} `{uuids : !UuidSource} (Quote : string -> string).

#[export] Instance app_repository : Repository App := {
  repo_CreateNotification r x o := port (CreateNotification r x o);
  repo_GetRequestByID id := port (fun _ => GetRequestByID id);
  repo_GetRequestByIdempotencyKey u k := port (fun _ => GetRequestByIdempotencyKey u k);
  repo_ListRequests f := port (fun _ => ListRequests f);
  repo_CancelRequest id := port (CancelRequest id);
  repo_GetDeliveriesByRequest id := port (fun _ => GetDeliveriesByRequest id);
  repo_CreateBatch b items := port (Store.CreateBatch b items);
  repo_GetBatchByID id := port (fun _ => GetBatchByID id);
  repo_GetBatchByIdempotencyKey u k := port (fun _ => GetBatchByIdempotencyKey u k)
}.

#[export] Instance app_templates : TemplateRepository App := {
  GetTemplateByID id := port (fun _ => GetTemplate id)
}.

#[export] Instance app_renderer : Renderer App := {
  renderer_Render id ch vs := Render Quote id ch vs
}.

#[export] Instance app_runtime : Runtime App := {
  clock_Now := fun a => (Ok (app_clock a), a);
  rt_uuid_New := fun a =>
    let '(r, s) := New_uuid (app_sess a) in (r, with_sess s (app_env a) a);
  metrics_IncCreated c p := fun a =>
    (Ok (), mkApp (app_sess a) (app_env a) (app_clock a) (app_db_clock a)
              (app_created a ++ [(c, p)]))
}.

(** ** Calls that change nothing *)

Lemma bind_inv {W A B} (m : eff W error A) (k : A -> eff W error B) w r w' :
  (m ≫= k) w = (r, w') ->
  (exists e, m w = (Err e, w') /\ r = Err e) \/
  exists x w1, m w = (Ok x, w1) /\ k x w1 = (r, w').
Proof.
  unfold mbind, eff_bind. destruct (m w) as [[x|e] w1]; intros H; [eauto|].
  simplify_eq. eauto.
Qed.

(** Same tables, counter, clocks; no other session is waiting to commit. *)
Definition same (a a' : App) : Prop :=
  tables a' = tables a /\ app_created a' = app_created a /\ app_env a' = [] /\
  app_clock a' = app_clock a /\ app_db_clock a' = app_db_clock a /\
  replica (app_sess a') = replica (app_sess a).

Definition keeps {A} (m : eff App error A) : Prop :=
  forall a r a', app_env a = [] -> m a = (r, a') -> same a a'.

Definition reads {A} (m : eff Sess error A) : Prop :=
  forall s r s', m s = (r, s') -> db s' = db s /\ replica s' = replica s.

Lemma same_refl a : app_env a = [] -> same a a.
Proof. by unfold same. Qed.

Lemma same_trans a b c : same a b -> same b c -> same a c.
Proof. unfold same. intros. destruct_and?. split_and!; congruence. Qed.

Lemma keeps_bind {A B} (m : eff App error A) (k : A -> eff App error B) :
  keeps m -> (forall x, keeps (k x)) -> keeps (m ≫= k).
Proof.
  intros Hm Hk a r a' He H. apply bind_inv in H as [(e & H & _)|(x & a1 & H1 & H2)].
  - by eapply Hm.
  - pose proof (Hm _ _ _ He H1) as Hs. eapply same_trans; [done|].
    eapply Hk; [|done]. apply Hs.
Qed.

Lemma keeps_of_result {A} (r : result error A) : keeps (of_result r).
Proof. intros a r' a' He H. unfold of_result in H. simplify_eq. by apply same_refl. Qed.

Lemma keeps_ret {A} (x : A) : keeps (mret x).
Proof. apply (keeps_of_result (Ok x)). Qed.

Lemma keeps_raise {A} e : keeps (raise e : eff App error A).
Proof. apply (keeps_of_result (Err e)). Qed.

Lemma keeps_attempt {A} (m : eff App error A) : keeps m -> keeps (attempt m).
Proof.
  intros Hm a r a' He H. unfold attempt in H. destruct (m a) as [x a1] eqn:E.
  simplify_eq. by eapply Hm.
Qed.

Lemma keeps_port {A} (m : time -> eff Sess error A) :
  (forall t, reads (m t)) -> keeps (port m).
Proof.
  intros Hm a r a' He H. unfold port in H. rewrite He in H.
  destruct (m _ _) as [x s'] eqn:E. simplify_eq. apply Hm in E as [E1 E2]. by split_and!.
Qed.

Lemma round_trip_replica s f s' :
  round_trip s = (f, s') -> db s' = db s /\ replica s' = replica s.
Proof. unfold round_trip. destruct (faults s); naive_solver. Qed.

Lemma reads_Query {A} (f : DB -> A) : reads (Query f).
Proof.
  intros s r s' H. unfold Query, Exec in H.
  destruct (round_trip s) as [[[e|t]|] s1] eqn:E; apply round_trip_replica in E as [E1 E2];
    simplify_eq; by simpl.
Qed.

Lemma reads_QueryReader {A} (f : DB -> A) : reads (QueryReader f).
Proof.
  intros s r s' H. unfold QueryReader in H.
  destruct (round_trip s) as [lost s1] eqn:E; apply round_trip_replica in E as [E1 E2].
  by simplify_eq.
Qed.

Lemma reads_scan {A} op (m : eff Sess error (list A)) : reads m -> reads (scan_entity op (Scan m)).
Proof.
  intros Hm s r s' H. apply scan_entity_state in H as (r1 & H). apply Scan_state in H as (r2 & H).
  by eapply Hm.
Qed.

Lemma keeps_find_key u k : keeps (repo_GetRequestByIdempotencyKey (W := App) u k).
Proof. apply keeps_port. intros _. apply reads_scan, reads_Query. Qed.

Lemma keeps_find_batch_key u k : keeps (repo_GetBatchByIdempotencyKey (W := App) u k).
Proof. apply keeps_port. intros _. apply reads_scan, reads_Query. Qed.

Lemma keeps_get id : keeps (repo_GetRequestByID (W := App) id).
Proof. apply keeps_port. intros _. apply reads_scan, reads_QueryReader. Qed.

Lemma reads_GetTemplate id : reads (GetTemplate id).
Proof.
  intros s r s' H. unfold GetTemplate, attempt, mbind, eff_bind in H.
  destruct (Scan _ s) as [[t|e] s1] eqn:E; simpl in H.
  - apply Scan_state in E as (r1 & E). unfold mret, eff_ret in H. simplify_eq.
    by eapply reads_QueryReader.
  - apply Scan_state in E as (r1 & E).
    destruct (errors_Is e ErrNoRows); unfold raise in H; simplify_eq;
      by eapply reads_QueryReader.
Qed.

Lemma keeps_Render id ch vs : keeps (renderer_Render (W := App) id ch vs).
Proof.
  apply keeps_bind; [apply keeps_port; intros _; apply reads_GetTemplate|]. intros t.
  destruct (negb _); [apply keeps_raise|].
  destruct (MissingVariables _ _); [apply keeps_ret|apply keeps_raise].
Qed.

Lemma keeps_uuid : keeps (rt_uuid_New (W := App)).
Proof. intros a r a' He H. simpl in H. unfold New_uuid in H. simplify_eq. by split_and!. Qed.

(** ** What [build] produces *)

(** The content of an input: its own, or its template rendered. *)
Definition content_of (i : CreateInput) (d : DB) (content : string) : Prop :=
  match ci_TemplateID i with
  | None => content = ci_Content i
  | Some id => exists t, t ∈ templates d /\ t_ID t = id /\ t_Channel t = ci_Channel i /\
      MissingVariables (t_RequiredVariables t) (ci_Variables i) = [] /\
      content = RenderContent (t_Content t) (ci_Variables i)
  end.

Definition reader (a : App) : DB := default (tables a) (replica (app_sess a)).

Definition rows_for (corr : string) (i : CreateInput) (b : option uuid) (a : App)
    (bt : builtNotification) : Prop :=
  exists content rid did oid, content_of i (reader a) content /\
    bt = built_rows corr i b (ci_TemplateID i) content (app_clock a) rid did oid.

Lemma GetTemplate_runs id s t s' :
  GetTemplate id s = (Ok t, s') ->
  t ∈ templates (default (db s) (replica s)) /\ t_ID t = id.
Proof.
  unfold GetTemplate, attempt, mbind, eff_bind, Scan, mbind, eff_bind, QueryReader.
  destruct (round_trip s) as [[e|] s1] eqn:E; apply round_trip_replica in E as [E1 E2];
    [simpl; destruct (errors_Is _ ErrNoRows); done|].
  cbv beta iota. cbn [hears]. rewrite E1, E2. destruct (where_ _ _) as [|x l] eqn:Ew; [done|].
  simpl. intros H. unfold mret, eff_ret in H. simplify_eq.
  assert (Hin : t ∈ where_ (fun t => t_ID t =? id)%N (templates (default (db s) (replica s))))
    by (rewrite Ew; left).
  apply elem_of_where in Hin as [? Hid]. by apply N.eqb_eq in Hid.
Qed.

Lemma Render_ok id ch vs a t content a' :
  app_env a = [] -> renderer_Render id ch vs a = (Ok (t, content), a') ->
  t ∈ templates (reader a) /\ t_ID t = id /\ t_Channel t = ch /\
  MissingVariables (t_RequiredVariables t) vs = [] /\ content = RenderContent (t_Content t) vs.
Proof.
  intros He H. simpl in H. unfold Render in H.
  apply bind_ok in H as (t1 & a1 & Ht & H). simpl in Ht.
  assert (Hin : t1 ∈ templates (reader a) /\ t_ID t1 = id).
  { unfold port in Ht. rewrite He in Ht. destruct (GetTemplate id _) as [r s1] eqn:E.
    simplify_eq. by apply GetTemplate_runs in E. }
  destruct (String.eqb_spec (t_Channel t1) ch); [|by apply raise_ok in H]. simpl in H.
  destruct (MissingVariables _ _) eqn:Em; [|by apply raise_ok in H].
  apply ret_ok in H as [H _]. simplify_eq. by destruct Hin.
Qed.

Lemma build_keeps corr i b : keeps (build (W := App) corr i b).
Proof.
  unfold build. apply keeps_bind.
  { destruct (ci_TemplateID i); [|apply keeps_ret].
    apply keeps_bind; [apply keeps_Render|]. intros p. apply keeps_ret. }
  intros [content tid]. apply keeps_bind.
  { intros a r a' He H. simpl in H. simplify_eq. by apply same_refl. }
  intros now. apply keeps_bind; [apply keeps_uuid|]. intros rid.
  apply keeps_bind; [apply keeps_uuid|]. intros did. apply keeps_bind.
  { destruct (scheduled_for_later i now); [apply keeps_ret|apply keeps_uuid]. }
  intros oid. apply keeps_ret.
Qed.

Lemma build_rows corr i b a bt a' :
  app_env a = [] -> build corr i b a = (Ok bt, a') -> rows_for corr i b a bt.
Proof.
  intros He H. unfold build in H. apply bind_ok in H as ([content tid] & a1 & Hct & H).
  apply bind_ok in H as (now & a2 & Hnow & H). simpl in Hnow. simplify_eq.
  apply bind_ok in H as (rid & a3 & _ & H). apply bind_ok in H as (did & a4 & _ & H).
  apply bind_ok in H as (oid & a5 & _ & H). apply ret_ok in H as [<- _].
  unfold rows_for, content_of. destruct (ci_TemplateID i) as [id|].
  - apply bind_ok in Hct as ([t c] & a6 & Hr & Hret). apply ret_ok in Hret as [Hret <-].
    simplify_eq. simpl. pose proof (keeps_Render _ _ _ _ _ _ He Hr) as (_ & _ & _ & Hc & _).
    rewrite Hc. apply Render_ok in Hr; [|done].
    exists c, rid, did, oid. split; [|done]. exists t. by destruct_and?.
  - apply ret_ok in Hct as [Hct <-]. simplify_eq. by exists (ci_Content i), rid, did, oid.
Qed.

Lemma rows_for_new corr i b a bt :
  rows_for corr i b a bt -> new_item b (bt_Request bt) (bt_Delivery bt).
Proof.
  intros (c & rid & did & oid & _ & ->). unfold built_rows.
  destruct (scheduled_for_later i (app_clock a)) eqn:E; split; simpl; auto; [|done].
  unfold scheduled_for_later in E. destruct (ci_SendAt i); by eauto.
Qed.

(** The rows built from an input. The request carries the input's fields,
    the content of the input or of its template (which exists, is for the
    channel and has its variables), and is PENDING; the delivery belongs to it.
    An input to be sent strictly later is SCHEDULED for that time with no outbox
    row; any other is PENDING with an outbox row addressed to the delivery's own
    stream and naming it, so the rows of every delivery that is due at once
    reach the queue and those of a later one do not. *)
Theorem build_correct corr i b a bt a' :
  app_env a = [] -> build corr i b a = (Ok bt, a') ->
  let r := bt_Request bt in let x := bt_Delivery bt in
  (r_UserID r, r_Recipient r, r_Channel r, r_Priority r, r_TemplateID r, r_BatchID r,
   r_IdempotencyKey r, r_Status r, r_CreatedAt r)
  = (ci_UserID i, ci_Recipient i, ci_Channel i, ci_Priority i, ci_TemplateID i, b,
     ci_IdempotencyKey i, RequestPending, app_clock a) /\
  content_of i (reader a) (r_RenderedContent r) /\
  (d_RequestID x, d_Channel x, d_Priority x, d_AttemptCount x, d_CreatedAt x)
  = (r_ID r, r_Channel r, r_Priority r, 0%Z, r_CreatedAt r) /\
  match bt_Outbox bt with
  | None => d_Status x = DeliveryScheduled /\
      exists t, ci_SendAt i = Some t /\ d_SendAt x = Some t /\ (app_clock a < t)%Z
  | Some o => d_Status x = DeliveryPending /\
      (forall t, ci_SendAt i = Some t -> (t <= app_clock a)%Z) /\
      o_DeliveryID o = d_ID x /\ o_DeliveryCreatedAt o = d_CreatedAt x /\
      o_Stream o = Stream (d_Priority x) (d_Channel x) /\
      o_Message o = mkDeliveryMessage (d_ID x) (d_CreatedAt x) (r_ID r) (d_Channel x)
                      (d_Priority x) corr
  end.
Proof.
  intros He H. apply build_rows in H as (c & rid & did & oid & Hc & ->); [|done].
  unfold built_rows, scheduled_for_later. destruct (ci_SendAt i) as [t|] eqn:Et.
  - rewrite Z.gtb_ltb. destruct (Z.ltb_spec (app_clock a) t); simpl; split_and!; try done.
    + by exists t.
    + intros t' [= <-]. lia.
  - simpl. by split_and!.
Qed.

(** ** Create *)

Lemma port_inv {A} (m : time -> eff Sess error A) a r a' :
  app_env a = [] -> port m a = (r, a') ->
  exists s', m (app_db_clock a) (app_sess a) = (r, s') /\ a' = with_sess s' [] a.
Proof.
  unfold port. intros -> H. destruct (m _ _) as [x s'] eqn:E. simplify_eq. eauto.
Qed.

Lemma find_key_ok u k a q a' :
  app_env a = [] -> repo_GetRequestByIdempotencyKey u k a = (Ok q, a') ->
  q ∈ requests (tables a) /\ request_idem u k q = true.
Proof.
  intros He H. change (port (fun _ => GetRequestByIdempotencyKey u k) a = (Ok q, a')) in H.
  apply port_inv in H as (s' & H & _); [|done]. apply run_runs in H.
  unfold GetRequestByIdempotencyKey, scanRequest in H. inv_runs.
  apply Query_runs in Hrows as [-> _]. by apply (first_where_Some (request_idem u k)).
Qed.

Lemma insert_inv bt a res a' :
  app_env a = [] ->
  repo_CreateNotification (bt_Request bt) (bt_Delivery bt) (bt_Outbox bt) a = (res, a') ->
  app_env a' = [] /\ app_created a' = app_created a /\
  match res with
  | Ok _ => tables a' = add_item (app_db_clock a) (bt_Request bt) (bt_Delivery bt)
                          (bt_Outbox bt) (tables a)
  | Err e => tables a' = tables a \/ (exists t, e = lost_reply t) /\
      tables a' = add_item (app_db_clock a) (bt_Request bt) (bt_Delivery bt)
                    (bt_Outbox bt) (tables a)
  end /\
  (new_item None (bt_Request bt) (bt_Delivery bt) -> reachable (tables a) ->
   reachable (tables a')).
Proof.
  intros He H.
  change (port (CreateNotification (bt_Request bt) (bt_Delivery bt) (bt_Outbox bt)) a
          = (res, a')) in H.
  apply port_inv in H as (s' & H & ->); [|done]. split_and!; [done|done| |].
  - destruct res as [[]|e].
    + apply run_runs in H. by apply CreateNotification_runs in H as (_ & E & _).
    + destruct (withTx_err _ _ _ _ H) as [?|[Hl [[] Hr]]]; [by left|right]. split; [done|].
      apply runs_withTx in Hr; [|framed]. by apply CreateNotification_runs in Hr as (_ & E & _).
  - intros Hnew Hr. eapply (reach_call (CallCreateNotification _ _ _ _)); [exact Hr| |exact H].
    exact Hnew.
Qed.

(** The three outcomes of [Create] as a transition of the application. *)
Definition Create_outcome (corr : string) (i : CreateInput) (a : App)
    (r : result error CreateResult) (a' : App) : Prop :=
  match r with
  | Err e => app_created a' = app_created a /\
      (tables a' = tables a \/ (exists t, e = lost_reply t) /\
       exists bt, rows_for corr i None a bt /\
         tables a' = add_item (app_db_clock a) (bt_Request bt) (bt_Delivery bt) (bt_Outbox bt)
                       (tables a))
  | Ok res =>
      CreateInput_validate i = Ok () /\
      if cr_Duplicate res then
        tables a' = tables a /\ app_created a' = app_created a /\
        exists key, ci_IdempotencyKey i = Some key /\ cr_Request res ∈ requests (tables a) /\
          request_idem (ci_UserID i) key (cr_Request res) = true
      else exists bt, rows_for corr i None a bt /\ cr_Request res = bt_Request bt /\
        tables a' = add_item (app_db_clock a) (bt_Request bt) (bt_Delivery bt) (bt_Outbox bt)
                      (tables a) /\
        app_created a' = app_created a ++ [(ci_Channel i, ci_Priority i)]
  end /\
  (reachable (tables a) -> reachable (tables a')).

Definition untouched (a a' : App) : Prop :=
  tables a' = tables a /\ app_created a' = app_created a.

Lemma same_untouched a a' : same a a' -> untouched a a'.
Proof. intros (E & Ec & _). by split. Qed.

Lemma untouched_trans a b c : untouched a b -> untouched b c -> untouched a c.
Proof. intros [E1 E2] [E3 E4]. split; congruence. Qed.

Lemma outcome_err corr i a e a' : untouched a a' -> Create_outcome corr i a (Err e) a'.
Proof. intros [E Ec]. split; [split; [done|by left]|]. by rewrite E. Qed.

Lemma outcome_duplicate corr i a key q a' :
  CreateInput_validate i = Ok () -> ci_IdempotencyKey i = Some key ->
  q ∈ requests (tables a) -> request_idem (ci_UserID i) key q = true ->
  untouched a a' -> Create_outcome corr i a (Ok (mkCreateResult q true)) a'.
Proof. intros Hv Hk Hq Hi [E Ec]. split; [|by rewrite E]. simpl. eauto 10. Qed.

(** A lookup by key that decides the outcome. *)
Lemma outcome_lookup corr i a a1 key r a' :
  CreateInput_validate i = Ok () -> ci_IdempotencyKey i = Some key ->
  app_env a1 = [] -> untouched a a1 ->
  (repo_GetRequestByIdempotencyKey (ci_UserID i) key ≫= fun existing =>
   mret (mkCreateResult existing true)) a1 = (r, a') -> Create_outcome corr i a r a'.
Proof.
  intros Hv Hk He Hu H. apply bind_inv in H as [(e & H & ->)|(q & a2 & Hq & H)].
  - apply outcome_err. eapply untouched_trans; [done|].
    eapply same_untouched, keeps_find_key; done.
  - pose proof (find_key_ok _ _ _ _ _ He Hq) as [Hin Hi].
    unfold mret, eff_ret in H. simplify_eq. apply (outcome_duplicate corr i a key); try done.
    + destruct Hu as [<- _]. done.
    + eapply untouched_trans; [done|]. by eapply same_untouched, keeps_find_key.
Qed.

Lemma rows_for_same corr i b a a1 bt :
  same a a1 -> rows_for corr i b a1 bt -> rows_for corr i b a bt.
Proof.
  intros (E & _ & _ & Ec & _ & Er). unfold rows_for, reader. by rewrite E, Ec, Er.
Qed.

(** The tail of [Create] after its lookup. *)
Lemma create_insert_outcome corr i a a1 bt r a' :
  same a a1 -> CreateInput_validate i = Ok () -> rows_for corr i None a bt ->
  (attempt (repo_CreateNotification (bt_Request bt) (bt_Delivery bt) (bt_Outbox bt)) ≫=
     fun res => match res with
      | Err e =>
          match ci_IdempotencyKey i with
          | Some key =>
              if errors_Is e ErrConflict then
                repo_GetRequestByIdempotencyKey (ci_UserID i) key ≫= fun existing =>
                mret (mkCreateResult existing true)
              else raise e
          | None => raise e
          end
      | Ok _ =>
          metrics_IncCreated (r_Channel (bt_Request bt)) (r_Priority (bt_Request bt))
            ≫= fun _ => mret (mkCreateResult (bt_Request bt) false)
      end) a1 = (r, a') -> Create_outcome corr i a r a'.
Proof.
  intros Hs Hv Hrows H. pose proof Hs as (E & Ec & He & _ & Edb & _).
  unfold attempt, mbind, eff_bind in H.
  destruct (repo_CreateNotification _ _ _ a1) as [res a2] eqn:H1.
  apply insert_inv in H1 as (He2 & Ec2 & E2 & Hreach); [|done].
  destruct res as [[]|e].
  - unfold mret, eff_ret in H. simpl in H. simplify_eq.
    split; [|rewrite <- E; intros Hr; apply Hreach; [by eapply rows_for_new|done]].
    split; [done|]. simpl. exists bt. rewrite <- E, <- Edb, <- Ec, <- Ec2.
    split_and!; try done. destruct Hrows as (? & ? & ? & ? & _ & ->).
    unfold built_rows. by destruct (scheduled_for_later _ _).
  - destruct E2 as [E2|[[t ->] E2]].
    2:{ assert (H2 : r = Err (lost_reply t) /\ a' = a2).
        { destruct (ci_IdempotencyKey i); simpl in H; unfold raise in H; by simplify_eq. }
        destruct H2 as [-> ->]. split.
        - split; [congruence|]. right. split; [by exists t|]. exists bt. split; [done|]. congruence.
        - rewrite <- E. apply Hreach. by eapply rows_for_new. }
    assert (Hu : untouched a a2) by (split; congruence).
    destruct (ci_IdempotencyKey i) as [key|] eqn:Hk;
      [destruct (errors_Is e ErrConflict)|].
    + by eapply (outcome_lookup corr i a a2 key).
    + unfold raise in H. simplify_eq. by apply outcome_err.
    + unfold raise in H. simplify_eq. by apply outcome_err.
Qed.

(** The lookup before the creation. *)
Definition replay (i : CreateInput) : eff App error (option Request) :=
  match ci_IdempotencyKey i with
  | Some key =>
      attempt (repo_GetRequestByIdempotencyKey (ci_UserID i) key) ≫= fun r =>
      match r with
      | Ok existing => mret (Some existing)
      | Err e => if negb (errors_Is e ErrNotFound) then raise e else mret None
      end
  | None => mret None
  end.

Lemma replay_keeps i : keeps (replay i).
Proof.
  unfold replay. destruct (ci_IdempotencyKey i); [|apply keeps_ret].
  apply keeps_bind; [apply keeps_attempt, keeps_find_key|].
  intros [q|e]; [apply keeps_ret|]. destruct (negb _); [apply keeps_raise|apply keeps_ret].
Qed.

Lemma replay_found i a q a' :
  app_env a = [] -> replay i a = (Ok (Some q), a') ->
  exists key, ci_IdempotencyKey i = Some key /\ q ∈ requests (tables a) /\
    request_idem (ci_UserID i) key q = true.
Proof.
  intros He H. unfold replay in H. destruct (ci_IdempotencyKey i) as [key|]; [|done].
  apply bind_ok in H as (r & a1 & H1 & H). apply attempt_ok_inv in H1.
  destruct r as [x|e].
  - apply ret_ok in H as [[= ->] _]. exists key. split; [done|]. by eapply find_key_ok.
  - destruct (negb _); [by apply raise_ok in H|]. by apply ret_ok in H as [? _].
Qed.

Lemma Create_outcomes corr i a r a' :
  app_env a = [] -> Create corr i a = (r, a') -> Create_outcome corr i a r a'.
Proof.
  intros He H. unfold Create in H.
  apply bind_inv in H as [(e & H & ->)|([] & a1 & H1 & H)].
  { apply outcome_err, same_untouched. by eapply keeps_of_result. }
  unfold of_result in H1. injection H1 as Hv <-.
  apply bind_inv in H as [(e & H & ->)|(replay & a1 & H1 & H)].
  - apply outcome_err, same_untouched. exact (replay_keeps i _ _ _ He H).
  - pose proof (replay_keeps i _ _ _ He H1) as Hs.
    destruct replay as [q|].
    + unfold mret, eff_ret in H. simplify_eq.
      apply (replay_found i) in H1 as (key & Hk & Hin & Hi); [|done].
      apply (outcome_duplicate corr i a key); try done. by apply same_untouched.
    + apply bind_inv in H as [(e & H & ->)|(bt & a2 & Hb & H)].
      * apply outcome_err, same_untouched. eapply same_trans; [done|].
        eapply build_keeps; [apply Hs|done].
      * eapply create_insert_outcome; [|done| |exact H].
        { eapply same_trans; [done|]. eapply build_keeps; [apply Hs|done]. }
        { eapply rows_for_same; [done|]. eapply build_rows; [apply Hs|done]. }
Qed.

(** C33: every outcome of [Create] when no other session commits between its calls,
    whichever round trips fail. An error leaves the metrics alone, and the tables
    too unless it is that of a commit whose reply was lost, in which case the
    creation is stored, whole; a replay returns the request stored under
    the same user and idempotency key and changes nothing; a fresh creation
    adds exactly the rows [build] made from the input (together with their
    outbox row, in one transaction) and counts one creation. The calls it makes
    are legal: reachable tables stay reachable. *)
Theorem Create_correct corr i a r a' :
  app_env a = [] -> Create corr i a = (r, a') ->
  match r with
  | Err e => app_created a' = app_created a /\
      (tables a' = tables a \/ (exists t, e = lost_reply t) /\
       exists bt, rows_for corr i None a bt /\
         tables a' = add_item (app_db_clock a) (bt_Request bt) (bt_Delivery bt) (bt_Outbox bt)
                       (tables a))
  | Ok res =>
      CreateInput_validate i = Ok () /\
      if cr_Duplicate res then
        tables a' = tables a /\ app_created a' = app_created a /\
        exists key, ci_IdempotencyKey i = Some key /\ cr_Request res ∈ requests (tables a) /\
          request_idem (ci_UserID i) key (cr_Request res) = true
      else exists bt, rows_for corr i None a bt /\ cr_Request res = bt_Request bt /\
        tables a' = add_item (app_db_clock a) (bt_Request bt) (bt_Delivery bt) (bt_Outbox bt)
                      (tables a) /\
        app_created a' = app_created a ++ [(ci_Channel i, ci_Priority i)]
  end /\
  (reachable (tables a) -> reachable (tables a')).
Proof. apply Create_outcomes. Qed.

(** ** Replays and races *)

Lemma request_idem_spec u k q :
  request_idem u k q = true <-> r_UserID q = u /\ r_IdempotencyKey q = Some k.
Proof.
  unfold request_idem. by rewrite andb_true_iff, String.eqb_eq, bool_decide_eq_true.
Qed.

(** The unique request under a key is what the lookup returns. *)
Lemma find_key_quiet u k q d rep n :
  db_wf d -> q ∈ requests d -> request_idem u k q = true ->
  GetRequestByIdempotencyKey u k (quiet d rep n) = (Ok q, quiet d rep n).
Proof.
  intros Hwf Hq Hk. unfold GetRequestByIdempotencyKey, scanRequest.
  rewrite scan_entity_quiet.
  assert (Hf : first_where (request_idem u k) (requests d) = Some q).
  { apply first_where_single; [|done|done]. intros y Hy Hy'.
    apply request_idem_spec in Hk as [U K]. apply request_idem_spec in Hy' as [U' K'].
    apply (NoDup_key_inj r_ID (requests d)); [apply Hwf|done|done|].
    apply (wf_idem _ _ _ Hwf); [done|done|]. split_and!; [congruence|congruence|eauto]. }
  by apply first_where_rows in Hf as (rest & ->).
Qed.

(** What a creation returned is stored, its creation time in whole microseconds. *)
Lemma Create_stored corr i key a res a' :
  app_env a = [] -> reachable (tables a) -> ci_IdempotencyKey i = Some key ->
  Create corr i a = (Ok res, a') ->
  stored_request (cr_Request res) ∈ requests (tables a') /\
  request_idem (ci_UserID i) key (stored_request (cr_Request res)) = true.
Proof.
  intros He Hr Hk H. apply Create_outcomes in H as [[_ H] _]; [|done].
  destruct (cr_Duplicate res).
  - destruct H as (E & _ & key' & Hk' & Hin & Hi). rewrite E.
    assert (stored_request (cr_Request res) = cr_Request res) as ->; [|split; congruence].
    apply stored_request_micros. by apply (wf_micros _ _ _ (reachable_wf _ Hr)).
  - destruct H as (bt & (c & rid & did & oid & _ & ->) & -> & -> & _). simpl.
    split; [set_solver|]. apply request_idem_spec.
    unfold built_rows. by destruct (scheduled_for_later _ _).
Qed.

(** A stored request is what a later creation under its key returns. *)
Lemma Create_replay corr i key q a :
  app_env a = [] -> reachable (tables a) -> faults (app_sess a) = [] ->
  q ∈ requests (tables a) -> request_idem (ci_UserID i) key q = true ->
  ci_IdempotencyKey i = Some key -> CreateInput_validate i = Ok () ->
  Create corr i a = (Ok (mkCreateResult q true), a).
Proof.
  intros He Hr Hq Hin Hi Hk Hv. destruct a as [[d rep fs n] env c dc cr]. simpl in *. subst env fs.
  unfold Create. rewrite (bind_step_ok _ _ _ () (mkApp (quiet d rep n) [] c dc cr))
    by (unfold of_result; by rewrite Hv).
  rewrite Hk. rewrite (bind_step_ok _ _ _ (Some q) (mkApp (quiet d rep n) [] c dc cr)); [reflexivity|].
  unfold attempt, mbind, eff_bind. simpl. unfold port. simpl. unfold tables in *. simpl in *.
  by rewrite (find_key_quiet _ key q d rep n (reachable_wf d Hr) Hin Hi).
Qed.

(** [Create] is idempotent: after a creation (or a replay) under a key, any
    valid input of the same user with that key, whatever its other fields, gets
    the stored request back as a duplicate, and nothing is written or counted. It is
    the request that was answered the first time, with the creation time at the
    column's precision. *)
Theorem Create_idempotent corr corr2 i i2 key a res a1 :
  app_env a = [] -> reachable (tables a) -> Create corr i a = (Ok res, a1) ->
  app_env a1 = [] -> faults (app_sess a1) = [] ->
  ci_IdempotencyKey i = Some key -> ci_IdempotencyKey i2 = Some key ->
  ci_UserID i2 = ci_UserID i -> CreateInput_validate i2 = Ok () ->
  exists a2, Create corr2 i2 a1 = (Ok (mkCreateResult (stored_request (cr_Request res)) true), a2) /\
    tables a2 = tables a1 /\ app_created a2 = app_created a1.
Proof.
  intros He Hreach H He1 Hq1 Hk Hk2 Hu Hv.
  pose proof (Create_stored corr i key a res a1 He Hreach Hk H) as [Hin Hi].
  apply Create_outcomes in H as [_ Hr]; [|done]. specialize (Hr Hreach).
  exists a1. split; [|done]. apply (Create_replay corr2 i2 key); try done. by rewrite Hu.
Qed.

(** A creation that loses the race for its key (another session commits the
    same user and key between the lookup and the insert) is not an error and
    not a second notification: [Create] returns the winner's request as a
    duplicate, leaving the winner's tables and the metrics as they are. *)
Theorem Create_lost_race corr i key other winner a :
  app_env a = [fun d => d; other] -> faults (app_sess a) = [] ->
  CreateInput_validate i = Ok () -> ci_TemplateID i = None ->
  ci_IdempotencyKey i = Some key ->
  varchar 255 (ci_UserID i) && varchar 255 (ci_Recipient i) && varchar 16 (ci_Channel i)
    && varchar 16 (ci_Priority i) && pg_text (ci_Content i) && varchar 255 key = true ->
  (forall q, q ∈ requests (tables a) -> request_idem (ci_UserID i) key q = false) ->
  reachable (other (tables a)) -> winner ∈ requests (other (tables a)) ->
  request_idem (ci_UserID i) key winner = true ->
  exists a', Create corr i a = (Ok (mkCreateResult winner true), a') /\
    tables a' = other (tables a) /\ app_created a' = app_created a.
Proof.
  intros He Hq Hv Ht Hk Hcols Hno Hr Hw Hi.
  destruct a as [[d rep fs n] env c dc cr]. simpl in *. subst env fs. unfold tables in *. simpl in *.
  set (a1 := mkApp (quiet d rep n) [other] c dc cr).
  unfold Create. erewrite bind_step_ok; [|unfold of_result; rewrite Hv; reflexivity].
  rewrite Hk. rewrite (bind_step_ok _ _ _ None a1).
  2: { unfold attempt, mbind, eff_bind. simpl. unfold port. simpl.
       unfold GetRequestByIdempotencyKey, scanRequest.
       rewrite (scan_entity_quiet rep n "scan request" _ d).
       by rewrite (proj2 (where_nil_iff _ _) Hno). }
  set (late := scheduled_for_later i c).
  set (bt := built_rows corr i None None (ci_Content i) c (uuid_New n) (uuid_New (n + 1)%N)
               (if late then 0%N else uuid_New (n + 1 + 1)%N)).
  set (m := if late then (n + 1 + 1)%N else (n + 1 + 1 + 1)%N).
  rewrite (bind_step_ok _ _ _ bt (mkApp (quiet d rep m) [other] c dc cr)).
  2: { unfold build. rewrite Ht. unfold mbind, eff_bind, mret, eff_ret. simpl. fold late.
       unfold bt, m. by destruct late. }
  assert (Hconf : CreateNotification (bt_Request bt) (bt_Delivery bt) (bt_Outbox bt) dc
    (quiet (other d) rep m) = (Err ErrConflict, quiet (other d) rep m)).
  { unfold CreateNotification. erewrite withTx_quiet; [|apply bind_step_err,
      insertRequest_conflict_quiet]; [done| |].
    - unfold bt, built_rows, request_columns_ok. destruct (scheduled_for_later i c); simpl;
        by rewrite Hk.
    - unfold bt, built_rows, request_conflict. destruct (scheduled_for_later i c); simpl;
        rewrite Hk; apply existsb_exists; exists winner; by rewrite <- list_elem_of_In. }
  unfold attempt at 1, mbind at 1, eff_bind at 1. simpl repo_CreateNotification.
  unfold port at 1. simpl. unfold set_db. simpl. fold (quiet (other d) rep m).
  rewrite Hconf. simpl. unfold mbind, eff_bind, mret, eff_ret, port. simpl.
  rewrite (find_key_quiet _ key winner (other d) rep m (reachable_wf _ Hr) Hw Hi).
  by eexists.
Qed.

(** ** Ownership *)

Lemma keeps_deliveries id : keeps (repo_GetDeliveriesByRequest (W := App) id).
Proof.
  apply keeps_port. intros _ s r s' H. unfold GetDeliveriesByRequest, wrap, attempt, mbind,
    eff_bind in H.
  destruct (QueryReader _ s) as [[l|e] s1] eqn:E; unfold mret, eff_ret, raise in H;
    simplify_eq; by eapply reads_QueryReader.
Qed.

Lemma get_ok id a q a' :
  app_env a = [] -> repo_GetRequestByID id a = (Ok q, a') ->
  q ∈ requests (reader a) /\ r_ID q = id.
Proof.
  intros He H. change (port (fun _ => GetRequestByID id) a = (Ok q, a')) in H.
  apply port_inv in H as (s' & H & _); [|done].
  unfold GetRequestByID, scanRequest, scan_entity, attempt, mbind, eff_bind, Scan, mbind,
    eff_bind, QueryReader in H.
  destruct (round_trip (app_sess a)) as [[e|] s1] eqn:E; apply round_trip_replica in E as [E1 E2].
  { simpl in H. by destruct (errors_Is _ ErrNoRows). }
  destruct (where_ _ _) as [|x l] eqn:Ew; simpl in H; [done|]. unfold mret, eff_ret in H.
  simplify_eq. unfold reader, tables. rewrite <- E1, <- E2.
  assert (Hin : q ∈ where_ (by_request_id id) (requests (default (db s') (replica s'))))
    by (rewrite Ew; left).
  apply elem_of_where in Hin as [? Hid]. unfold by_request_id in Hid. by bool_to_prop.
Qed.

(** C39: a user sees and cancels only their own notifications. Whatever fails,
    [Get] changes nothing and returns a view only of a request of the caller
    with the asked id; and on any request of someone else (as the reader shows
    it) [Get] and [Cancel] never succeed and change nothing: on a server that
    answers they report [ErrNotFound], exactly as for an id that does not
    exist. *)
Theorem ownership user id a :
  app_env a = [] ->
  (forall r a', Get user id a = (r, a') ->
     tables a' = tables a /\
     forall v, r = Ok v -> v_Request v ∈ requests (reader a) /\ r_ID (v_Request v) = id /\
       r_UserID (v_Request v) = user) /\
  ((forall q, q ∈ requests (reader a) -> r_ID q = id -> r_UserID q <> user) ->
   (forall v a', Get user id a <> (Ok v, a')) /\
   (forall r a', Cancel user id a = (r, a') ->
      tables a' = tables a /\ (exists e, r = Err e) /\
      (faults (app_sess a) = [] -> r = Err ErrNotFound /\ Get user id a = (Err ErrNotFound, a')))).
Proof.
  intros He. assert (Hget : forall r a', Get user id a = (r, a') ->
    tables a' = tables a /\
    forall v, r = Ok v -> v_Request v ∈ requests (reader a) /\ r_ID (v_Request v) = id /\
      r_UserID (v_Request v) = user).
  { intros r a' H. split.
    - assert (K : keeps (Get (W := App) user id)); [|by apply (K a r a')].
      apply keeps_bind; [apply keeps_get|]. intros q. destruct (negb _); [apply keeps_raise|].
      apply keeps_bind; [apply keeps_deliveries|]. intros l. apply keeps_ret.
    - intros v ->. unfold Get in H. apply bind_ok in H as (q & a1 & Hq & H).
      destruct (String.eqb_spec (r_UserID q) user); [|done]. simpl in H.
      apply bind_ok in H as (l & a2 & _ & H). apply ret_ok in H as [<- _]. simpl.
      apply get_ok in Hq as [? ?]; done. }
  split; [exact Hget|]. intros Hother. split.
  { intros v a' H. destruct (Hget _ _ H) as [_ Hv]. destruct (Hv v eq_refl) as (H1 & H2 & H3).
    by apply (Hother _ H1). }
  intros r a' H. unfold Cancel in H. apply bind_inv in H as [(e & H & ->)|(q & a1 & H1 & H)].
  - pose proof (keeps_get _ _ _ _ He H) as (E & _). split_and!; [done|eauto|].
    intros Hf. unfold Get. erewrite bind_step_err; [|exact H].
    assert (e = ErrNotFound) as ->; [|done].
    change (port (fun _ => GetRequestByID id) a = (Err e, a')) in H.
    apply port_inv in H as (s' & H & _); [|done].
    destruct (app_sess a) as [d rep fs n]. simpl in Hf. subst fs.
    change (GetRequestByID id (quiet d rep n) = (Err e, s')) in H.
    rewrite (GetRequestByID_quiet rep n id d) in H. unfold lookup_entity in H.
    by destruct (where_ _ _); simplify_eq.
  - pose proof (keeps_get _ _ _ _ He H1) as (E & _). pose proof (get_ok _ _ _ _ He H1) as [Hin Hid].
    pose proof (Hother q Hin Hid) as Hne. apply String.eqb_neq in Hne.
    unfold Get. erewrite bind_step_ok; [|exact H1]. rewrite Hne in *. simpl in *.
    unfold raise in *. simplify_eq. eauto 10.
Qed.

(** ** Batches *)

Lemma find_batch_ok u k a q a' :
  app_env a = [] -> repo_GetBatchByIdempotencyKey u k a = (Ok q, a') ->
  q ∈ batches (tables a) /\ batch_idem u k q = true.
Proof.
  intros He H. change (port (fun _ => GetBatchByIdempotencyKey u k) a = (Ok q, a')) in H.
  apply port_inv in H as (s' & H & _); [|done]. apply run_runs in H.
  unfold GetBatchByIdempotencyKey, scanBatch in H. inv_runs.
  apply Query_runs in Hrows as [-> _]. by apply (first_where_Some (batch_idem u k)).
Qed.

Definition item_for (corr u : string) (b : uuid) (a : App) (i : CreateInput) (it : BatchItem)
    : Prop :=
  rows_for corr (set_UserID u i) (Some b) a
    (mkBuilt (bi_Request it) (bi_Delivery it) (bi_Outbox it)).

Lemma build_items_keeps corr u b items : keeps (build_items (W := App) corr u b items).
Proof.
  induction items as [|i items IH]; [apply keeps_ret|]. simpl.
  apply keeps_bind; [apply build_keeps|]. intros bt. apply keeps_bind; [apply IH|].
  intros l. apply keeps_ret.
Qed.

Lemma build_items_rows corr u b items a its a' :
  app_env a = [] -> build_items corr u b items a = (Ok its, a') ->
  Forall2 (item_for corr u b a) items its.
Proof.
  revert a its a'. induction items as [|i items IH]; intros a its a' He H; simpl in H.
  - apply ret_ok in H as [<- _]. constructor.
  - apply bind_ok in H as (bt & a1 & Hb & H). apply bind_ok in H as (l & a2 & Hl & H).
    apply ret_ok in H as [<- _]. pose proof (build_keeps _ _ _ _ _ _ He Hb) as Hs.
    constructor.
    + apply build_rows in Hb; [|done]. unfold item_for. by destruct bt.
    + eapply Forall2_impl; [eapply IH; [apply Hs|exact Hl]|].
      intros j it. unfold item_for. by eapply rows_for_same.
Qed.

Lemma item_for_new corr u b a i it :
  item_for corr u b a i it -> new_item (Some b) (bi_Request it) (bi_Delivery it).
Proof. intros H. by apply rows_for_new in H. Qed.

Lemma items_channels corr u b a items its :
  Forall2 (item_for corr u b a) items its ->
  map (fun it => (r_Channel (bi_Request it), r_Priority (bi_Request it))) its
  = map (fun i => (ci_Channel i, ci_Priority i)) items.
Proof.
  induction 1 as [|i it items its (c & rid & did & oid & _ & E) _ IH]; [done|].
  simpl. rewrite IH. f_equal. change (bi_Request it)
    with (bt_Request (mkBuilt (bi_Request it) (bi_Delivery it) (bi_Outbox it))).
  rewrite E. unfold built_rows. destruct (scheduled_for_later _ _); reflexivity.
Qed.

Lemma count_all (its : list BatchItem) a r a' :
  for_each (fun it => metrics_IncCreated (r_Channel (bi_Request it))
                        (r_Priority (bi_Request it))) its a = (r, a') ->
  r = Ok () /\ tables a' = tables a /\
  app_created a' = app_created a
    ++ map (fun it => (r_Channel (bi_Request it), r_Priority (bi_Request it))) its.
Proof.
  revert a. induction its as [|it its IH]; intros a H; simpl in H.
  - unfold mret, eff_ret in H. simplify_eq. by rewrite app_nil_r.
  - unfold mbind, eff_bind in H. simpl in H. apply IH in H as (-> & E & Ec).
    simpl in *. by rewrite Ec, <- app_assoc.
Qed.

(** The tables [d'] after the batch [id] of [items] on [d]. *)
Definition batch_stored (b : BatchInput) (id : uuid) (items : list BatchItem) (now db_now : time)
    (d d' : DB) : Prop :=
  let kept := keep (requests d) items in
  let n := Z.of_nat (length kept) in
  requests d' = requests d ++ map (fun it => stored_request (bi_Request it)) kept /\
  deliveries d' = deliveries d ++ map (fun it => stored_delivery (bi_Delivery it)) kept /\
  (exists rows, outbox d' = outbox d ++ rows /\
     Forall2 (fun o row => outbox_row db_now o = Some row) (omap bi_Outbox kept) rows) /\
  batches d' = batches d ++
    [mkBatch id (bn_UserID b) (bn_IdempotencyKey b) n n 0 0 0 (timestamptz now)] /\
  (templates d', archive d', partitions d') = (templates d, archive d, partitions d).

(** The outcomes of [CreateBatch] as a transition of the application. *)
Definition Batch_outcome (corr : string) (b : BatchInput) (a : App)
    (r : result error BatchCreateResult) (a' : App) : Prop :=
  match r with
  | Err e => app_created a' = app_created a /\
      (tables a' = tables a \/ (exists t, e = lost_reply t) /\
       exists id items, Forall2 (item_for corr (bn_UserID b) id a) (bn_Items b) items /\
         batch_stored b id items (app_clock a) (app_db_clock a) (tables a) (tables a'))
  | Ok res =>
      BatchInput_validate b = Ok () /\
      if bcr_Duplicate res then
        untouched a a' /\ exists key, bn_IdempotencyKey b = Some key /\
          bcr_Batch res ∈ batches (tables a) /\ batch_idem (bn_UserID b) key (bcr_Batch res) = true
      else exists id items,
        Forall2 (item_for corr (bn_UserID b) id a) (bn_Items b) items /\
        batch_stored b id items (app_clock a) (app_db_clock a) (tables a) (tables a') /\
        bcr_CreatedCount res = Z.of_nat (length (keep (requests (tables a)) items)) /\
        (bcr_CreatedCount res + bcr_DuplicateCount res)%Z = Z.of_nat (length (bn_Items b)) /\
        bcr_Batch res = mkBatch id (bn_UserID b) (bn_IdempotencyKey b) (bcr_CreatedCount res)
          (bcr_CreatedCount res) 0 0 0 (app_clock a) /\
        app_created a' = app_created a ++ map (fun i => (ci_Channel i, ci_Priority i)) (bn_Items b)
  end /\
  (reachable (tables a) -> reachable (tables a')).

Lemma batch_err corr b a e a' : untouched a a' -> Batch_outcome corr b a (Err e) a'.
Proof. intros [E Ec]. split; [split; [done|by left]|]. by rewrite E. Qed.

Lemma batch_lookup corr b a a1 key r a' :
  BatchInput_validate b = Ok () -> bn_IdempotencyKey b = Some key ->
  app_env a1 = [] -> untouched a a1 ->
  (repo_GetBatchByIdempotencyKey (bn_UserID b) key ≫= fun existing =>
   mret (mkBatchCreateResult existing true 0 0)) a1 = (r, a') -> Batch_outcome corr b a r a'.
Proof.
  intros Hv Hk He Hu H. apply bind_inv in H as [(e & H & ->)|(q & a2 & Hq & H)].
  - apply batch_err. eapply untouched_trans; [done|]. by eapply same_untouched, keeps_find_batch_key.
  - pose proof (find_batch_ok _ _ _ _ _ He Hq) as [Hin Hi].
    unfold mret, eff_ret in H. simplify_eq.
    assert (Hu2 : untouched a a') by (eapply untouched_trans; [done|];
      by eapply same_untouched, keeps_find_batch_key).
    split; [|by destruct Hu2 as [-> _]]. split; [done|]. split; [done|].
    exists key. destruct Hu as [<- _]. done.
Qed.

(** The tail of [CreateBatch] after the items are built. *)
Definition batch_of (b : BatchInput) (id : uuid) (now : time) : Batch :=
  mkBatch id (bn_UserID b) (bn_IdempotencyKey b) 0 0 0 0 0 now.

Lemma CreateBatch_stored b id items now db_now d br d' :
  runs (Store.CreateBatch (batch_of b id now) items db_now) d br d' ->
  batch_stored b id items now db_now d d' /\
  br_CreatedCount br = Z.of_nat (length (keep (requests d) items)) /\
  (br_CreatedCount br + br_DuplicateCount br)%Z = Z.of_nat (length items) /\
  br_Batch br = set_counts (br_CreatedCount br) (batch_of b id now).
Proof.
  intros H. pose proof (CreateBatch_dedup _ _ _ _ _ _ H) as (Er & Ed & Eo & Eb & En & Esum & _).
  pose proof (CreateBatch_others _ _ _ _ _ _ H) as Eoth.
  apply CreateBatch_runs in H as (_ & _ & n & d1 & _ & _ & Ebr). subst br. simpl in En, Esum |- *.
  split; [by split_and!|]. by split_and!; [| |].
Qed.

Lemma insert_batch_inv b id items a res a' :
  app_env a = [] -> repo_CreateBatch (batch_of b id (app_clock a)) items a = (res, a') ->
  app_env a' = [] /\ app_created a' = app_created a /\
  match res with
  | Ok br => runs (Store.CreateBatch (batch_of b id (app_clock a)) items (app_db_clock a))
               (tables a) br (tables a')
  | Err e => tables a' = tables a \/ (exists t, e = lost_reply t) /\
      exists br, runs (Store.CreateBatch (batch_of b id (app_clock a)) items (app_db_clock a))
                   (tables a) br (tables a')
  end /\
  (Forall (fun it => new_item (Some id) (bi_Request it) (bi_Delivery it)) items ->
   reachable (tables a) -> reachable (tables a')).
Proof.
  intros He H.
  change (port (Store.CreateBatch (batch_of b id (app_clock a)) items) a = (res, a')) in H.
  apply port_inv in H as (s' & H & ->); [|done]. split_and!; [done|done| |].
  - destruct res as [br|e]; [by apply run_runs in H|].
    destruct (withTx_err _ _ _ _ H) as [?|[Hl [br Hr]]]; [by left|right]. split; [done|].
    exists br. apply runs_withTx in Hr; [done|]. framed. apply create_items_framed.
  - intros Hnew Hr.
    apply (reach_call (CallCreateBatch (batch_of b id (app_clock a)) items (app_db_clock a))
             (app_sess a) (match res with Ok _ => Ok () | Err e => Err e end) s');
      [exact Hr|exact Hnew|].
    simpl. unfold ignore, mbind, eff_bind. rewrite H. by destruct res.
Qed.

Lemma batch_insert_outcome corr b a a1 id items r a' :
  same a a1 -> BatchInput_validate b = Ok () ->
  Forall2 (item_for corr (bn_UserID b) id a) (bn_Items b) items ->
  (attempt (repo_CreateBatch (batch_of b id (app_clock a)) items) ≫= fun res =>
     match res with
     | Err e =>
         match bn_IdempotencyKey b with
         | Some key =>
             if errors_Is e ErrConflict then
               repo_GetBatchByIdempotencyKey (bn_UserID b) key ≫= fun existing =>
               mret (mkBatchCreateResult existing true 0 0)
             else raise e
         | None => raise e
         end
     | Ok res =>
         for_each (fun it => metrics_IncCreated (r_Channel (bi_Request it))
                               (r_Priority (bi_Request it))) items ≫= fun _ =>
         mret (mkBatchCreateResult (br_Batch res) false (br_CreatedCount res)
                 (br_DuplicateCount res))
     end) a1 = (r, a') -> Batch_outcome corr b a r a'.
Proof.
  intros Hs Hv Hitems H. pose proof Hs as (E & Ec & He & Eclk & _).
  unfold attempt in H. unfold mbind at 1, eff_bind at 1 in H.
  destruct (repo_CreateBatch _ _ a1) as [res a2] eqn:H1. rewrite <- Eclk in H1.
  apply insert_batch_inv in H1 as (He2 & Ec2 & E2 & Hreach); [|done].
  assert (Hnew : Forall (fun it => new_item (Some id) (bi_Request it) (bi_Delivery it)) items).
  { clear -Hitems. induction Hitems; constructor; [by eapply item_for_new|done]. }
  destruct res as [br|e].
  - apply bind_inv in H as [(e & H & _)|([] & a3 & H & Hret)];
      apply count_all in H as (? & E3 & Ec3); [done|].
    unfold mret, eff_ret in Hret. simplify_eq.
    split; [|rewrite E3, <- E; by apply Hreach]. split; [done|]. simpl. exists id, items.
    split; [done|]. rewrite E3. apply CreateBatch_stored in E2 as (Hst & En & Esum & Ebr).
    assert (Edb : app_db_clock a1 = app_db_clock a) by apply Hs. rewrite Edb in Hst.
    rewrite Ebr, Ec3, Ec2, Ec, Eclk, E in *. split_and!; try done.
    + by rewrite Esum, (Forall2_length _ _ _ Hitems).
    + by rewrite (items_channels _ _ _ _ _ _ Hitems).
  - destruct E2 as [E2|[[t ->] [br E2]]].
    2:{ assert (H2 : r = Err (lost_reply t) /\ a' = a2).
        { unfold mbind, eff_bind in H.
          destruct (bn_IdempotencyKey b); simpl in H; unfold raise in H; by simplify_eq. }
        destruct H2 as [-> ->]. split; [|rewrite <- E; by apply Hreach].
        split; [congruence|]. right. split; [by exists t|]. exists id, items. split; [done|].
        apply CreateBatch_stored in E2 as (Hst & _).
        assert (Edb : app_db_clock a1 = app_db_clock a) by apply Hs. by rewrite Edb, Eclk, E in Hst. }
    assert (Hu : untouched a a2) by (split; congruence).
    destruct (bn_IdempotencyKey b) as [key|] eqn:Hk; [destruct (errors_Is e ErrConflict)|].
    + by eapply (batch_lookup corr b a a2 key).
    + unfold raise in H. simplify_eq. by apply batch_err.
    + unfold raise in H. simplify_eq. by apply batch_err.
Qed.

(** The lookup before the batch. *)
Definition batch_replay (b : BatchInput) : eff App error (option Batch) :=
  match bn_IdempotencyKey b with
  | Some key =>
      attempt (repo_GetBatchByIdempotencyKey (bn_UserID b) key) ≫= fun r =>
      match r with
      | Ok existing => mret (Some existing)
      | Err e => if negb (errors_Is e ErrNotFound) then raise e else mret None
      end
  | None => mret None
  end.

Lemma batch_replay_keeps b : keeps (batch_replay b).
Proof.
  unfold batch_replay. destruct (bn_IdempotencyKey b); [|apply keeps_ret].
  apply keeps_bind; [apply keeps_attempt, keeps_find_batch_key|].
  intros [q|e]; [apply keeps_ret|]. destruct (negb _); [apply keeps_raise|apply keeps_ret].
Qed.

Lemma batch_replay_found b a q a' :
  app_env a = [] -> batch_replay b a = (Ok (Some q), a') ->
  exists key, bn_IdempotencyKey b = Some key /\ q ∈ batches (tables a) /\
    batch_idem (bn_UserID b) key q = true.
Proof.
  intros He H. unfold batch_replay in H. destruct (bn_IdempotencyKey b) as [key|]; [|done].
  apply bind_ok in H as (r & a1 & H1 & H). apply attempt_ok_inv in H1.
  destruct r as [x|e].
  - apply ret_ok in H as [[= ->] _]. exists key. split; [done|]. by eapply find_batch_ok.
  - destruct (negb _); [by apply raise_ok in H|]. by apply ret_ok in H as [? _].
Qed.

(** C37: every outcome of [CreateBatch] when no other session commits between its
    calls, whichever round trips fail. An error leaves the metrics alone, and the
    tables too unless it is that of a commit whose reply was lost, in which case the
    batch is stored, whole; a replay of the batch's key returns the
    stored batch and changes nothing; otherwise one transaction stores exactly
    the items that are new ([keep]: keyless, or with a key neither stored nor
    used earlier in the batch): the request, the delivery and, unless it is
    scheduled, the outbox row of each, and one batch row with their number as
    total and pending; no other table changes. Created and duplicate counts add up
    to the submission, and the returned summary has the created count as total and
    pending. The created metric, however, counts every submitted item, the
    duplicates too. *)
Theorem CreateBatch_correct corr b a r a' :
  app_env a = [] -> CreateBatch corr b a = (r, a') -> Batch_outcome corr b a r a'.
Proof.
  intros He H. unfold CreateBatch in H.
  apply bind_inv in H as [(e & H & ->)|([] & a1 & H1 & H)].
  { apply batch_err, same_untouched. by eapply keeps_of_result. }
  unfold of_result in H1. injection H1 as Hv <-.
  apply bind_inv in H as [(e & H & ->)|(rep & a1 & H1 & H)].
  { apply batch_err, same_untouched. exact (batch_replay_keeps b _ _ _ He H). }
  pose proof (batch_replay_keeps b _ _ _ He H1) as Hs. destruct rep as [q|].
  { unfold mret, eff_ret in H. simplify_eq. apply (batch_replay_found b) in H1; [|done].
    pose proof (same_untouched _ _ Hs) as Hu.
    split; [by split_and!|by destruct Hu as [-> _]]. }
  apply bind_inv in H as [(e & H & ->)|(id & a2 & H2 & H)].
  { apply batch_err, same_untouched. eapply same_trans; [done|]. eapply keeps_uuid; [apply Hs|done]. }
  assert (Hs2 : same a a2) by (eapply same_trans; [done|]; eapply keeps_uuid; [apply Hs|done]).
  apply bind_inv in H as [(e & H & ->)|(now & a3 & H3 & H)]; [done|].
  simpl in H3. injection H3 as <- <-.
  apply bind_inv in H as [(e & H & ->)|(items & a4 & H4 & H)].
  { apply batch_err, same_untouched. eapply same_trans; [done|].
    eapply build_items_keeps; [apply Hs2|done]. }
  assert (Ec : app_clock a2 = app_clock a) by apply Hs2. rewrite Ec in H.
  eapply (batch_insert_outcome corr b a a4 id items); [|done| |exact H].
  - eapply same_trans; [exact Hs2|]. eapply build_items_keeps; [apply Hs2|done].
  - eapply Forall2_impl; [eapply build_items_rows; [apply Hs2|exact H4]|].
    intros i it. unfold item_for. by eapply rows_for_same.
Qed.
End ports.

(** ** Witnesses *)

Definition sample_quote (s : string) : string := s.
#[local] Instance sample_renderer : Renderer App := app_renderer sample_quote.

Definition app_on (d : DB) (env : list (DB -> DB)) : App :=
  mkApp (quiet d None 0) env 1000 1000 [].

Definition sample_input (key : option string) (sendAt : option time) : CreateInput :=
  mkCreateInput "alice" "+905551234567" "sms" "high" None "hi" ∅ key sendAt.

Lemma build_correct_witness :
  exists bt a', build "c" (sample_input None (Some 2000%Z)) None (app_on sample_db []) = (Ok bt, a') /\
    bt_Outbox bt = None /\ d_Status (bt_Delivery bt) = DeliveryScheduled.
Proof.
  destruct (build "c" (sample_input None (Some 2000%Z)) None (app_on sample_db [])) as [[bt|e] a'] eqn:E.
  - exists bt, a'. split; [reflexivity|].
    pose proof (build_correct sample_quote "c" _ None (app_on sample_db []) bt a' eq_refl E) as H.
    cbv zeta in H. vm_compute in E. injection E as <- _.
    split; [reflexivity|]. apply H.
  - exfalso. vm_compute in E. discriminate.
Defined.

Lemma Create_correct_witness :
  exists r a', Create "c" (sample_input (Some "k1") None) (app_on sample_db []) = (r, a') /\
    tables a' = sample_db /\ app_created a' = [].
Proof.
  destruct (Create "c" (sample_input (Some "k1") None) (app_on sample_db [])) as [r a'] eqn:E.
  exists r, a'. split; [reflexivity|].
  pose proof (Create_correct sample_quote "c" _ (app_on sample_db []) r a' eq_refl E) as [H _].
  vm_compute in E. injection E as <- <-. split; apply H.
Defined.

Lemma Create_idempotent_witness :
  exists a2, Create "d" (sample_input (Some "new") (Some 5000%Z))
      (snd (Create "c" (sample_input (Some "new") None) (app_on sample_db [])))
    = (Ok (mkCreateResult (mkRequest 1000 "alice" None "+905551234567" "sms" "high" None "hi"
                             (Some "new") RequestPending 1000) true), a2) /\
    app_created a2 = [("sms", "high")].
Proof.
  destruct (Create_idempotent sample_quote "c" "d" (sample_input (Some "new") None)
    (sample_input (Some "new") (Some 5000%Z)) "new" (app_on sample_db [])
    (mkCreateResult (mkRequest 1000 "alice" None "+905551234567" "sms" "high" None "hi"
       (Some "new") RequestPending 1000) false)
    (snd (Create "c" (sample_input (Some "new") None) (app_on sample_db [])))) as (a2 & E & _ & Ec);
    try (vm_compute; reflexivity).
  - apply sample_db_reachable.
  - exists a2. split; [exact E|]. rewrite Ec. vm_compute. reflexivity.
Defined.

(** Another session creates the same notification in the gap. *)
Definition rival (d : DB) : DB :=
  db (snd (exec (CallCreateNotification (sample_request 77 None (Some "new"))
    (sample_delivery 78 77 DeliveryPending None) (Some (sample_outbox 79 78 77)) 1000)
    (quiet d None 0))).

Lemma Create_lost_race_witness :
  exists a', Create "c" (sample_input (Some "new") None) (app_on sample_db [fun d => d; rival])
    = (Ok (mkCreateResult (sample_request 77 None (Some "new")) true), a') /\
    app_created a' = [].
Proof.
  destruct (Create_lost_race sample_quote "c" (sample_input (Some "new") None) "new" rival
    (sample_request 77 None (Some "new")) (app_on sample_db [fun d => d; rival]))
    as (a' & E & _ & Ec); try (vm_compute; reflexivity).
  - apply (proj1 (Forall_forall (fun q => request_idem "alice" "new" q = false)
                    (requests sample_db))).
    repeat apply Forall_cons_2; try apply Forall_nil_2; vm_compute; reflexivity.
  - apply (reachable_step (CallCreateNotification (sample_request 77 None (Some "new"))
      (sample_delivery 78 77 DeliveryPending None) (Some (sample_outbox 79 78 77)) 1000)
      (quiet sample_db None 0)); [apply sample_db_reachable|]. split; simpl; eauto; done.
  - vm_compute. do 3 right. left.
  - exists a'. split; [exact E|exact Ec].
Defined.

Lemma ownership_witness :
  Cancel "mallory" 1 (app_on sample_db []) = (Err ErrNotFound, app_on sample_db []).
Proof.
  destruct (Cancel "mallory" 1 (app_on sample_db [])) as [r a'] eqn:E.
  destruct (ownership "mallory" 1 (app_on sample_db []) eq_refl) as [_ H].
  destruct H as [_ H].
  - intros q Hq _. revert q Hq.
    apply (proj1 (Forall_forall (fun q => r_UserID q <> "mallory") (requests sample_db))).
    repeat apply Forall_cons_2; try apply Forall_nil_2; discriminate.
  - destruct (H r a' E) as (_ & _ & H1). destruct (H1 eq_refl) as [-> _].
    vm_compute in E. injection E as <-. reflexivity.
Defined.

Definition sample_batch_input : BatchInput :=
  mkBatchInput "alice" None
    [sample_input (Some "k1") None; sample_input None None; sample_input (Some "k9") None;
     sample_input (Some "k9") None].

(** Four items, two of them duplicates; all four are counted as created. *)
Lemma CreateBatch_correct_witness :
  exists r a', CreateBatch "c" sample_batch_input (app_on sample_db []) = (r, a') /\
    Batch_outcome "c" sample_batch_input (app_on sample_db []) r a' /\
    (exists b, r = Ok (mkBatchCreateResult b false 2 2)) /\ length (app_created a') = 4.
Proof.
  destruct (CreateBatch "c" sample_batch_input (app_on sample_db [])) as [r a'] eqn:E.
  exists r, a'. split; [reflexivity|]. split.
  - apply (CreateBatch_correct sample_quote "c" sample_batch_input (app_on sample_db []) r a' eq_refl E).
  - vm_compute in E. injection E as <- <-. split; [eexists; reflexivity|reflexivity].
Defined.

(** ** What validation lets through *)

Definition long_text (n : nat) : string := string_of (repeat "x"%char n).

(** Two bounds validation does not keep. A recipient longer than its column
    passes [validate] and fails in the database with an error that is none of the
    domain's (an internal error to the client); and the length limit of a channel
    is not applied to rendered templates: an SMS of 2000 bytes is created from a
    one-line template. *)
Theorem validation_gaps :
  (exists i e a', CreateInput_validate i = Ok () /\
     Create "c" i (app_on sample_db []) = (Err e, a') /\
     errors_As_Validation e = None /\ errors_Is e ErrNotFound = false /\
     errors_Is e ErrConflict = false /\ errors_Is e ErrTemplateVariablesMissing = false /\
     errors_Is e ErrCancelNotAllowed = false) /\
  (exists i res a' d, ci_Channel i = ChannelSMS /\
     Create "c" i (app_on d []) = (Ok res, a') /\ cr_Duplicate res = false /\
     (byte_len (r_RenderedContent (cr_Request res)) > maxContentLength ChannelSMS)%Z).
Proof.
  split.
  - exists (mkCreateInput "alice" (long_text 256) "sms" "high" None "hi" ∅ None None).
    do 2 eexists. split_and!; vm_compute; reflexivity.
  - exists (mkCreateInput "alice" "+90" "sms" "high" (Some 7%N) "" {["body" := long_text 2000]}
              None None).
    do 2 eexists.
    exists (mkDB [] [mkTemplate 7 "t" "sms" "{{body}}" ["body"] 0] [] [] [] [] []).
    split_and!; vm_compute; reflexivity.
Qed.
