(* ===== verification/Worker.v ===== *)
(** * The worker (internal/worker)

    [process] is the pipeline of one consumed message, over the ports of the
    package. A port that fails returns its error as a value
    the code inspects. [raise] in these definitions is not an error of the code:
    it is a runtime panic (an index out of range in the retry policy) or the fuel
    of [waitForRateLimit] running out, and the theorems of [WorkerSpec] show that
    neither happens. *)

From S2P Require Import Prelude GoStrings GoFloat Domain Retry.

Local Open Scope string_scope.
Local Open Scope list_scope.

(** ** Configuration *)

Record Config := mkConfig {
  cfg_Priorities : list Priority;
  cfg_Channels : list Channel;
  cfg_Concurrency : Z;
  cfg_Consumer : string;
  cfg_BatchSize : Z;
  cfg_LeaseTTL : duration;
  cfg_BlockTime : duration;
  cfg_RateWaitMax : duration;
  cfg_RateWaitStep : duration
}.

Definition positive_or (n d : Z) : Z := if (n <=? 0)%Z then d else n.

(** [dlq] tells whether a dead-letter publisher was given. *)
Record Worker := mkWorker {
  w_cfg : Config;
  w_policy : Policy;
  w_dlq : bool;
  w_streams : list string
}.

Definition newWorker (cfg : Config) (policy : Policy) (dlq : bool) : Worker :=
  let cfg := mkConfig (cfg_Priorities cfg) (cfg_Channels cfg)
    (positive_or (cfg_Concurrency cfg) 1) (cfg_Consumer cfg)
    (positive_or (cfg_BatchSize cfg) 1) (cfg_LeaseTTL cfg) (cfg_BlockTime cfg)
    (positive_or (cfg_RateWaitMax cfg) (30 * Second))
    (positive_or (cfg_RateWaitStep cfg) (50 * Millisecond)) in
  let streams := pr ← cfg_Priorities cfg; ch ← cfg_Channels cfg; [Stream pr ch] in
  mkWorker cfg policy dlq streams.

Definition New (cfg : Config) (policy : Policy) : Worker := newWorker cfg policy false.
Definition NewWithDLQ (cfg : Config) (policy : Policy) : Worker := newWorker cfg policy true.

(** ** Ports *)

Inductive metric :=
| IncSent (c : Channel) (p : Priority)
| IncFailed (c : Channel) (p : Priority)
| IncRetry (c : Channel) (p : Priority)
| ObserveProviderLatency (c : Channel)
| ObserveProcessing (c : Channel) (p : Priority)
| ObserveE2ELatency (c : Channel) (p : Priority)
| IncDLQ (reason : string).

(** [Allow] returns whether the send may proceed, the time to wait, and an error
    the worker only logs. [Sleep] is [<-time.After(d)] ([process] runs under a
    context that is never cancelled); [draw] is the policy's random source. *)
Class Ports (W : Type) := {
  clock_Now : eff W error time;
  Sleep : duration -> eff W error ();
  draw : eff W error float64;
  Allow : Channel -> eff W error (bool * duration * option error);
  ClaimDelivery : uuid -> time -> time -> eff W error (option Delivery);
  GetRequestByID : uuid -> eff W error Request;
  Send : ProviderRequest -> eff W error ProviderResult;
  MarkSent : uuid -> time -> uuid -> string -> eff W error ();
  MarkRetrying : uuid -> time -> Z -> time -> string -> eff W error ();
  MarkFailed : uuid -> time -> uuid -> Z -> string -> eff W error ();
  Ack : string -> string -> eff W error ();
  DLQ_Publish : DLQMessage -> eff W error ();
  Metrics : metric -> eff W error ();
  (** [uuid.UUID.String] of github.com/google/uuid *)
  uuid_String : uuid -> string
}.

Definition panic {W A} : eff W error A := raise (ELib "panic").
Definition out_of_fuel {W A} : eff W error A := raise (ELib "fuel").

Section worker.
Context {W : Type} `{ports : !Ports W} (f64_overflow : float64 -> Z) (w : Worker).

(** ** Rate limiting *)

Fixpoint wait_loop (fuel : nat) (deadline : time) (channel : Channel) : eff W error bool :=
  match fuel with
  | 0 => out_of_fuel
  | S fuel =>
      a ← Allow channel;
      let '(allowed, retryAfter, _) := a : bool * duration * option error in
      if allowed then mret true else
      now ← clock_Now;
      if (now >? deadline)%Z then mret false else
      let wait := cfg_RateWaitStep (w_cfg w) in
      let wait := if ((retryAfter >? 0) && (retryAfter <? wait))%Z then retryAfter else wait in
      Sleep wait ≫= fun _ =>
      wait_loop fuel deadline channel
  end.

Definition waitForRateLimit (fuel : nat) (channel : Channel) : eff W error bool :=
  now ← clock_Now;
  wait_loop fuel (now + cfg_RateWaitMax (w_cfg w))%Z channel.

(** ** Failures *)

Definition requeueWithoutAttempt (del : Delivery) (reason : string) : eff W error () :=
  now ← clock_Now;
  let next := (now + cfg_RateWaitStep (w_cfg w))%Z in
  attempt (MarkRetrying (d_ID del) (d_CreatedAt del) (d_AttemptCount del) next reason)
    ≫= fun _ => mret ().

Definition publishDLQ (msg : StreamMessage) (attempts : Z) (errMsg : string)
    : eff W error () :=
  if negb (w_dlq w) then mret () else
  let reason := if (attempts >? 0)%Z then "exhausted_retries" else "permanent_failure" in
  now ← clock_Now;
  r ← attempt (DLQ_Publish (mkDLQMessage (sm_Delivery msg) reason errMsg attempts
                              (sm_Stream msg) (sm_ID msg) now));
  match r with
  | Err _ => mret ()
  | Ok _ => Metrics (IncDLQ reason)
  end.

Definition handleFailure (del : Delivery) (msg : StreamMessage) (sendErr : error)
    : eff W error () :=
  let perr := errors_As_Provider sendErr in
  if match perr with Some p => pe_BreakerOpen p | None => false end then
    requeueWithoutAttempt del "circuit breaker open"
  else
    now ← clock_Now;
    dr ← draw;
    match EvaluateFailure f64_overflow (w_policy w) dr now (d_AttemptCount del) perr with
    | None => panic
    | Some outcome =>
        match oc_Status outcome with
        | DeliveryFailed =>
            r ← attempt (MarkFailed (d_ID del) (d_CreatedAt del) (d_RequestID del)
                           (oc_AttemptCount outcome) (Error sendErr));
            match r with
            | Err _ => mret ()
            | Ok _ =>
                Metrics (IncFailed (d_Channel del) (d_Priority del)) ≫= fun _ =>
                publishDLQ msg (oc_AttemptCount outcome) (Error sendErr)
            end
        | _ =>
            now ← clock_Now;
            let next := default now (oc_NextRetryAt outcome) in
            r ← attempt (MarkRetrying (d_ID del) (d_CreatedAt del) (oc_AttemptCount outcome)
                           next (Error sendErr));
            match r with
            | Err _ => mret ()
            | Ok _ => Metrics (IncRetry (d_Channel del) (d_Priority del))
            end
        end
    end.

(** ** The pipeline *)

Definition send (del : Delivery) (recipient content : string)
    : eff W error (result error ProviderResult) :=
  res ← attempt (Send (mkProviderRequest (uuid_String (d_ID del)) recipient (d_Channel del)
                         content));
  Metrics (ObserveProviderLatency (d_Channel del)) ≫= fun _ =>
  mret res.

(** After the provider's answer. *)
Definition settle (msg : StreamMessage) (del : Delivery) (sent : result error ProviderResult)
    : eff W error () :=
  match sent with
  | Err sendErr => handleFailure del msg sendErr
  | Ok res =>
      marked ← attempt (MarkSent (d_ID del) (d_CreatedAt del) (d_RequestID del)
                          (pres_MessageID res));
      match marked with
      | Err _ => mret ()
      | Ok _ =>
          Metrics (IncSent (d_Channel del) (d_Priority del)) ≫= fun _ =>
          clock_Now ≫= fun _ =>
          Metrics (ObserveE2ELatency (d_Channel del) (d_Priority del))
      end
  end.

(** With a token: load the request, send, settle. *)
Definition deliver (msg : StreamMessage) (del : Delivery) : eff W error () :=
  loaded ← attempt (GetRequestByID (d_RequestID del));
  match loaded with
  | Err _ => mret ()
  | Ok req => send del (r_Recipient req) (r_RenderedContent req) ≫= settle msg del
  end.

(** The steps between the entry of [process] and its deferred function. *)
Definition process_body (fuel : nat) (msg : StreamMessage) : eff W error () :=
  let dm := sm_Delivery msg in
  now ← clock_Now;
  let leaseUntil := (now + cfg_LeaseTTL (w_cfg w))%Z in
  claim ← attempt (ClaimDelivery (dm_DeliveryID dm) (dm_DeliveryCreatedAt dm) leaseUntil);
  match claim with
  | Err _ | Ok None => mret ()
  | Ok (Some del) =>
      allowed ← waitForRateLimit fuel (dm_Channel dm);
      if negb allowed then requeueWithoutAttempt del "rate limited" else deliver msg del
  end.

Definition process (fuel : nat) (msg : StreamMessage) : eff W error () :=
  clock_Now ≫= fun _ =>
  process_body fuel msg ≫= fun _ =>
  attempt (Ack (sm_Stream msg) (sm_ID msg)) ≫= fun _ =>
  clock_Now ≫= fun _ =>
  Metrics (ObserveProcessing (dm_Channel (sm_Delivery msg)) (dm_Priority (sm_Delivery msg))).
End worker.
