(* ===== verification/WorkerSpec.v ===== *)
(** * What processing one message does

    [Env] is an arbitrary environment: the answer of every port and the time each
    call takes. [World] records the clock and the log of the calls. [plan] is the
    reference definition of the pipeline, as the list of calls that other
    components see; [process_follows_plan] proves that [process] makes exactly
    those calls, always terminates and never panics. *)

From S2P Require Import Prelude GoStrings GoFloat Domain Retry Worker.

Local Open Scope string_scope.
Local Open Scope list_scope.

(** ** Environments *)

Inductive event :=
| EvNow
| EvSleep (d : duration)
| EvDraw
| EvAllow (c : Channel)
| EvClaim (id : uuid) (createdAt leaseUntil : time)
| EvGetRequest (id : uuid)
| EvSend (r : ProviderRequest)
| EvMarkSent (id : uuid) (createdAt : time) (rid : uuid) (messageID : string)
| EvMarkRetrying (id : uuid) (createdAt : time) (n : Z) (next : time) (err : string)
| EvMarkFailed (id : uuid) (createdAt : time) (rid : uuid) (n : Z) (err : string)
| EvAck (stream id : string)
| EvDLQ (m : DLQMessage)
| EvMetric (m : metric).

(** [env_elapse n ev]: how long the [n]-th call takes when it is [ev]. A message
    is claimed, loaded, sent, marked, acknowledged and dead-lettered at most once,
    so one answer each is enough; the limiter may answer differently each time. *)
Record Env := mkEnv {
  env_elapse : nat -> event -> duration;
  env_allow : nat -> bool * duration * option error;
  env_claim : result error (option Delivery);
  env_request : result error Request;
  env_send : result error ProviderResult;
  env_mark : result error ();
  env_ack : result error ();
  env_dlq : result error ();
  env_draw : float64;
  env_uuid_String : uuid -> string
}.

(** A log entry carries the time the call returns. *)
Record World := mkWorld { clk : time; log : list (time * event) }.

Section env.
Context (env : Env).

Definition port {A} (ev : event) (reply : nat -> result error A) (sleep : duration)
    : eff World error A := fun wd =>
  let n := length (log wd) in
  let t := (clk wd + sleep + env_elapse env n ev)%Z in
  (reply n, mkWorld t (log wd ++ [(t, ev)])).

Definition tell (ev : event) : eff World error () := port ev (fun _ => Ok ()) 0.

#[export] Instance env_ports : Ports World := {
  clock_Now := fun wd => (Ok (clk (snd (tell EvNow wd))), snd (tell EvNow wd));
  Sleep d := port (EvSleep d) (fun _ => Ok ()) d;
  draw := port EvDraw (fun _ => Ok (env_draw env)) 0;
  Allow c := port (EvAllow c) (fun n => Ok (env_allow env n)) 0;
  ClaimDelivery id at_ lease := port (EvClaim id at_ lease) (fun _ => env_claim env) 0;
  GetRequestByID id := port (EvGetRequest id) (fun _ => env_request env) 0;
  Send r := port (EvSend r) (fun _ => env_send env) 0;
  MarkSent id at_ rid m := port (EvMarkSent id at_ rid m) (fun _ => env_mark env) 0;
  MarkRetrying id at_ n next err :=
    port (EvMarkRetrying id at_ n next err) (fun _ => env_mark env) 0;
  MarkFailed id at_ rid n err := port (EvMarkFailed id at_ rid n err) (fun _ => env_mark env) 0;
  Ack stream id := port (EvAck stream id) (fun _ => env_ack env) 0;
  DLQ_Publish m := port (EvDLQ m) (fun _ => env_dlq env) 0;
  Metrics m := tell (EvMetric m);
  uuid_String := env_uuid_String env
}.
End env.

(** ** The reference definition *)

(** The calls other components see: the clock, the sleeps, the limiter's polls
    and the latency histograms are internal. *)
Definition visible (ev : event) : bool :=
  match ev with
  | EvNow | EvSleep _ | EvDraw | EvAllow _ => false
  | EvMetric (ObserveProviderLatency _) | EvMetric (ObserveProcessing _ _)
  | EvMetric (ObserveE2ELatency _ _) => false
  | _ => true
  end.

Definition visible_calls (l : list (time * event)) : list event :=
  where_ visible (map snd l).

Definition ok_then {A} (r : result error A) (l : list event) : list event :=
  match r with Ok _ => l | Err _ => [] end.

Definition breaker_open (e : error) : bool :=
  match errors_As_Provider e with Some p => pe_BreakerOpen p | None => false end.

Section plan.
Context (f64_overflow : float64 -> Z) (env : Env) (w : Worker) (msg : StreamMessage).

Definition plan_dlq (attempts : Z) (err : string) (t : time) : list event :=
  if w_dlq w then
    EvDLQ (mkDLQMessage (sm_Delivery msg) "exhausted_retries" err attempts (sm_Stream msg)
             (sm_ID msg) t)
    :: ok_then (env_dlq env) [EvMetric (IncDLQ "exhausted_retries")]
  else [].

(** [now]: when the failure is evaluated; [t]: when it is dead-lettered. *)
Definition plan_failure (del : Delivery) (sendErr : error) (now t : time) : list event :=
  if breaker_open sendErr then
    [EvMarkRetrying (d_ID del) (d_CreatedAt del) (d_AttemptCount del)
       (now + cfg_RateWaitStep (w_cfg w)) "circuit breaker open"]
  else
    match EvaluateFailure f64_overflow (w_policy w) (env_draw env) now (d_AttemptCount del)
            (errors_As_Provider sendErr) with
    | Some (mkOutcome DeliveryFailed n _) =>
        EvMarkFailed (d_ID del) (d_CreatedAt del) (d_RequestID del) n (Error sendErr)
        :: ok_then (env_mark env)
             (EvMetric (IncFailed (d_Channel del) (d_Priority del))
              :: plan_dlq n (Error sendErr) t)
    | Some (mkOutcome _ n (Some next)) =>
        EvMarkRetrying (d_ID del) (d_CreatedAt del) n next (Error sendErr)
        :: ok_then (env_mark env) [EvMetric (IncRetry (d_Channel del) (d_Priority del))]
    | _ => []
    end.

(** [t0]: when the lease starts; [allowed]: the limiter's decision; [now], [t]:
    when the outcome is decided. *)
Definition plan_body (t0 : time) (allowed : bool) (now t : time) : list event :=
  let dm := sm_Delivery msg in
  EvClaim (dm_DeliveryID dm) (dm_DeliveryCreatedAt dm) (t0 + cfg_LeaseTTL (w_cfg w))
  :: match env_claim env with
     | Err _ | Ok None => []
     | Ok (Some del) =>
         if negb allowed then
           [EvMarkRetrying (d_ID del) (d_CreatedAt del) (d_AttemptCount del)
              (now + cfg_RateWaitStep (w_cfg w)) "rate limited"]
         else
           EvGetRequest (d_RequestID del)
           :: match env_request env with
              | Err _ => []
              | Ok req =>
                  EvSend (mkProviderRequest (env_uuid_String env (d_ID del)) (r_Recipient req)
                            (d_Channel del) (r_RenderedContent req))
                  :: match env_send env with
                     | Ok res =>
                         EvMarkSent (d_ID del) (d_CreatedAt del) (d_RequestID del)
                           (pres_MessageID res)
                         :: ok_then (env_mark env)
                              [EvMetric (IncSent (d_Channel del) (d_Priority del))]
                     | Err e => plan_failure del e now t
                     end
              end
     end.

Definition plan (t0 : time) (allowed : bool) (now t : time) : list event :=
  plan_body t0 allowed now t ++ [EvAck (sm_Stream msg) (sm_ID msg)].
End plan.

(** ** Reading the log *)

(** The last time the clock showed before the first call [p] ([d] when it was not
    read before; 0 when no such call was made). *)
Fixpoint reading (p : event -> bool) (d : time) (l : list (time * event)) : time :=
  match l with
  | [] => 0%Z
  | (t, ev) :: l =>
      if p ev then d else reading p (match ev with EvNow => t | _ => d end) l
  end.

Definition is_claim (ev : event) : bool := match ev with EvClaim _ _ _ => true | _ => false end.
Definition is_dlq (ev : event) : bool := match ev with EvDLQ _ => true | _ => false end.

(** The call that follows the evaluation of a failure: the policy's draw, or the
    write of a requeue. *)
Definition is_decision (ev : event) : bool :=
  match ev with EvDraw | EvMarkRetrying _ _ _ _ _ => true | _ => false end.

(** The calls of the wait for a token, from the [n]-th call on, and how it ends:
    the limiter is asked, and while it refuses and the deadline is not over the
    worker pauses, as long as the limiter says if that is less than a step. *)
Inductive polled (env : Env) (step : duration) (ch : Channel) (deadline : time) :
    nat -> bool -> list (time * event) -> Prop :=
| polled_granted n t r e :
    env_allow env n = (true, r, e) -> polled env step ch deadline n true [(t, EvAllow ch)]
| polled_late n t u r e :
    env_allow env n = (false, r, e) -> (deadline < u)%Z ->
    polled env step ch deadline n false [(t, EvAllow ch); (u, EvNow)]
| polled_again n t u v r e b l :
    env_allow env n = (false, r, e) -> (u <= deadline)%Z ->
    polled env step ch deadline (3 + n) b l ->
    polled env step ch deadline n b
      ((t, EvAllow ch) :: (u, EvNow)
         :: (v, EvSleep (if ((r >? 0) && (r <? step))%Z then r else step)) :: l).

Definition is_poll (ev : event) : bool := match ev with EvAllow _ => true | _ => false end.

(** ** Runs that make given calls *)

(** [m] returns [a] from [wd] and makes exactly the calls [l] on the way. *)
Definition steps {A} (m : eff World error A) (wd : World) (a : A) (l : list (time * event))
    (wd' : World) : Prop :=
  m wd = (Ok a, wd') /\ log wd' = log wd ++ l.

Lemma visible_app l1 l2 : visible_calls (l1 ++ l2) = visible_calls l1 ++ visible_calls l2.
Proof. unfold visible_calls. by rewrite map_app, where_app. Qed.

Lemma steps_bind {A B} (m : eff World error A) (k : A -> eff World error B) wd a l1 wd1 b l2 wd2 :
  steps m wd a l1 wd1 -> steps (k a) wd1 b l2 wd2 -> steps (m ≫= k) wd b (l1 ++ l2) wd2.
Proof.
  intros (H1 & L1) (H2 & L2). split; [by rewrite (bind_step_ok _ _ _ _ _ H1)|].
  by rewrite L2, L1, app_assoc.
Qed.

Lemma steps_ret {A} (a : A) wd : steps (mret a) wd a [] wd.
Proof. split; [done|]. by rewrite app_nil_r. Qed.

(** Calls before the first [p] only move the clock. *)
Lemma reading_skip p d l1 l2 :
  Forall (fun e => p e.2 = false) l1 -> exists d', reading p d (l1 ++ l2) = reading p d' l2.
Proof.
  intros H. revert d. induction H as [|[t ev] l1 Hp _ IH]; intros d; [by exists d|].
  simpl in *. rewrite Hp. apply IH.
Qed.

(** Nor do the calls after it. *)
Lemma reading_before p d l1 l2 :
  Forall (fun e => p e.2 = false) l2 -> reading p d (l1 ++ l2) = reading p d l1.
Proof.
  intros H. revert d. induction l1 as [|[t ev] l1 IH]; intros d; simpl.
  - revert d. induction H as [|[t ev] l2 Hp _ IH]; intros d; [done|]. simpl in *. by rewrite Hp.
  - destruct (p ev); [done|apply IH].
Qed.

Section steps.
Context (env : Env) (f64_overflow : float64 -> Z) (w : Worker).
#[local] Instance ports_of_env : Ports World := env_ports env.

(** The world after a call. *)
Definition after (ev : event) (sleep : duration) (wd : World) : World :=
  let t := (clk wd + sleep + env_elapse env (length (log wd)) ev)%Z in
  mkWorld t (log wd ++ [(t, ev)]).

Definition stamp (ev : event) (sleep : duration) (wd : World) : time * event :=
  (clk (after ev sleep wd), ev).

Lemma steps_port {A} ev (reply : nat -> result error A) sleep a wd :
  reply (length (log wd)) = Ok a ->
  steps (port env ev reply sleep) wd a [stamp ev sleep wd] (after ev sleep wd).
Proof. intros Hr. split; [|done]. unfold port. by rewrite Hr. Qed.

Lemma steps_try {A} (m : eff World error A) ev (reply : result error A) r wd :
  m = port env ev (fun _ => reply) 0 -> reply = r ->
  steps (attempt m) wd r [stamp ev 0 wd] (after ev 0 wd).
Proof. by intros -> <-. Qed.

Lemma steps_now wd :
  steps clock_Now wd (clk (after EvNow 0 wd)) [stamp EvNow 0 wd] (after EvNow 0 wd).
Proof. done. Qed.

Lemma steps_metric m wd :
  steps (Metrics m) wd () [stamp (EvMetric m) 0 wd] (after (EvMetric m) 0 wd).
Proof. done. Qed.

Lemma steps_then {A B} (m : eff World error A) (k : A -> eff World error B) wd a l1 wd1 b
    (P : list (time * event) -> Prop) :
  steps m wd a l1 wd1 ->
  (exists l2 wd2, steps (k a) wd1 b l2 wd2 /\ P (l1 ++ l2)) ->
  exists l wd2, steps (m ≫= k) wd b l wd2 /\ P l.
Proof. intros H1 (l2 & wd2 & H2 & HP). exists (l1 ++ l2), wd2. split; [by eapply steps_bind|done]. Qed.

Lemma steps_done {A B} (m : eff World error A) wd a l wd1 (b : B) (P : list (time * event) -> Prop) :
  steps m wd a l wd1 -> P l ->
  exists l wd2, steps (m ≫= fun _ => mret b) wd b l wd2 /\ P l.
Proof.
  intros H1 HP. eapply steps_then; [exact H1|]. exists [], wd1. split; [apply steps_ret|].
  by rewrite app_nil_r.
Qed.

Lemma steps_last {A} (m : eff World error A) wd a l wd1 (P : list (time * event) -> Prop) :
  steps m wd a l wd1 -> P l -> exists l wd2, steps m wd a l wd2 /\ P l.
Proof. eauto. Qed.

(** ** The limiter's loop *)

Section limiter.
Hypothesis Helapse : forall n ev, (0 <= env_elapse env n ev)%Z.
Hypothesis Hstep : (0 < cfg_RateWaitStep (w_cfg w))%Z.

Lemma wait_loop_steps fuel deadline ch wd :
  Z.to_nat (deadline - clk wd + 1) < fuel ->
  exists b l wd', steps (wait_loop w fuel deadline ch) wd b l wd' /\
    polled env (cfg_RateWaitStep (w_cfg w)) ch deadline (length (log wd)) b l.
Proof.
  revert wd. induction fuel as [|fuel IH]; intros wd Hf; [lia|]. simpl.
  pose proof (steps_port (EvAllow ch) (fun n => Ok (env_allow env n)) 0 _ wd eq_refl) as Ha.
  destruct (env_allow env (length (log wd))) as [[allowed ra] err] eqn:Eal.
  set (wd1 := after (EvAllow ch) 0 wd) in Ha. destruct allowed.
  { exists true, [stamp (EvAllow ch) 0 wd], wd1. split; [|by eapply polled_granted].
    apply (steps_bind _ _ _ _ [_] _ _ [] _ Ha), steps_ret. }
  pose proof (steps_now wd1) as Hn. set (wd2 := after EvNow 0 wd1) in Hn.
  destruct (clk wd2 >? deadline)%Z eqn:Ed.
  { exists false, [stamp (EvAllow ch) 0 wd; stamp EvNow 0 wd1], wd2.
    split; [|eapply polled_late; [done|]; fold wd2; lia].
    apply (steps_bind _ _ _ _ [_] _ _ [_] _ Ha). cbv beta iota.
    apply (steps_bind _ _ _ _ [_] _ _ [] _ Hn). rewrite Ed. apply steps_ret. }
  set (step := cfg_RateWaitStep (w_cfg w)) in *.
  set (wait := if ((ra >? 0) && (ra <? step))%Z then ra else step).
  assert (Hw : (0 < wait)%Z).
  { unfold wait. destruct (Z.gtb_spec ra 0); simpl; [|lia]. destruct (ra <? step)%Z; lia. }
  pose proof (steps_port (EvSleep wait) (fun _ => Ok ()) wait () wd2 eq_refl) as Hs.
  set (wd3 := after (EvSleep wait) wait wd2) in Hs.
  assert (H3 : (clk wd + 1 <= clk wd3)%Z).
  { pose proof (Helapse (length (log wd)) (EvAllow ch)). pose proof (Helapse (length (log wd1)) EvNow).
    pose proof (Helapse (length (log wd2)) (EvSleep wait)). simpl in *. lia. }
  destruct (IH wd3) as (b & l & wd4 & Hr & Hp).
  { assert ((clk wd <= deadline)%Z); [|lia]. pose proof (Helapse (length (log wd)) (EvAllow ch)).
    pose proof (Helapse (length (log wd1)) EvNow). simpl in *. lia. }
  exists b, (stamp (EvAllow ch) 0 wd :: stamp EvNow 0 wd1 :: stamp (EvSleep wait) wait wd2 :: l), wd4.
  split.
  - apply (steps_bind _ _ _ _ [_] _ _ _ _ Ha). cbv beta iota.
    apply (steps_bind _ _ _ _ [_] _ _ _ _ Hn). rewrite Ed.
    by apply (steps_bind _ _ _ _ [_] _ _ _ _ Hs).
  - eapply polled_again; [done|fold wd2; lia|].
    replace (3 + length (log wd)) with (length (log wd3)); [done|]. simpl.
    rewrite !length_app. simpl. lia.
Qed.

Lemma waitForRateLimit_steps fuel ch wd :
  Z.to_nat (cfg_RateWaitMax (w_cfg w) + 1) < fuel ->
  exists b start l wd', steps (waitForRateLimit w fuel ch) wd b ((start, EvNow) :: l) wd' /\
    polled env (cfg_RateWaitStep (w_cfg w)) ch (start + cfg_RateWaitMax (w_cfg w))
      (S (length (log wd))) b l.
Proof.
  intros Hf. pose proof (steps_now wd) as Hn. set (wd1 := after EvNow 0 wd) in Hn.
  destruct (wait_loop_steps fuel (clk wd1 + cfg_RateWaitMax (w_cfg w)) ch wd1) as (b & l & wd2 & Hl & Hp);
    [lia|].
  exists b, (clk wd1), l, wd2. split; [exact (steps_bind _ _ _ _ [_] _ _ _ _ Hn Hl)|].
  replace (S (length (log wd))) with (length (log wd1)); [done|]. simpl. rewrite length_app. simpl. lia.
Qed.
End limiter.

(** ** The branches of the pipeline *)

(** The next call of the pipeline, whose answer is known. *)
Ltac call :=
  first [ eapply steps_then; [first [apply steps_now | apply steps_metric
                                    | eapply steps_try; [reflexivity|eassumption||reflexivity]]|]
        | eapply steps_last; [first [apply steps_metric | apply steps_ret]|] ];
  cbv beta iota zeta.

(** What a part decides: the calls [l] are those of [plan], at the times they
    show for the decision and the dead letter. *)
Definition decided (plan : time -> time -> list event) (l : list (time * event)) : Prop :=
  Forall (fun e => is_claim e.2 || is_poll e.2 = false) l /\
  forall d d', visible_calls l = plan (reading is_decision d l) (reading is_dlq d' l).

Ltac decided := split; [by repeat (apply Forall_cons; split; [done|])|intros; reflexivity].

Lemma requeue_steps del reason wd :
  exists l wd', steps (requeueWithoutAttempt w del reason) wd () l wd' /\
    decided (fun now _ => [EvMarkRetrying (d_ID del) (d_CreatedAt del) (d_AttemptCount del)
                             (now + cfg_RateWaitStep (w_cfg w)) reason]) l.
Proof. unfold requeueWithoutAttempt. call. call. call. decided. Qed.

Lemma handleFailure_steps del msg e wd :
  attempt_ok (d_AttemptCount del) ->
  exists l wd', steps (handleFailure f64_overflow w del msg e) wd () l wd' /\
    decided (plan_failure f64_overflow env w msg del e) l.
Proof.
  intros Hn. unfold handleFailure, plan_failure, breaker_open.
  destruct (match errors_As_Provider e with Some p => pe_BreakerOpen p | None => false end).
  { apply requeue_steps. }
  call. eapply steps_then; [by apply (steps_port EvDraw (fun _ => Ok (env_draw env)) 0)|].
  set (wd1 := after EvNow 0 wd). set (wd2 := after EvDraw 0 wd1).
  pose proof (fun now => EvaluateFailure_cases f64_overflow (w_policy w) (env_draw env) now
                (d_AttemptCount del) (errors_As_Provider e) Hn) as Eev.
  rewrite Eev. unfold decided. setoid_rewrite Eev.
  destruct (_ || _); cbn [oc_Status oc_AttemptCount oc_NextRetryAt default].
  - destruct (env_mark env) as [[]|err] eqn:Em; call; call; [|decided].
    unfold publishDLQ, plan_dlq. destruct (w_dlq w); simpl negb; cbv iota; [|call; decided].
    rewrite (proj2 (Z.gtb_lt _ 0)) by (destruct Hn; lia).
    call. destruct (env_dlq env) as [[]|err] eqn:Ed; call; call; decided.
  - call. destruct (env_mark env) as [[]|err] eqn:Em; call; call; decided.
Qed.

(** After a granted token: load, send, settle. *)
Definition plan_deliver (del : Delivery) (msg : StreamMessage) (now t : time) : list event :=
  EvGetRequest (d_RequestID del)
  :: match env_request env with
     | Err _ => []
     | Ok req =>
         EvSend (mkProviderRequest (env_uuid_String env (d_ID del)) (r_Recipient req)
                   (d_Channel del) (r_RenderedContent req))
         :: match env_send env with
            | Ok res =>
                EvMarkSent (d_ID del) (d_CreatedAt del) (d_RequestID del) (pres_MessageID res)
                :: ok_then (env_mark env) [EvMetric (IncSent (d_Channel del) (d_Priority del))]
            | Err e => plan_failure f64_overflow env w msg del e now t
            end
     end.

(** Calls that decide nothing, before a part. *)
Lemma decided_skip l1 l2 plan d d' :
  Forall (fun e => is_decision e.2 || is_dlq e.2 = false) l1 -> decided plan l2 ->
  visible_calls (l1 ++ l2) =
    visible_calls l1 ++ plan (reading is_decision d (l1 ++ l2)) (reading is_dlq d' (l1 ++ l2)).
Proof.
  intros H1 [_ Hp]. rewrite visible_app.
  destruct (reading_skip is_decision d l1 l2) as [u ->].
  { eapply Forall_impl; [exact H1|]. intros e He. simpl in He. by destruct e.2. }
  destruct (reading_skip is_dlq d' l1 l2) as [u' ->].
  { eapply Forall_impl; [exact H1|]. intros e He. simpl in He. by destruct e.2. }
  by rewrite <- Hp.
Qed.

Lemma deliver_steps del msg wd :
  attempt_ok (d_AttemptCount del) ->
  exists l wd', steps (deliver f64_overflow w msg del) wd () l wd' /\
    decided (plan_deliver del msg) l.
Proof.
  intros Hn. unfold deliver, plan_deliver.
  destruct (env_request env) as [req|e] eqn:Er; call; [|call; decided].
  set (pr := mkProviderRequest _ _ _ _).
  assert (Hsend : forall wd, exists wd', steps (send del (r_Recipient req) (r_RenderedContent req)) wd
    (env_send env) [stamp (EvSend pr) 0 wd; stamp (EvMetric (ObserveProviderLatency (d_Channel del))) 0
      (after (EvSend pr) 0 wd)] wd').
  { intros wd1. eexists. apply (steps_bind _ _ _ (env_send env) [_] (after (EvSend pr) 0 wd1) _ [_]); [by eapply steps_try|].
    eapply (steps_bind _ _ _ _ [_] _ _ []); [apply steps_metric|apply steps_ret]. }
  edestruct Hsend as [wd2 H2]. eapply steps_then; [exact H2|]. unfold settle.
  destruct (env_send env) as [res|e] eqn:E.
  - destruct (env_mark env) as [[]|err] eqn:Em; call; call; [|decided]. call. call. decided.
  - destruct (handleFailure_steps del msg e wd2 Hn) as (l & wd3 & H3 & Hd).
    exists l, wd3. split; [exact H3|].
    split; [repeat (apply Forall_cons; split; [done|]); by destruct Hd|]. intros d d'.
    match goal with |- visible_calls (?a ++ ?b ++ l) = _ =>
      apply (decided_skip (a ++ b) l _ d d' ltac:(by repeat (apply Forall_cons; split; [done|])) Hd) end.
Qed.

(** The row a claim returns has an attempt count its column can hold. *)
Definition claim_ok : Prop :=
  match env_claim env with Ok (Some del) => attempt_ok (d_AttemptCount del) | _ => True end.

Definition claimed : bool := match env_claim env with Ok (Some _) => true | _ => false end.

(** The limiter's part in the calls [l] of a message, from the [n]-th call on:
    after the claim, and only there, the worker waits for a token, as long as
    [RateWaitMax] allows. *)
Definition waited (ch : Channel) (n : nat) (allowed : bool) (l : list (time * event)) : Prop :=
  exists pre claim start polls rest, l = pre ++ claim :: (start, EvNow) :: polls ++ rest /\
    is_claim claim.2 = true /\
    polled env (cfg_RateWaitStep (w_cfg w)) ch (start + cfg_RateWaitMax (w_cfg w))
      (2 + n + length pre) allowed polls /\
    Forall (fun e => is_claim e.2 || is_poll e.2 = false) (pre ++ rest).

Lemma polled_quiet ch deadline step n b l :
  polled env step ch deadline n b l ->
  visible_calls l = [] /\
  Forall (fun e => is_decision e.2 || is_dlq e.2 = false) l.
Proof.
  induction 1 as [| |n t u v r e b l _ _ _ [IHv IHl]];
    (split; [try exact IHv; reflexivity|by repeat (apply Forall_cons; split; [done|])]).
Qed.

Hypothesis Helapse : forall n ev, (0 <= env_elapse env n ev)%Z.
Hypothesis Hstep : (0 < cfg_RateWaitStep (w_cfg w))%Z.

(** The calls of a message: the readings of the clock, the claim, what follows. *)
Definition claim_event (msg : StreamMessage) (t0 : time) : event :=
  EvClaim (dm_DeliveryID (sm_Delivery msg)) (dm_DeliveryCreatedAt (sm_Delivery msg))
    (t0 + cfg_LeaseTTL (w_cfg w)).

Definition plan_claimed (msg : StreamMessage) (del : Delivery) (allowed : bool) (now t : time)
    : list event :=
  if negb allowed then
    [EvMarkRetrying (d_ID del) (d_CreatedAt del) (d_AttemptCount del)
       (now + cfg_RateWaitStep (w_cfg w)) "rate limited"]
  else plan_deliver del msg now t.

Lemma claimed_steps fuel msg del wd :
  attempt_ok (d_AttemptCount del) -> Z.to_nat (cfg_RateWaitMax (w_cfg w) + 1) < fuel ->
  exists allowed start polls rest wd',
    steps (allowed ← waitForRateLimit w fuel (dm_Channel (sm_Delivery msg));
           if negb allowed then requeueWithoutAttempt w del "rate limited"
           else deliver f64_overflow w msg del) wd () (((start, EvNow) :: polls) ++ rest) wd' /\
    polled env (cfg_RateWaitStep (w_cfg w)) (dm_Channel (sm_Delivery msg))
      (start + cfg_RateWaitMax (w_cfg w)) (S (length (log wd))) allowed polls /\
    decided (plan_claimed msg del allowed) rest.
Proof.
  intros Hn Hf.
  destruct (waitForRateLimit_steps Helapse Hstep fuel (dm_Channel (sm_Delivery msg)) wd Hf)
    as (b & start & l & wd1 & H1 & Hp).
  assert (H2 : exists l2 wd2, steps (if negb b then requeueWithoutAttempt w del "rate limited"
    else deliver f64_overflow w msg del) wd1 () l2 wd2 /\ decided (plan_claimed msg del b) l2).
  { destruct b; simpl; [by apply deliver_steps|apply requeue_steps]. }
  destruct H2 as (l2 & wd2 & H2 & Hd). exists b, start, l, l2, wd2.
  split; [exact (steps_bind _ _ _ _ _ _ _ _ _ H1 H2)|done].
Qed.

(** After the claim: the deliveries' part, the acknowledgement and its time. *)
Definition acked (msg : StreamMessage) (l : list (time * event)) : Prop :=
  visible_calls l = [EvAck (sm_Stream msg) (sm_ID msg)] /\
  Forall (fun e => is_claim e.2 || is_poll e.2 || is_decision e.2 || is_dlq e.2 = false) l.

Lemma acked_steps msg wd :
  exists l wd', steps (attempt (Ack (sm_Stream msg) (sm_ID msg)) ≫= fun _ => clock_Now ≫= fun _ =>
    Metrics (ObserveProcessing (dm_Channel (sm_Delivery msg)) (dm_Priority (sm_Delivery msg))))
    wd () l wd' /\ acked msg l.
Proof. call. call. call. split; [done|]. by repeat (apply Forall_cons; split; [done|]). Qed.

Lemma decided_acked msg plan l1 l2 :
  decided plan l1 -> acked msg l2 ->
  decided (fun now t => plan now t ++ [EvAck (sm_Stream msg) (sm_ID msg)]) (l1 ++ l2).
Proof.
  intros [H1 Hp] [Hv H2]. split.
  - apply Forall_app. split; [done|]. eapply Forall_impl; [exact H2|].
    intros e He. simpl in He. by do 2 apply orb_false_elim in He as [He _].
  - intros d d'. rewrite visible_app, Hv. rewrite !reading_before; [by rewrite <- Hp| |];
      (eapply Forall_impl; [exact H2|]; intros e He; simpl in He; by destruct e.2).
Qed.

Lemma process_body_steps fuel msg wd :
  claim_ok -> Z.to_nat (cfg_RateWaitMax (w_cfg w) + 1) < fuel ->
  exists rest wd' allowed,
    steps (process_body f64_overflow w fuel msg) wd ()
      (stamp EvNow 0 wd
         :: stamp (claim_event msg (clk (after EvNow 0 wd))) 0 (after EvNow 0 wd) :: rest) wd' /\
    match env_claim env with
    | Ok (Some del) => exists start polls l, rest = ((start, EvNow) :: polls) ++ l /\
        polled env (cfg_RateWaitStep (w_cfg w)) (dm_Channel (sm_Delivery msg))
          (start + cfg_RateWaitMax (w_cfg w)) (3 + length (log wd)) allowed polls /\
        decided (plan_claimed msg del allowed) l
    | _ => rest = []
    end.
Proof.
  intros Hclaim Hf. unfold process_body, claim_ok in *.
  set (wd1 := after EvNow 0 wd). set (ev := claim_event msg (clk wd1)). set (wd2 := after ev 0 wd1).
  assert (Hc : steps (attempt (ClaimDelivery (dm_DeliveryID (sm_Delivery msg))
    (dm_DeliveryCreatedAt (sm_Delivery msg)) (clk wd1 + cfg_LeaseTTL (w_cfg w))%Z)) wd1 (env_claim env)
    [stamp ev 0 wd1] wd2) by (by apply steps_try with (reply := env_claim env)).
  assert (Hpre : forall k l wd3, steps (k (env_claim env)) wd2 () l wd3 ->
    steps (now ← clock_Now; attempt (ClaimDelivery (dm_DeliveryID (sm_Delivery msg))
      (dm_DeliveryCreatedAt (sm_Delivery msg)) (now + cfg_LeaseTTL (w_cfg w))%Z) ≫= k) wd ()
      (stamp EvNow 0 wd :: stamp ev 0 wd1 :: l) wd3).
  { intros k l wd3 Hk. apply (steps_bind _ _ _ _ [_] _ _ (_ :: l) _ (steps_now wd)).
    exact (steps_bind _ _ _ _ [_] _ _ l _ Hc Hk). }
  destruct (env_claim env) as [[del|]|e].
  2, 3: exists [], wd2, true; split; [apply Hpre, steps_ret|done].
  destruct (claimed_steps fuel msg del wd2 Hclaim Hf) as (b & start & l & l2 & wd3 & H & Hp & Hd).
  exists (((start, EvNow) :: l) ++ l2), wd3, b. split; [by apply Hpre|]. exists start, l, l2.
  split; [done|]. replace (3 + length (log wd)) with (S (length (log wd2))); [done|].
  simpl. rewrite !length_app. simpl. lia.
Qed.

(** The calls of [process]: two readings of the clock, the claim, what the claimed
    delivery needs, and the acknowledgement. *)
Lemma process_steps fuel msg wd :
  claim_ok -> Z.to_nat (cfg_RateWaitMax (w_cfg w) + 1) < fuel ->
  exists new wd' allowed,
    steps (process f64_overflow w fuel msg) wd () new wd' /\
    visible_calls new = plan f64_overflow env w msg (reading is_claim 0 new) allowed
                          (reading is_decision 0 new) (reading is_dlq 0 new) /\
    (claimed = true -> waited (dm_Channel (sm_Delivery msg)) (length (log wd)) allowed new).
Proof.
  intros Hclaim Hf. unfold process. set (wd1 := after EvNow 0 wd).
  destruct (process_body_steps fuel msg wd1 Hclaim Hf) as (rest & wd2 & allowed & H2 & Hr).
  destruct (acked_steps msg wd2) as (tail & wd3 & H3 & Hack).
  set (n1 := stamp EvNow 0 wd1) in *. set (n2 := stamp (claim_event _ _) _ _) in *.
  exists ([stamp EvNow 0 wd] ++ (n1 :: n2 :: rest) ++ tail), wd3, allowed. split_and!.
  - eapply steps_bind; [apply steps_now|]. eapply steps_bind; [exact H2|exact H3].
  - refine (f_equal (cons _) (_ : visible_calls (rest ++ tail) = _)). 
    enough (G : forall d d', visible_calls (rest ++ tail) = match env_claim env with
      | Ok (Some del) => plan_claimed msg del allowed (reading is_decision d (rest ++ tail))
                           (reading is_dlq d' (rest ++ tail))
      | _ => []
      end ++ [EvAck (sm_Stream msg) (sm_ID msg)]) by apply G.
    intros d d'. destruct (env_claim env) as [[del|]|e]; [|subst rest; simpl; by destruct Hack..].
    destruct Hr as (start & l & l2 & -> & Hp & Hd). rewrite <- (assoc_L (++)).
    destruct (polled_quiet _ _ _ _ _ _ Hp) as [Hv Hq].
    rewrite (decided_skip ((start, EvNow) :: l) (l2 ++ tail) _ d d'
      ltac:(by apply Forall_cons) (decided_acked msg _ _ _ Hd Hack)).
    change (visible_calls ((start, EvNow) :: l)) with (visible_calls l). by rewrite Hv.
  - unfold claimed. intros Hc. destruct (env_claim env) as [[del|]|e]; [|done..].
    destruct Hr as (start & l & l2 & -> & Hp & [Hq _]).
    exists [stamp EvNow 0 wd; n1], n2, start, l, (l2 ++ tail). split_and!; [|done| |].
    + simpl. by rewrite <- (assoc_L (++)).
    + assert (2 + length (log wd) + length [stamp EvNow 0 wd; n1] = 3 + length (log wd1)) as ->; [|done].
      simpl. rewrite length_app. simpl. lia.
    + repeat (apply Forall_cons; split; [done|]). apply Forall_app. split; [done|].
      destruct Hack as [_ H]. eapply Forall_impl; [exact H|].
      intros e He. simpl in He. by do 2 apply orb_false_elim in He as [He _].
Qed.
End steps.

(** ** Properties *)

Lemma newWorker_step cfg policy dlq :
  (0 < cfg_RateWaitStep (w_cfg (newWorker cfg policy dlq)))%Z.
Proof.
  simpl. unfold positive_or. destruct (Z.leb_spec (cfg_RateWaitStep cfg) 0); [done|lia].
Qed.

(** C14: in every environment (whatever the ports answer and however long the
    calls take), processing a message terminates without a panic and makes
    exactly the calls of the reference definition [plan]: one claim under a lease
    of [LeaseTTL] from the time the clock showed just before the claim; nothing
    more on a lost claim; a requeue without an attempt when the limiter gives no
    token in time or the breaker is open; otherwise the request's content sent
    once, and one final write decided by the provider's answer and the retry
    policy at the time the clock showed then, metrics and dead letter only after
    that write succeeded; and one acknowledgement, after everything else. Whether a
    token was given in time is what the limiter answered: after the claim, and only
    there, it is asked until it grants one, which ends the wait, or until the clock
    shows more than [RateWaitMax] after the start of the wait; between two refusals
    the worker pauses one [RateWaitStep], or as long as the limiter asked when that
    is shorter. As many polls of the limiter as [RateWaitMax] has nanoseconds, plus
    two, are enough. *)
Theorem process_follows_plan overflow env cfg policy dlq msg wd fuel :
  (forall n ev, (0 <= env_elapse env n ev)%Z) -> claim_ok env ->
  let w := newWorker cfg policy dlq in
  Z.to_nat (cfg_RateWaitMax (w_cfg w) + 1) < fuel ->
  exists wd' new allowed,
    process (ports := env_ports env) overflow w fuel msg wd = (Ok (), wd') /\
    log wd' = log wd ++ new /\
    visible_calls new = plan overflow env w msg (reading is_claim 0 new) allowed
                          (reading is_decision 0 new) (reading is_dlq 0 new) /\
    (claimed env = true ->
     waited env w (dm_Channel (sm_Delivery msg)) (length (log wd)) allowed new).
Proof.
  intros He Hc w Hf.
  destruct (process_steps env overflow w He (newWorker_step cfg policy dlq) fuel msg wd Hc Hf)
    as (new & wd' & allowed & (Hrun & Hlog) & Hvis & Hw).
  by exists wd', new, allowed.
Qed.

(** ** Samples *)

Definition sample_msg : StreamMessage :=
  mkStreamMessage "notifications.high.sms" "1-0" (mkDeliveryMessage 11 100 1 "sms" "high" "c").

Definition sample_claimed : Delivery :=
  mkDelivery 11 1 "sms" "high" DeliveryProcessing 0 None None None (Some 1000%Z) None 100 100.

Definition sample_loaded : Request :=
  mkRequest 1 "alice" None "+90" "sms" "high" None "hi" None RequestPending 100.

(** The limiter denies twice, then grants; the provider rejects for good. *)
Definition sample_env : Env := mkEnv (fun _ _ => 1%Z)
  (fun n => if Nat.ltb n 8 then (false, 0%Z, None) else (true, 0%Z, None))
  (Ok (Some sample_claimed)) (Ok sample_loaded)
  (Err (EProviderError true 400 None false (Some (ELib "rejected")))) (Ok ()) (Ok ()) (Ok ())
  (f64_of_int 0) (fun _ => "00000000-0000-0000-0000-00000000000b").

Definition sample_config : Config :=
  mkConfig AllPriorities AllChannels 0 "c1" 0 1000 0 100 10.

Lemma process_follows_plan_witness :
  exists wd' new allowed,
    process (ports := env_ports sample_env) (fun _ => 0%Z)
      (newWorker sample_config sample_policy true) 102 sample_msg (mkWorld 0 []) = (Ok (), wd') /\
    log wd' = [] ++ new /\
    visible_calls new = plan (fun _ => 0%Z) sample_env
      (newWorker sample_config sample_policy true) sample_msg (reading is_claim 0 new) allowed
      (reading is_decision 0 new) (reading is_dlq 0 new) /\
    waited sample_env (newWorker sample_config sample_policy true) "sms" 0 allowed new.
Proof.
  destruct (process_follows_plan (fun _ => 0%Z) sample_env sample_config sample_policy true
    sample_msg (mkWorld 0 []) 102) as (wd' & new & allowed & H1 & H2 & H3 & H4).
  - intros n ev. simpl. lia.
  - split; vm_compute; congruence.
  - vm_compute. lia.
  - exists wd', new, allowed. split; [exact H1|]. split; [exact H2|].
    split; [exact H3|]. apply H4. reflexivity.
Defined.

(** The visible calls of that run, evaluated. *)
Example sample_run :
  visible_calls (log (snd (process (ports := env_ports sample_env) (fun _ => 0%Z)
    (newWorker sample_config sample_policy true) 102 sample_msg (mkWorld 0 []))))
  = [EvClaim 11 100 1002; EvGetRequest 1;
     EvSend (mkProviderRequest "00000000-0000-0000-0000-00000000000b" "+90" "sms" "hi");
     EvMarkFailed 11 100 1 1 "rejected"; EvMetric (IncFailed "sms" "high");
     EvDLQ (mkDLQMessage (sm_Delivery sample_msg) "exhausted_retries" "rejected" 1
              "notifications.high.sms" "1-0" 39);
     EvMetric (IncDLQ "exhausted_retries"); EvAck "notifications.high.sms" "1-0"].
Proof. vm_compute. reflexivity. Qed.
