(* ===== verification/WorkerTime.v ===== *)
(** * Time: the lease of a claim against the work done under it

    The final write of a delivery must come before its lease runs out, or the
    reaper hands the row to another worker. This file bounds the time a message
    takes from its claim, states the condition on the configuration that keeps
    the writes inside the lease, and shows that the condition [Config.validate]
    checks does not. *)

From S2P Require Import Prelude GoStrings GoFloat Domain AppConfig Retry Worker WorkerSpec.

Local Open Scope string_scope.
Local Open Scope list_scope.

(** ** The worker's configuration (cmd/worker/main.go) *)

(** The configuration the worker process is started with. Integer division
    truncates. *)
Definition worker_config (c : AppConfig) : Config :=
  let wk := ac_Worker c in
  mkConfig (wc_Priorities wk) AllChannels (wc_Concurrency wk) (wc_Consumer wk) (wc_BatchSize wk)
    (wc_LeaseTTL wk) (wc_BlockTime wk) (Z.quot (wc_LeaseTTL wk) 2)
    (lc_WaitInterval (ac_RateLimiter c)).

(** ** Timed runs *)

Section timed.
Context (env : Env) (w : Worker) (delta timeout : duration).
Hypothesis Hdelta : (0 <= delta)%Z.
Hypothesis Htimeout : (0 <= timeout)%Z.

(** No call takes longer than [delta], the provider's than [timeout]. *)
Definition slow (ev : event) : duration :=
  match ev with EvSend _ => timeout | _ => delta end.
Hypothesis Helapse : forall n ev, (0 <= env_elapse env n ev <= slow ev)%Z.
Hypothesis Hstep : (0 < cfg_RateWaitStep (w_cfg w))%Z.
Hypothesis Hmax : (0 <= cfg_RateWaitMax (w_cfg w))%Z.
#[local] Instance ports_timed : Ports World := env_ports env.

(** [m] ends at most [b] after it starts (or not at all), and makes no call that
    returns later. *)
Definition within {A} (m : eff World error A) (b : duration) : Prop :=
  forall wd r wd', m wd = (r, wd') -> (clk wd' <= clk wd + b)%Z /\
    exists new, log wd' = log wd ++ new /\
      Forall (fun e => fst e <= clk wd + b)%Z new.

Lemma within_bind {A B} (m : eff World error A) (k : A -> eff World error B) b1 b2 :
  (0 <= b2)%Z -> within m b1 -> (forall a, within (k a) b2) -> within (m ≫= k) (b1 + b2).
Proof.
  intros Hb Hm Hk wd r wd' H. unfold mbind, eff_bind in H.
  destruct (m wd) as [[a|e] wd1] eqn:E; apply Hm in E as (C1 & n1 & L1 & F1).
  - apply Hk in H as (C2 & n2 & L2 & F2). split; [lia|]. exists (n1 ++ n2).
    rewrite L2, L1, app_assoc. split; [done|]. apply Forall_app. split.
    + eapply Forall_impl; [exact F1|]. intros x ?. simpl in *. lia.
    + eapply Forall_impl; [exact F2|]. intros x ?. simpl in *. lia.
  - simplify_eq. split; [lia|]. exists n1. split; [done|].
    eapply Forall_impl; [exact F1|]. intros x ?. simpl in *. lia.
Qed.

Lemma within_le {A} (m : eff World error A) b b' : (b <= b')%Z -> within m b -> within m b'.
Proof.
  intros Hb Hm wd r wd' H. apply Hm in H as (C & n & L & F). split; [lia|].
  exists n. split; [done|]. eapply Forall_impl; [exact F|]. intros x ?. simpl in *. lia.
Qed.

Lemma within_ret {A} (a : A) : within (mret a) 0.
Proof.
  intros wd r wd' H. unfold mret, eff_ret in H. simplify_eq. split; [lia|].
  exists []. by rewrite app_nil_r.
Qed.

Lemma within_raise {A} e : within (raise e : eff World error A) 0.
Proof.
  intros wd r wd' H. unfold raise in H. simplify_eq. split; [lia|].
  exists []. by rewrite app_nil_r.
Qed.

Lemma within_port {A} ev (reply : nat -> result error A) : within (port env ev reply 0) (slow ev).
Proof.
  intros wd r wd' H. unfold port in H. simplify_eq. simpl.
  pose proof (Helapse (length (log wd)) ev). split; [lia|].
  eexists. split; [done|]. apply Forall_singleton. simpl. lia.
Qed.

Lemma within_attempt {A} (m : eff World error A) b : within m b -> within (attempt m) b.
Proof.
  intros Hm wd r wd' H. unfold attempt in H. destruct (m wd) as [x w1] eqn:E. simplify_eq.
  by apply Hm in E.
Qed.

Lemma within_now : within clock_Now delta.
Proof.
  intros wd r wd' H. simpl in H. simplify_eq.
  exact (within_port EvNow (fun _ => Ok ()) wd (Ok ()) _ eq_refl).
Qed.

Lemma within_metric m : within (Metrics m) delta.
Proof. exact (within_port (EvMetric m) (fun _ => Ok ())). Qed.

(** The limiter's loop is over, and its calls have returned, by the deadline
    plus one step and three calls. *)
Lemma wait_loop_time fuel deadline ch wd r wd' :
  (clk wd <= deadline + cfg_RateWaitStep (w_cfg w) + delta)%Z ->
  wait_loop w fuel deadline ch wd = (r, wd') ->
  (clk wd' <= deadline + cfg_RateWaitStep (w_cfg w) + 3 * delta)%Z /\
  exists new, log wd' = log wd ++ new /\ Forall (fun e => visible (snd e) = false) new.
Proof.
  revert wd. induction fuel as [|fuel IH]; intros wd Hclk H; simpl in H.
  { unfold out_of_fuel, raise in H. simplify_eq. split; [lia|]. exists [].
    by rewrite app_nil_r. }
  unfold mbind, eff_bind, port in H.
  pose proof (Helapse (length (log wd)) (EvAllow ch)) as H1. simpl in H1.
  set (t1 := (clk wd + 0 + env_elapse env (length (log wd)) (EvAllow ch))%Z) in *.
  destruct (env_allow env (length (log wd))) as [[allowed ra] err].
  destruct allowed.
  { unfold mret, eff_ret in H. simplify_eq. simpl. split; [lia|]. eexists. split; [done|].
    by apply Forall_singleton. }
  simpl in H. set (wd1 := mkWorld t1 (log wd ++ [(t1, EvAllow ch)])) in *.
  set (n2 := length (log wd ++ [(t1, EvAllow ch)])) in *.
  pose proof (Helapse n2 EvNow) as H2. simpl in H2.
  set (t2 := (t1 + 0 + env_elapse env n2 EvNow)%Z) in *.
  destruct (t2 >? deadline)%Z eqn:Ed.
  { unfold mret, eff_ret in H. simplify_eq. simpl. split; [lia|].
    exists [(t1, EvAllow ch); (t2, EvNow)]. rewrite <- app_assoc. split; [done|].
    by repeat constructor. }
  rewrite Z.gtb_ltb in Ed. apply Z.ltb_ge in Ed.
  set (wait := if ((ra >? 0) && (ra <? cfg_RateWaitStep (w_cfg w)))%Z then ra
               else cfg_RateWaitStep (w_cfg w)) in *.
  assert (Hw : (wait <= cfg_RateWaitStep (w_cfg w))%Z).
  { unfold wait. destruct (ra >? 0)%Z; simpl; [|lia].
    destruct (Z.ltb_spec ra (cfg_RateWaitStep (w_cfg w))); lia. }
  match type of H with context [env_elapse env ?n (EvSleep wait)] =>
    pose proof (Helapse n (EvSleep wait)) as H3 end. simpl in H3.
  apply IH in H as (Hc & new & L & F).
  - split; [done|]. simpl in L.
    eexists ([(t1, EvAllow ch); (t2, EvNow)] ++ [_] ++ new). rewrite L, <- !app_assoc.
    split; [done|]. repeat (apply Forall_cons; split; [done|]). done.
  - simpl. lia.
Qed.

Lemma waitForRateLimit_time fuel ch wd r wd' :
  waitForRateLimit w fuel ch wd = (r, wd') ->
  (clk wd' <= clk wd + (cfg_RateWaitMax (w_cfg w) + cfg_RateWaitStep (w_cfg w) + 4 * delta))%Z /\
  exists new, log wd' = log wd ++ new /\ Forall (fun e => visible (snd e) = false) new.
Proof.
  intros H. unfold waitForRateLimit, mbind, eff_bind in H. simpl in H.
  pose proof (Helapse (length (log wd)) EvNow) as H1. simpl in H1.
  apply wait_loop_time in H as (Hc & new & L & F); simpl in *; [|lia]. split; [lia|].
  eexists (_ :: new). rewrite L, <- app_assoc. split; [done|]. by apply Forall_cons.
Qed.

(** The calls that must come before the lease ends. *)
Definition final (ev : event) : bool :=
  match ev with
  | EvSend _ | EvMarkSent _ _ _ _ | EvMarkRetrying _ _ _ _ _ | EvMarkFailed _ _ _ _ _ => true
  | _ => false
  end.

Lemma final_visible ev : final ev = true -> visible ev = true.
Proof. by destruct ev. Qed.

(** Every final call of [m] returns at most [b] after [m] starts. *)
Definition finals_within {A} (m : eff World error A) (b : duration) : Prop :=
  forall wd r wd', m wd = (r, wd') -> exists new, log wd' = log wd ++ new /\
    Forall (fun e => final (snd e) = true -> fst e <= clk wd + b)%Z new.

Definition no_finals {A} (m : eff World error A) : Prop :=
  forall wd r wd', m wd = (r, wd') -> exists new, log wd' = log wd ++ new /\
    Forall (fun e => final (snd e) = false) new.

Lemma finals_of_within {A} (m : eff World error A) b : within m b -> finals_within m b.
Proof.
  intros Hm wd r wd' H. apply Hm in H as (_ & n & L & F). exists n. split; [done|].
  eapply Forall_impl; [exact F|]. by intros x ? _.
Qed.

Lemma finals_le {A} (m : eff World error A) b b' :
  (b <= b')%Z -> finals_within m b -> finals_within m b'.
Proof.
  intros Hb Hm wd r wd' H. apply Hm in H as (n & L & F). exists n. split; [done|].
  eapply Forall_impl; [exact F|]. intros x Hx Hf. specialize (Hx Hf). lia.
Qed.

(** A timed step, then a part whose final calls are bounded. *)
Lemma finals_step {A B} (m : eff World error A) (k : A -> eff World error B) b1 b2 :
  (0 <= b2)%Z -> within m b1 -> (forall a, finals_within (k a) b2) ->
  finals_within (m ≫= k) (b1 + b2).
Proof.
  intros Hb Hm Hk wd r wd' H. unfold mbind, eff_bind in H.
  destruct (m wd) as [[a|e] wd1] eqn:E; apply Hm in E as (C1 & n1 & L1 & F1).
  - apply Hk in H as (n2 & L2 & F2). exists (n1 ++ n2). rewrite L2, L1, app_assoc.
    split; [done|]. apply Forall_app. split.
    + eapply Forall_impl; [exact F1|]. intros x ? _. simpl in *. lia.
    + eapply Forall_impl; [exact F2|]. intros x Hx Hf. specialize (Hx Hf). lia.
  - simplify_eq. exists n1. split; [done|].
    eapply Forall_impl; [exact F1|]. intros x ? _. simpl in *. lia.
Qed.

(** Nothing final after the bounded part. *)
Lemma finals_then {A B} (m : eff World error A) (k : A -> eff World error B) b :
  finals_within m b -> (forall a, no_finals (k a)) -> finals_within (m ≫= k) b.
Proof.
  intros Hm Hk wd r wd' H. unfold mbind, eff_bind in H.
  destruct (m wd) as [[a|e] wd1] eqn:E; apply Hm in E as (n1 & L1 & F1).
  - apply Hk in H as (n2 & L2 & F2). exists (n1 ++ n2). rewrite L2, L1, app_assoc.
    split; [done|]. apply Forall_app. split; [done|].
    eapply Forall_impl; [exact F2|]. intros x Hx Hf. congruence.
  - simplify_eq. by exists n1.
Qed.

Lemma no_finals_bind {A B} (m : eff World error A) (k : A -> eff World error B) :
  no_finals m -> (forall a, no_finals (k a)) -> no_finals (m ≫= k).
Proof.
  intros Hm Hk wd r wd' H. unfold mbind, eff_bind in H.
  destruct (m wd) as [[a|e] wd1] eqn:E; apply Hm in E as (n1 & L1 & F1).
  - apply Hk in H as (n2 & L2 & F2). exists (n1 ++ n2). rewrite L2, L1, app_assoc.
    split; [done|]. by apply Forall_app.
  - simplify_eq. by exists n1.
Qed.

Lemma no_finals_ret {A} (a : A) : no_finals (mret a).
Proof.
  intros wd r wd' H. unfold mret, eff_ret in H. simplify_eq. exists [].
  by rewrite app_nil_r.
Qed.

Lemma no_finals_port {A} ev (reply : nat -> result error A) sleep :
  final ev = false -> no_finals (port env ev reply sleep).
Proof.
  intros Hf wd r wd' H. unfold port in H. simplify_eq. eexists. split; [done|].
  by apply Forall_singleton.
Qed.

Lemma no_finals_attempt {A} (m : eff World error A) : no_finals m -> no_finals (attempt m).
Proof.
  intros Hm wd r wd' H. unfold attempt in H. destruct (m wd) eqn:E. simplify_eq. by eapply Hm.
Qed.

Lemma no_finals_now : no_finals clock_Now.
Proof.
  intros wd r wd' H. simpl in H. simplify_eq. eexists. split; [done|].
  by apply Forall_singleton.
Qed.

Lemma no_finals_metric m : no_finals (Metrics m).
Proof. by apply (no_finals_port (EvMetric m) (fun _ => Ok ()) 0). Qed.

(** ** The bound of the pipeline *)

Context (f64_overflow : float64 -> Z).

Lemma finals_mark (m : eff World error ()) ev (k : result error () -> eff World error ()) b :
  m = port env ev (fun _ => env_mark env) 0 -> slow ev = delta -> (delta <= b)%Z ->
  (forall r, no_finals (k r)) -> finals_within (attempt m ≫= k) b.
Proof.
  intros -> Hs Hb Hk. apply finals_then; [|done]. apply (finals_le _ delta); [done|].
  apply finals_of_within, within_attempt. rewrite <- Hs. apply within_port.
Qed.

Lemma finals_requeue del reason : finals_within (requeueWithoutAttempt w del reason) (2 * delta).
Proof.
  unfold requeueWithoutAttempt. apply (finals_le _ (delta + delta)); [lia|].
  apply finals_step; [done|apply within_now|]. intros now.
  eapply finals_mark; [reflexivity|done|lia|]. intros r. apply no_finals_ret.
Qed.

Lemma no_finals_dlq msg n err : no_finals (publishDLQ w msg n err).
Proof.
  unfold publishDLQ. destruct (negb (w_dlq w)); [apply no_finals_ret|].
  apply no_finals_bind; [apply no_finals_now|]. intros t. apply no_finals_bind.
  - apply no_finals_attempt. by apply (no_finals_port (EvDLQ _) (fun _ => env_dlq env) 0).
  - intros [[]|e]; [apply no_finals_metric|apply no_finals_ret].
Qed.

Lemma finals_handleFailure del msg e :
  finals_within (handleFailure f64_overflow w del msg e) (4 * delta).
Proof.
  unfold handleFailure. destruct (match errors_As_Provider e with Some p => _ | None => _ end).
  { apply (finals_le _ (2 * delta)); [lia|]. apply finals_requeue. }
  apply (finals_le _ (delta + (delta + 2 * delta))); [lia|].
  apply finals_step; [lia|apply within_now|]. intros now.
  apply finals_step; [lia|exact (within_port EvDraw (fun _ => Ok (env_draw env)))|]. intros dr.
  assert (Hretry : forall n next, finals_within
    (attempt (MarkRetrying (d_ID del) (d_CreatedAt del) n next (Error e)) ≫= fun r =>
     match r with Err _ => mret ()
             | Ok _ => Metrics (IncRetry (d_Channel del) (d_Priority del)) end) delta).
  { intros n next. eapply finals_mark; [reflexivity|done|lia|].
    intros [[]|?]; [apply no_finals_metric|apply no_finals_ret]. }
  destruct (EvaluateFailure _ _ _ _ _ _) as [oc|].
  2: { apply finals_of_within, (within_le _ 0); [lia|]. apply within_raise. }
  destruct (oc_Status oc);
    try (apply (finals_le _ (delta + delta)); [lia|]; apply finals_step; [done|apply within_now|];
         intros now2; apply Hretry).
  eapply finals_mark; [reflexivity|done|lia|]. intros [[]|?]; [|apply no_finals_ret].
  apply no_finals_bind; [apply no_finals_metric|]. intros _. apply no_finals_dlq.
Qed.

Lemma within_send del recipient content :
  within (send del recipient content) (timeout + delta).
Proof.
  unfold send. apply within_bind; [done| |].
  - apply within_attempt. exact (within_port (EvSend _) (fun _ => env_send env)).
  - intros res. apply (within_le _ (delta + 0)); [lia|].
    apply within_bind; [lia|apply within_metric|]. intros _. apply within_ret.
Qed.

(** From the claim on: [LeaseTTL] is counted from the start of this part. *)
Definition pipeline_bound : duration :=
  (cfg_RateWaitMax (w_cfg w) + cfg_RateWaitStep (w_cfg w) + timeout + 11 * delta)%Z.

Lemma finals_deliver msg del : finals_within (deliver f64_overflow w msg del) (timeout + 6 * delta).
Proof.
  unfold deliver. apply (finals_le _ (delta + (timeout + delta + 4 * delta))); [lia|].
  apply finals_step; [lia| |].
  { apply within_attempt. exact (within_port (EvGetRequest _) (fun _ => env_request env)). }
  intros [req|e]; [|apply finals_of_within, (within_le _ 0); [lia|apply within_ret]].
  apply finals_step; [lia|apply within_send|]. intros [res|e]; [|apply finals_handleFailure].
  eapply finals_mark; [reflexivity|done|lia|]. intros [[]|?]; [|apply no_finals_ret].
  apply no_finals_bind; [apply no_finals_metric|]. intros _.
  apply no_finals_bind; [apply no_finals_now|]. intros _. apply no_finals_metric.
Qed.

(** The wait is bounded in time but not by [within]: its sleeps are calls. *)
Lemma finals_wait {B} fuel ch (k : bool -> eff World error B) b :
  (0 <= b)%Z -> (forall a, finals_within (k a) b) ->
  finals_within (waitForRateLimit w fuel ch ≫= k)
    (cfg_RateWaitMax (w_cfg w) + cfg_RateWaitStep (w_cfg w) + 4 * delta + b).
Proof.
  intros Hb Hk wd r wd' H. unfold mbind, eff_bind in H.
  destruct (waitForRateLimit w fuel ch wd) as [[a|e] wd1] eqn:E;
    apply waitForRateLimit_time in E as (C1 & n1 & L1 & F1).
  - apply Hk in H as (n2 & L2 & F2). exists (n1 ++ n2). rewrite L2, L1, app_assoc.
    split; [done|]. apply Forall_app. split.
    + eapply Forall_impl; [exact F1|]. intros x Hx Hf. pose proof (final_visible _ Hf). simpl in *. congruence.
    + eapply Forall_impl; [exact F2|]. intros x Hx Hf. specialize (Hx Hf). lia.
  - simplify_eq. exists n1. split; [done|]. eapply Forall_impl; [exact F1|].
    intros x Hx Hf. pose proof (final_visible _ Hf). simpl in *. congruence.
Qed.

Definition after_claim (fuel : nat) (msg : StreamMessage) (claim : result error (option Delivery))
    : eff World error () :=
  match claim with
  | Err _ | Ok None => mret ()
  | Ok (Some del) =>
      allowed ← waitForRateLimit w fuel (dm_Channel (sm_Delivery msg));
      if negb allowed then requeueWithoutAttempt w del "rate limited"
      else deliver f64_overflow w msg del
  end.

Definition acknowledge (msg : StreamMessage) : eff World error () :=
  attempt (Ack (sm_Stream msg) (sm_ID msg)) ≫= fun _ =>
  clock_Now ≫= fun _ =>
  Metrics (ObserveProcessing (dm_Channel (sm_Delivery msg)) (dm_Priority (sm_Delivery msg))).

Lemma finals_after_claim fuel msg claim :
  finals_within (after_claim fuel msg claim ≫= fun _ => acknowledge msg) (pipeline_bound - delta).
Proof.
  assert (H0 : finals_within (mret () : eff World error ()) (pipeline_bound - delta)).
  { apply finals_of_within, (within_le _ 0); [unfold pipeline_bound; lia|apply within_ret]. }
  apply finals_then.
  2: { intros _. apply no_finals_bind.
       - by apply no_finals_attempt, (no_finals_port (EvAck _ _) (fun _ => env_ack env) 0).
       - intros _. apply no_finals_bind; [apply no_finals_now|]. intros _. apply no_finals_metric. }
  unfold after_claim. destruct claim as [[del|]|e]; [|exact H0|exact H0].
  unfold pipeline_bound.
  apply (finals_le _ (cfg_RateWaitMax (w_cfg w) + cfg_RateWaitStep (w_cfg w) + 4 * delta
                      + (timeout + 6 * delta))); [lia|].
  apply finals_wait; [lia|]. intros [|]; simpl negb; cbv iota.
  - apply finals_deliver.
  - apply (finals_le _ (2 * delta)); [lia|]. apply finals_requeue.
Qed.

(** [process] reads the clock at [t0], claims until [t0 + LeaseTTL], and its
    final calls return at most [pipeline_bound] after [t0]. *)
Lemma process_time fuel msg wd r wd' :
  process f64_overflow w fuel msg wd = (r, wd') ->
  exists pre t0 tc rest,
    log wd' = log wd ++ pre
      ++ (tc, EvClaim (dm_DeliveryID (sm_Delivery msg)) (dm_DeliveryCreatedAt (sm_Delivery msg))
                (t0 + cfg_LeaseTTL (w_cfg w))) :: rest /\
    Forall (fun e => final (snd e) = false) pre /\
    Forall (fun e => final (snd e) = true -> fst e <= t0 + pipeline_bound)%Z rest.
Proof.
  intros H. unfold process, process_body in H. set (dm := sm_Delivery msg) in *.
  assert (Hnow : forall wd, clock_Now wd = (Ok (clk (snd (tell env EvNow wd))),
    mkWorld (clk (snd (tell env EvNow wd))) (log wd ++ [(clk (snd (tell env EvNow wd)), EvNow)])))
    by done.
  unfold mbind at 1, eff_bind at 1 in H. rewrite Hnow in H.
  set (wd1 := mkWorld _ _) in H.
  unfold mbind at 1, eff_bind at 1 in H. unfold mbind at 1, eff_bind at 1 in H.
  rewrite Hnow in H. set (t0 := clk (snd (tell env EvNow wd1))) in H.
  set (wd2 := mkWorld t0 _) in H.
  unfold mbind at 1, eff_bind at 1 in H. unfold attempt at 1 in H.
  simpl ClaimDelivery in H. unfold port at 1 in H. cbv zeta in H.
  set (lease := (t0 + cfg_LeaseTTL (w_cfg w))%Z) in *.
  set (ev := EvClaim (dm_DeliveryID dm) (dm_DeliveryCreatedAt dm) lease) in *.
  set (tc := (clk wd2 + 0 + env_elapse env (length (log wd2)) ev)%Z) in *.
  set (wd3 := mkWorld tc (log wd2 ++ [(tc, ev)])) in *.
  assert (Htc : (tc <= t0 + delta)%Z) by (pose proof (Helapse (length (log wd2)) ev); simpl in *; lia).
  enough (Hrest : exists rest, log wd' = log wd3 ++ rest /\
    Forall (fun e => final (snd e) = true -> fst e <= t0 + pipeline_bound)%Z rest).
  { destruct Hrest as (rest & -> & F).
    exists [(clk wd1, EvNow); (t0, EvNow)], t0, tc, rest. split_and!; [|by repeat constructor|done].
    simpl. by rewrite <- !app_assoc. }
  destruct (finals_after_claim fuel msg (env_claim env) wd3 r wd' H) as (rest & L & F).
  exists rest. split; [done|]. eapply Forall_impl; [exact F|].
  intros x Hx Hf. specialize (Hx Hf). change (clk wd3) with tc in Hx. lia.
Qed.
End timed.

(** ** Properties *)

Lemma newWorker_max cfg policy dlq :
  (0 <= cfg_RateWaitMax (w_cfg (newWorker cfg policy dlq)))%Z.
Proof.
  simpl. unfold positive_or. destruct (Z.leb_spec (cfg_RateWaitMax cfg) 0); [vm_compute; congruence|lia].
Qed.

(** A configuration [Load] accepts: a two minute lease, a provider that may take
    119 seconds, a 30 second wait step. *)
Definition tight_environ (key : string) : option string :=
  if String.eqb key "PROVIDER_TIMEOUT" then Some "119s"
  else if String.eqb key "RATE_LIMIT_WAIT_INTERVAL" then Some "30s" else None.

Definition tight_config : AppConfig := read_config tight_environ (Ok "c1").

(** The limiter is busy for 90 seconds; the provider takes its 119; nothing else
    takes any time. *)
Definition tight_env : Env := mkEnv
  (fun _ ev => match ev with EvSend _ => (119 * Second)%Z | _ => 0%Z end)
  (fun n => if Nat.ltb n 11 then (false, 0%Z, None) else (true, 0%Z, None))
  (Ok (Some sample_claimed)) (Ok sample_loaded) (Ok (mkProviderResult "m1" "accepted" 0))
  (Ok ()) (Ok ()) (Ok ()) (f64_of_int 0) (fun _ => "00000000-0000-0000-0000-00000000000b").

(** C35: the lease. If no call but the provider's takes longer than [delta] and
    the provider's no longer than its timeout, and the timeout plus the longest
    wait for a token (half the lease) plus one wait step plus eleven [delta] is
    less than the lease, then every provider call and every final write of a
    message returns strictly before the lease its claim took runs out. The
    condition [Config.validate] checks, a lease longer than the provider's
    timeout, is not enough: a configuration [Load] accepts sends and writes the
    outcome 89 seconds after the lease is over, when the reaper may long have
    handed the delivery to another worker. *)
Theorem lease_window :
  (forall overflow env c policy dlq msg wd fuel r wd' delta,
     let w := newWorker (worker_config c) policy dlq in
     (0 <= delta)%Z -> (0 <= pc_Timeout (ac_Provider c))%Z ->
     (forall n ev, 0 <= env_elapse env n ev <= slow delta (pc_Timeout (ac_Provider c)) ev)%Z ->
     (pc_Timeout (ac_Provider c) + cfg_RateWaitMax (w_cfg w) + cfg_RateWaitStep (w_cfg w)
      + 11 * delta < wc_LeaseTTL (ac_Worker c))%Z ->
     process (ports := env_ports env) overflow w fuel msg wd = (r, wd') ->
     exists pre tc lease rest,
       log wd' = log wd ++ pre
         ++ (tc, EvClaim (dm_DeliveryID (sm_Delivery msg))
                   (dm_DeliveryCreatedAt (sm_Delivery msg)) lease) :: rest /\
       Forall (fun e => final (snd e) = false) pre /\
       Forall (fun e => final (snd e) = true -> fst e < lease)%Z rest) /\
  (Load tight_environ (Ok "c1") = Ok tight_config /\
   forall n ev, (0 <= env_elapse tight_env n ev <= slow 0 (pc_Timeout (ac_Provider tight_config)) ev)%Z) /\
  (let wd' := snd (process (ports := env_ports tight_env) (fun _ => 0%Z)
                     (newWorker (worker_config tight_config) sample_policy false) 10 sample_msg
                     (mkWorld 0 [])) in
   exists i j t t', log wd' !! i = Some (t, EvClaim 11 100 (120 * Second)) /\
     log wd' !! j = Some (t', EvMarkSent 11 100 1 "m1") /\ t' = (209 * Second)%Z).
Proof.
  split_and!.
  - intros overflow env c policy dlq msg wd fuel r wd' delta w Hd Ht He Hlt H.
    destruct (process_time env w delta (pc_Timeout (ac_Provider c)) Hd Ht He
      (newWorker_step (worker_config c) policy dlq) (newWorker_max (worker_config c) policy dlq)
      overflow fuel msg wd r wd' H)
      as (pre & t0 & tc & rest & L & F1 & F2).
    exists pre, tc, (t0 + cfg_LeaseTTL (w_cfg w))%Z, rest. split_and!; [done|done|].
    eapply Forall_impl; [exact F2|]. intros e He' Hf. specialize (He' Hf).
    change (cfg_LeaseTTL (w_cfg w)) with (wc_LeaseTTL (ac_Worker c)). unfold pipeline_bound in He'. lia.
  - done.
  - intros n ev. by destruct ev.
  - exists 2, 17. eexists _, _. split_and!; vm_compute; reflexivity.
Qed.
