(* ===== verification/WorkerTrace.v ===== *)
(** * A worker goroutine, one call at a time

    [process] runs to its end against ports that answer at once. Here it runs
    against a script of answers and stops at the first call the script does not
    answer: [pending] is the call a goroutine is waiting in after the answers it got
    so far, so a message and a list of answers are the state of a goroutine, and the
    code that decides the next call is [process] itself. [process_walks] shows that
    every such run follows the phases of a delivery: one claim, one load, one send of
    the request's content, one final write of the claimed row, one acknowledgement,
    in this order. *)

From S2P Require Import Prelude GoStrings GoFloat Domain Retry Store Worker WorkerSpec.

Local Open Scope string_scope.
Local Open Scope list_scope.

(** ** Scripts *)

Inductive answer :=
| AnTime (t : time)
| AnUnit (r : result error ())
| AnDraw (x : float64)
| AnAllow (a : bool * duration * option error)
| AnClaim (r : result error (option Delivery))
| AnRequest (r : result error Request)
| AnSend (r : result error ProviderResult).

(** The answers to come, the calls answered so far, and the call that waits. *)
Record Script := mkScript {
  sc_answers : list answer;
  sc_made : list (event * answer);
  sc_blocked : option event
}.

Definition suspended : error := ELib "suspended".

(** One call: the next answer, if it is one to this call. *)
Definition ask {A} (ev : event) (read : answer -> option (result error A)) : eff Script error A :=
  fun s =>
  match sc_blocked s with
  | Some _ => (Err suspended, s)
  | None =>
      match sc_answers s with
      | [] => (Err suspended, mkScript [] (sc_made s) (Some ev))
      | a :: rest =>
          match read a with
          | Some r => (r, mkScript rest (sc_made s ++ [(ev, a)]) None)
          | None => (Err suspended, mkScript (a :: rest) (sc_made s) (Some ev))
          end
      end
  end.

Definition read_time a := match a with AnTime t => Some (Ok t) | _ => None end : option (result error time).
Definition read_unit a := match a with AnUnit r => Some r | _ => None end.
Definition read_draw a := match a with AnDraw x => Some (Ok x) | _ => None end : option (result error float64).
Definition read_allow a := match a with AnAllow x => Some (Ok x) | _ => None end
  : option (result error (bool * duration * option error)).
Definition read_claim a := match a with AnClaim r => Some r | _ => None end.
Definition read_request a := match a with AnRequest r => Some r | _ => None end.
Definition read_send a := match a with AnSend r => Some r | _ => None end.

Section trace.
Context (overflow : float64 -> Z) (text : uuid -> string) (w : Worker) (fuel : nat).

#[local] Instance script_ports : Ports Script := {
  clock_Now := ask EvNow read_time;
  Sleep d := ask (EvSleep d) read_unit;
  draw := ask EvDraw read_draw;
  Allow c := ask (EvAllow c) read_allow;
  ClaimDelivery id at_ lease := ask (EvClaim id at_ lease) read_claim;
  GetRequestByID id := ask (EvGetRequest id) read_request;
  Send r := ask (EvSend r) read_send;
  MarkSent id at_ rid m := ask (EvMarkSent id at_ rid m) read_unit;
  MarkRetrying id at_ n next err := ask (EvMarkRetrying id at_ n next err) read_unit;
  MarkFailed id at_ rid n err := ask (EvMarkFailed id at_ rid n err) read_unit;
  Ack stream id := ask (EvAck stream id) read_unit;
  DLQ_Publish m := ask (EvDLQ m) read_unit;
  Metrics m := ask (EvMetric m) read_unit;
  uuid_String := text
}.

(** ** Goroutines *)

Definition run_script (msg : StreamMessage) (answers : list answer) : result error () * Script :=
  process overflow w fuel msg (mkScript answers [] None).

(** The call the goroutine waits in; [None] when [process] has returned. *)
Definition pending (msg : StreamMessage) (answers : list answer) : option event :=
  sc_blocked (snd (run_script msg answers)).

Definition calls_made (msg : StreamMessage) (answers : list answer) : list (event * answer) :=
  sc_made (snd (run_script msg answers)).

(** ** Phases *)

(** Before the claim; holding a claimed row; with its request; after the provider's
    answer; after the final write, or the failure of a call before it; after the
    acknowledgement. *)
Inductive phase :=
| PhStart
| PhHolding (x : Delivery)
| PhReady (x : Delivery) (q : Request)
| PhAnswered (x : Delivery) (q : Request) (r : result error ProviderResult)
| PhDone
| PhAcked.

(** The key in the tables of the delivery a message names. *)
Definition msg_key (msg : StreamMessage) : uuid * time :=
  (dm_DeliveryID (sm_Delivery msg), timestamptz (dm_DeliveryCreatedAt (sm_Delivery msg))).

(** The retry policy's verdict on a failure is to try again, or to give up, with
    attempt count [n]. *)
Definition evaluates (again : bool) (x : Delivery) (e : error) (n : Z) : Prop :=
  breaker_open e = false /\ exists dr now oc,
    EvaluateFailure overflow (w_policy w) dr now (d_AttemptCount x) (errors_As_Provider e) = Some oc /\
    bool_decide (oc_Status oc = DeliveryFailed) = negb again /\ n = oc_AttemptCount oc.

(** The calls a phase allows, with their arguments. *)
Definition may (msg : StreamMessage) (p : phase) (ev : event) : Prop :=
  match ev, p with
  | (EvNow | EvSleep _ | EvDraw | EvMetric _), _ => True
  | EvAllow c, PhHolding _ => c = dm_Channel (sm_Delivery msg)
  | EvClaim id at_ _, PhStart =>
      id = dm_DeliveryID (sm_Delivery msg) /\ at_ = dm_DeliveryCreatedAt (sm_Delivery msg)
  | EvGetRequest rid, PhHolding x => rid = d_RequestID x
  | EvSend req, PhReady x q =>
      req = mkProviderRequest (text (d_ID x)) (r_Recipient q) (d_Channel x) (r_RenderedContent q)
  | EvMarkSent id at_ rid m, PhAnswered x _ (Ok res) =>
      (id, at_) = del_key x /\ rid = d_RequestID x /\ m = pres_MessageID res
  | EvMarkFailed id at_ rid n _, PhAnswered x _ (Err e) =>
      (id, at_) = del_key x /\ rid = d_RequestID x /\ evaluates false x e n
  | EvMarkRetrying id at_ n _ _, PhHolding x => (id, at_) = del_key x /\ n = d_AttemptCount x
  | EvMarkRetrying id at_ n _ _, PhAnswered x _ (Err e) =>
      (id, at_) = del_key x /\
      (breaker_open e = true /\ n = d_AttemptCount x \/ evaluates true x e n)
  | EvDLQ _, PhDone => True
  | EvAck stream id, PhDone => stream = sm_Stream msg /\ id = sm_ID msg
  | _, _ => False
  end.

Definition after (p : phase) (ev : event) (a : answer) : phase :=
  match ev, p, a with
  | EvClaim _ _ _, PhStart, AnClaim (Ok (Some x)) => PhHolding x
  | EvGetRequest _, PhHolding x, AnRequest (Ok q) => PhReady x q
  | EvSend _, PhReady x q, AnSend r => PhAnswered x q r
  | (EvClaim _ _ _ | EvGetRequest _ | EvSend _ | EvMarkSent _ _ _ _ | EvMarkRetrying _ _ _ _ _
    | EvMarkFailed _ _ _ _ _), _, _ => PhDone
  | EvAck _ _, _, _ => PhAcked
  | _, _, _ => p
  end.

Definition phase_after (l : list (event * answer)) (p : phase) : phase :=
  foldl (fun p c => after p (fst c) (snd c)) p l.

(** The calls of a list are allowed one after the other. *)
Fixpoint walk (msg : StreamMessage) (p : phase) (l : list (event * answer)) : Prop :=
  match l with
  | [] => True
  | (ev, a) :: l => may msg p ev /\ walk msg (after p ev a) l
  end.

(** The phase of a goroutine. *)
Definition task_phase (msg : StreamMessage) (answers : list answer) : phase :=
  phase_after (calls_made msg answers) PhStart.

Definition held_row (p : phase) : option Delivery :=
  match p with PhHolding x | PhReady x _ | PhAnswered x _ _ => Some x | _ => None end.

(** ** Programs and their scripts

    What every program built from [ask] satisfies: a suspended run does nothing more;
    a run without answers makes no call; and one more answer, of the kind the waiting
    call expects, adds exactly that call. *)

Definition expects (ev : event) (a : answer) : bool :=
  match ev, a with
  | EvNow, AnTime _ | EvDraw, AnDraw _ | EvAllow _, AnAllow _ | EvClaim _ _ _, AnClaim _
  | EvGetRequest _, AnRequest _ | EvSend _, AnSend _
  | (EvSleep _ | EvMarkSent _ _ _ _ | EvMarkRetrying _ _ _ _ _ | EvMarkFailed _ _ _ _ _
    | EvAck _ _ | EvDLQ _ | EvMetric _), AnUnit _ => true
  | _, _ => false
  end.

Definition feed (a : answer) (s : Script) : Script :=
  mkScript (sc_answers s ++ [a]) (sc_made s) (sc_blocked s).

Record lawful {A} (m : eff Script error A) : Prop := {
  law_inert s : sc_blocked s <> None -> snd (m s) = s;
  law_starved s : sc_blocked s = None -> sc_answers s = [] ->
    sc_made (snd (m s)) = sc_made s /\ sc_answers (snd (m s)) = [];
  law_feed a s : sc_blocked s = None ->
    match sc_blocked (snd (m s)) with
    | None => m (feed a s) = (fst (m s), feed a (snd (m s)))
    | Some ev => sc_answers (snd (m s)) = [] -> expects ev a = true ->
        sc_made (snd (m (feed a s))) = sc_made (snd (m s)) ++ [(ev, a)] /\
        sc_answers (snd (m (feed a s))) = []
    end
}.

Lemma lawful_ask {A} ev (read : answer -> option (result error A)) :
  (forall a, expects ev a = true -> is_Some (read a)) -> lawful (ask ev read).
Proof.
  intros Hr. split.
  - intros s H. unfold ask. by destruct (sc_blocked s).
  - intros s H E. unfold ask. by rewrite H, E.
  - intros a [l made b] H. simpl in H. subst b. unfold ask, feed. simpl.
    destruct l as [|b rest]; simpl.
    + intros _ He. destruct (Hr a He) as [r Er]. by rewrite Er.
    + by destruct (read b).
Qed.

Lemma lawful_ret {A} (a : A) : lawful (mret a).
Proof. split; [done|done|]. intros b s H. simpl. by rewrite H. Qed.

Lemma lawful_raise {A} e : lawful (raise e : eff Script error A).
Proof. split; [done|done|]. intros b s H. simpl. by rewrite H. Qed.

Lemma lawful_bind {A B} (m : eff Script error A) (k : A -> eff Script error B) :
  lawful m -> (forall a, lawful (k a)) -> lawful (m ≫= k).
Proof.
  intros [I1 S1 F1] Hk. unfold mbind, eff_bind. split.
  - intros s H. specialize (I1 s H). destruct (m s) as [[x|e] s1]; simpl in *; subst; [|done].
    by apply (law_inert _ (Hk x)).
  - intros s H E. specialize (S1 s H E). destruct (m s) as [[x|e] s1]; simpl in *; [|done].
    destruct S1 as [Em Ea]. destruct (sc_blocked s1) eqn:Eb.
    + rewrite (law_inert _ (Hk x)) by congruence. done.
    + rewrite <- Em. by apply (law_starved _ (Hk x)).
  - intros a s H. specialize (F1 a s H). destruct (m s) as [r s1] eqn:E. simpl in F1.
    destruct (sc_blocked s1) as [ev|] eqn:Eb.
    + assert (Es : snd (match r with Ok a => k a s1 | Err e => (Err e, s1) end) = s1).
      { destruct r as [x|e]; [|done]. apply (law_inert _ (Hk x)). congruence. }
      rewrite Es, Eb. intros Ha He. destruct (F1 Ha He) as [Fm Fa].
      destruct (m (feed a s)) as [[y|e] s2]; simpl in *; [|done].
      destruct (sc_blocked s2) eqn:Eb2.
      * rewrite (law_inert _ (Hk y)) by congruence. done.
      * rewrite <- Fm. by apply (law_starved _ (Hk y)).
    + rewrite F1. destruct r as [x|e]; simpl; [|by rewrite Eb].
      by apply (law_feed _ (Hk x)).
Qed.

Lemma lawful_attempt {A} (m : eff Script error A) : lawful m -> lawful (attempt m).
Proof.
  intros [I S F]. unfold attempt. split.
  - intros s H. specialize (I s H). by destruct (m s).
  - intros s H E. specialize (S s H E). by destruct (m s).
  - intros a s H. specialize (F a s H). destruct (m s) as [r s1], (m (feed a s)) as [r2 s2].
    simpl in *. destruct (sc_blocked s1); [done|]. by simplify_eq.
Qed.

Create HintDb lawful.
#[local] Hint Resolve lawful_ret lawful_raise lawful_bind lawful_attempt : lawful.

(** The ports answer the calls they record. *)
Ltac port_tac := apply lawful_ask; intros []; (discriminate || (intros _; eexists; reflexivity)).

(** Decompose a program of the worker into its calls. *)
Ltac lawful_tac :=
  intros; repeat match goal with
  | |- lawful (mbind _ _) => apply lawful_bind; intros
  | |- lawful (attempt _) => apply lawful_attempt
  | |- lawful (match ?x with _ => _ end) => destruct x
  | |- lawful (let '(_, _) := ?x in _) => destruct x
  | |- _ => solve [port_tac | eauto with lawful]
  end.

Lemma lawful_wait_loop k deadline ch : lawful (wait_loop w k deadline ch).
Proof. induction k as [|k IH]; simpl; [apply lawful_raise|]. lawful_tac. Qed.
#[local] Hint Resolve lawful_wait_loop : lawful.

Lemma lawful_wait k ch : lawful (waitForRateLimit w k ch).
Proof. unfold waitForRateLimit. lawful_tac. Qed.

Lemma lawful_requeue x reason : lawful (requeueWithoutAttempt w x reason).
Proof. unfold requeueWithoutAttempt. lawful_tac. Qed.

Lemma lawful_dlq msg n err : lawful (publishDLQ w msg n err).
Proof. unfold publishDLQ. lawful_tac. Qed.
#[local] Hint Resolve lawful_wait lawful_requeue lawful_dlq : lawful.

Lemma lawful_failure x msg e : lawful (handleFailure overflow w x msg e).
Proof. unfold handleFailure, panic. lawful_tac. Qed.
#[local] Hint Resolve lawful_failure : lawful.

Lemma lawful_settle msg x r : lawful (settle overflow w msg x r).
Proof. unfold settle. lawful_tac. Qed.

Lemma lawful_send x recipient content : lawful (send x recipient content).
Proof. unfold send. lawful_tac. Qed.
#[local] Hint Resolve lawful_settle lawful_send : lawful.

Lemma lawful_deliver msg x : lawful (deliver overflow w msg x).
Proof. unfold deliver. lawful_tac. Qed.
#[local] Hint Resolve lawful_deliver : lawful.

Lemma lawful_body msg : lawful (process_body overflow w fuel msg).
Proof. unfold process_body. lawful_tac. Qed.

(** ** Programs that follow the phases *)

Section walks.
Context (msg : StreamMessage).
Local Abbreviation may := (may msg).
Local Abbreviation walk := (walk msg).

(** From phase [p], [m] makes allowed calls, waits in an allowed call if it is
    suspended, and if it returns [a] the phase satisfies [Q a]. *)
Definition walks {A} (p : phase) (m : eff Script error A) (Q : A -> phase -> Prop) : Prop :=
  forall s, sc_blocked s = None ->
  exists new, sc_made (snd (m s)) = sc_made s ++ new /\ walk p new /\
    match sc_blocked (snd (m s)), fst (m s) with
    | Some ev, _ => may (phase_after new p) ev
    | None, Ok a => Q a (phase_after new p)
    | None, Err _ => True
    end.

Lemma walk_app p l1 l2 : walk p (l1 ++ l2) <-> walk p l1 /\ walk (phase_after l1 p) l2.
Proof.
  revert p. induction l1 as [|[ev a] l1 IH]; intros p; simpl; [naive_solver|].
  rewrite IH. naive_solver.
Qed.

Lemma phase_after_app p l1 l2 : phase_after (l1 ++ l2) p = phase_after l2 (phase_after l1 p).
Proof. unfold phase_after. by rewrite foldl_app. Qed.

Lemma walks_ask {A} ev (read : answer -> option (result error A)) p :
  may p ev ->
  walks p (ask ev read) (fun x p' => exists a, read a = Some (Ok x) /\ p' = after p ev a).
Proof.
  intros Hm s Hs. unfold ask. rewrite Hs. destruct (sc_answers s) as [|a rest].
  - exists []. by rewrite app_nil_r.
  - destruct (read a) as [r|] eqn:E; simpl; [|exists []; by rewrite app_nil_r].
    exists [(ev, a)]. split; [done|]. split; [done|]. destruct r; [|done]. by exists a.
Qed.

(** The caller looks at the error. *)
Lemma walks_attempt_ask {A} ev (read : answer -> option (result error A)) p :
  may p ev ->
  walks p (attempt (ask ev read)) (fun r p' => exists a, read a = Some r /\ p' = after p ev a).
Proof.
  intros Hm s Hs. unfold attempt, ask. rewrite Hs. destruct (sc_answers s) as [|a rest].
  - exists []. by rewrite app_nil_r.
  - destruct (read a) as [r|] eqn:E; simpl; [|exists []; by rewrite app_nil_r].
    exists [(ev, a)]. split; [done|]. split; [done|]. by exists a.
Qed.

Lemma walks_ret {A} (a : A) p (Q : A -> phase -> Prop) : Q a p -> walks p (mret a) Q.
Proof. intros H s Hs. exists []. simpl. rewrite app_nil_r, Hs. done. Qed.

Lemma walks_raise {A} e p (Q : A -> phase -> Prop) : walks p (raise e) Q.
Proof. intros s Hs. exists []. simpl. by rewrite app_nil_r, Hs. Qed.

Lemma walks_bind {A B} (m : eff Script error A) (k : A -> eff Script error B) p Q R :
  walks p m Q -> (forall a, lawful (k a)) -> (forall a p', Q a p' -> walks p' (k a) R) ->
  walks p (m ≫= k) R.
Proof.
  intros Hm Hi Hk s Hs. destruct (Hm s Hs) as (new & Hmade & Hw & Hq).
  unfold mbind, eff_bind. destruct (m s) as [[a|e] s1]; simpl in *; [|by exists new].
  destruct (sc_blocked s1) as [ev|] eqn:E.
  - exists new. rewrite (law_inert _ (Hi a)) by congruence. by rewrite E.
  - destruct (Hk a _ Hq s1 E) as (new2 & Hmade2 & Hw2 & Hq2). exists (new ++ new2).
    rewrite Hmade2, Hmade, app_assoc, walk_app, phase_after_app. done.
Qed.

Lemma walks_mono {A} (m : eff Script error A) p (Q R : A -> phase -> Prop) :
  (forall a p', Q a p' -> R a p') -> walks p m Q -> walks p m R.
Proof.
  intros H Hm s Hs. destruct (Hm s Hs) as (new & ? & ? & Hq). exists new. split_and!; try done.
  destruct (m s) as [[a|e] s']; simpl in *; destruct (sc_blocked s'); auto.
Qed.

(** A call whose error the code inspects, then the rest. *)
Lemma walks_call {A B} ev (read : answer -> option (result error A))
    (k : result error A -> eff Script error B) p R :
  may p ev -> (forall r, lawful (k r)) ->
  (forall a r, read a = Some r -> walks (after p ev a) (k r) R) ->
  walks p (attempt (ask ev read) ≫= k) R.
Proof.
  intros Hm Hi Hk. eapply walks_bind; [by apply walks_attempt_ask|done|].
  intros r p' (a & Hr & ->). eauto.
Qed.

(** A call that does not change the phase. *)
Lemma walks_silent {A B} ev (read : answer -> option (result error A))
    (k : A -> eff Script error B) p R :
  may p ev -> (forall a, after p ev a = p) -> (forall a, lawful (k a)) ->
  (forall a, walks p (k a) R) -> walks p (ask ev read ≫= k) R.
Proof.
  intros Hm Ha Hi Hk. eapply walks_bind; [by apply walks_ask|done|].
  intros x p' (a & _ & ->). by rewrite Ha.
Qed.

Lemma walks_last_metric m p : walks p (ask (EvMetric m) read_unit) (fun _ p' => p' = p).
Proof. eapply walks_mono; [|by apply walks_ask]. by intros [] p' (a & _ & ->). Qed.

(** ** The pipeline *)

Lemma walks_wait_loop k deadline x :
  walks (PhHolding x) (wait_loop w k deadline (dm_Channel (sm_Delivery msg)))
    (fun _ p => p = PhHolding x).
Proof.
  induction k as [|k IH]; simpl; [apply walks_raise|].
  apply walks_silent; [done|done|lawful_tac|]. intros [[allowed ra] err].
  destruct allowed; [by apply walks_ret|]. apply walks_silent; [done|done|lawful_tac|]. intros now.
  destruct (_ >? _)%Z; [by apply walks_ret|]. by apply walks_silent; [done|done|lawful_tac|].
Qed.

Lemma walks_wait x :
  walks (PhHolding x) (waitForRateLimit w fuel (dm_Channel (sm_Delivery msg)))
    (fun _ p => p = PhHolding x).
Proof.
  unfold waitForRateLimit. apply walks_silent; [done|done|lawful_tac|]. intros now.
  apply walks_wait_loop.
Qed.

Lemma walks_requeue p x reason :
  (forall next err, may p (EvMarkRetrying (d_ID x) (d_CreatedAt x) (d_AttemptCount x) next err)) ->
  walks p (requeueWithoutAttempt w x reason) (fun _ p' => p' = PhDone).
Proof.
  intros H. unfold requeueWithoutAttempt. apply walks_silent; [done|done|lawful_tac|]. intros now.
  apply walks_call; [apply H|lawful_tac|]. intros a r _. by apply walks_ret.
Qed.

Lemma walks_dlq n err : walks PhDone (publishDLQ w msg n err) (fun _ p => p = PhDone).
Proof.
  unfold publishDLQ. destruct (negb _); [by apply walks_ret|].
  apply walks_silent; [done|done|lawful_tac|]. intros now.
  apply walks_call; [done|lawful_tac|]. intros a [[]|e] _; [apply walks_last_metric|by apply walks_ret].
Qed.

Lemma walks_failure x q e :
  walks (PhAnswered x q (Err e)) (handleFailure overflow w x msg e) (fun _ p => p = PhDone).
Proof.
  unfold handleFailure. fold (breaker_open e). destruct (breaker_open e) eqn:Eb.
  { apply walks_requeue. intros. split; [done|]. by left. }
  apply walks_silent; [done|done|lawful_tac|]. intros now.
  apply walks_silent; [done|done|lawful_tac|]. intros dr.
  destruct (EvaluateFailure _ _ _ _ _ _) as [oc|] eqn:Eo; [|apply walks_raise].
  destruct (bool_decide (oc_Status oc = DeliveryFailed)) eqn:Ef.
  - pose proof (bool_decide_eq_true_1 _ Ef) as Ef'. rewrite Ef'.
    apply walks_call; [|lawful_tac|].
    { split; [done|]. split; [done|]. split; [done|]. exists dr, now, oc. done. }
    intros a [[]|err] _; [|by apply walks_ret].
    apply walks_silent; [done|done|lawful_tac|]. intros []. apply walks_dlq.
  - assert (Hk : walks (PhAnswered x q (Err e))
      (ask EvNow read_time ≫= fun now =>
       attempt (ask (EvMarkRetrying (d_ID x) (d_CreatedAt x) (oc_AttemptCount oc)
                       (default now (oc_NextRetryAt oc)) (Error e)) read_unit) ≫= fun r =>
       match r with
       | Err _ => mret ()
       | Ok _ => ask (EvMetric (IncRetry (d_Channel x) (d_Priority x))) read_unit
       end) (fun _ p => p = PhDone)).
    { apply walks_silent; [done|done|lawful_tac|]. intros t. apply walks_call; [|lawful_tac|].
      - split; [done|]. right. split; [done|]. exists dr, now, oc. done.
      - intros a [[]|err] _; [apply walks_last_metric|by apply walks_ret]. }
    destruct (oc_Status oc); exact Hk || done.
Qed.

Lemma walks_settle x q r :
  walks (PhAnswered x q r) (settle overflow w msg x r) (fun _ p => p = PhDone).
Proof.
  unfold settle. destruct r as [res|e]; [|apply walks_failure].
  apply walks_call; [done|lawful_tac|]. intros a [[]|err] _; [|by apply walks_ret].
  apply walks_silent; [done|done|lawful_tac|]. intros [].
  apply walks_silent; [done|done|lawful_tac|]. intros t. apply walks_last_metric.
Qed.

Lemma walks_deliver x :
  walks (PhHolding x) (deliver overflow w msg x) (fun _ p => p = PhDone).
Proof.
  unfold deliver. apply walks_call; [done|lawful_tac|].
  intros a [q|e] Ha; destruct a; try discriminate; simpl in Ha; simplify_eq;
    [|by apply walks_ret].
  apply (walks_bind _ _ _ (fun r p => p = PhAnswered x q r));
    [|lawful_tac|intros r p ->; apply walks_settle].
  unfold send. apply walks_call; [done|lawful_tac|].
  intros a r Ha; destruct a; try discriminate; simpl in Ha; simplify_eq.
  apply walks_silent; [done|done|lawful_tac|]. intros []. by apply walks_ret.
Qed.

Lemma walks_body : walks PhStart (process_body overflow w fuel msg) (fun _ p => p = PhDone).
Proof.
  unfold process_body. apply walks_silent; [done|done|lawful_tac|]. intros now.
  apply walks_call; [done|lawful_tac|].
  intros a [[x|]|e] Ha; destruct a; try discriminate; simpl in Ha; simplify_eq;
    try by apply walks_ret.
  eapply walks_bind; [apply walks_wait|lawful_tac|]. intros allowed p ->.
  destruct (negb allowed); [apply walks_requeue; done|apply walks_deliver].
Qed.

Lemma walks_process :
  walks PhStart (process overflow w fuel msg) (fun _ p => p = PhAcked).
Proof.
  unfold process. apply walks_silent; [done|done|lawful_tac; apply lawful_body|]. intros _.
  eapply walks_bind; [apply walks_body|lawful_tac|]. intros _ p ->.
  apply walks_call; [done|lawful_tac|]. intros a r _.
  apply walks_silent; [done|done|lawful_tac|]. intros t. apply walks_last_metric.
Qed.
End walks.

(** ** Goroutines as lists of answers *)

Lemma lawful_process msg : lawful (process overflow w fuel msg).
Proof. unfold process. lawful_tac. apply lawful_body. Qed.

(** Every answer given so far was taken. *)
Definition consumed (msg : StreamMessage) (answers : list answer) : Prop :=
  sc_answers (snd (run_script msg answers)) = [].

Lemma consumed_nil msg : consumed msg [] /\ calls_made msg [] = [].
Proof.
  unfold consumed, calls_made, run_script.
  by destruct (law_starved _ (lawful_process msg) (mkScript [] [] None) eq_refl eq_refl).
Qed.

(** Answering the waiting call adds it to the calls made. *)
Lemma calls_made_snoc msg answers ev a :
  consumed msg answers -> pending msg answers = Some ev -> expects ev a = true ->
  calls_made msg (answers ++ [a]) = calls_made msg answers ++ [(ev, a)] /\
  consumed msg (answers ++ [a]).
Proof.
  unfold consumed, pending, calls_made, run_script. intros Hc Hp He.
  pose proof (law_feed _ (lawful_process msg) a (mkScript answers [] None) eq_refl) as H.
  rewrite Hp in H. by apply H.
Qed.

(** Every run follows the phases: the calls made are allowed one after the other, the
    call that waits is allowed in the phase they lead to, and a run that has returned
    has acknowledged its message. *)
Lemma process_walks msg answers :
  walk msg PhStart (calls_made msg answers) /\
  match pending msg answers, fst (run_script msg answers) with
  | Some ev, _ => may msg (task_phase msg answers) ev
  | None, Ok _ => task_phase msg answers = PhAcked
  | None, Err _ => True
  end.
Proof.
  unfold task_phase, calls_made, pending, run_script.
  destruct (walks_process msg (mkScript answers [] None) eq_refl) as (new & -> & Hw & H). done.
Qed.

Lemma task_phase_snoc msg answers ev a :
  consumed msg answers -> pending msg answers = Some ev -> expects ev a = true ->
  task_phase msg (answers ++ [a]) = after (task_phase msg answers) ev a.
Proof.
  intros Hc Hp He. unfold task_phase. destruct (calls_made_snoc msg answers ev a Hc Hp He) as [-> _].
  by rewrite phase_after_app.
Qed.

(** An answered phase comes from a call to the provider with the request's content. *)
Lemma answered_made msg l p x q r :
  walk msg p l -> phase_after l p = PhAnswered x q r ->
  p = PhAnswered x q r \/
  (EvSend (mkProviderRequest (text (d_ID x)) (r_Recipient q) (d_Channel x) (r_RenderedContent q)),
   AnSend r) ∈ l.
Proof.
  revert p. induction l as [|[ev a] l IH]; intros p; [by left|]. intros [Hm Hw] Hp.
  destruct (IH _ Hw Hp) as [E|?]; [|right; by right].
  destruct ev, p as [|y|y z|y z v| |]; simpl in E, Hm; try done;
    try (by left); destruct a as [| | | |[[?|]|]|[]|]; simplify_eq; try done; try (by left).
  right. left.
Qed.

Lemma answered_called msg answers x q r :
  task_phase msg answers = PhAnswered x q r ->
  (EvSend (mkProviderRequest (text (d_ID x)) (r_Recipient q) (d_Channel x) (r_RenderedContent q)),
   AnSend r) ∈ calls_made msg answers.
Proof.
  intros E. destruct (process_walks msg answers) as [Hw _].
  by destruct (answered_made msg _ _ _ _ _ Hw E).
Qed.

Lemma task_phase_nil msg : task_phase msg [] = PhStart.
Proof. unfold task_phase. by rewrite (proj2 (consumed_nil msg)). Qed.
End trace.
