(* ===== verification/Scheduler.v ===== *)
(** * The scheduler (internal/scheduler)

    The background jobs over their ports. A failing port is an error the job logs
    and inspects; [raise] is the fuel of a draining loop running out, which the
    theorems on the jobs rule out or, where the loop does not end, show to
    happen for every fuel. *)

From S2P Require Import Prelude GoStrings Domain Store.

Local Open Scope string_scope.
Local Open Scope list_scope.

(** ** Ports (scheduler.go) *)

Inductive sched_metric :=
| SetQueueDepth (stream : string) (n : Z)
| SetQueuePending (stream : string) (n : Z)
| SetOutboxUnpublished (n : Z)
| SetSchedulerLag (lag : duration)
| AddPromoted (n : Z)
| AddReclaimed (n : Z)
| AddReconciled (n : Z).

Class SchedPorts (W : Type) := {
  sp_PromoteDue : Z -> eff W error Z;
  sp_SweepRetries : Z -> eff W error Z;
  sp_ReapStuck : eff W error Z;
  sp_ReconcilePending : duration -> Z -> eff W error Z;
  sp_FetchUnpublishedOutbox : Z -> eff W error (list OutboxEntry);
  sp_MarkOutboxPublished : list uuid -> eff W error ();
  sp_CountUnpublishedOutbox : eff W error Z;
  sp_OldestDueLagSeconds : eff W error duration;
  sp_CreateDeliveryPartition : time -> eff W error ();
  sp_ArchiveAndDropPartition : time -> eff W error ();
  sp_PurgePublishedOutbox : time -> eff W error Z;
  sp_Publish : string -> DeliveryMessage -> eff W error ();
  sp_Depth : string -> eff W error Z;
  sp_Pending : string -> eff W error Z;
  sp_Metric : sched_metric -> eff W error ();
  time_Now : eff W error time
}.

Record SchedConfig := mkSchedConfig {
  sc_PollInterval : duration;
  sc_OutboxInterval : duration;
  sc_OutboxBatchSize : Z;
  sc_PromoteBatch : Z;
  sc_ReaperInterval : duration;
  sc_ReconcileAfter : duration;
  sc_RetentionDays : Z;
  sc_PreCreateDays : Z;
  sc_OutboxRetention : duration
}.

Definition or_default (n d : Z) : Z := if (n <=? 0)%Z then d else n.

Definition New (cfg : SchedConfig) : SchedConfig :=
  mkSchedConfig (sc_PollInterval cfg) (sc_OutboxInterval cfg) (sc_OutboxBatchSize cfg)
    (sc_PromoteBatch cfg) (sc_ReaperInterval cfg) (sc_ReconcileAfter cfg)
    (or_default (sc_RetentionDays cfg) 30) (or_default (sc_PreCreateDays cfg) 3)
    (or_default (sc_OutboxRetention cfg) (24 * Hour)).

Definition allStreams : list string :=
  p ← AllPriorities; c ← AllChannels; [Stream p c].

Definition spent {W A} : eff W error A := raise (ELib "fuel").

(** ** Jobs (jobs.go) *)

Section jobs.
Context {W : Type} `{ports : !SchedPorts W} (cfg : SchedConfig).

(** The loop over the fetched entries: the ids whose message was accepted. *)
Fixpoint publish_all (entries : list OutboxEntry) : eff W error (list uuid) :=
  match entries with
  | [] => mret []
  | e :: rest =>
      r ← attempt (sp_Publish (oe_Stream e) (oe_Message e));
      published ← publish_all rest;
      mret (match r with Ok _ => oe_ID e :: published | Err _ => published end)
  end.

Fixpoint relayOutbox (fuel : nat) : eff W error () :=
  match fuel with
  | 0 => spent
  | S fuel =>
      r ← attempt (sp_FetchUnpublishedOutbox (sc_OutboxBatchSize cfg));
      match r with
      | Err _ => mret ()
      | Ok [] => mret ()
      | Ok entries =>
          published ← publish_all entries;
          m ← attempt (sp_MarkOutboxPublished published);
          match m with
          | Err _ => mret ()
          | Ok _ =>
              if (Z.of_nat (length entries) <? sc_OutboxBatchSize cfg)%Z then mret ()
              else relayOutbox fuel
          end
      end
  end.

Fixpoint promoteDue (fuel : nat) : eff W error () :=
  match fuel with
  | 0 => spent
  | S fuel =>
      r ← attempt (sp_PromoteDue (sc_PromoteBatch cfg));
      match r with
      | Err _ => mret ()
      | Ok n =>
          (if (n >? 0)%Z then sp_Metric (AddPromoted n) else mret ()) ≫= fun _ =>
          if (n <? sc_PromoteBatch cfg)%Z then mret () else promoteDue fuel
      end
  end.

Fixpoint sweepRetries (fuel : nat) : eff W error () :=
  match fuel with
  | 0 => spent
  | S fuel =>
      r ← attempt (sp_SweepRetries (sc_PromoteBatch cfg));
      match r with
      | Err _ => mret ()
      | Ok n => if (n <? sc_PromoteBatch cfg)%Z then mret () else sweepRetries fuel
      end
  end.

Definition reapStuck : eff W error () :=
  r ← attempt sp_ReapStuck;
  match r with
  | Err _ => mret ()
  | Ok n => if (n >? 0)%Z then sp_Metric (AddReclaimed n) else mret ()
  end.

Definition reconcile : eff W error () :=
  r ← attempt (sp_ReconcilePending (sc_ReconcileAfter cfg) (sc_PromoteBatch cfg));
  match r with
  | Err _ => mret ()
  | Ok n => if (n >? 0)%Z then sp_Metric (AddReconciled n) else mret ()
  end.

(** [t.UTC().Truncate(24 * time.Hour)] and [AddDate(0, 0, n)] in UTC. *)
Definition truncate_day (t : time) : time := (t / Day * Day)%Z.
Definition AddDays (t : time) (n : Z) : time := (t + n * Day)%Z.

Definition maintainPartitions : eff W error () :=
  now ← time_Now;
  let today := truncate_day now in
  for_each (fun i => attempt (sp_CreateDeliveryPartition (AddDays today i)) ≫= fun _ => mret ())
    (seqZ 0 (sc_PreCreateDays cfg + 1)) ≫= fun _ =>
  let dropDay := AddDays today (- (sc_RetentionDays cfg + 1)) in
  attempt (sp_ArchiveAndDropPartition dropDay) ≫= fun _ =>
  now2 ← time_Now;
  attempt (sp_PurgePublishedOutbox (now2 - sc_OutboxRetention cfg)%Z) ≫= fun _ =>
  mret ().

Definition gauge {A} (m : eff W error A) (f : A -> sched_metric) : eff W error () :=
  r ← attempt m;
  match r with Ok n => sp_Metric (f n) | Err _ => mret () end.

Definition refreshMetrics : eff W error () :=
  gauge sp_CountUnpublishedOutbox SetOutboxUnpublished ≫= fun _ =>
  gauge sp_OldestDueLagSeconds SetSchedulerLag ≫= fun _ =>
  for_each (fun stream =>
      gauge (sp_Depth stream) (SetQueueDepth stream) ≫= fun _ =>
      gauge (sp_Pending stream) (SetQueuePending stream)) allStreams.
End jobs.

(** ** The scheduler over the store

    A store session, the queue ([up n] tells whether the [n]-th publication is
    accepted), the metrics, and one clock for the scheduler and the database. *)

Record SWorld := mkSWorld {
  sw_sess : Sess;
  sw_sent : list (string * DeliveryMessage);
  sw_tries : nat;
  sw_metrics : list sched_metric
}.

Definition sw_db (s : SWorld) : DB := db (sw_sess s).

Section instance.
Context `{codec : !MessageCodec} `{uuids : !UuidSource}.
Context (up : nat -> bool) (now : time) (locked : uuid * time -> bool).
Context (queue_depth queue_pending : string -> eff SWorld error Z).

Definition on_store {A} (m : eff Sess error A) : eff SWorld error A := fun s =>
  let '(r, x) := m (sw_sess s) in (r, mkSWorld x (sw_sent s) (sw_tries s) (sw_metrics s)).

Definition publish (stream : string) (msg : DeliveryMessage) : eff SWorld error () := fun s =>
  if up (sw_tries s)
  then (Ok (), mkSWorld (sw_sess s) (sw_sent s ++ [(stream, msg)]) (S (sw_tries s)) (sw_metrics s))
  else (Err (ELib "xadd"), mkSWorld (sw_sess s) (sw_sent s) (S (sw_tries s)) (sw_metrics s)).

Definition add_metric (m : sched_metric) : eff SWorld error () := fun s =>
  (Ok (), mkSWorld (sw_sess s) (sw_sent s) (sw_tries s) (sw_metrics s ++ [m])).

(** The queue's gauges are not the database's: they are left open. *)
#[export] Instance store_sched : SchedPorts SWorld := {
  sp_PromoteDue n := on_store (PromoteDue locked now n);
  sp_SweepRetries n := on_store (SweepRetries locked now n);
  sp_ReapStuck := on_store (ReapStuck now);
  sp_ReconcilePending d n := on_store (ReconcilePending locked now now d n);
  sp_FetchUnpublishedOutbox n := on_store (FetchUnpublishedOutbox (fun _ => false) n);
  sp_MarkOutboxPublished ids := on_store (MarkOutboxPublished ids now);
  sp_CountUnpublishedOutbox := on_store CountUnpublishedOutbox;
  sp_OldestDueLagSeconds := on_store (OldestDueLagSeconds now);
  sp_CreateDeliveryPartition d := on_store (CreateDeliveryPartition d);
  sp_ArchiveAndDropPartition d := on_store (ArchiveAndDropPartition d);
  sp_PurgePublishedOutbox t := on_store (PurgePublishedOutbox t);
  sp_Publish := publish;
  sp_Depth := queue_depth;
  sp_Pending := queue_pending;
  sp_Metric := add_metric;
  time_Now := mret now
}.
End instance.
