(* ===== verification/SchedulerRun.v ===== *)
(** * The scheduler's loops (internal/scheduler: Run, runLoop)

    [Run] maintains the partitions once, starts one goroutine per job and waits for
    them. [sched_step] is one step of [Run], of one loop, of a ticker or of the
    outside (the cancellation); any interleaving is a sequence of steps. What a job
    does to the world is in [Scheduler]; here a job is under way or not. The traces
    [sr_begun] and [sr_ended] record the jobs that started and returned. *)

From S2P Require Import Prelude Domain AppConfig Scheduler.

Local Open Scope string_scope.
Local Open Scope list_scope.

(** ** Jobs *)

Inductive Job :=
| JRelay | JPromote | JSweep | JReap | JReconcile | JMetrics | JMaintain.

#[export] Instance Job_eq_dec : EqDecision Job.
Proof. solve_decision. Defined.

(** The table in [Run]: name, interval and function. *)
Definition sched_jobs (cfg : SchedConfig) : list (string * duration * Job) :=
  [("outbox-relay", sc_OutboxInterval cfg, JRelay);
   ("promote-due", sc_PollInterval cfg, JPromote);
   ("retry-sweep", sc_PollInterval cfg, JSweep);
   ("reaper", sc_ReaperInterval cfg, JReap);
   ("reconcile", sc_ReaperInterval cfg, JReconcile);
   ("metrics", (5 * Second)%Z, JMetrics);
   ("maintenance", Hour, JMaintain)].

(** The function of a job; [fuel] bounds the loops of the draining jobs. *)
Definition job_body {W} `{ports : !SchedPorts W} (cfg : SchedConfig) (fuel : nat) (j : Job)
    : eff W error () :=
  match j with
  | JRelay => relayOutbox cfg fuel
  | JPromote => promoteDue cfg fuel
  | JSweep => sweepRetries cfg fuel
  | JReap => reapStuck
  | JReconcile => reconcile cfg
  | JMetrics => refreshMetrics
  | JMaintain => maintainPartitions cfg
  end.

Definition interval (j : string * duration * Job) : duration := j.1.2.
Definition job_of (j : string * duration * Job) : Job := j.2.

(** ** States *)

(** A goroutine of [runLoop]: before [time.NewTicker], in the [select] or in its
    job, with or without a tick in the ticker's channel of one, or returned. *)
Inductive Loop :=
| Spawned
| Selecting (tick : bool)
| InJob (tick : bool)
| Left.

#[export] Instance Left_dec l : Decision (l = Left).
Proof. by destruct l; [right|right|right|left]. Defined.

(** [Run] is in the first [maintainPartitions], waits, or has returned; or a
    goroutine has panicked, which ends the process. *)
Inductive Phase := Preparing | Waiting | Returned | Panicked.

Record SRun := mkSRun {
  sr_phase : Phase;
  sr_cancelled : bool;
  sr_loops : list Loop;
  sr_begun : list Job;
  sr_ended : list Job
}.

Definition sched_start : SRun := mkSRun Preparing false [] [JMaintain] [].

Definition set_loop (i : nat) (l : Loop) (s : SRun) : SRun :=
  mkSRun (sr_phase s) (sr_cancelled s) (<[i := l]> (sr_loops s)) (sr_begun s) (sr_ended s).

(** ** Steps *)

Section steps.
Context (cfg : SchedConfig).
Local Abbreviation jobs := (sched_jobs cfg).

Inductive sched_step : SRun -> SRun -> Prop :=
(* the context is cancelled, at any time *)
| ss_cancel s :
    sr_phase s <> Panicked ->
    sched_step s (mkSRun (sr_phase s) true (sr_loops s) (sr_begun s) (sr_ended s))
(* s.maintainPartitions(ctx) returns, the goroutines are started *)
| ss_prepared s :
    sr_phase s = Preparing ->
    sched_step s (mkSRun Waiting (sr_cancelled s) (replicate (length jobs) Spawned)
      (sr_begun s) (sr_ended s ++ [JMaintain]))
(* ticker := time.NewTicker(interval), which panics unless it is positive *)
| ss_ticker s i j :
    sr_phase s = Waiting -> sr_loops s !! i = Some Spawned -> jobs !! i = Some j ->
    (0 < interval j)%Z -> sched_step s (set_loop i (Selecting false) s)
| ss_panic s i j :
    sr_phase s = Waiting -> sr_loops s !! i = Some Spawned -> jobs !! i = Some j ->
    (interval j <= 0)%Z ->
    sched_step s (mkSRun Panicked (sr_cancelled s) (sr_loops s) (sr_begun s) (sr_ended s))
(* the ticker sends; a tick already waiting swallows it *)
| ss_tick s i b :
    sr_phase s = Waiting -> sr_loops s !! i = Some (Selecting b) ->
    sched_step s (set_loop i (Selecting true) s)
| ss_tick_job s i b :
    sr_phase s = Waiting -> sr_loops s !! i = Some (InJob b) ->
    sched_step s (set_loop i (InJob true) s)
(* case <-ticker.C: fn(ctx) *)
| ss_fire s i j :
    sr_phase s = Waiting -> sr_loops s !! i = Some (Selecting true) -> jobs !! i = Some j ->
    sched_step s (mkSRun Waiting (sr_cancelled s) (<[i := InJob false]> (sr_loops s))
      (sr_begun s ++ [job_of j]) (sr_ended s))
(* fn returns *)
| ss_finish s i j b :
    sr_phase s = Waiting -> sr_loops s !! i = Some (InJob b) -> jobs !! i = Some j ->
    sched_step s (mkSRun Waiting (sr_cancelled s) (<[i := Selecting b]> (sr_loops s))
      (sr_begun s) (sr_ended s ++ [job_of j]))
(* case <-ctx.Done(): return *)
| ss_leave s i b :
    sr_phase s = Waiting -> sr_loops s !! i = Some (Selecting b) -> sr_cancelled s = true ->
    sched_step s (set_loop i Left s)
(* <-ctx.Done(); wg.Wait() *)
| ss_return s :
    sr_phase s = Waiting -> sr_cancelled s = true -> Forall (fun l => l = Left) (sr_loops s) ->
    sched_step s (mkSRun Returned true (sr_loops s) (sr_begun s) (sr_ended s)).

Inductive sched_reachable : SRun -> Prop :=
| sr_init : sched_reachable sched_start
| sr_next s s' : sched_reachable s -> sched_step s s' -> sched_reachable s'.

(** ** Invariant *)

Definition positive_intervals : Prop := Forall (fun j => (0 < interval j)%Z) jobs.

(** The jobs under way. *)
Definition in_job (p : (string * duration * Job) * Loop) : list Job :=
  match p.2 with InJob _ => [job_of p.1] | _ => [] end.

Definition under_way (s : SRun) : list Job :=
  match sr_phase s with
  | Preparing => [JMaintain]
  | _ => p ← zip jobs (sr_loops s); in_job p
  end.

Record sched_inv (s : SRun) : Prop := {
  si_jobs : sr_begun s ≡ₚ sr_ended s ++ under_way s;
  si_loops : sr_phase s = Preparing /\ sr_loops s = [] /\ sr_begun s = [JMaintain]
    \/ sr_phase s <> Preparing /\ length (sr_loops s) = length jobs
       /\ head (sr_begun s) = Some JMaintain;
  si_returned : sr_phase s = Returned ->
    sr_cancelled s = true /\ Forall (fun l => l = Left) (sr_loops s);
  si_panicked : positive_intervals -> sr_phase s <> Panicked
}.

(** Replacing the state of one loop. *)
Lemma under_way_insert (js : list (string * duration * Job)) (ls : list Loop) i j l l' :
  js !! i = Some j -> ls !! i = Some l ->
  in_job (j, l) ++ (p ← zip js (<[i := l']> ls); in_job p)
  ≡ₚ in_job (j, l') ++ (p ← zip js ls; in_job p).
Proof.
  revert ls i. induction js as [|x js IH]; intros ls i Hj Hl; [done|].
  destruct ls as [|y ls]; [done|]. destruct i as [|i]; simpl in Hj, Hl; simplify_eq.
  - change (<[0:=l']> (l :: ls)) with (l' :: ls). cbn [zip zip_with]. rewrite !bind_cons.
    solve_Permutation.
  - change (<[S i:=l']> (y :: ls)) with (y :: <[i:=l']> ls). cbn [zip zip_with]. rewrite !bind_cons.
    rewrite (Permutation_app_swap_app (in_job (j, l))), (IH ls i Hj Hl). solve_Permutation.
Qed.

Lemma under_way_waiting s p c b e ls :
  sr_phase s = Waiting -> p <> Preparing ->
  (under_way (mkSRun p c ls b e)) = (p ← zip jobs ls; in_job p).
Proof. by destruct p. Qed.

(** A change of one loop that neither begins nor ends a job. *)
Lemma set_loop_under_way s i j l l' :
  sr_phase s = Waiting -> jobs !! i = Some j -> sr_loops s !! i = Some l ->
  in_job (j, l) = in_job (j, l') -> under_way (set_loop i l' s) ≡ₚ under_way s.
Proof.
  intros Hp Hj Hl E. pose proof (under_way_insert jobs (sr_loops s) i j l l' Hj Hl) as H.
  rewrite E in H. unfold under_way, set_loop. simpl. rewrite Hp.
  by apply Permutation_app_inv_l in H.
Qed.

Lemma loop_job s i l : sched_inv s -> sr_phase s = Waiting -> sr_loops s !! i = Some l ->
  exists j, jobs !! i = Some j.
Proof.
  intros [_ [(E & _)|(_ & Hl & _)] _ _] Hp Hi; [congruence|].
  apply lookup_lt_Some in Hi. rewrite Hl in Hi. by apply lookup_lt_is_Some_2.
Qed.

Lemma set_loop_inv s i l l' :
  sched_inv s -> sr_phase s = Waiting -> sr_loops s !! i = Some l ->
  (forall j, in_job (j, l) = in_job (j, l')) -> sched_inv (set_loop i l' s).
Proof.
  intros Hs Hp Hi E. destruct (loop_job s i l Hs Hp Hi) as [j Hj].
  destruct Hs as [H1 H2 H3 H4]. split; [|simpl; rewrite ?length_insert..].
  - change (sr_begun s ≡ₚ sr_ended s ++ under_way (set_loop i l' s)).
    by rewrite (set_loop_under_way s i j l l').
  - destruct H2 as [(? & _)|H2]; [congruence|by right].
  - congruence.
  - done.
Qed.

Lemma head_app_l {A} (l l' : list A) x : head l = Some x -> head (l ++ l') = Some x.
Proof. by destruct l. Qed.

Lemma sched_step_inv s s' : sched_step s s' -> sched_inv s -> sched_inv s'.
Proof.
  intros Hs Hinv. pose proof Hinv as [H1 H2 H3 H4].
  destruct Hs as [s Hp|s Hp|s i j Hp Hi Hj H|s i j Hp Hi Hj H|s i b Hp Hi|s i b Hp Hi|s i j Hp Hi Hj
    |s i j b Hp Hi Hj|s i b Hp Hi Hc|s Hp Hc Hall].
  - split; simpl; auto. intros H. split; [done|]. by destruct (H3 H).
  - destruct H2 as [(_ & El & Eb)|(? & _)]; [|done]. split; simpl; try done.
    + unfold under_way in *. rewrite Hp in H1. etransitivity; [exact H1|]. simpl. by rewrite app_nil_r.
    + right. rewrite Eb. done.
  - by apply (set_loop_inv s i Spawned).
  - destruct H2 as [(? & _)|(_ & H2)]; [congruence|]. split; simpl; try done; [|by right|].
    + unfold under_way in *. rewrite Hp in H1. done.
    + intros Hpos. apply (Forall_lookup_1 _ _ _ _ Hpos) in Hj. lia.
  - by apply (set_loop_inv s i (Selecting b)).
  - by apply (set_loop_inv s i (InJob b)).
  - destruct H2 as [(? & _)|(_ & Hl & Hh)]; [congruence|]. split; simpl; try done.
    + pose proof (under_way_insert jobs (sr_loops s) i j _ (InJob false) Hj Hi) as H.
      unfold under_way in *. rewrite Hp in H1. simpl in *. rewrite H, H1. solve_Permutation.
    + right. rewrite length_insert. auto using head_app_l.
  - destruct H2 as [(? & _)|(_ & Hl & Hh)]; [congruence|]. split; simpl; try done.
    + pose proof (under_way_insert jobs (sr_loops s) i j _ (Selecting b) Hj Hi) as H.
      unfold under_way in *. rewrite Hp in H1. simpl in *. rewrite H1, <- H. solve_Permutation.
    + right. by rewrite length_insert.
  - by apply (set_loop_inv s i (Selecting b)).
  - destruct H2 as [(? & _)|(_ & H2)]; [congruence|]. split; simpl; try done; [|by right].
    unfold under_way in *. by rewrite Hp in H1.
Qed.

Lemma sched_reachable_inv s : sched_reachable s -> sched_inv s.
Proof.
  induction 1 as [|s s' _ IH Hs]; [|by eapply sched_step_inv]. split; simpl; try done. by left.
Qed.

(** The jobs of the table are different, so no job runs beside itself. *)
Lemma under_way_sublist js ls : (p ← zip js ls; in_job p) `sublist_of` map job_of js.
Proof.
  revert ls. induction js as [|j js IH]; intros ls; [done|]. destruct ls as [|l ls].
  { apply sublist_nil_l. }
  cbn [zip zip_with map]. rewrite bind_cons. destruct l; simpl; by constructor.
Qed.

Lemma under_way_NoDup s : NoDup (under_way s).
Proof.
  unfold under_way. destruct (sr_phase s); try apply NoDup_singleton.
  all: eapply sublist_NoDup; [|apply under_way_sublist]; apply (bool_decide_eq_true_1 _); vm_compute; reflexivity.
Qed.

(** After the last loop left, nothing is under way. *)
Lemma all_left js ls : Forall (fun l => l = Left) ls -> (p ← zip js ls; in_job p) = [].
Proof.
  revert js. induction ls as [|l ls IH]; intros [|j js] H; try done.
  apply Forall_cons in H as [-> H]. cbn [zip zip_with]. rewrite bind_cons. by apply IH.
Qed.
End steps.

(** ** Shutting down *)

Definition loop_work (l : Loop) : nat :=
  match l with InJob _ => 2 | Spawned => 2 | Selecting _ => 1 | Left => 0 end.

Definition loops_work (ls : list Loop) : nat := sum_list (map loop_work ls).

Lemma loops_work_insert ls i l l' :
  ls !! i = Some l -> loop_work l' < loop_work l -> loops_work (<[i := l']> ls) < loops_work ls.
Proof.
  unfold loops_work. revert i. induction ls as [|x ls IH]; intros [|i] H Hlt; try done; simpl in H.
  - simplify_eq. change (<[0:=l']> (l :: ls)) with (l' :: ls). simpl. lia.
  - change (<[S i:=l']> (x :: ls)) with (x :: <[i:=l']> ls). specialize (IH i H Hlt). simpl in *. lia.
Qed.

Section shutdown.
Context (cfg : SchedConfig).
Hypothesis Hpos : positive_intervals cfg.

(** A loop that has not left can take a step towards it. *)
Lemma loop_step s i l :
  sched_inv cfg s -> sr_phase s = Waiting -> sr_cancelled s = true ->
  sr_loops s !! i = Some l -> l <> Left ->
  exists s', sched_step cfg s s' /\ sr_phase s' = Waiting /\ sr_cancelled s' = true /\
    loops_work (sr_loops s') < loops_work (sr_loops s).
Proof.
  intros Hinv Hp Hc Hi Hl. destruct (loop_job cfg s i l Hinv Hp Hi) as [j Hj].
  destruct l as [|b|b|]; [| | |done].
  - eexists. split; [eapply ss_ticker; eauto; by apply (Forall_lookup_1 _ _ _ _ Hpos Hj)|].
    split_and!; [done..|]. eapply loops_work_insert; [done|simpl; lia].
  - eexists. split; [by eapply ss_leave|]. split_and!; [done..|].
    eapply loops_work_insert; [done|simpl; lia].
  - eexists. split; [by eapply ss_finish|]. split_and!; [done..|].
    eapply loops_work_insert; [done|simpl; lia].
Qed.

Lemma waiting_returns n s :
  loops_work (sr_loops s) < n -> sched_inv cfg s -> sr_phase s = Waiting ->
  sr_cancelled s = true -> exists s', rtc (sched_step cfg) s s' /\ sr_phase s' = Returned.
Proof.
  revert s. induction n as [|n IH]; intros s Hn Hinv Hp Hc; [lia|].
  destruct (decide (Forall (fun l => l = Left) (sr_loops s))) as [Hall|Hnot].
  { eexists. split; [apply rtc_once; by apply ss_return|done]. }
  apply not_Forall_Exists, Exists_exists in Hnot as (l & Hl & Hne); [|apply _].
  apply list_elem_of_lookup in Hl as [i Hi].
  destruct (loop_step s i l Hinv Hp Hc Hi Hne) as (s1 & Hs & Hp1 & Hc1 & Hlt).
  destruct (IH s1) as (s2 & H2 & HR); [lia|by eapply sched_step_inv|done|done|].
  exists s2. split; [by eapply rtc_l|done].
Qed.

Lemma cancelled_returns s :
  sched_inv cfg s -> sr_cancelled s = true ->
  exists s', rtc (sched_step cfg) s s' /\ sr_phase s' = Returned.
Proof.
  intros Hinv Hc. destruct (sr_phase s) eqn:Hp.
  - pose proof (ss_prepared cfg s Hp) as Hs.
    match type of Hs with sched_step _ _ ?s1 => destruct (waiting_returns (S (loops_work (sr_loops s1))) s1)
      as (s2 & H2 & HR); [lia|by eapply sched_step_inv|done|done|] end.
    exists s2. split; [by eapply rtc_l|done].
  - by apply (waiting_returns (S (loops_work (sr_loops s)))); [lia|..].
  - by exists s.
  - by destruct (si_panicked cfg s Hinv Hpos).
Qed.
End shutdown.

(** Without a positive interval the process dies when the goroutine starts. *)
Lemma panic_reachable cfg :
  ~ positive_intervals cfg -> exists s, sched_reachable cfg s /\ sr_phase s = Panicked.
Proof.
  intros H. apply not_Forall_Exists, Exists_exists in H as (j & Hj & Hle);
    [|intros j; apply Z_lt_dec].
  simpl in Hle. apply list_elem_of_lookup in Hj as [i Hi].
  eexists. split; [|shelve]. eapply sr_next; [eapply sr_next; [apply sr_init|by apply ss_prepared]|].
  eapply (ss_panic cfg _ i j); [done| |done|lia]. simpl.
  apply lookup_lt_Some in Hi. by apply (lookup_replicate_2 7).
  Unshelve. done.
Qed.

(** The scheduler's settings as cmd/scheduler/main.go passes them on. *)
Definition scheduler_config (c : AppConfig) : SchedConfig :=
  let sd := ac_Scheduler c in
  mkSchedConfig (sd_PollInterval sd) (sd_OutboxInterval sd) (sd_OutboxBatchSize sd)
    (sd_PromoteBatch sd) (sd_ReaperInterval sd) (sd_ReconcileAfter sd) 0 0 0.

(** C20: the scheduler's loops. In every reachable state, whatever the tickers, the
    jobs and the cancellation do, the jobs begun are those ended and those under
    way, no job runs twice at once, partition maintenance is the first, and [Run]
    has returned only after a cancellation and with no job under way: [Run] waits
    for the jobs it began. If every interval is positive no goroutine panics, and from every
    cancelled state [Run] can still return. Otherwise the process can die of the
    panic of [time.NewTicker]; and [Load] accepts such a configuration
    (SCHEDULER_POLL_INTERVAL=0s), though one that sets nothing is safe. *)
Theorem scheduler_run :
  (forall cfg s, sched_reachable cfg s ->
     sr_begun s ≡ₚ sr_ended s ++ under_way cfg s /\ NoDup (under_way cfg s) /\
     head (sr_begun s) = Some JMaintain /\
     (sr_phase s = Returned -> sr_cancelled s = true /\ under_way cfg s = [])) /\
  (forall cfg, positive_intervals cfg -> forall s, sched_reachable cfg s ->
     sr_phase s <> Panicked /\
     (sr_cancelled s = true -> exists s', rtc (sched_step cfg) s s' /\ sr_phase s' = Returned)) /\
  (forall cfg, ~ positive_intervals cfg ->
     exists s, sched_reachable cfg s /\ sr_phase s = Panicked) /\
  (forall host, exists c, Load (only "SCHEDULER_POLL_INTERVAL" "0s") host = Ok c /\
     ~ positive_intervals (New (scheduler_config c))) /\
  (forall host, exists c, Load (fun _ => None) host = Ok c /\
     positive_intervals (New (scheduler_config c))).
Proof.
  split_and!.
  - intros cfg s Hr%sched_reachable_inv. pose proof Hr as [H1 H2 H3 _]. split_and!; [done|apply under_way_NoDup|..].
    + by destruct H2 as [(_ & _ & ->)|(_ & _ & H)].
    + intros Hp. destruct (H3 Hp) as [Hc Hall]. split; [done|].
      unfold under_way. rewrite Hp. by apply all_left.
  - intros cfg Hpos s Hr%sched_reachable_inv. split; [by apply (si_panicked cfg s Hr)|].
    by apply cancelled_returns.
  - apply panic_reachable.
  - intros host. exists (read_config (only "SCHEDULER_POLL_INTERVAL" "0s") host).
    split; [vm_compute; reflexivity|]. intros H.
    apply (Forall_lookup_1 _ _ 1 ("promote-due", 0%Z, JPromote)) in H; [done|reflexivity].
  - intros host. exists (read_config (fun _ => None) host).
    split; [vm_compute; reflexivity|]. by repeat constructor.
Qed.
