(* ===== verification/SchedulerDrain.v ===== *)
(** * The draining jobs: [promoteDue], [sweepRetries]

    Both loops are one loop over a transition of the store. It ends, whatever
    fails on the way, when nothing is due or at the first transaction that fails;
    a zero batch size makes it spin. *)

From S2P Require Import Prelude GoStrings Domain Store StoreRuns StoreInv StoreCalls.
From S2P Require Import StoreQuiet StoreSamples StoreDue Scheduler.

Local Open Scope string_scope.
Local Open Scope list_scope.

(** ** What a draining job does to the tables *)

Section drained.
Context `{codec : !MessageCodec} (due : Delivery -> bool) (key : Delivery -> Z)
  (locked : uuid * time -> bool) (now : time).
Context (Hpending : forall x, due (pending_row now x) = false).

Definition candidate (x : Delivery) : bool := due x && negb (locked (del_key x)).

(** Every delivery is left alone, or was due and is PENDING now with its
    message in the outbox. *)
Record drained (d d' : DB) : Prop := {
  dr_rows : Forall2 (fun x y => y = x \/ candidate x = true /\ y = pending_row now x /\
    exists row, row ∈ outbox d' /\ enqueued now x row) (deliveries d) (deliveries d');
  dr_outbox : exists rows, outbox d' = outbox d ++ rows;
  dr_requests : requests d' = requests d
}.

Lemma drained_same d d' :
  deliveries d' = deliveries d -> outbox d' = outbox d -> requests d' = requests d ->
  drained d d'.
Proof.
  intros E1 E2 E3. split; [|by exists []; rewrite app_nil_r|done].
  rewrite E1. apply Forall_Forall2_diag, Forall_forall. by left.
Qed.

Lemma drained_trans d1 d2 d3 : drained d1 d2 -> drained d2 d3 -> drained d1 d3.
Proof.
  intros [R1 [o1 E1] Q1] [R2 [o2 E2] Q2].
  split; [|exists (o1 ++ o2); by rewrite E2, E1, app_assoc|congruence].
  revert R1 R2. apply Forall2_trans.
  intros x y z [->|(Hx & -> & row & Hrow & He)] [->|(Hy & -> & row' & H')]; [by left| |..].
  - right. eauto.
  - right. split_and!; [done..|]. exists row. rewrite E2, elem_of_app. auto.
  - unfold candidate in Hy. by rewrite Hpending in Hy.
Qed.

Section batch.
Context (limit : Z) (d : DB) (n : Z) (d' : DB) (sel : list Delivery).
Context (Hnd : NoDup (map del_key (deliveries d))).
Context (T : transitioned due key locked now limit d n d' sel).

Notation chosen := (fun x => bool_decide (del_key x ∈ map del_key sel)).

Lemma chosen_sel x : x ∈ deliveries d -> chosen x = true -> x ∈ sel.
Proof.
  rewrite bool_decide_eq_true, list_elem_of_fmap. intros Hx (y & E & Hy).
  destruct (tr_due _ _ _ _ _ _ _ _ _ T y Hy) as [Hyd _].
  by rewrite (NoDup_key_inj del_key _ x y Hnd Hx Hyd E).
Qed.

Lemma sel_candidate x : x ∈ sel -> candidate x = true.
Proof.
  intros Hx. destruct (tr_due _ _ _ _ _ _ _ _ _ T x Hx) as (_ & H1 & H2).
  unfold candidate. by rewrite H1, H2.
Qed.

Lemma transitioned_drained : drained d d'.
Proof.
  destruct (tr_outbox _ _ _ _ _ _ _ _ _ T) as (rows & new & Eo & Hperm & Hnew).
  split; [|eauto|apply (tr_requests _ _ _ _ _ _ _ _ _ T)].
  rewrite (tr_rows _ _ _ _ _ _ _ _ _ T). apply Forall2_update. intros x Hx.
  destruct (bool_decide _) eqn:E; [|by left]. right. apply chosen_sel in E; [|done].
  split_and!; [by apply sel_candidate|done|].
  rewrite <- Hperm in E. apply (Forall2_partner _ _ _ _ Hnew) in E as (row & Hrow & He).
  exists row. rewrite Eo, elem_of_app. auto.
Qed.

(** The batch leaves the candidates it did not take. *)
Lemma transitioned_left :
  (Z.of_nat (count_where candidate (deliveries d')) + n
   = Z.of_nat (count_where candidate (deliveries d)))%Z.
Proof.
  pose proof (tr_keys _ _ _ _ _ _ _ _ _ T) as Hs. rewrite (tr_rows _ _ _ _ _ _ _ _ _ T), count_update.
  rewrite (count_split candidate chosen (deliveries d)).
  rewrite (tr_length _ _ _ _ _ _ _ _ _ T).
  rewrite (count_ext _ (fun x => candidate x && negb (chosen x))).
  2: { intros x _. destruct (bool_decide _); simpl negb; rewrite ?andb_true_r, ?andb_false_r;
         [|done]. unfold candidate. by rewrite Hpending. }
  rewrite (count_ext (fun x => candidate x && chosen x) chosen).
  2: { intros x Hx. destruct (bool_decide _) eqn:E; [|by rewrite andb_false_r].
       by rewrite (sel_candidate x (chosen_sel x Hx E)). }
  unfold count_where at 2. rewrite (where_key_among del_key (deliveries d) sel); [lia|done|done|].
  intros x Hx. apply (tr_due _ _ _ _ _ _ _ _ _ T x Hx).
Qed.
End batch.
End drained.

(** ** The loop *)

Lemma on_store_inv {A} (m : eff Sess error A) s r s' :
  on_store m s = (r, s') -> exists x, m (sw_sess s) = (r, x) /\
    s' = mkSWorld x (sw_sent s) (sw_tries s) (sw_metrics s).
Proof. unfold on_store. destruct (m (sw_sess s)) as [r1 x]. intros [= <- <-]. eauto. Qed.

(** [promoteDue] and [sweepRetries], over the transaction and what is recorded
    about its result. *)
Section loop.
Context (m : eff SWorld error Z) (note : Z -> eff SWorld error ()) (limit : Z).

Fixpoint drain (fuel : nat) : eff SWorld error () :=
  match fuel with
  | 0 => spent
  | S fuel =>
      r ← attempt m;
      match r with
      | Err _ => mret ()
      | Ok n =>
          note n ≫= fun _ =>
          if (n <? limit)%Z then mret () else drain fuel
      end
  end.
End loop.

Section drain.
Context `{codec : !MessageCodec} (due : Delivery -> bool) (key : Delivery -> Z)
  (locked : uuid * time -> bool) (now : time).
Context (Hpending : forall x, due (pending_row now x) = false).
Context (m : eff Sess error Z) (note : Z -> eff SWorld error ()) (limit : Z).
Context (Hatomic : atomic m).
Context (Hwf : forall d n d', runs m d n d' -> db_wf d -> db_wf d').
Context (Hstep : forall d n d', db_wf d -> runs m d n d' ->
  exists sel, transitioned due key locked now limit d n d' sel).
Context (Hnote : forall n s, exists s', note n s = (Ok (), s') /\ sw_sess s' = sw_sess s /\
  sw_sent s' = sw_sent s).
(** Anything the transaction preserves on the session holds all along. *)
Context (I : Sess -> Prop) (HI : forall ss r ss', I ss -> m ss = (r, ss') -> I ss').

Notation left_over d := (count_where (candidate due locked) (deliveries d)).

Lemma drain_spec fuel s :
  db_wf (sw_db s) -> I (sw_sess s) -> (0 < limit)%Z -> left_over (sw_db s) < fuel ->
  exists s', drain (on_store m) note limit fuel s = (Ok (), s') /\
    drained due locked now (sw_db s) (sw_db s') /\ sw_sent s' = sw_sent s /\
    I (sw_sess s') /\ db_wf (sw_db s') /\
    (left_over (sw_db s') = 0 \/
     exists s1 e, I (sw_sess s1) /\ db_wf (sw_db s1) /\ on_store m s1 = (Err e, s') /\
       (sw_db s1 = sw_db s' \/ ~ heard (sw_sess s1))).
Proof.
  revert s. induction fuel as [|fuel IH]; intros s Hd Hs Hlim Hfuel; [lia|].
  simpl. destruct (on_store m s) as [r s1] eqn:E. rewrite (attempt_bind _ _ _ _ _ E).
  pose proof E as (x & Hm & Es)%on_store_inv. pose proof (HI _ _ _ Hs Hm) as Hx.
  assert (Hs1 : I (sw_sess s1)) by (by rewrite Es).
  destruct r as [n|e].
  - destruct (Hnote n s1) as (s2 & En & Hs2 & Hsent).
    rewrite (bind_step_ok _ _ _ _ _ En). clear En.
    assert (Hr : runs m (sw_db s) n (sw_db s2)).
    { unfold sw_db at 2. rewrite Hs2, Es. by apply run_runs in Hm. }
    destruct (Hstep _ _ _ Hd Hr) as (sel & T).
    pose proof (wf_delivery_keys _ _ _ Hd) as Hk.
    pose proof (transitioned_left _ _ _ _ Hpending _ _ _ _ _ Hk T) as Hleft.
    pose proof (transitioned_drained _ _ _ _ _ _ _ _ _ Hk T) as Hdr.
    pose proof (Hwf _ _ _ Hr Hd) as Hd2. assert (HI2 : I (sw_sess s2)) by (by rewrite Hs2).
    assert (Hsent2 : sw_sent s2 = sw_sent s) by (by rewrite Hsent, Es).
    pose proof (tr_moved _ _ _ _ _ _ _ _ _ T) as Hn.
    change (fun x : Delivery => due x && negb (locked (del_key x)))
      with (candidate due locked) in Hn.
    destruct (Z.ltb_spec n limit) as [Hlt|Hge].
    + exists s2. split_and!; auto. left. lia.
    + destruct (IH s2) as (s' & -> & Hdr' & Hs' & Hend); [done|auto|done|lia|].
      exists s'. split_and!; [done| |congruence|apply Hend..]. by eapply drained_trans.
  - assert (Hsent : sw_sent s1 = sw_sent s) by (by rewrite Es).
    pose proof (Hatomic _ _ _ Hm) as Ha. assert (Ex : db x = sw_db s1) by (by rewrite Es).
    rewrite Ex in Ha. destruct Ha as [Hdb|(Hh & n & Hr)].
    + exists s1. rewrite Hdb. split_and!; [done|by apply drained_same|done|done|done|].
      right. exists s, e. split_and!; [done..|by left].
    + destruct (Hstep _ _ _ Hd Hr) as (sel & T).
      pose proof (wf_delivery_keys _ _ _ Hd) as Hk.
      exists s1. split_and!; [done| |done|done|by apply (Hwf _ _ _ Hr)|].
      * eapply transitioned_drained; [exact Hk|exact T].
      * right. exists s, e. split_and!; [done..|by right].
Qed.
End drain.

(** A transaction that moves nothing and says so never ends a loop whose batch
    size is zero. *)
Lemma drain_spins m note fuel s :
  m s = (Ok 0%Z, s) -> note 0%Z s = (Ok (), s) ->
  drain m note 0 fuel s = (Err (ELib "fuel"), s).
Proof.
  intros Hm Hn. induction fuel as [|fuel IH]; [done|]. simpl.
  unfold attempt, mbind, eff_bind. by rewrite Hm, Hn.
Qed.

(** ** The jobs *)

Section jobs.
Context `{codec : !MessageCodec} `{uuids : !UuidSource}.
Context (up : nat -> bool) (now : time) (locked : uuid * time -> bool)
  (queue_depth queue_pending : string -> eff SWorld error Z) (cfg : SchedConfig).

#[local] Instance ports : SchedPorts SWorld :=
  store_sched up now locked queue_depth queue_pending.

Definition note_promoted (n : Z) : eff SWorld error () :=
  if (n >? 0)%Z then sp_Metric (AddPromoted n) else mret ().

Lemma promoteDue_drain fuel :
  promoteDue cfg fuel
  = drain (on_store (PromoteDue locked now (sc_PromoteBatch cfg))) note_promoted
      (sc_PromoteBatch cfg) fuel.
Proof. reflexivity. Qed.

Lemma sweepRetries_drain fuel :
  sweepRetries cfg fuel
  = drain (on_store (SweepRetries locked now (sc_PromoteBatch cfg))) (fun _ => mret ())
      (sc_PromoteBatch cfg) fuel.
Proof. reflexivity. Qed.

Lemma note_promoted_keeps n s : exists s', note_promoted n s = (Ok (), s') /\
  sw_sess s' = sw_sess s /\ sw_sent s' = sw_sent s.
Proof. unfold note_promoted. destruct (n >? 0)%Z; eexists; split; done. Qed.

Definition due_scheduled : Delivery -> bool := candidate (scheduled_due now) locked.
Definition due_retry : Delivery -> bool := candidate (retry_due now) locked.

(** What is known when a loop over [step] has returned from [s] to [s']. *)
Definition drain_result (due : Delivery -> bool) (step : eff SWorld error Z)
    (s s' : SWorld) : Prop :=
  drained due locked now (sw_db s) (sw_db s') /\ sw_sent s' = sw_sent s /\
  (count_where (candidate due locked) (deliveries (sw_db s')) = 0 \/
   exists s1 e, step s1 = (Err e, s') /\ (sw_db s1 = sw_db s' \/ ~ heard (sw_sess s1))).

Section keeping.
Context (I : Sess -> Prop) (b : Z) (Hb : sc_PromoteBatch cfg = b).

Lemma promoteDue_run fuel s :
  (forall ss r ss', I ss -> PromoteDue locked now b ss = (r, ss') -> I ss') ->
  db_wf (sw_db s) -> I (sw_sess s) -> (0 < b)%Z ->
  count_where due_scheduled (deliveries (sw_db s)) < fuel ->
  exists s', promoteDue cfg fuel s = (Ok (), s') /\
    drained (scheduled_due now) locked now (sw_db s) (sw_db s') /\ sw_sent s' = sw_sent s /\
    I (sw_sess s') /\ db_wf (sw_db s') /\
    (count_where due_scheduled (deliveries (sw_db s')) = 0 \/
     exists s1 e, I (sw_sess s1) /\ db_wf (sw_db s1) /\ sp_PromoteDue b s1 = (Err e, s') /\
       (sw_db s1 = sw_db s' \/ ~ heard (sw_sess s1))).
Proof.
  intros HI. rewrite promoteDue_drain, Hb.
  apply (drain_spec (scheduled_due now) (fun x => default 0%Z (d_SendAt x)) locked now); try done.
  - apply withTx_atomic. framed.
  - intros d n d' H. by apply (PromoteDue_wf _ _ _ _ _ _ H).
  - intros d n d' Hd. apply transition_spec, Hd.
  - apply note_promoted_keeps.
Qed.

Lemma sweepRetries_run fuel s :
  (forall ss r ss', I ss -> SweepRetries locked now b ss = (r, ss') -> I ss') ->
  db_wf (sw_db s) -> I (sw_sess s) -> (0 < b)%Z ->
  count_where due_retry (deliveries (sw_db s)) < fuel ->
  exists s', sweepRetries cfg fuel s = (Ok (), s') /\
    drained (retry_due now) locked now (sw_db s) (sw_db s') /\ sw_sent s' = sw_sent s /\
    I (sw_sess s') /\ db_wf (sw_db s') /\
    (count_where due_retry (deliveries (sw_db s')) = 0 \/
     exists s1 e, I (sw_sess s1) /\ db_wf (sw_db s1) /\ sp_SweepRetries b s1 = (Err e, s') /\
       (sw_db s1 = sw_db s' \/ ~ heard (sw_sess s1))).
Proof.
  intros HI. rewrite sweepRetries_drain, Hb.
  apply (drain_spec (retry_due now) (fun x => default 0%Z (d_NextRetryAt x)) locked now); try done.
  - apply withTx_atomic. framed.
  - intros d n d' H. by apply (SweepRetries_wf _ _ _ _ _ _ H).
  - intros d n d' Hd. apply transition_spec, Hd.
  - intros n s0. by exists s0.
Qed.
End keeping.

(** C34: with a positive batch size [promoteDue] and [sweepRetries] always
    return, whatever the database answers: as many iterations as there are due
    deliveries, and one more, are enough. Every delivery they touched was due
    and is PENDING with its message in the outbox, every other one is
    untouched, and a loop stops early only at a transaction that failed, which
    changed nothing unless a reply was lost: otherwise nothing due is left. *)
Theorem promote_sweep_drain fuel s :
  reachable (sw_db s) -> (0 < sc_PromoteBatch cfg)%Z ->
  (count_where due_scheduled (deliveries (sw_db s)) < fuel ->
   exists s', promoteDue cfg fuel s = (Ok (), s') /\
     drain_result (scheduled_due now) (sp_PromoteDue (sc_PromoteBatch cfg)) s s') /\
  (count_where due_retry (deliveries (sw_db s)) < fuel ->
   exists s', sweepRetries cfg fuel s = (Ok (), s') /\
     drain_result (retry_due now) (sp_SweepRetries (sc_PromoteBatch cfg)) s s').
Proof.
  intros Hwf%reachable_wf Hb. split; intros Hf.
  - destruct (promoteDue_run (fun _ => True) _ eq_refl fuel s)
      as (s' & H & Hdr & Hs & _ & _ & Hend); try done.
    exists s'. split; [done|]. split; [done|]. split; [done|].
    destruct Hend as [?|(s1 & e & _ & _ & ? & ?)]; [by left|right; eauto].
  - destruct (sweepRetries_run (fun _ => True) _ eq_refl fuel s)
      as (s' & H & Hdr & Hs & _ & _ & Hend); try done.
    exists s'. split; [done|]. split; [done|]. split; [done|].
    destruct Hend as [?|(s1 & e & _ & _ & ? & ?)]; [by left|right; eauto].
Qed.

(** With [PromoteBatch] zero, which the configuration accepts, neither loop
    ever returns, on an empty database too. *)
Lemma zero_batch_transition due key d rep n :
  transitionAndEnqueue (transition_sql due key locked now) now 0 (quiet d rep n)
  = (Ok 0%Z, quiet d rep n).
Proof.
  unfold transitionAndEnqueue.
  assert (E : transition_sql due key locked now 0 d = Ok ([], d)).
  { unfold transition_sql, limit_rows. simpl. rewrite where_none by done.
    unfold update_deliveries. rewrite update_none by done. by destruct d. }
  erewrite withTx_quiet with (r := Ok 0%Z); [done|].
  erewrite bind_quiet; [|by rewrite wrap_quiet, Exec_quiet, E]. done.
Qed.

Theorem zero_batch_spins d rep n sent tries metrics fuel :
  sc_PromoteBatch cfg = 0%Z ->
  let s := mkSWorld (quiet d rep n) sent tries metrics in
  promoteDue cfg fuel s = (Err (ELib "fuel"), s) /\
  sweepRetries cfg fuel s = (Err (ELib "fuel"), s).
Proof.
  intros E s. rewrite promoteDue_drain, sweepRetries_drain, E.
  split; apply drain_spins; try done; unfold on_store; simpl;
    unfold PromoteDue, SweepRetries; by rewrite zero_batch_transition.
Qed.
End jobs.

Definition sample_sched : SchedConfig := mkSchedConfig 0 0 2 1 0 60 30 3 Day.
Definition no_gauge (_ : string) : eff SWorld error Z := mret 0%Z.

Definition sample_start : SWorld := mkSWorld (quiet sample_db None 0) [] 0 [].
Definition sample_promote : result error () * SWorld :=
  promoteDue (ports := ports (fun _ => true) 600000 no_lock no_gauge no_gauge)
    sample_sched 5 sample_start.

(** One batch at a time, at time 600000: request 4's delivery becomes PENDING. *)
Example sample_promote_pending :
  map d_ID (where_ (has_status DeliveryPending) (deliveries (sw_db (snd sample_promote))))
  = [11%N; 14%N].
Proof. vm_compute. reflexivity. Qed.

Lemma promote_sweep_drain_witness :
  exists s', sample_promote = (Ok (), s') /\
    drain_result 600000 no_lock (scheduled_due 600000)
      (@sp_PromoteDue _ (ports (fun _ => true) 600000 no_lock no_gauge no_gauge) 1)
      sample_start s'.
Proof.
  apply (proj1 (promote_sweep_drain (fun _ => true) 600000 no_lock no_gauge no_gauge sample_sched
    5 sample_start sample_db_reachable ltac:(reflexivity))).
  apply Nat.ltb_lt. vm_compute. reflexivity.
Defined.

Definition empty_start : SWorld := mkSWorld (quiet empty_db None 0) [] 0 [].
Definition zero_batch : SchedConfig := mkSchedConfig 0 0 2 0 0 60 30 3 Day.

Lemma zero_batch_spins_witness :
  promoteDue (ports := ports (fun _ => true) 600000 no_lock no_gauge no_gauge)
    zero_batch 1000 empty_start = (Err (ELib "fuel"), empty_start).
Proof.
  exact (proj1 (zero_batch_spins (fun _ => true) 600000 no_lock no_gauge no_gauge
    zero_batch empty_db None 0 [] 0 [] 1000 eq_refl)).
Defined.
