(* ===== verification/SchedulerRelay.v ===== *)
(** * The outbox relay: [relayOutbox]

    What it publishes and marks under any failures of the database and the
    queue; that with both up it sends every unpublished row once, oldest first;
    and that with the queue down and a full batch waiting it does not return. *)

From S2P Require Import Prelude GoStrings Domain Store StoreRuns StoreInv StoreCalls.
From S2P Require Import StoreQuiet StoreSamples StoreDue Scheduler SchedulerDrain.

Local Open Scope string_scope.
Local Open Scope list_scope.

Definition entry_message (e : OutboxEntry) : string * DeliveryMessage :=
  (oe_Stream e, oe_Message e).

Section relay.
Context `{codec : !MessageCodec} `{uuids : !UuidSource}.
Context (up : nat -> bool) (now : time) (locked : uuid * time -> bool)
  (queue_depth queue_pending : string -> eff SWorld error Z) (cfg : SchedConfig).

#[local] Instance relay_ports : SchedPorts SWorld :=
  store_sched up now locked queue_depth queue_pending.

(** ** One batch *)

(** The entries whose publication is accepted, from the [n]-th attempt on. *)
Fixpoint accepted (n : nat) (entries : list OutboxEntry) : list OutboxEntry :=
  match entries with
  | [] => []
  | e :: rest => if up n then e :: accepted (S n) rest else accepted (S n) rest
  end.

Lemma publish_all_run entries s :
  publish_all entries s
  = (Ok (map oe_ID (accepted (sw_tries s) entries)),
     mkSWorld (sw_sess s) (sw_sent s ++ map entry_message (accepted (sw_tries s) entries))
       (sw_tries s + length entries) (sw_metrics s)).
Proof.
  revert s. induction entries as [|e rest IH]; intros [ss sent tr me]; simpl.
  - by rewrite app_nil_r, Nat.add_0_r.
  - unfold mbind, eff_bind, attempt, publish. simpl. unfold entry_message at 1.
    destruct (up tr); simpl; rewrite IH; simpl; rewrite <- ?app_assoc;
      by rewrite Nat.add_succ_r.
Qed.

Lemma accepted_sub n entries e : e ∈ accepted n entries -> e ∈ entries.
Proof.
  revert n. induction entries as [|x l IH]; intros n; [done|]. simpl.
  destruct (up n); rewrite ?elem_of_cons; naive_solver.
Qed.

Lemma accepted_all n entries : (forall k, up k = true) -> accepted n entries = entries.
Proof. intros H. revert n. induction entries as [|x l IH]; intros n; [done|]. simpl. by rewrite H, IH. Qed.

Lemma accepted_none n entries : (forall k, up k = false) -> accepted n entries = [].
Proof. intros H. revert n. induction entries as [|x l IH]; intros n; [done|]. simpl. by rewrite H, IH. Qed.

(** An outbox row and the entry read from it. *)
Definition entry_of (row : OutboxRow) (e : OutboxEntry) : Prop :=
  oe_ID e = ob_id row /\ oe_Stream e = ob_stream row /\
  unmarshalMessage (ob_payload row) = Ok (oe_Message e).

Lemma decode_outbox_ok rows es : decode_outbox rows = Ok es -> Forall2 entry_of rows es.
Proof.
  revert es. induction rows as [|row rows IH]; simpl; intros es H; [simplify_eq; constructor|].
  destruct (unmarshalMessage (ob_payload row)) as [m|] eqn:Em; [|done].
  destruct (decode_outbox rows) as [es'|]; [|done]. simplify_eq.
  constructor; [by split_and!|by apply IH].
Qed.

Lemma decode_outbox_total rows :
  (forall row, row ∈ rows -> is_ok (unmarshalMessage (ob_payload row)) = true) ->
  exists es, decode_outbox rows = Ok es.
Proof.
  induction rows as [|row rows IH]; intros H; simpl; [eauto|].
  pose proof (H row ltac:(left)) as Hr.
  destruct (unmarshalMessage (ob_payload row)); [|done].
  destruct IH as [es ->]; [|eauto]. intros x Hx. apply H. by right.
Qed.

Lemma fetch_runs limit d es d' :
  runs (FetchUnpublishedOutbox (fun _ => false) limit) d es d' ->
  d' = d /\ exists rows, Forall2 entry_of rows es /\
    forall row, row ∈ rows -> row ∈ outbox d /\ unpublished row = true.
Proof.
  intros H. unfold FetchUnpublishedOutbox in H. inv_runs. simplify_eq. split; [done|].
  match goal with H : fetch_outbox_sql _ _ _ = _ |- _ => rename H into Hf end.
  match goal with H : decode_outbox _ = _ |- _ => apply decode_outbox_ok in H; rename H into Hd end.
  exists a. split; [done|]. intros row Hrow. unfold fetch_outbox_sql, limit_rows in Hf.
  destruct (Z.ltb_spec limit 0); simplify_eq. apply elem_of_order_take, elem_of_where in Hrow.
  rewrite andb_true_r in Hrow. done.
Qed.

Lemma MarkOutboxPublished_run ids at_ d d' :
  runs (MarkOutboxPublished ids at_) d () d' -> d' = all_published ids at_ d.
Proof.
  unfold MarkOutboxPublished. case_bool_decide as E; intros H.
  - apply length_zero_iff_nil in E as ->. apply runs_ret in H as [_ ->].
    unfold all_published. rewrite update_none by done. by destruct d.
  - inv_runs. unfold mark_published_sql in H. by simplify_eq.
Qed.

Lemma MarkOutboxPublished_atomic ids at_ : atomic (MarkOutboxPublished ids at_).
Proof. apply (exec_atomic (CallMarkOutboxPublished ids at_)). Qed.

Lemma Fetch_db limit ss r ss' :
  FetchUnpublishedOutbox (fun _ => false) limit ss = (r, ss') -> db ss' = db ss.
Proof.
  unfold FetchUnpublishedOutbox, wrap, attempt, Query, Exec, mbind, eff_bind.
  destruct (round_trip ss) as [[[e|t]|] s1] eqn:E; apply round_trip_db in E; simpl;
    [by intros [= _ <-]|by intros [= _ <-]|].
  destruct (fetch_outbox_sql _ _ _); simpl; by intros [= _ <-].
Qed.

(** ** What a run did, whatever failed *)

(** The message a row carries to its stream. *)
Definition carries (row : OutboxRow) (p : string * DeliveryMessage) : Prop :=
  ob_stream row = p.1 /\ unmarshalMessage (ob_payload row) = Ok p.2.

(** [new] was published, each from an unpublished row; a row is marked only if
    its own message is in [new]. *)
Record relayed (new : list (string * DeliveryMessage)) (d d' : DB) : Prop := {
  rl_tables : d' = set_outbox (outbox d') d;
  rl_rows : Forall2 (fun row row' => row' = row \/
    unpublished row = true /\ row' = published_row now row /\
    exists p, p ∈ new /\ carries row p) (outbox d) (outbox d');
  rl_new : forall p, p ∈ new -> exists row, row ∈ outbox d /\ unpublished row = true /\ carries row p
}.

Lemma entry_carries row e : entry_of row e -> carries row (entry_message e).
Proof. intros (_ & E1 & E2). split; simpl; congruence. Qed.

Lemma relayed_trans new1 new2 d1 d2 d3 :
  relayed new1 d1 d2 -> relayed new2 d2 d3 -> relayed (new1 ++ new2) d1 d3.
Proof.
  intros [T1 R1 N1] [T2 R2 N2]. split.
  - rewrite T2, T1. by destruct d1.
  - revert R1 R2. apply Forall2_trans.
    intros x y z [->|(Hx & -> & p & Hp & Hc)] [->|(Hy & -> & q & Hq & Hc')]; [by left| |..].
    + right. split_and!; [done..|]. exists q. set_solver.
    + right. split_and!; [done..|]. exists p. set_solver.
    + done.
  - intros p [Hp|Hp]%elem_of_app; [auto|].
    destruct (N2 p Hp) as (row & Hrow & Hu & Hc).
    apply list_elem_of_lookup in Hrow as [i Hi].
    destruct (Forall2_lookup_r _ _ _ _ _ R1 Hi) as (row1 & Hi1 & [->|(_ & -> & _)]); [|done].
    exists row1. split; [by apply list_elem_of_lookup_2 in Hi1|done].
Qed.

(** Publication of some of the fetched entries, marked or not. *)
Lemma relayed_batch d rows es acc :
  NoDup (map ob_id (outbox d)) -> Forall2 entry_of rows es ->
  (forall row, row ∈ rows -> row ∈ outbox d /\ unpublished row = true) ->
  (forall e, e ∈ acc -> e ∈ es) ->
  relayed (map entry_message acc) d d /\
  relayed (map entry_message acc) d (all_published (map oe_ID acc) now d).
Proof.
  intros Hnd He Hrows Hacc.
  assert (Hsrc : forall e, e ∈ acc -> exists row, row ∈ outbox d /\
    unpublished row = true /\ entry_of row e).
  { intros e [i Hi]%Hacc%list_elem_of_lookup.
    destruct (Forall2_lookup_r _ _ _ _ _ He Hi) as (row & Hi' & Hent).
    apply list_elem_of_lookup_2 in Hi'. destruct (Hrows row Hi'). eauto. }
  assert (Hnew : forall p, p ∈ map entry_message acc ->
    exists row, row ∈ outbox d /\ unpublished row = true /\ carries row p).
  { intros p (e & -> & Ha)%list_elem_of_fmap. destruct (Hsrc e Ha) as (row & ? & ? & ?).
    eauto using entry_carries. }
  split; split; [by destruct d| |done|done| |done].
  - apply Forall_Forall2_diag, Forall_forall. by left.
  - simpl. apply Forall2_update. intros row Hrow.
    destruct (id_in _ (ob_id row)) eqn:E; [|by left]. right. unfold id_in in E.
    apply existsb_exists in E as (id & Hid & Hk%N.eqb_eq).
    apply list_elem_of_In, list_elem_of_fmap in Hid as (e & -> & Ha).
    destruct (Hsrc e Ha) as (row0 & Hr0 & Hu & Hent).
    assert (row = row0) as -> by
      (apply (NoDup_key_inj ob_id (outbox d)); auto; by destruct Hent as [<- _]).
    split_and!; [done..|]. exists (entry_message e).
    split; [apply list_elem_of_fmap; eauto|by apply entry_carries].
Qed.

Lemma relayed_nothing d : relayed [] d d.
Proof.
  split; [by destruct d| |by intros p ?%not_elem_of_nil].
  apply Forall_Forall2_diag, Forall_forall. by left.
Qed.

(** One iteration: it ends the run or hands over to the next one. *)
Lemma relay_iteration fuel s :
  db_wf (sw_db s) -> exists s1 new,
    sw_sent s1 = sw_sent s ++ new /\ relayed new (sw_db s) (sw_db s1) /\ db_wf (sw_db s1) /\
    (relayOutbox cfg (S fuel) s = (Ok (), s1) \/
     relayOutbox cfg (S fuel) s = relayOutbox cfg fuel s1).
Proof.
  intros Hd. cbn [relayOutbox].
  destruct (sp_FetchUnpublishedOutbox (sc_OutboxBatchSize cfg) s) as [r s1] eqn:E.
  erewrite attempt_bind by exact E. apply on_store_inv in E as (x & Hf & ->).
  pose proof (Fetch_db _ _ _ _ Hf) as Hdb.
  assert (Hstop : exists s1 new, sw_sent s1 = sw_sent s ++ new /\
    relayed new (sw_db s) (sw_db s1) /\ db_wf (sw_db s1) /\
    s1 = mkSWorld x (sw_sent s) (sw_tries s) (sw_metrics s)).
  { exists (mkSWorld x (sw_sent s) (sw_tries s) (sw_metrics s)), []. rewrite app_nil_r. unfold sw_db in *. simpl. rewrite Hdb.
    split_and!; [|by apply relayed_nothing|done|]; done. }
  destruct r as [es|e].
  2: { destruct Hstop as (s1 & new & ? & ? & ? & ->). eexists _, new. eauto. }
  destruct es as [|e0 es0] eqn:Ees.
  { destruct Hstop as (s1 & new & ? & ? & ? & ->). eexists _, new. eauto. }
  clear Hstop. rewrite <- Ees in *. erewrite bind_step_ok by apply publish_all_run.
  apply run_runs, fetch_runs in Hf as [_ (rows & Hent & Hrows)]. cbn [sw_sess sw_tries sw_sent].
  set (acc := accepted (sw_tries s) es).
  destruct (relayed_batch (sw_db s) rows es acc (wf_outbox_ids _ _ _ Hd) Hent Hrows
    (accepted_sub _ _)) as [Hb1 Hb2].
  destruct (sp_MarkOutboxPublished (map oe_ID acc) (mkSWorld x (sw_sent s ++ map entry_message acc)
    (sw_tries s + length es) (sw_metrics s))) as [r s2] eqn:E2.
  erewrite attempt_bind by exact E2. apply on_store_inv in E2 as (x2 & Hm & ->).
  cbn [sw_sess sw_tries sw_sent] in *. eexists (mkSWorld x2 _ _ _), _. split; [done|].
  unfold sw_db in *. cbn [sw_sess].
  assert (Hend : relayed (map entry_message acc) (db (sw_sess s)) (db x2) /\ db_wf (db x2)).
  { destruct (atomic_cases _ _ _ _ (MarkOutboxPublished_atomic _ _) Hm) as [->|[[] Hr]]; [by rewrite Hdb|].
    pose proof (MarkOutboxPublished_wf _ _ _ _ Hr) as Hw. apply MarkOutboxPublished_run in Hr.
    rewrite Hr, Hdb in *. split; [done|by apply Hw]. }
  destruct Hend as [? ?]. split_and!; [done..|].
  destruct r as [[]|e]; [destruct (Z.ltb _ _); eauto|eauto].
Qed.

(** C29: the relay is at-least-once and never loses a row. Whatever the database
    and the queue refuse or leave unanswered, and wherever the run stops, everything it published
    is the message of an unpublished row on that row's own stream; it marks a
    row as published only if the queue accepted that row's message in this
    run, every other row stays unpublished for a later tick, and no other table
    changes. *)
Theorem relayOutbox_at_least_once fuel s r s' :
  reachable (sw_db s) -> relayOutbox cfg fuel s = (r, s') ->
  exists new, sw_sent s' = sw_sent s ++ new /\ relayed new (sw_db s) (sw_db s').
Proof.
  intros Hd%reachable_wf. revert s r s' Hd.
  induction fuel as [|fuel IH]; intros s r s' Hd H.
  { unfold relayOutbox, spent, raise in H. simplify_eq. exists [].
    by rewrite app_nil_r; auto using relayed_nothing. }
  destruct (relay_iteration fuel s Hd) as (s1 & new & Hs & Hr & Hw & [E|E]); rewrite E in H.
  - simplify_eq. eauto.
  - apply IH in H as (new2 & Hs2 & Hr2); [|done]. exists (new ++ new2).
    rewrite Hs2, Hs, app_assoc. eauto using relayed_trans.
Qed.

(** ** A run against a database and a queue that answer *)

Definition readable (d : DB) : Prop := forall row, row ∈ outbox d ->
  unpublished row = true -> is_ok (unmarshalMessage (ob_payload row)) = true.

(** The batch a fetch selects. *)
Definition oldest_unpublished (limit : Z) (d : DB) : list OutboxRow :=
  take (Z.to_nat limit) (order_by ob_created_at (where_ unpublished (outbox d))).

Lemma oldest_unpublished_elem limit d row :
  row ∈ oldest_unpublished limit d -> row ∈ outbox d /\ unpublished row = true.
Proof. intros H. by apply elem_of_order_take, elem_of_where in H. Qed.

Lemma fetch_quiet limit d rep n :
  (0 <= limit)%Z -> readable d -> exists es,
    FetchUnpublishedOutbox (fun _ => false) limit (quiet d rep n) = (Ok es, quiet d rep n) /\
    Forall2 entry_of (oldest_unpublished limit d) es.
Proof.
  intros Hl Hr. destruct (decode_outbox_total (oldest_unpublished limit d)) as [es Hes].
  { intros row [Hrow Hu]%oldest_unpublished_elem. by apply Hr. }
  exists es. split; [|by apply decode_outbox_ok].
  unfold FetchUnpublishedOutbox. erewrite bind_quiet.
  2: { rewrite wrap_quiet. erewrite bind_quiet; [|apply Query_quiet].
       unfold fetch_outbox_sql, limit_rows, of_result. rewrite (proj2 (Z.ltb_ge _ _)) by done.
       rewrite (where_ext _ unpublished); [done|]. intros. by rewrite andb_true_r. }
  fold (oldest_unpublished limit d). unfold of_result. by rewrite Hes.
Qed.

Lemma mark_published_quiet ids d rep n :
  MarkOutboxPublished ids now (quiet d rep n) = (Ok (), quiet (all_published ids now d) rep n).
Proof.
  unfold MarkOutboxPublished. case_bool_decide as E.
  - apply length_zero_iff_nil in E as ->. unfold all_published.
    rewrite update_none by done. by destruct d.
  - by rewrite wrap_quiet, Exec_quiet.
Qed.

Lemma iteration_quiet fuel d rep n sent tries metrics :
  (0 < sc_OutboxBatchSize cfg)%Z -> readable d ->
  exists es, let acc := accepted tries es in
    Forall2 entry_of (oldest_unpublished (sc_OutboxBatchSize cfg) d) es /\
    relayOutbox cfg (S fuel) (mkSWorld (quiet d rep n) sent tries metrics)
    = let s' := mkSWorld (quiet (all_published (map oe_ID acc) now d) rep n)
                  (sent ++ map entry_message acc) (tries + length es) metrics in
      if (Z.of_nat (length es) <? sc_OutboxBatchSize cfg)%Z then (Ok (), s')
      else relayOutbox cfg fuel s'.
Proof.
  intros Hb Hr. destruct (fetch_quiet (sc_OutboxBatchSize cfg) d rep n) as (es & Hf & He);
    [lia|done|]. exists es. split; [done|]. cbn [relayOutbox].
  erewrite attempt_bind. 2: { simpl. unfold on_store. simpl. by rewrite Hf. }
  destruct es as [|e0 es0] eqn:Ees.
  - simpl. rewrite (proj2 (Z.ltb_lt _ _)) by lia.
    unfold all_published. rewrite update_none by done. rewrite app_nil_r, Nat.add_0_r.
    by destruct d.
  - rewrite <- Ees. erewrite bind_step_ok by apply publish_all_run. cbn [sw_sess sw_tries sw_sent sw_metrics].
    erewrite attempt_bind.
    2: { simpl. unfold on_store. simpl. by rewrite mark_published_quiet. }
    simpl. by destruct (Z.ltb _ _).
Qed.

(** With the queue down and at least a full batch waiting, [relayOutbox]
    does not leave the work to a later tick: it marks nothing, so the next
    fetch returns a full batch again, for ever. *)
Theorem relayOutbox_spins d rep n sent tries metrics fuel :
  (forall k, up k = false) -> (0 < sc_OutboxBatchSize cfg)%Z -> readable d ->
  (sc_OutboxBatchSize cfg <= Z.of_nat (count_where unpublished (outbox d)))%Z ->
  exists s', sw_sess s' = quiet d rep n /\ sw_sent s' = sent /\
    relayOutbox cfg fuel (mkSWorld (quiet d rep n) sent tries metrics) = (Err (ELib "fuel"), s').
Proof.
  intros Hup Hb Hr Hc. revert tries. induction fuel as [|fuel IH]; intros tries;
    [by exists (mkSWorld (quiet d rep n) sent tries metrics)|].
  destruct (iteration_quiet fuel d rep n sent tries metrics Hb Hr) as (es & He & E).
  rewrite E. rewrite accepted_none by done. apply Forall2_length in He.
  unfold oldest_unpublished in He.
  rewrite length_take, (order_by_perm ob_created_at) in He.
  rewrite (proj2 (Z.ltb_ge _ _)) by (unfold count_where in Hc; lia).
  simpl. rewrite app_nil_r. unfold all_published. rewrite update_none by done.
  replace (set_outbox (outbox d) d) with d by (by destruct d). apply IH.
Qed.

(** ** Draining *)

Section batch.
Context (d : DB) (es : list OutboxEntry).
Context (Hnd : NoDup (map ob_id (outbox d))).
Context (He : Forall2 entry_of (oldest_unpublished (sc_OutboxBatchSize cfg) d) es).

Notation sel := (oldest_unpublished (sc_OutboxBatchSize cfg) d).

Lemma entry_ids : map oe_ID es = map ob_id sel.
Proof.
  revert He. generalize sel. intros l. revert es.
  intros es' H. induction H as [|row e rows es0 (E & _) _ IH]; [done|]. simpl. by rewrite E, IH.
Qed.

Lemma marked_iff row : row ∈ outbox d -> id_in (map oe_ID es) (ob_id row) = true <-> row ∈ sel.
Proof.
  intros Hrow. unfold id_in. rewrite existsb_exists, entry_ids. split.
  - intros (id & Hid & Ek%N.eqb_eq). apply list_elem_of_In, list_elem_of_fmap in Hid as (y & -> & Hy).
    destruct (oldest_unpublished_elem _ _ _ Hy) as [Hyd _].
    by rewrite (NoDup_key_inj ob_id _ row y Hnd Hrow Hyd Ek).
  - intros Hs. exists (ob_id row). split; [|apply N.eqb_refl].
    apply list_elem_of_In, list_elem_of_fmap. eauto.
Qed.

Notation d1 := (all_published (map oe_ID es) now d).

(** The batch leaves exactly the unpublished rows it did not take. *)
Lemma left_after_batch :
  where_ unpublished (outbox d1)
  = where_ (fun row => unpublished row && negb (id_in (map oe_ID es) (ob_id row))) (outbox d).
Proof.
  simpl. generalize (outbox d). intros l. induction l as [|x l IH]; [done|].
  unfold where_ in *. simpl.
  destruct (id_in _ (ob_id x)); simpl; rewrite IH; [by rewrite andb_false_r|].
  by rewrite andb_true_r.
Qed.

Lemma sel_then_left :
  sel ++ where_ unpublished (outbox d1) ≡ₚ where_ unpublished (outbox d).
Proof.
  apply NoDup_Permutation.
  - apply NoDup_app. split_and!.
    + apply (NoDup_fmap_1 ob_id). unfold oldest_unpublished.
      assert (Ho : NoDup (map ob_id (order_by ob_created_at (where_ unpublished (outbox d)))))
        by (rewrite (order_by_perm ob_created_at); by apply NoDup_map_where).
      rewrite <- (take_drop (Z.to_nat (sc_OutboxBatchSize cfg)) (order_by _ _)), map_app in Ho.
      by apply NoDup_app in Ho as [? _].
    + intros x Hx. rewrite left_after_batch, elem_of_where.
      intros [Hxd [_ Hn]%andb_true_iff]. apply marked_iff in Hx; [|done]. by rewrite Hx in Hn.
    + rewrite left_after_batch. apply (NoDup_fmap_1 ob_id), (NoDup_map_where ob_id), Hnd.
  - by apply (NoDup_fmap_1 ob_id), (NoDup_map_where ob_id).
  - intros x. rewrite elem_of_app, left_after_batch, !elem_of_where. split.
    + intros [Hx|[Hx [Hu _]%andb_true_iff]]; [by apply oldest_unpublished_elem in Hx|done].
    + intros [Hx Hu]. destruct (id_in (map oe_ID es) (ob_id x)) eqn:E.
      * left. by apply marked_iff.
      * right. by rewrite Hu.
Qed.

Lemma sel_oldest x y :
  x ∈ sel -> y ∈ where_ unpublished (outbox d1) -> (ob_created_at x <= ob_created_at y)%Z.
Proof.
  intros Hx Hy. rewrite left_after_batch in Hy.
  apply elem_of_where in Hy as [Hyd [Hu Hn]%andb_true_iff].
  apply (order_take_oldest ob_created_at (where_ unpublished (outbox d))
    (Z.to_nat (sc_OutboxBatchSize cfg))); [done|by apply elem_of_where|].
  intros Hs. apply marked_iff in Hs; [|done]. by rewrite Hs in Hn.
Qed.

Lemma publish_rest :
  update_where unpublished (published_row now) (outbox d1)
  = update_where unpublished (published_row now) (outbox d).
Proof.
  unfold all_published. simpl. unfold update_where. rewrite map_map. apply map_ext_in.
  intros row Hrow%list_elem_of_In. destruct (id_in _ (ob_id row)) eqn:E; [|done].
  apply marked_iff in E; [|done]. apply oldest_unpublished_elem in E as [_ E].
  by rewrite E.
Qed.

Lemma readable_rest : readable d -> readable d1.
Proof.
  intros Hr row (x & Hx & ->)%elem_of_update Hu.
  destruct (id_in _ (ob_id x)); [done|]. by apply Hr.
Qed.

Lemma batch_ids_keep : NoDup (map ob_id (outbox d1)).
Proof. simpl. by rewrite map_update_key. Qed.
End batch.

Lemma oldest_sorted limit d : StronglySorted (key_le ob_created_at) (oldest_unpublished limit d).
Proof.
  unfold oldest_unpublished. set (l := order_by _ _).
  assert (H : StronglySorted (key_le ob_created_at) l).
  { apply StronglySorted_merge_sort; [intros x y z; unfold key_le; lia|].
    intros x y. unfold key_le. lia. }
  rewrite <- (take_drop (Z.to_nat limit) l) in H. by apply StronglySorted_app_1_l in H.
Qed.

Lemma carries_entries rows es :
  Forall2 entry_of rows es -> Forall2 carries rows (map entry_message es).
Proof. induction 1; simpl; constructor; auto using entry_carries. Qed.

Lemma relay_drains fuel d rep n sent tries metrics :
  NoDup (map ob_id (outbox d)) -> (forall k, up k = true) -> (0 < sc_OutboxBatchSize cfg)%Z ->
  readable d -> count_where unpublished (outbox d) < fuel ->
  exists rows new s',
    relayOutbox cfg fuel (mkSWorld (quiet d rep n) sent tries metrics) = (Ok (), s') /\
    rows ≡ₚ where_ unpublished (outbox d) /\ StronglySorted (key_le ob_created_at) rows /\
    Forall2 carries rows new /\ sw_sent s' = sent ++ new /\
    sw_sess s' = quiet (set_outbox (update_where unpublished (published_row now) (outbox d)) d) rep n.
Proof.
  intros Hnd Hup Hb. revert d Hnd sent tries.
  induction fuel as [|fuel IH]; intros d Hnd sent tries Hr Hf; [lia|].
  destruct (iteration_quiet fuel d rep n sent tries metrics Hb Hr) as (es & He & ->).
  rewrite accepted_all by done. cbv zeta.
  pose proof (sel_then_left d es Hnd He) as Hperm.
  pose proof (Forall2_length _ _ _ He) as Hlen.
  set (sel := oldest_unpublished (sc_OutboxBatchSize cfg) d) in *.
  set (d1 := all_published (map oe_ID es) now d) in *.
  assert (Hsel : length sel = Nat.min (Z.to_nat (sc_OutboxBatchSize cfg))
    (count_where unpublished (outbox d))).
  { unfold sel, oldest_unpublished. by rewrite length_take, (order_by_perm ob_created_at). }
  pose proof (Permutation_length Hperm) as Hcount. rewrite length_app in Hcount.
  unfold count_where in *.
  destruct (Z.ltb_spec (Z.of_nat (length es)) (sc_OutboxBatchSize cfg)) as [Hlt|Hge].
  - eexists sel, _, _. split; [done|].
    assert (Hnil : where_ unpublished (outbox d1) = []) by (apply length_zero_iff_nil; lia).
    split_and!; [|apply oldest_sorted|by apply carries_entries|done|].
    + by rewrite <- Hperm, Hnil, app_nil_r.
    + simpl. rewrite <- (publish_rest d es Hnd He). fold d1.
      rewrite (update_none unpublished _ (outbox d1)) by (by apply where_nil_iff). unfold d1. done.
  - destruct (IH d1 (batch_ids_keep d es Hnd) (sent ++ map entry_message es)
      (tries + length es) (readable_rest d es Hr) ltac:(lia))
      as (rows & new & s' & -> & Hp & Hs & Hc & Hsent & Hdb).
    exists (sel ++ rows), (map entry_message es ++ new), s'. split; [done|]. split_and!.
    + by rewrite Hp.
    + apply StronglySorted_app_2; [|apply oldest_sorted|done].
      intros x y Hx Hy. rewrite Hp in Hy. by apply (sel_oldest d es).
    + apply Forall2_app; [by apply carries_entries|done].
    + by rewrite Hsent, app_assoc.
    + rewrite Hdb. unfold d1. rewrite (publish_rest d es Hnd He). done.
Qed.

(** C30: with the database and the queue up, a positive batch size and rows that
    decode, [relayOutbox] returns after at most one iteration per unpublished row
    and one more, and by then has sent every
    unpublished row's message exactly once, oldest row first over all batches,
    and has marked exactly those rows as published. *)
Theorem relayOutbox_drains fuel d rep n sent tries metrics :
  reachable d -> (forall k, up k = true) -> (0 < sc_OutboxBatchSize cfg)%Z -> readable d ->
  count_where unpublished (outbox d) < fuel ->
  exists rows new s',
    relayOutbox cfg fuel (mkSWorld (quiet d rep n) sent tries metrics) = (Ok (), s') /\
    rows ≡ₚ where_ unpublished (outbox d) /\ StronglySorted (key_le ob_created_at) rows /\
    Forall2 carries rows new /\ sw_sent s' = sent ++ new /\
    sw_db s' = set_outbox (update_where unpublished (published_row now) (outbox d)) d.
Proof.
  intros Hnd%reachable_wf%wf_outbox_ids Hup Hb Hr Hf.
  destruct (relay_drains fuel d rep n sent tries metrics) as (rows & new & s' & E & ? & ? & ? & ? & Hs);
    try done. exists rows, new, s'. unfold sw_db. by rewrite Hs.
Qed.
End relay.

(** ** Runs *)

Definition relay_start : SWorld := mkSWorld (quiet sample_db None 0) [] 0 [].
Definition relay_run (up : nat -> bool) (fuel : nat) : result error () * SWorld :=
  relayOutbox (ports := relay_ports up 700 no_lock no_gauge no_gauge) sample_sched fuel
    relay_start.

Lemma sample_readable : readable sample_db.
Proof.
  intros row Hrow _. assert (H : forallb (fun row => is_ok (unmarshalMessage (ob_payload row)))
    (outbox sample_db) = true) by (vm_compute; reflexivity).
  rewrite forallb_forall in H. by apply H, list_elem_of_In.
Qed.

(** The first publication is refused: its row waits, the other one is marked. *)
Example relay_partial :
  map (fun row => (ob_id row, ob_published_at row))
    (outbox (sw_db (snd (relay_run (fun n => negb (Nat.eqb n 0)) 1))))
  = [(21%N, None); (22%N, Some 700%Z)].
Proof. vm_compute. reflexivity. Qed.

Lemma relayOutbox_at_least_once_witness :
  exists new, relayed 700 new sample_db (sw_db (snd (relay_run (fun n => negb (Nat.eqb n 0)) 1))).
Proof.
  destruct (relayOutbox_at_least_once (fun n => negb (Nat.eqb n 0)) 700 no_lock no_gauge no_gauge
    sample_sched 1 relay_start _ _ sample_db_reachable (surjective_pairing _)) as (new & _ & H).
  exists new. exact H.
Defined.

Lemma relayOutbox_spins_witness :
  exists s', sw_sess s' = quiet sample_db None 0 /\
    relay_run (fun _ => false) 1000 = (Err (ELib "fuel"), s').
Proof.
  destruct (relayOutbox_spins (fun _ => false) 700 no_lock no_gauge no_gauge sample_sched sample_db
    None 0 [] 0 [] 1000 (fun _ => eq_refl) eq_refl sample_readable) as (s' & Hs & _ & H).
  - apply Z.leb_le. vm_compute. reflexivity.
  - exists s'. split; [exact Hs|exact H].
Defined.

Lemma relayOutbox_drains_witness :
  exists s', relay_run (fun _ => true) 3 = (Ok (), s') /\
    count_where unpublished (outbox (sw_db s')) = 0.
Proof.
  destruct (relayOutbox_drains (fun _ => true) 700 no_lock no_gauge no_gauge sample_sched 3 sample_db
    None 0 [] 0 [] sample_db_reachable (fun _ => eq_refl) eq_refl sample_readable)
    as (rows & new & s' & H & _ & _ & _ & _ & Hdb).
  - apply Nat.ltb_lt. vm_compute. reflexivity.
  - exists s'. split; [exact H|]. rewrite Hdb. vm_compute. reflexivity.
Defined.
