(* ===== verification/SchedulerMaintain.v ===== *)
(** * Retention: [maintainPartitions]

    Under any failures the job drops at most the deliveries of one day and
    purges only published outbox rows; with a database that answers the coming
    days have their partition. *)

From S2P Require Import Prelude GoStrings Domain Store StoreRuns StoreInv StoreCalls.
From S2P Require Import StoreQuiet StoreSamples StoreDue Scheduler SchedulerDrain.

Local Open Scope string_scope.
Local Open Scope list_scope.

(** What a run may do to the tables: [drop] is the day it retires. *)
Record maintained (drop : Z) (before : time) (d d' : DB) : Prop := {
  mt_kept : forall x, x ∈ deliveries d -> day_of (d_CreatedAt x) <> drop -> x ∈ deliveries d';
  mt_old : forall x, x ∈ deliveries d' -> x ∈ deliveries d;
  mt_archive : forall x, x ∈ archive d -> x ∈ archive d';
  mt_outbox : forall row, row ∈ outbox d -> purgeable before row = false -> row ∈ outbox d';
  mt_partitions : forall p, p ∈ partitions d -> p <> drop -> p ∈ partitions d';
  mt_requests : requests d' = requests d
}.

#[export] Instance maintained_preorder drop before : PreOrder (maintained drop before).
Proof.
  split; [by split|]. intros d1 d2 d3 [K1 O1 A1 B1 P1 R1] [K2 O2 A2 B2 P2 R2].
  split; eauto. congruence.
Qed.

(** ** The statements *)

Lemma create_partition_maintained drop before p d d' :
  create_delivery_partition p d = Ok ((), d') -> maintained drop before d d'.
Proof.
  unfold create_delivery_partition. destruct (partition_exists p d); [by intros [= <-]|].
  destruct (existsb _ _); [done|]. intros [= <-]. split; try done.
  intros q Hq _. simpl. apply elem_of_app. auto.
Qed.

Lemma archive_and_drop_maintained before p d d' :
  archive_and_drop_partition p d = Ok ((), d') -> maintained p before d d'.
Proof.
  unfold archive_and_drop_partition. destruct (partition_exists p d); [|by intros [= <-]].
  destruct (existsb _ _); [done|]. intros [= <-]. split; simpl; try done.
  - intros x Hx Hd. apply elem_of_where. split; [done|]. by apply negb_true_iff, Z.eqb_neq.
  - by intros x [Hx _]%elem_of_where.
  - intros x Hx. apply elem_of_app. auto.
  - intros q Hq Hne. apply elem_of_where. split; [done|]. by apply negb_true_iff, Z.eqb_neq.
Qed.

Lemma purge_maintained drop before d n d' :
  purge_published_outbox before d = Ok (n, d') -> maintained drop before d d'.
Proof.
  intros [= <- <-]. split; simpl; try done.
  intros row Hrow Hp. apply elem_of_where. by rewrite Hp.
Qed.

Lemma maintained_wrap {A} op (f : DB -> result error (A * DB)) drop before s r s' :
  (forall d a d', f d = Ok (a, d') -> maintained drop before d d') ->
  wrap op (Exec f) s = (r, s') -> maintained drop before (db s) (db s').
Proof.
  intros Hf H. destruct (atomic_cases _ _ _ _ (wrap_atomic op _ (Exec_atomic f)) H) as [->|[a Hr]]; [done|].
  apply wrap_runs, Exec_runs in Hr. by apply (Hf _ a).
Qed.

(** ** Days *)

Lemma day_of_AddDays t i : day_of (AddDays (truncate_day t) i) = (day_of t + i)%Z.
Proof.
  unfold day_of, AddDays, truncate_day. rewrite <- Z.mul_add_distr_r.
  by apply Z.div_mul.
Qed.

Section maintain.
Context `{codec : !MessageCodec} `{uuids : !UuidSource}.
Context (up : nat -> bool) (now : time) (locked : uuid * time -> bool)
  (queue_depth queue_pending : string -> eff SWorld error Z).

#[local] Instance maintain_ports : SchedPorts SWorld :=
  store_sched up now locked queue_depth queue_pending.

(** A logged attempt at one statement. *)
Lemma logged_step {A B} op (f : DB -> result error (A * DB)) (k : eff SWorld error B) drop before s :
  (forall d a d', f d = Ok (a, d') -> maintained drop before d d') ->
  exists s1, maintained drop before (sw_db s) (sw_db s1) /\
    (attempt (on_store (wrap op (Exec f))) ≫= fun _ => k) s = k s1 /\
    (faults (sw_sess s) = [] -> faults (sw_sess s1) = [] /\
       sw_db s1 = match f (sw_db s) with Ok (_, d) => d | Err _ => sw_db s end).
Proof.
  intros Hf. destruct (on_store (wrap op (Exec f)) s) as [r s1] eqn:E. exists s1.
  rewrite (attempt_bind _ (fun _ => k) _ _ _ E).
  apply on_store_inv in E as (x & H & ->). split_and!; [|done|].
  - by apply (maintained_wrap op f _ _ _ r).
  - intros Hq%quiet_sess. rewrite Hq, wrap_quiet, Exec_quiet in H. unfold sw_db.
    destruct (f (db (sw_sess s))) as [[a d']|e]; by simplify_eq.
Qed.

Definition create_days (t : time) (days : list Z) : eff SWorld error () :=
  for_each (fun i => attempt (sp_CreateDeliveryPartition (AddDays (truncate_day t) i)) ≫= fun _ => mret ()) days.

Definition day_free (p : Z) (d : DB) : Prop :=
  p ∈ partitions d \/ forall x, x ∈ deliveries d -> in_day p x = false.

Lemma create_partition_exists p d :
  day_free p d -> exists d', create_delivery_partition p d = Ok ((), d') /\ p ∈ partitions d' /\
    deliveries d' = deliveries d /\ forall q, q ∈ partitions d -> q ∈ partitions d'.
Proof.
  intros Hfree. unfold create_delivery_partition. destruct (partition_exists p d) eqn:E.
  - exists d. split_and!; [done| |done|done]. apply existsb_exists in E as (q & Hq & ->%Z.eqb_eq).
    by apply list_elem_of_In.
  - destruct Hfree as [Hp|Hfree].
    { exfalso. apply not_true_iff_false in E. apply E, existsb_exists. exists p.
      by rewrite <- list_elem_of_In, Z.eqb_refl. }
    destruct (existsb (in_day p) (deliveries d)) eqn:E2.
    + apply existsb_exists in E2 as (x & Hx & H). apply list_elem_of_In, Hfree in Hx. congruence.
    + eexists. split_and!; [done| |done|]; simpl; intros; apply elem_of_app; [right; left|by left].
Qed.

Lemma create_days_spec drop before t days s :
  exists s1, create_days t days s = (Ok (), s1) /\ maintained drop before (sw_db s) (sw_db s1) /\
    (faults (sw_sess s) = [] -> (forall i, i ∈ days -> day_free (day_of t + i) (sw_db s)) ->
     faults (sw_sess s1) = [] /\ deliveries (sw_db s1) = deliveries (sw_db s) /\
     (forall p, p ∈ partitions (sw_db s) -> p ∈ partitions (sw_db s1)) /\
     forall i, i ∈ days -> (day_of t + i)%Z ∈ partitions (sw_db s1)).
Proof.
  revert s. induction days as [|i days IH]; intros s.
  { exists s. split_and!; [done|done|]. intros Hq _. split_and!; try done.
    by intros i ?%not_elem_of_nil. }
  cbn [create_days for_each].
  destruct (logged_step "create partition"
    (create_delivery_partition (day_of (AddDays (truncate_day t) i))) (mret ()) drop before s)
    as (s1 & Hm & E & Hq).
  { intros d [] d'. apply create_partition_maintained. }
  destruct (IH s1) as (s2 & E2 & Hm2 & Hq2). exists s2. split_and!.
  - erewrite bind_step_ok; [exact E2|]. exact E.
  - by etrans.
  - intros Hf Hfree. destruct (Hq Hf) as [Hf1 Hdb]. rewrite day_of_AddDays in Hdb.
    destruct (create_partition_exists _ _ (Hfree i ltac:(left))) as (d1 & Ed & Hin & Hdel & Hgrow).
    rewrite Ed in Hdb.
    rewrite <- Hdb in Hgrow, Hin, Hdel.
    destruct (Hq2 Hf1) as (Hf2 & Hdel2 & Hgrow2 & Hall).
    { intros j Hj. destruct (Hfree j ltac:(by right)) as [Hp|Hp].
      - left. by apply Hgrow.
      - right. by rewrite Hdel. }
    split_and!; [done|congruence|auto|].
    intros j [->|Hj]%elem_of_cons; auto.
Qed.

(** C38: a run of [maintainPartitions] always returns and, whatever fails, can
    only do this: retire the one day [RetentionDays + 1] before today, purge
    published outbox rows past their retention, and add partitions. Deliveries
    of every other day stay, so a day the scheduler was down on is never
    retired. When the database answers and no row of the coming days sits in
    the default partition, every day from today to [PreCreateDays] ahead has its
    partition afterwards. *)
Theorem maintainPartitions_spec cfg0 s :
  let cfg := New cfg0 in
  let drop := (day_of now - (sc_RetentionDays cfg + 1))%Z in
  exists s', maintainPartitions cfg s = (Ok (), s') /\
    maintained drop (timestamptz (now - sc_OutboxRetention cfg)) (sw_db s) (sw_db s') /\
    (faults (sw_sess s) = [] ->
     (forall i, (0 <= i <= sc_PreCreateDays cfg)%Z -> day_free (day_of now + i) (sw_db s)) ->
     forall i, (0 <= i <= sc_PreCreateDays cfg)%Z ->
       (day_of now + i)%Z ∈ partitions (sw_db s')).
Proof.
  intros cfg drop. set (before := timestamptz (now - sc_OutboxRetention cfg)).
  set (days := seqZ 0 (sc_PreCreateDays cfg + 1)).
  destruct (create_days_spec drop before now days s) as (s1 & E1 & M1 & Q1).
  destruct (logged_step "archive/drop partition" (archive_and_drop_partition drop)
    (attempt (sp_PurgePublishedOutbox (now - sc_OutboxRetention cfg)%Z) ≫= fun _ => mret ()) drop before s1)
    as (s2 & M2 & E2 & _).
  { intros d [] d'. apply archive_and_drop_maintained. }
  destruct (on_store (PurgePublishedOutbox (now - sc_OutboxRetention cfg)%Z) s2) as [r s3] eqn:E3.
  pose proof E3 as (x & H3 & Es3)%on_store_inv.
  assert (M3 : maintained drop before (sw_db s2) (sw_db s3)).
  { rewrite Es3. unfold sw_db. simpl. unfold PurgePublishedOutbox in H3.
    apply atomic_cases in H3 as [->|[n Hr]]; [done| |apply (atomic_then_ret _ Z.of_nat), wrap_atomic, Exec_atomic].
    inv_runs. by apply (purge_maintained drop before _ a). }
  exists s3. split_and!.
  - unfold maintainPartitions. erewrite bind_step_ok by done. cbv zeta.
    erewrite bind_step_ok by exact E1.
    assert (Hd : sp_ArchiveAndDropPartition
        (AddDays (truncate_day now) (- (sc_RetentionDays cfg + 1)))
      = on_store (wrap "archive/drop partition" (Exec (archive_and_drop_partition drop)))).
    { simpl. unfold ArchiveAndDropPartition. by rewrite day_of_AddDays. }
    rewrite Hd. etrans; [|etrans; [exact E2|]].
    + unfold mbind, eff_bind, attempt. by destruct (on_store _ s1).
    + by rewrite (attempt_bind _ _ _ _ _ E3).
  - by do 2 (etrans; [done|]).
  - intros Hf Hfree i Hi. assert (Hin : i ∈ days) by (apply elem_of_seqZ; lia).
    destruct (Q1 Hf) as (_ & _ & _ & Hp).
    { intros j Hj%elem_of_seqZ. apply Hfree. lia. }
    apply (mt_partitions _ _ _ _ M3); [apply (mt_partitions _ _ _ _ M2); [by apply Hp|]|];
      unfold drop; simpl; unfold or_default; destruct (Z.leb_spec (sc_RetentionDays cfg0) 0); lia.
Qed.
End maintain.

(** Day 0 was the scheduler's to retire on day 31; on day 40 it is too late. *)
Example missed_day_stays :
  map d_ID (deliveries (sw_db (snd (maintainPartitions
    (ports := maintain_ports (fun _ => true) (40 * Day) no_lock no_gauge no_gauge)
    (New (mkSchedConfig 0 0 2 1 0 60 30 3 Day))
    (mkSWorld (quiet far_db None 0) [] 0 []))))) = [11%N].
Proof. vm_compute. reflexivity. Qed.
