(* ===== verification/SchedulerRecover.v ===== *)
(** * Self-healing: from an expired lease back to the queue

    The reaper, the retry sweep and the relay together: on a database and a queue
    that answer, a delivery whose worker died comes back to its stream. The
    transactions commit because the generator's identifiers are fresh and every
    message can be encoded. *)

From S2P Require Import Prelude GoStrings Domain GoText Store StoreRuns StoreInv StoreCalls.
From S2P Require Import StoreQuiet StoreSamples StoreDue Scheduler SchedulerDrain.
From S2P Require Import SchedulerRelay.

Local Open Scope string_scope.
Local Open Scope list_scope.

Section recover.
Context `{codec : !MessageCodec} `{uuids : !UuidSource}.
Context (Hcodec : forall m, exists p, marshalMessage m = Ok p /\ unmarshalMessage p = Ok m).
Context (Huuid : forall a b : N, uuid_New a = uuid_New b -> a = b).

(** The identifiers still to be drawn are not in use. *)
Definition fresh (n : N) (d : DB) : Prop :=
  forall k, (n <= k)%N -> uuid_New k ∉ map ob_id (outbox d).

Definition valid_streams (l : list Delivery) : Prop :=
  forall x, x ∈ l -> Channel_Valid (d_Channel x) = true /\ Priority_Valid (d_Priority x) = true.

Lemma Stream_fits p c :
  Channel_Valid c = true -> Priority_Valid p = true -> varchar 64 (Stream p c) = true.
Proof.
  rewrite Channel_Valid_iff, Priority_Valid_iff. unfold AllPriorities, AllChannels.
  rewrite !elem_of_cons, !elem_of_nil. intros Hc Hp.
  destruct_or?; subst; try done; vm_compute; reflexivity.
Qed.

(** A database the transitions commit on. *)
Record ready (d : DB) (n : N) : Prop := {
  rd_fresh : fresh n d;
  rd_streams : valid_streams (deliveries d);
  rd_readable : readable d
}.

(** An update of the deliveries that keeps their routes. *)
Lemma ready_update d n p f :
  (forall x, d_Channel (f x) = d_Channel x /\ d_Priority (f x) = d_Priority x) ->
  ready d n -> ready (update_deliveries p f d) n.
Proof.
  intros Hroute [Hf Hs Hr]. split; [done| |done].
  intros y (x & Hx & ->)%elem_of_update. destruct (p x); [|by apply Hs].
  destruct (Hroute x) as [-> ->]. by apply Hs.
Qed.

Lemma enqueue_one now x d rep n :
  ready d n -> Channel_Valid (d_Channel x) = true -> Priority_Valid (d_Priority x) = true ->
  exists row, enqueueDueTx now (due_of x) (quiet d rep n)
    = (Ok (), quiet (set_outbox (outbox d ++ [row]) d) rep (n + 1)) /\
    ready (set_outbox (outbox d ++ [row]) d) (n + 1).
Proof.
  intros [Hf Hs Hr] Hc Hp. destruct (Hcodec (due_message x)) as (p & Em & Eu).
  exists (mkOutboxRow (uuid_New n) (d_ID x) (timestamptz (d_CreatedAt x)) (Stream (d_Priority x) (d_Channel x)) p now None).
  split; [|split; [|done|]].
  - transitivity (insertOutbox (mkOutboxRecord (uuid_New n) (d_ID x) (d_CreatedAt x)
      (Stream (d_Priority x) (d_Channel x)) (due_message x)) now (quiet d rep (n + 1))); [done|].
    unfold insertOutbox. erewrite bind_quiet.
    2: { rewrite wrap_quiet. unfold of_result. simpl o_Message. by rewrite Em. }
    simpl o_Stream. rewrite wrap_quiet, Exec_quiet. unfold insert_outbox_sql. simpl ob_stream.
    rewrite (Stream_fits _ _ Hc Hp). simpl negb. cbv iota.
    destruct (existsb _ (outbox d)) eqn:E; [|done]. exfalso.
    apply existsb_exists in E as (row & Hrow & Hk%N.eqb_eq). simpl in Hk.
    apply (Hf n (N.le_refl n)), list_elem_of_fmap. exists row.
    split; [done|by apply list_elem_of_In].
  - intros k Hk. simpl. rewrite map_app, elem_of_app. simpl. intros [H|H].
    + apply (Hf k); [lia|done].
    + apply list_elem_of_singleton, Huuid in H. lia.
  - intros row [Hrow|Hrow%list_elem_of_singleton]%elem_of_app Hu; [by apply Hr|subst row].
    simpl. by rewrite Eu.
Qed.

Lemma enqueue_all_commits now l d rep n :
  ready d n -> valid_streams l ->
  exists d', for_each (enqueueDueTx now) (map due_of l) (quiet d rep n)
    = (Ok (), quiet d' rep (n + N.of_nat (length l))) /\ ready d' (n + N.of_nat (length l)).
Proof.
  revert d n. induction l as [|x l IH]; intros d n Hr Hl; simpl.
  { exists d. by rewrite N.add_0_r. }
  destruct (Hl x ltac:(left)) as [Hc Hp].
  destruct (enqueue_one now x d rep n Hr Hc Hp) as (row & E & Hr1).
  destruct (IH _ _ Hr1) as (d' & E' & Hr'); [intros y Hy; apply Hl; by right|].
  exists d'. erewrite bind_step_ok by exact E.
  rewrite Nat2N.inj_succ. replace (n + N.succ (N.of_nat (length l)))%N
    with (n + 1 + N.of_nat (length l))%N by lia.
  split; [exact E'|exact Hr'].
Qed.

Lemma transition_commits due key locked now limit d rep n :
  (0 <= limit)%Z -> ready d n ->
  exists k d' n', transitionAndEnqueue (transition_sql due key locked now) now limit (quiet d rep n)
    = (Ok k, quiet d' rep n') /\ ready d' n'.
Proof.
  intros Hl Hr. unfold transitionAndEnqueue.
  destruct (transition_sql due key locked now limit d) as [[rows d1]|e] eqn:E.
  2: { unfold transition_sql, limit_rows in E. destruct (Z.ltb_spec limit 0); [lia|]. discriminate E. }
  assert (H1 : ready d1 n /\ exists l, rows = map due_of l /\ valid_streams l).
  { unfold transition_sql, limit_rows in E. destruct (Z.ltb_spec limit 0); [lia|].
    injection E as <- <-. destruct Hr as [Hf Hs Hr]. split; [split; [done| |done]|].
    - intros y (x & Hx & ->)%elem_of_update. destruct (bool_decide _); exact (Hs x Hx).
    - eexists. split; [done|]. intros x [Hx _]%elem_of_where. by apply Hs. }
  destruct H1 as [H1 (l & -> & Hv)].
  destruct (enqueue_all_commits now l d1 rep n H1 Hv) as (d' & Ee & Hr').
  eexists _, d', _. split; [|exact Hr'].
  unfold withTx. simpl. erewrite bind_quiet; [|by rewrite wrap_quiet, Exec_quiet, E].
  erewrite bind_step_ok by exact Ee. done.
Qed.

(** ** The path of a crashed delivery *)

Context (up : nat -> bool) (now : time) (locked : uuid * time -> bool)
  (queue_depth queue_pending : string -> eff SWorld error Z) (cfg : SchedConfig).

#[local] Instance recover_ports : SchedPorts SWorld :=
  store_sched up now locked queue_depth queue_pending.

Definition ready_session (rep : option DB) (ss : Sess) : Prop :=
  exists d n, ss = quiet d rep n /\ ready d n.

Lemma transition_keeps_ready due key rep limit ss r ss' :
  (0 <= limit)%Z -> ready_session rep ss ->
  transitionAndEnqueue (transition_sql due key locked now) now limit ss = (r, ss') ->
  ready_session rep ss' /\ is_ok r = true.
Proof.
  intros Hl (d & n & -> & Hr) H.
  destruct (transition_commits due key locked now limit d rep n Hl Hr) as (k & d' & n' & E & Hr').
  rewrite H in E. injection E as -> ->. split; [by exists d', n'|done].
Qed.

(** A ready database after the reaper: the same rows, some of them RETRYING. *)
Lemma reap_quiet d rep n sent tries metrics :
  exists s1, reapStuck (mkSWorld (quiet d rep n) sent tries metrics) = (Ok (), s1) /\
    sw_sess s1 = quiet (update_deliveries (lease_expired now) (reaped_row now) d) rep n /\
    sw_sent s1 = sent.
Proof.
  set (k := Z.of_nat (count_where (lease_expired now) (deliveries d))).
  assert (E : on_store (ReapStuck now) (mkSWorld (quiet d rep n) sent tries metrics)
    = (Ok k, mkSWorld (quiet (update_deliveries (lease_expired now) (reaped_row now) d) rep n)
               sent tries metrics)) by done.
  unfold reapStuck. rewrite (attempt_bind _ _ _ _ _ E).
  destruct (k >? 0)%Z; eexists; split; done.
Qed.

Lemma reap_ready d n : ready d n -> ready (update_deliveries (lease_expired now) (reaped_row now) d) n.
Proof. by apply ready_update. Qed.

Lemma sweep_ready fuel rep s :
  db_wf (sw_db s) -> ready_session rep (sw_sess s) -> (0 < sc_PromoteBatch cfg)%Z ->
  count_where (candidate (retry_due now) locked) (deliveries (sw_db s)) < fuel ->
  exists s', sweepRetries cfg fuel s = (Ok (), s') /\
    drained (retry_due now) locked now (sw_db s) (sw_db s') /\ sw_sent s' = sw_sent s /\
    ready_session rep (sw_sess s') /\ db_wf (sw_db s') /\
    count_where (candidate (retry_due now) locked) (deliveries (sw_db s')) = 0.
Proof.
  intros Hwf Hr Hb Hf.
  destruct (sweepRetries_run up now locked queue_depth queue_pending cfg (ready_session rep) _
    eq_refl fuel s) as (s' & E & Hd & Hs & Hr' & Hw & Hend); try done.
  { intros ss r ss' Hss H. eapply transition_keeps_ready; [|done|exact H]. lia. }
  exists s'. split_and!; try done. destruct Hend as [?|(s1 & e & Hr1 & _ & He & _)]; [done|].
  apply on_store_inv in He as (x & Hx & _).
  eapply transition_keeps_ready in Hx as [_ Hx]; [done|lia|exact Hr1].
Qed.

Lemma promote_ready fuel rep s :
  db_wf (sw_db s) -> ready_session rep (sw_sess s) -> (0 < sc_PromoteBatch cfg)%Z ->
  count_where (candidate (scheduled_due now) locked) (deliveries (sw_db s)) < fuel ->
  exists s', promoteDue cfg fuel s = (Ok (), s') /\
    drained (scheduled_due now) locked now (sw_db s) (sw_db s') /\ sw_sent s' = sw_sent s /\
    ready_session rep (sw_sess s') /\ db_wf (sw_db s') /\
    count_where (candidate (scheduled_due now) locked) (deliveries (sw_db s')) = 0.
Proof.
  intros Hwf Hr Hb Hf.
  destruct (promoteDue_run up now locked queue_depth queue_pending cfg (ready_session rep) _
    eq_refl fuel s) as (s' & E & Hd & Hs & Hr' & Hw & Hend); try done.
  { intros ss r ss' Hss H. eapply transition_keeps_ready; [|done|exact H]. lia. }
  exists s'. split_and!; try done. destruct Hend as [?|(s1 & e & Hr1 & _ & He & _)]; [done|].
  apply on_store_inv in He as (x & Hx & _).
  eapply transition_keeps_ready in Hx as [_ Hx]; [done|lia|exact Hr1].
Qed.

(** A due row no one holds is PENDING with its outbox row after a sweep that
    left nothing due. *)
Lemma drained_moves due d d' y :
  drained due locked now d d' -> y ∈ deliveries d -> candidate due locked y = true ->
  count_where (candidate due locked) (deliveries d') = 0 ->
  pending_row now y ∈ deliveries d' /\ exists row, row ∈ outbox d' /\ enqueued now y row.
Proof.
  intros Hd Hy Hc H0. destruct (Forall2_partner _ _ _ _ (dr_rows _ _ _ _ _ Hd) Hy)
    as (z & Hz & [->|(_ & -> & row & Hrow & He)]); [|eauto].
  by rewrite (proj1 (count_zero_iff _ _) H0 y Hz) in Hc.
Qed.

(** A row is carried to its stream by the row [enqueueDueTx] wrote for it. *)
Lemma enqueued_carries x row p :
  enqueued now x row -> carries row p -> p = (Stream (d_Priority x) (d_Channel x), due_message x).
Proof.
  intros He [Hs Hm]. destruct p as [st m], (Hcodec (due_message x)) as (q & Em & Eu). simpl in *.
  pose proof (eq_payload _ _ _ He) as Hp. rewrite Em in Hp. injection Hp as Hp.
  rewrite <- Hp, Eu in Hm. injection Hm as <-. by rewrite <- Hs, (eq_stream _ _ _ He).
Qed.

Lemma published_ready d n :
  ready d n -> ready (set_outbox (update_where unpublished (published_row now) (outbox d)) d) n.
Proof.
  intros [Hf Hs Hr]. split; [|done|].
  - intros k Hk. simpl. rewrite map_update_key by done. by apply Hf.
  - intros row (z & Hz & ->)%elem_of_update Hu. destruct (unpublished z) eqn:E; [done|congruence].
Qed.

(** The sweep and the relay bring a row that is due to its stream. *)
Lemma requeue_due d rep n sent tries metrics fuel y :
  db_wf d -> ready d n -> (forall k, up k = true) ->
  (0 < sc_PromoteBatch cfg)%Z -> (0 < sc_OutboxBatchSize cfg)%Z ->
  y ∈ deliveries d -> candidate (retry_due now) locked y = true -> length (deliveries d) < fuel ->
  exists s2, sweepRetries cfg fuel (mkSWorld (quiet d rep n) sent tries metrics) = (Ok (), s2) /\
    forall fuel', count_where unpublished (outbox (sw_db s2)) < fuel' ->
    exists s3 new d3 n3, relayOutbox cfg fuel' s2 = (Ok (), s3) /\ sw_sent s3 = sent ++ new /\
      (Stream (d_Priority y) (d_Channel y), due_message y) ∈ new /\
      sw_sess s3 = quiet d3 rep n3 /\ ready d3 n3 /\ db_wf d3 /\ pending_row now y ∈ deliveries d3 /\
      requests d3 = requests d /\ length (deliveries d3) = length (deliveries d).
Proof.
  intros Hwf Hready Hup Hb Ho Hy Hc Hfuel.
  destruct (sweep_ready fuel rep (mkSWorld (quiet d rep n) sent tries metrics))
    as (s2 & E2 & Hd2 & Hsent2 & (d2 & n2 & Hq2 & Hr2) & Hw2 & H0); try done;
    [by exists d, n|eapply Nat.le_lt_trans; [apply List.filter_length_le|exact Hfuel]|].
  exists s2. split; [done|]. intros fuel' Hf'.
  destruct s2 as [ss2 sent2 tries2 metrics2]. simpl in Hq2, Hsent2. subst ss2 sent2.
  destruct (relay_drains up now locked queue_depth queue_pending cfg fuel' d2 rep n2 sent tries2 metrics2)
    as (rows & new & s3 & E3 & Hp & _ & Hca & Hsent3 & Hs3);
    [apply (wf_outbox_ids _ _ _ Hw2)|done|done|apply Hr2|done|].
  unfold sw_db in Hd2, H0, Hw2. simpl in Hd2, H0, Hw2.
  destruct (drained_moves _ d d2 y Hd2 Hy Hc H0) as [Hz (row & Hrow & He)].
  eexists s3, new, _, n2. split_and!; [done|done| |exact Hs3|by apply published_ready| |done| |].
  - assert (Hin : row ∈ rows).
    { rewrite Hp, elem_of_where. split; [done|]. unfold unpublished. by rewrite (eq_published _ _ _ He). }
    destruct (Forall2_partner _ _ _ _ Hca Hin) as (p & Hm & Hcar).
    by rewrite <- (enqueued_carries y row p He Hcar).
  - apply wf_set_outbox; [|done]. rewrite map_update_key by done. apply Hw2.
  - apply (dr_requests _ _ _ _ _ Hd2).
  - symmetry. apply (Forall2_length _ _ _ (dr_rows _ _ _ _ _ Hd2)).
Qed.

(** A delivery whose worker died comes back on its own. On a database and a
    queue that answer, one pass of the reaper, of the retry sweep and of the
    relay takes every PROCESSING delivery whose lease has expired to PENDING,
    its attempt count unchanged, with its message published on its own stream.
    The loops need no more iterations than there are rows to move. *)
Theorem crashed_delivery_requeued d rep n sent tries metrics fuel x t :
  reachable d -> ready d n -> (forall k, up k = true) ->
  (0 < sc_PromoteBatch cfg)%Z -> (0 < sc_OutboxBatchSize cfg)%Z ->
  x ∈ deliveries d -> d_Status x = DeliveryProcessing -> d_LockedUntil x = Some t ->
  (t < now)%Z -> locked (del_key x) = false -> length (deliveries d) < fuel ->
  exists s1 s2, reapStuck (mkSWorld (quiet d rep n) sent tries metrics) = (Ok (), s1) /\
    sweepRetries cfg fuel s1 = (Ok (), s2) /\
    forall fuel', count_where unpublished (outbox (sw_db s2)) < fuel' ->
    exists s3 new, relayOutbox cfg fuel' s2 = (Ok (), s3) /\ sw_sent s3 = sent ++ new /\
      (Stream (d_Priority x) (d_Channel x), due_message x) ∈ new /\
      exists y, y ∈ deliveries (sw_db s3) /\ del_key y = del_key x /\
        d_Status y = DeliveryPending /\ d_AttemptCount y = d_AttemptCount x.
Proof.
  intros Hreach Hready Hup Hb Ho Hx Hst Hlk Hlt Hnl Hfuel.
  destruct (reap_quiet d rep n sent tries metrics) as (s1 & E1 & Hs1 & Hsent1).
  set (d1 := update_deliveries (lease_expired now) (reaped_row now) d) in *.
  assert (Hwf1 : db_wf d1).
  { apply (ReapStuck_wf now d (Z.of_nat (count_where (lease_expired now) (deliveries d)))).
    - by exists (quiet d rep n), (quiet d1 rep n).
    - by apply reachable_wf. }
  destruct s1 as [ss1 sent1 tries1 metrics1]. simpl in Hs1, Hsent1. subst ss1 sent1.
  destruct (requeue_due d1 rep n sent tries1 metrics1 fuel (reaped_row now x)) as (s2 & E2 & H);
    try done; [by apply reap_ready| | |by unfold d1; simpl; rewrite length_update|].
  - apply elem_of_update. exists x. split; [done|]. by rewrite (proj2 (lease_expired_spec now x)) by eauto.
  - unfold candidate. change (del_key (reaped_row now x)) with (del_key x). rewrite Hnl.
    unfold retry_due. simpl. rewrite andb_true_r. apply Z.leb_le. lia.
  - exists (mkSWorld (quiet d1 rep n) sent tries1 metrics1), s2. split_and!; [done|done|].
    intros fuel' Hf'. destruct (H fuel' Hf') as (s3 & new & d3 & n3 & E3 & Hs3 & Hin & Hq & _ & _ & Hp & _).
    exists s3, new. split_and!; try done. exists (pending_row now (reaped_row now x)).
    unfold sw_db. by rewrite Hq.
Qed.
End recover.

(** Notification 1 was claimed until time 160000 by a worker that died. *)
Definition crashed_script : list call := [
  CallCreateNotification (sample_request 1 None (Some "k1"))
    (sample_delivery 11 1 DeliveryPending None) (Some (sample_outbox 21 11 1)) 100000;
  CallMarkOutboxPublished [21%N] 110000;
  CallClaimDelivery 11 100000 160000 120000 ].
Definition crashed_db : DB := Eval vm_compute in db (run_calls crashed_script start).

Lemma crashed_db_reachable : reachable crashed_db.
Proof.
  change crashed_db with (db (run_calls crashed_script start)).
  apply reachable_script; [apply (reach_fresh [])|]. split; [split; simpl; eauto; done|]. by split_and!.
Qed.

Lemma sample_codec_total (m : DeliveryMessage) :
  exists p, marshalMessage m = Ok p /\ unmarshalMessage p = Ok m.
Proof.
  exists (to_text (message_tuple m)). split; [done|].
  cbv [unmarshalMessage sample_codec]. rewrite of_text_to_text. by destruct m.
Qed.

Lemma crashed_ready : ready crashed_db 0.
Proof.
  split.
  - intros k _. change (map ob_id (outbox crashed_db)) with [21%N].
    rewrite list_elem_of_singleton. unfold uuid_New, sample_uuids. lia.
  - intros x Hx. unfold crashed_db in Hx. apply list_elem_of_singleton in Hx as ->. done.
  - intros row Hrow. apply list_elem_of_singleton in Hrow as ->. done.
Qed.

Lemma crashed_delivery_requeued_witness :
  exists s1 s2,
    reapStuck (ports := recover_ports (fun _ => true) 170000 no_lock no_gauge no_gauge)
      (mkSWorld (quiet crashed_db None 0) [] 0 []) = (Ok (), s1) /\
    sweepRetries (ports := recover_ports (fun _ => true) 170000 no_lock no_gauge no_gauge)
      sample_sched 2 s1 = (Ok (), s2).
Proof.
  destruct (crashed_delivery_requeued sample_codec_total (fun a b => proj1 (N.add_cancel_l a b 1000))
    (fun _ => true) 170000 no_lock no_gauge no_gauge sample_sched crashed_db None 0 [] 0 [] 2
    (hd far_delivery (deliveries crashed_db)) 160000)
    as (s1 & s2 & E1 & E2 & _); try reflexivity.
  - exact crashed_db_reachable.
  - exact crashed_ready.
  - left.
  - apply Nat.ltb_lt. reflexivity.
  - by exists s1, s2.
Defined.
