(* ===== verification/Auth.v ===== *)
(** * Tokens (internal/platform/auth)

    The JWT library is not part of the program: [Jwt] is its interface, [JwtLaws]
    the documented behaviour the program relies on (an HS256 token verifies under
    the key that signed it and no other, until it expires). *)

From Stdlib Require Import Ascii.
From S2P Require Import Prelude GoStrings Domain GoText.

Local Open Scope string_scope.
Local Open Scope list_scope.

Definition minSecretLen : Z := 32.
Definition DemoTokenTTL : duration := 365 * (24 * Hour).

Definition ErrEmptySecret : error := ELib "auth: JWT_SECRET is required".
Definition ErrSecretTooShort : error := ELib "auth: JWT_SECRET must be at least 32 characters".
Definition ErrInvalidToken : error := ELib "auth: invalid token".
Definition ErrMissingUserID : error := ELib "auth: token missing user_id claim".

Record Claims := mkClaims {
  cl_UserID : string;
  cl_Subject : string;
  cl_IssuedAt : time;
  cl_ExpiresAt : time
}.

Definition HS256 : string := "HS256".

(** [NewWithClaims(SigningMethodHS256, c).SignedString(key)], and
    [ParseWithClaims] at a time, with the key function of the caller: the parsed
    claims and [parsed.Valid]. *)
Class Jwt := {
  jwt_NewNumericDate : time -> time;
  jwt_SignedString : Claims -> string -> result error string;
  jwt_ParseWithClaims : time -> string -> (string -> result error string) ->
    result error (Claims * bool)
}.

Section auth.
Context `{jwt : !Jwt}.

Definition ValidateSecret (secret : string) : result error () :=
  if String.eqb secret "" then Err ErrEmptySecret
  else if (len secret <? minSecretLen)%Z then Err ErrSecretTooShort
  else Ok ().

Definition SignToken (now : time) (secret userID : string) (ttl : duration)
    : result error string :=
  let? _ := ValidateSecret secret in
  let userID := TrimSpace userID in
  if String.eqb userID "" then Err ErrMissingUserID else
  jwt_SignedString
    (mkClaims userID userID (jwt_NewNumericDate now) (jwt_NewNumericDate (now + ttl))) secret.

(** The key function: only HS256 is accepted. *)
Definition token_key (secret : string) (method : string) : result error string :=
  if negb (String.eqb method HS256) then Err ErrInvalidToken else Ok secret.

Definition ParseToken (now : time) (secret tokenString : string) : result error string :=
  let? _ := ValidateSecret secret in
  let tokenString := TrimSpace tokenString in
  if String.eqb tokenString "" then Err ErrInvalidToken else
  match jwt_ParseWithClaims now tokenString (token_key secret) with
  | Err _ => Err ErrInvalidToken
  | Ok (c, valid) =>
      if negb valid then Err ErrInvalidToken
      else if blank (cl_UserID c) then Err ErrMissingUserID
      else Ok (cl_UserID c)
  end.
End auth.

(** ** What the library promises *)

Class JwtLaws `(jwt : !Jwt) : Prop := {
  numeric_date_range t : (t - Second < jwt_NewNumericDate t <= t)%Z;
  sign_total c key : exists tok, jwt_SignedString c key = Ok tok;
  sign_clean c key tok : jwt_SignedString c key = Ok tok -> TrimSpace tok = tok /\ tok <> "";
  parse_signed c key tok now keyfunc :
    jwt_SignedString c key = Ok tok -> utf8_valid (bytes_of (cl_UserID c)) = true ->
    keyfunc HS256 = Ok key -> (now < cl_ExpiresAt c)%Z ->
    jwt_ParseWithClaims now tok keyfunc = Ok (c, true);
  parse_expired c key tok now keyfunc :
    jwt_SignedString c key = Ok tok -> (cl_ExpiresAt c <= now)%Z ->
    is_ok (jwt_ParseWithClaims now tok keyfunc) = false;
  parse_other_key c key tok now keyfunc key' :
    jwt_SignedString c key = Ok tok -> keyfunc HS256 = Ok key' -> key' <> key ->
    is_ok (jwt_ParseWithClaims now tok keyfunc) = false
}.

(** ** Trimming *)

(** Trimming leaves a text between two ASCII characters that are no space. *)
Definition solid (a : ascii) : bool := negb (space1 a) && (byte_of a <? 128)%N.

Lemma solid_no_space a : solid a = true ->
  space1 a = false /\ (forall b, space2 a b = false) /\ (forall b, space2 b a = false) /\
  (forall b c, space3 a b c = false) /\ (forall b c, space3 b c a = false).
Proof.
  unfold solid. intros [H1%negb_true_iff H2%N.ltb_lt]%andb_true_iff. split; [done|].
  unfold space2, space3.
  assert (H : forall n, (128 <= n)%N -> (byte_of a =? n)%N = false) by (intros; apply N.eqb_neq; lia).
  assert (Hle : (128 <=? byte_of a)%N = false) by (apply N.leb_gt; lia).
  split_and!; intros; rewrite ?H, ?Hle by lia; rewrite ?andb_false_r; done.
Qed.

Lemma trim_front_solid s2 s3 a l :
  space1 a = false -> (forall b, s2 a b = false) -> (forall b c, s3 a b c = false) ->
  trim_front s2 s3 (a :: l) = a :: l.
Proof.
  intros H1 H2 H3. simpl. rewrite H1. destruct l as [|b [|c l]]; [done|by rewrite H2|].
  by rewrite H2, H3.
Qed.

Lemma TrimSpace_solid a l b :
  solid a = true -> solid b = true ->
  TrimSpace (string_of (a :: l ++ [b])) = string_of (a :: l ++ [b]).
Proof.
  intros (A1 & A2 & _ & A3 & _)%solid_no_space (B1 & _ & B2 & _ & B3)%solid_no_space.
  unfold TrimSpace. rewrite bytes_of_string_of. unfold trim_left, trim_right.
  rewrite trim_front_solid by done.
  assert (E : rev (a :: l ++ [b]) = b :: rev l ++ [a]) by (simpl; by rewrite rev_app_distr).
  rewrite E, trim_front_solid by done. rewrite <- E. by rewrite rev_involutive.
Qed.

(** ** Trimming twice *)

Lemma trim_front_suffix s2 s3 l : exists k, trim_front s2 s3 l = drop k l.
Proof.
  remember (length l) as n eqn:Hn. revert l Hn. induction n as [n IH] using lt_wf_ind.
  intros l ->. destruct l as [|a l]; [by exists 0|]. cbn [trim_front].
  destruct (space1 a).
  { destruct (IH (length l) ltac:(simpl; lia) l eq_refl) as [k ->]. by exists (S k). }
  destruct l as [|b l]; [by exists 0|]. destruct (s2 a b).
  { destruct (IH (length l) ltac:(simpl; lia) l eq_refl) as [k ->]. by exists (S (S k)). }
  destruct l as [|c l]; [by exists 0|]. destruct (s3 a b c); [|by exists 0].
  destruct (IH (length l) ltac:(simpl; lia) l eq_refl) as [k ->]. by exists (S (S (S k))).
Qed.

Lemma trim_front_shorter s2 s3 l : length (trim_front s2 s3 l) <= length l.
Proof. destruct (trim_front_suffix s2 s3 l) as [k ->]. rewrite length_drop. lia. Qed.

(** A list that needs no trimming, cut at its end, needs none either. *)
Lemma trim_front_take s2 s3 l k :
  trim_front s2 s3 l = l -> trim_front s2 s3 (take k l) = take k l.
Proof.
  intros E. pose proof (trim_front_shorter s2 s3) as Hs.
  destruct l as [|a l]; [by rewrite take_nil|]. destruct k as [|k]; [done|].
  cbn [trim_front take] in *. destruct (space1 a).
  { specialize (Hs l). rewrite E in Hs. simpl in Hs. lia. }
  destruct l as [|b l]; [by rewrite take_nil|]. destruct k as [|k]; [done|]. cbn [take].
  destruct (s2 a b). { specialize (Hs l). rewrite E in Hs. simpl in Hs. lia. }
  destruct l as [|c l]; [by rewrite take_nil|]. destruct k as [|k]; [done|]. cbn [take].
  destruct (s3 a b c); [|done]. specialize (Hs l). rewrite E in Hs. simpl in Hs. lia.
Qed.

Lemma trim_front_idem s2 s3 l : trim_front s2 s3 (trim_front s2 s3 l) = trim_front s2 s3 l.
Proof.
  remember (length l) as n eqn:Hn. revert l Hn. induction n as [n IH] using lt_wf_ind.
  intros l ->. destruct l as [|a l]; [done|]. cbn [trim_front].
  destruct (space1 a) eqn:E1; [by apply (IH (length l)); [simpl; lia|]|].
  destruct l as [|b l]; [simpl; by rewrite E1|].
  destruct (s2 a b) eqn:E2; [by apply (IH (length l)); [simpl; lia|]|].
  destruct l as [|c l]; [simpl; by rewrite E1, E2|].
  destruct (s3 a b c) eqn:E3; [by apply (IH (length l)); [simpl; lia|]|].
  simpl. by rewrite E1, E2, E3.
Qed.

Lemma trim_right_take l : exists k, trim_right l = take k l.
Proof.
  unfold trim_right. destruct (trim_front_suffix (fun b a => space2 a b)
    (fun c b a => space3 a b c) (rev l)) as [k ->].
  exists (length l - k). by rewrite skipn_rev, rev_involutive.
Qed.

Lemma TrimSpace_idem s : TrimSpace (TrimSpace s) = TrimSpace s.
Proof.
  unfold TrimSpace at 1 3. f_equal. unfold TrimSpace. rewrite bytes_of_string_of.
  set (l := trim_left (bytes_of s)).
  assert (Hl : trim_left l = l) by apply trim_front_idem.
  assert (Hr : trim_left (trim_right l) = trim_right l).
  { destruct (trim_right_take l) as [k ->]. by apply trim_front_take. }
  rewrite Hr. unfold trim_right. by rewrite rev_involutive, trim_front_idem.
Qed.

(** ** Properties *)

Section properties.
Context `{jwt : !Jwt} `{laws : !JwtLaws jwt}.

Lemma ValidateSecret_ok secret :
  ValidateSecret secret = Ok () <-> (minSecretLen <= len secret)%Z.
Proof.
  unfold ValidateSecret, minSecretLen. destruct (String.eqb_spec secret "") as [->|]; [done|].
  destruct (Z.ltb_spec (len secret) 32); split; try done; lia.
Qed.

Lemma ParseToken_user now secret t u :
  ParseToken now secret t = Ok u -> blank u = false /\ (minSecretLen <= len secret)%Z.
Proof.
  unfold ParseToken. destruct (ValidateSecret secret) as [[]|] eqn:Hv; [|done].
  destruct (String.eqb _ ""); [done|].
  destruct (jwt_ParseWithClaims _ _ _) as [[c v]|]; [|done]. destruct v; [|done]. simpl.
  destruct (blank (cl_UserID c)) eqn:Eb; [done|]. intros [= <-]. split; [done|].
  by apply ValidateSecret_ok.
Qed.

(** What a signed token parses to before it expires. *)
Lemma ParseToken_signed now later secret userID ttl tok t :
  SignToken now secret userID ttl = Ok tok ->
  utf8_valid (bytes_of (TrimSpace userID)) = true ->
  (later < jwt_NewNumericDate (now + ttl))%Z ->
  TrimSpace t = tok -> ParseToken later secret t = Ok (TrimSpace userID).
Proof.
  unfold SignToken. destruct (ValidateSecret secret) as [[]|] eqn:Hv; [|done].
  destruct (String.eqb_spec (TrimSpace userID) "") as [|Hu]; [done|]. intros Hs Hutf Hlt Ht.
  set (c := mkClaims _ _ _ _) in Hs. destruct (sign_clean _ _ _ Hs) as [_ Hne].
  unfold ParseToken. rewrite Hv, Ht.
  rewrite (proj2 (String.eqb_neq tok "") Hne).
  rewrite (parse_signed c secret tok later (token_key secret)) by done. simpl.
  unfold blank. rewrite TrimSpace_idem. by rewrite (proj2 (String.eqb_neq _ _) Hu).
Qed.

(** C32: tokens round trip. Under a secret long enough, a token issued to a user
    parses back, until it expires and with white space around it too, to that
    user's trimmed id; after it expired, and under any other secret, it is
    invalid; and no token at all, signed here or not, authenticates a blank user
    or is accepted under a secret that is too short. *)
Theorem token_round_trip now later secret userID ttl tok :
  SignToken now secret userID ttl = Ok tok ->
  (utf8_valid (bytes_of (TrimSpace userID)) = true ->
   (later < jwt_NewNumericDate (now + ttl))%Z ->
   forall t, TrimSpace t = tok -> ParseToken later secret t = Ok (TrimSpace userID)) /\
  ((now + ttl <= later)%Z -> ParseToken later secret tok = Err ErrInvalidToken) /\
  (forall secret', secret' <> secret -> is_ok (ParseToken later secret' tok) = false) /\
  (forall secret' t u, ParseToken later secret' t = Ok u ->
     blank u = false /\ (minSecretLen <= len secret')%Z).
Proof.
  intros Htok. split; [intros Hutf Hlt t; by eapply ParseToken_signed|]. revert Htok.
  unfold SignToken. destruct (ValidateSecret secret) as [[]|] eqn:Hv; [|done].
  destruct (String.eqb_spec (TrimSpace userID) "") as [|Hu]; [done|]. intros Hs.
  set (c := mkClaims _ _ _ _) in Hs. destruct (sign_clean _ _ _ Hs) as [Hclean Hne].
  split_and!.
  - intros Hexp. unfold ParseToken. rewrite Hv, Hclean, (proj2 (String.eqb_neq tok "") Hne).
    pose proof (parse_expired c secret tok later (token_key secret) Hs) as H.
    destruct (jwt_ParseWithClaims _ _ _) as [[? ?]|]; [|done]. exfalso.
    pose proof (numeric_date_range (now + ttl)). simpl in H. enough (true = false) by done.
    apply H. lia.
  - intros secret' Hne'. unfold ParseToken.
    destruct (ValidateSecret secret') as [[]|]; [|done].
    rewrite Hclean, (proj2 (String.eqb_neq tok "") Hne).
    pose proof (parse_other_key c secret tok later (token_key secret') secret' Hs eq_refl Hne') as H.
    by destruct (jwt_ParseWithClaims _ _ _).
  - intros secret' t u. apply ParseToken_user.
Qed.
End properties.

(** ** A library that keeps the promises

    The token is the text of the claims and the key: good enough to evaluate the
    model on, and to show that the laws can hold. *)

Definition claims_tuple (c : Claims) := (cl_UserID c, cl_Subject c, cl_IssuedAt c, cl_ExpiresAt c).
Definition tuple_claims (t : string * string * Z * Z) : Claims :=
  let '(a, b, c, d) := t in mkClaims a b c d.

Definition one : ascii := "1"%char.

Definition sample_sign (c : Claims) (key : string) : string :=
  string_of (one :: bytes_of (to_text (claims_tuple c, key)) ++ [one]).

Definition sample_open (tok : string) : option (Claims * string) :=
  match bytes_of tok with
  | [] => None
  | _ :: l => match of_text (string_of (removelast l)) with
              | Some (t, key) => Some (tuple_claims t, key)
              | None => None
              end
  end.

#[export] Instance sample_jwt : Jwt := {
  jwt_NewNumericDate t := (t / Second * Second)%Z;
  jwt_SignedString c key := Ok (sample_sign c key);
  jwt_ParseWithClaims now tok keyfunc :=
    match sample_open tok, keyfunc HS256 with
    | Some (c, key), Ok key' =>
        if String.eqb key key' && (now <? cl_ExpiresAt c)%Z then Ok (c, true)
        else Err (ELib "token is invalid")
    | _, _ => Err (ELib "token is malformed")
    end
}.

Lemma sample_open_sign c key : sample_open (sample_sign c key) = Some (c, key).
Proof.
  unfold sample_open, sample_sign. rewrite bytes_of_string_of. cbv iota.
  rewrite removelast_last, string_of_bytes_of, of_text_to_text. by destruct c.
Qed.

#[export] Instance sample_jwt_laws : JwtLaws sample_jwt.
Proof.
  split; simpl.
  - intros t. unfold Second, Millisecond. pose proof (Z.div_mod t (1000 * 1000000) ltac:(lia)).
    pose proof (Z.mod_pos_bound t (1000 * 1000000) ltac:(lia)). lia.
  - eauto.
  - intros c key tok [= <-]. split; [by apply TrimSpace_solid|done].
  - intros c key tok now keyfunc [= <-] _ Hk Hlt. rewrite sample_open_sign, Hk, String.eqb_refl.
    by rewrite (proj2 (Z.ltb_lt _ _) Hlt).
  - intros c key tok now keyfunc [= <-] Hle. rewrite sample_open_sign. destruct (keyfunc _); [|done].
    rewrite (proj2 (Z.ltb_ge _ _) Hle). by rewrite andb_false_r.
  - intros c key tok now keyfunc key' [= <-] Hk Hne. rewrite sample_open_sign, Hk.
    by rewrite (proj2 (String.eqb_neq key key')).
Qed.

Definition sample_secret : string := "0123456789abcdef0123456789abcdef".

Definition sample_token : string :=
  sample_sign (mkClaims "alice" "alice" 0 Hour) sample_secret.

Lemma sample_token_signed : SignToken 0 sample_secret " alice " Hour = Ok sample_token.
Proof. vm_compute. reflexivity. Qed.

Lemma token_round_trip_witness :
  ParseToken Minute sample_secret sample_token = Ok "alice" /\
  ParseToken (2 * Hour) sample_secret sample_token = Err ErrInvalidToken.
Proof.
  split.
  - apply (token_round_trip 0 Minute sample_secret " alice " Hour sample_token sample_token_signed);
      [reflexivity|reflexivity|by apply TrimSpace_solid].
  - apply (token_round_trip 0 (2 * Hour) sample_secret " alice " Hour sample_token sample_token_signed).
    done.
Defined.
