(* ===== verification/Provider.v ===== *)
(** * The provider adapter (internal/adapters/provider)

    [WebhookClient_Send] calls the provider over HTTP and classifies the answer;
    [Breaker_Send] puts the channel's circuit breaker in front of it. The HTTP
    client, the JSON codec and the breaker library are interfaces. *)

From S2P Require Import Prelude GoStrings GoFloat Domain GoText Retry.

Local Open Scope string_scope.

(** ** The webhook client (webhook.go) *)

Record requestBody := mkRequestBody { rqb_To : string; rqb_Channel : string; rqb_Content : string }.

Record responseBody := mkResponseBody {
  rb_MessageID : string;
  rb_Status : string;
  rb_Timestamp : string
}.

Record HttpCall := mkHttpCall {
  hc_URL : string;
  hc_ContentType : string;
  hc_IdempotencyKey : string;
  hc_Body : string
}.

Record HttpAnswer := mkHttpAnswer {
  ha_StatusCode : Z;
  ha_RetryAfter : string;
  ha_Body : string
}.

(** [http_Do] is one call of [client.Do], whatever requests the client makes for it
    (net/http follows redirects and may send a request again). It ends with an error
    on a network failure or when the timeout passes. [json_Unmarshal] gives what is
    left in the zeroed struct, its error being ignored. *)
Class ProviderEnv (W : Type) := {
  json_Marshal : requestBody -> result error string;
  json_Unmarshal : string -> responseBody;
  http_NewRequest : string -> result error ();
  http_Do : duration -> HttpCall -> eff W error HttpAnswer;
  time_Parse_RFC3339 : string -> result error time;
  http_ParseTime : string -> result error time;
  provider_Now : W -> time * W
}.

Record WebhookClient := mkWebhookClient { wc_url : string; wc_timeout : duration }.

Definition NewWebhookClient (url : string) (timeout : duration) : WebhookClient :=
  mkWebhookClient url timeout.

(** [io.LimitReader]: the first [n] bytes. *)
Fixpoint LimitReader (n : N) (s : string) : string :=
  match s with
  | EmptyString => EmptyString
  | String.String c s =>
      if (n =? 0)%N then EmptyString else String.String c (LimitReader (n - 1) s)
  end.

(** [time.Time.Sub] and [time.Until] saturate. *)
Definition time_Sub (t u : time) : duration := Z.max int64_min (Z.min int64_max (t - u)).

(** A call that cannot fail. *)
Definition total {W A} (f : W -> A * W) : eff W error A := fun w =>
  let '(a, w') := f w in (Ok a, w').

Section webhook.
Context {W : Type} `{env : !ProviderEnv W}.

Definition parseSuccess (body : string) : eff W error ProviderResult :=
  let rb := json_Unmarshal body in
  now ← total provider_Now;
  let ts := if String.eqb (rb_Timestamp rb) "" then now else
            match time_Parse_RFC3339 (rb_Timestamp rb) with
            | Ok parsed => parsed
            | Err _ => now
            end in
  let status := if String.eqb (rb_Status rb) "" then "accepted" else rb_Status rb in
  mret (mkProviderResult (rb_MessageID rb) status ts).

(** [time.Duration(secs) * time.Second] is a 64-bit product. *)
Definition parseRetryAfter (header : string) : eff W error (option duration) :=
  if String.eqb header "" then mret None else
  match Atoi header with
  | Ok secs => mret (Some (wrap64 (secs * Second)))
  | Err _ =>
      match http_ParseTime header with
      | Ok t =>
          now ← total provider_Now;
          let d := time_Sub t now in
          mret (Some (if (d <? 0)%Z then 0%Z else d))
      | Err _ => mret None
      end
  end.

Definition provider_failure (permanent : bool) (status : Z) (retryAfter : option duration)
    (err : error) : error :=
  ProviderError_error (mkProviderError permanent status retryAfter false (Some err)).

Definition WebhookClient_Send (c : WebhookClient) (req : ProviderRequest)
    : eff W error ProviderResult :=
  match json_Marshal (mkRequestBody (pr_To req) (pr_Channel req) (pr_Content req)) with
  | Err err => raise (provider_failure true 0 None (Errorf "marshal request" err))
  | Ok body =>
      match http_NewRequest (wc_url c) with
      | Err err => raise (provider_failure true 0 None (Errorf "build request" err))
      | Ok _ =>
          r ← attempt (http_Do (wc_timeout c)
                (mkHttpCall (wc_url c) "application/json" (pr_DeliveryID req) body));
          match r with
          | Err err => raise (provider_failure false 0 None (Errorf "provider call" err))
          | Ok resp =>
              let respBytes := LimitReader 1048576 (ha_Body resp) in
              let code := ha_StatusCode resp in
              if ((code >=? 200) && (code <? 300))%Z then parseSuccess respBytes
              else if (code =? 429)%Z then
                retryAfter ← parseRetryAfter (ha_RetryAfter resp);
                raise (provider_failure false code retryAfter
                         (ELib ("provider rate limited: " ++ respBytes)))
              else if ((code >=? 400) && (code <? 500))%Z then
                raise (provider_failure true code None
                  (ELib ("provider rejected (" ++ FormatInt code ++ "): " ++ respBytes)))
              else
                raise (provider_failure false code None
                  (ELib ("provider error (" ++ FormatInt code ++ "): " ++ respBytes)))
          end
      end
  end.
End webhook.

(** ** The circuit breaker (breaker.go) *)

Record BreakerConfig := mkBreakerConfig {
  bc_FailureRateThreshold : float64;
  bc_MinRequests : Z;
  bc_Window : duration;
  bc_OpenTimeout : duration;
  bc_HalfOpenMax : Z
}.

(** [gobreaker.Counts], as far as the settings read it. *)
Record Counts := mkCounts { ct_Requests : Z; ct_TotalFailures : Z }.

Definition ReadyToTrip (cfg : BreakerConfig) (counts : Counts) : bool :=
  if (ct_Requests counts <? bc_MinRequests cfg)%Z then false else
  let failureRatio := f64_div (f64_of_int (ct_TotalFailures counts))
                        (f64_of_int (ct_Requests counts)) in
  f64_leb (bc_FailureRateThreshold cfg) failureRatio.

Definition IsExcluded (err : error) : bool :=
  match errors_As_Provider err with Some perr => pe_Permanent perr | None => false end.

Definition ErrOpenState : error := ELib "circuit breaker is open".
Definition ErrTooManyRequests : error := ELib "too many requests".

(** [cb.Execute] of the channel's breaker, which [NewBreaker] makes for each of
    [AllChannels] with the settings above. *)
Class BreakerLib (W : Type) := {
  cb_Execute : BreakerConfig -> Channel -> eff W error ProviderResult -> eff W error ProviderResult
}.

Section breaker.
Context {W : Type} `{lib : !BreakerLib W} (cfg : BreakerConfig).
Context (inner_Send : ProviderRequest -> eff W error ProviderResult).

(** The keys of [b.breakers]. *)
Definition has_breaker (c : Channel) : bool := existsb (String.eqb c) AllChannels.

Definition Breaker_Send (req : ProviderRequest) : eff W error ProviderResult :=
  if negb (has_breaker (pr_Channel req)) then inner_Send req else
  r ← attempt (cb_Execute cfg (pr_Channel req) (inner_Send req));
  match r with
  | Ok res => mret res
  | Err err =>
      if errors_Is err ErrOpenState || errors_Is err ErrTooManyRequests
      then raise (ProviderError_error (mkProviderError false 0 None true (Some err)))
      else raise err
  end.
End breaker.

(** ** What a response means for the delivery *)

(** The verdict of the retry policy on an error of [Send]. *)
Definition verdict (overflow : float64 -> Z) (p : Policy) (draw : float64) (now : time)
    (attempts : Z) (e : error) : option Outcome :=
  EvaluateFailure overflow p draw now attempts (errors_As_Provider e).
