(* ===== verification/ProviderSpec.v ===== *)
(** * What the provider adapter guarantees

    Theorems on [Provider]: how every answer of the provider is classified for
    the retry policy, and how often the HTTP client is called. *)

From S2P Require Import Prelude GoStrings GoFloat Domain GoText Retry Provider.

Local Open Scope string_scope.
Local Open Scope list_scope.

(** ** The calls of the HTTP client

    An environment that also records each call of [client.Do], whatever the client
    itself does with it: following a redirect, or sending the request again on
    another connection, is its own business. *)
Definition logged_env {W} (env : ProviderEnv W) : ProviderEnv (W * list HttpCall) := {|
  json_Marshal := json_Marshal;
  json_Unmarshal := json_Unmarshal;
  http_NewRequest := http_NewRequest;
  http_Do t c wl := let '(r, w) := http_Do t c wl.1 in (r, (w, wl.2 ++ [c]));
  time_Parse_RFC3339 := time_Parse_RFC3339;
  http_ParseTime := http_ParseTime;
  provider_Now wl := let '(t, w) := provider_Now wl.1 in (t, (w, wl.2))
|}.

(** ** The libraries' promises

    The breaker either refuses without running its argument or runs it once and
    passes its result on; its sentinels are its own. It makes no HTTP call itself. *)

Definition own_error (e : error) : bool :=
  errors_Is e ErrOpenState || errors_Is e ErrTooManyRequests.

Class ProviderLaws (W : Type) `{env : !ProviderEnv W} `{lib : !BreakerLib (W * list HttpCall)} := {
  marshal_error b e : json_Marshal b = Err e -> own_error e = false;
  build_error u e : http_NewRequest u = Err e -> own_error e = false;
  do_error t c w e w' : http_Do t c w = (Err e, w') -> own_error e = false;
  execute_spec cfg ch (f : eff (W * list HttpCall) error ProviderResult) w r w' :
    cb_Execute cfg ch f w = (r, w') ->
    ((r = Err ErrOpenState \/ r = Err ErrTooManyRequests) /\ w'.2 = w.2) \/
    (exists w0 w1, w0.2 = w.2 /\ f w0 = (r, w1) /\ w'.2 = w1.2)
}.

(** ** Classification of an answer *)

(** The positive wait a Retry-After header asks for at [now]. *)
Definition header_wait `{env : !ProviderEnv W} (header : string) (now : time) : option duration :=
  let positive d := if (0 <? d)%Z then Some d else None in
  if String.eqb header "" then None else
  match Atoi header with
  | Ok secs => positive (wrap64 (secs * Second))
  | Err _ => match http_ParseTime header with
             | Ok t => positive (time_Sub t now)
             | Err _ => None
             end
  end.

Definition success_code (code : Z) : bool := ((200 <=? code) && (code <=? 299))%Z.
Definition rejected_code (code : Z) : bool :=
  ((400 <=? code) && (code <=? 499) && negb (code =? 429))%Z.

Section spec.
Context {W : Type} `{env : !ProviderEnv W}.
Implicit Types (req : ProviderRequest) (w : W).

Lemma total_run {A} (f : W -> A * W) w : total f w = (Ok (f w).1, (f w).2).
Proof. unfold total. by destruct (f w). Qed.

(** The clock is read at most once while the header is parsed. *)
Lemma parseRetryAfter_run h w : exists d w',
  parseRetryAfter h w = (Ok d, w') /\
  provider_wait (Some (mkProviderError false 429 d false None)) = header_wait h (provider_Now w).1 /\
  (w' = w \/ w' = (provider_Now w).2).
Proof.
  unfold parseRetryAfter, header_wait. destruct (String.eqb h ""); [by repeat esplit; eauto|].
  destruct (Atoi h); [by repeat esplit; eauto|].
  destruct (http_ParseTime h) as [t|]; [|by repeat esplit; eauto].
  erewrite bind_step_ok by apply total_run. repeat esplit; eauto.
  simpl. destruct (Z.ltb_spec (time_Sub t (provider_Now w).1) 0); [|done].
  simpl. destruct (Z.ltb_spec 0 (time_Sub t (provider_Now w).1)); [lia|done].
Qed.

Lemma parseSuccess_run b w : exists res,
  parseSuccess b w = (Ok res, (provider_Now w).2) /\ pres_Status res <> "" /\
  pres_MessageID res = rb_MessageID (json_Unmarshal b).
Proof.
  unfold parseSuccess. erewrite bind_step_ok by apply total_run. eexists. split; [done|].
  simpl. split; [|done]. by destruct (String.eqb_spec (rb_Status (json_Unmarshal b)) "").
Qed.

(** The HTTP request of a delivery. *)
Definition the_call (c : WebhookClient) req (body : string) : HttpCall :=
  mkHttpCall (wc_url c) "application/json" (pr_DeliveryID req) body.

Lemma code_cases code :
  ((code >=? 200) && (code <? 300))%Z = success_code code /\
  (success_code code = false -> (code =? 429)%Z = false ->
   ((code >=? 400) && (code <? 500))%Z = rejected_code code) /\
  (code = 429%Z -> success_code code = false /\ rejected_code code = false) /\
  (success_code code = true -> rejected_code code = false).
Proof. unfold success_code, rejected_code. repeat split; intros; lia. Qed.

(** The result of [Send] as a function of the answer. *)
Lemma Send_run c req w body r w1 :
  json_Marshal (mkRequestBody (pr_To req) (pr_Channel req) (pr_Content req)) = Ok body ->
  http_NewRequest (wc_url c) = Ok () ->
  http_Do (wc_timeout c) (the_call c req body) w = (r, w1) ->
  exists out w2, WebhookClient_Send c req w = (out, w2) /\
  (w2 = w1 \/ w2 = (provider_Now w1).2) /\
  match r with
  | Err e => out = Err (provider_failure false 0 None (Errorf "provider call" e))
  | Ok a =>
      if success_code (ha_StatusCode a) then
        exists res, out = Ok res /\ pres_Status res <> "" /\
          pres_MessageID res = rb_MessageID (json_Unmarshal (LimitReader 1048576 (ha_Body a)))
      else exists d err, out = Err (provider_failure (rejected_code (ha_StatusCode a))
                                      (ha_StatusCode a) d err) /\ own_error err = false
  end /\
  match out with
  | Ok _ => True
  | Err e => provider_wait (errors_As_Provider e) =
      match r with
      | Ok a => if (ha_StatusCode a =? 429)%Z then header_wait (ha_RetryAfter a) (provider_Now w1).1
                else None
      | Err _ => None
      end
  end.
Proof.
  intros Hb Hu Hd. unfold WebhookClient_Send. rewrite Hb, Hu.
  erewrite attempt_bind by exact Hd. destruct r as [a|e]; [|by repeat esplit; eauto].
  destruct (code_cases (ha_StatusCode a)) as (-> & H4 & H429 & _).
  destruct (success_code _) eqn:Es.
  { destruct (parseSuccess_run (LimitReader 1048576 (ha_Body a)) w1) as (res & -> & ? & ?).
    repeat esplit; eauto. }
  destruct (Z.eqb_spec (ha_StatusCode a) 429) as [E|E].
  { destruct (parseRetryAfter_run (ha_RetryAfter a) w1) as (d & w' & Hp & Hw & Hw').
    erewrite bind_step_ok by exact Hp. destruct (H429 E) as [_ ->].
    eexists _, _. split; [done|]. split; [destruct Hw'; auto|]. by repeat esplit. }
  rewrite H4 by (done || by apply Z.eqb_neq).
  destruct (rejected_code _) eqn:Er; by repeat esplit; eauto.
Qed.

(** The verdict on an answer, or on a network error ([None]). *)
Definition asked_wait (r : result error HttpAnswer) (clock : time) : option duration :=
  match r with
  | Ok a => if (ha_StatusCode a =? 429)%Z then header_wait (ha_RetryAfter a) clock else None
  | Err _ => None
  end.

Definition rejected (r : result error HttpAnswer) : bool :=
  match r with Ok a => rejected_code (ha_StatusCode a) | Err _ => false end.

Definition delivered (r : result error HttpAnswer) : bool :=
  match r with Ok a => success_code (ha_StatusCode a) | Err _ => false end.

(** A Retry-After of whole seconds: honoured while the product fits. *)
Lemma header_wait_secs secs t :
  in_int64 secs ->
  header_wait (FormatInt secs) t =
    if (0 <? wrap64 (secs * Second))%Z then Some (wrap64 (secs * Second)) else None.
Proof.
  intros H. unfold header_wait. unfold Atoi. rewrite ParseInt_FormatInt by done.
  destruct (String.eqb_spec (FormatInt secs) "") as [E|]; [|done].
  pose proof (ParseInt_FormatInt secs H) as E2. by rewrite E in E2.
Qed.

End spec.

(** What one [Send] of the webhook client does to the log of calls. *)
Section logs.
Context {W : Type} `{env : !ProviderEnv W} `{lib : !BreakerLib (W * list HttpCall)}.
Context `{laws : !ProviderLaws W}.
Implicit Types (req : ProviderRequest) (wl : W * list HttpCall).
#[local] Instance env_logged : ProviderEnv (W * list HttpCall) := logged_env env.

(** A request that cannot be built is never given to the client. *)
Lemma Send_unbuilt c req wl :
  (exists err, WebhookClient_Send c req wl = (Err (provider_failure true 0 None err), wl) /\
     own_error err = false) \/
  (exists body, json_Marshal (mkRequestBody (pr_To req) (pr_Channel req) (pr_Content req)) = Ok body /\
     http_NewRequest (wc_url c) = Ok ()).
Proof.
  unfold WebhookClient_Send. destruct (json_Marshal _) as [body|e] eqn:Eb.
  - destruct (http_NewRequest (wc_url c)) as [[]|e] eqn:Eu; [by eauto|left].
    eexists. split; [done|]. apply (build_error (W := W) _ _ Eu).
  - left. eexists. split; [done|]. apply (marshal_error (W := W) _ _ Eb).
Qed.

Lemma Send_logs c req wl out wl' :
  WebhookClient_Send c req wl = (out, wl') ->
  (forall e, out = Err e -> own_error e = false /\
     exists perr, errors_As_Provider e = Some perr /\ pe_BreakerOpen perr = false) /\
  ((wl'.2 = wl.2 /\ exists err, out = Err (provider_failure true 0 None err)) \/
   exists body, json_Marshal (mkRequestBody (pr_To req) (pr_Channel req) (pr_Content req)) = Ok body /\
     wl'.2 = wl.2 ++ [the_call c req body]).
Proof.
  intros E. destruct (Send_unbuilt c req wl) as [(err & E' & Ho)|(body & Hb & Hu)].
  { rewrite E in E'. simplify_eq. split; [|by eauto]. intros e [= <-]. by eauto. }
  destruct (http_Do (ProviderEnv := env) (wc_timeout c) (the_call c req body) wl.1) as [r w1] eqn:Hd.
  assert (Hd' : http_Do (wc_timeout c) (the_call c req body) wl = (r, (w1, wl.2 ++ [the_call c req body])))
    by (simpl; by rewrite Hd).
  destruct (Send_run c req wl body r _ Hb Hu Hd') as (out' & w2 & E' & Hw2 & Hout & _).
  rewrite E in E'. injection E' as <- <-. split.
  - intros e ->. destruct r as [a|e'].
    + destruct (success_code _); [naive_solver|].
      destruct Hout as (d & err & [= ->] & Ho). by eauto.
    + simplify_eq. split; [|by eauto]. apply (do_error (W := W) _ _ _ _ _ Hd).
  - right. exists body. split; [done|].
    destruct Hw2 as [-> | ->]; [done|]. simpl. by destruct (provider_Now w1).
Qed.
End logs.

(** ** Properties *)

Section properties.
Context {W : Type} `{env : !ProviderEnv W}.

(** C18: how the code classifies every answer of the provider, through the retry
    policy: a 2xx delivers (with a status, even for a body that is not
    JSON); a 4xx other than 429 fails the delivery at once; a 429, any other
    status (1xx, 3xx, 5xx, out of range) and a network error or timeout count
    the attempt and retry until the attempts are used up; and the wait before the
    retry is the backoff schedule's, unless the answer is a 429 whose Retry-After
    gives a positive number of seconds or a date in the future, which is then
    obeyed. (README.md promises the same of a 503; the code drops that header.) The
    seconds are multiplied on 64 bits: a header of 9223372037 seconds or more can
    wrap around to a short wait or to no wait asked at all. *)
Theorem Send_verdict overflow p draw now n c req w body r w1 :
  attempt_ok n ->
  json_Marshal (mkRequestBody (pr_To req) (pr_Channel req) (pr_Content req)) = Ok body ->
  http_NewRequest (wc_url c) = Ok () ->
  http_Do (wc_timeout c) (the_call c req body) w = (r, w1) ->
  match (WebhookClient_Send c req w).1 with
  | Ok res => delivered r = true /\ pres_Status res <> ""
  | Err e => delivered r = false /\
      verdict overflow p draw now n e = Some
        (if rejected r || (MaxAttempts p <=? n + 1)%Z
         then mkOutcome DeliveryFailed (n + 1) None
         else mkOutcome DeliveryRetrying (n + 1)
           (Some (now + default (scheduled_wait overflow p draw n)
                          (asked_wait r (provider_Now w1).1))%Z))
  end /\
  (forall secs clock, (0 < secs <= 9223372036)%Z ->
     header_wait (FormatInt secs) clock = Some (secs * Second)%Z) /\
  (forall clock, header_wait (FormatInt 9223372037) clock = None /\
     header_wait (FormatInt 18446744074) clock = Some 290448384%Z).
Proof.
  intros Hn Hb Hu Hd. split; [|split].
  - destruct (Send_run c req w body r w1 Hb Hu Hd) as (out & w2 & E & _ & Hout & Hwait).
    rewrite E. simpl. destruct out as [res|e].
    + destruct r as [a|]; [|done]. simpl. destruct (success_code _); naive_solver.
    + assert (Hp : is_permanent (errors_As_Provider e) = rejected r /\ delivered r = false).
      { destruct r as [a|e']; simpl in *; [|by simplify_eq].
        destruct (success_code _) eqn:Es; [naive_solver|].
        by destruct Hout as (d & err & [= ->] & _). }
      destruct Hp as [Hp Hdel]. split; [done|]. unfold verdict.
      rewrite EvaluateFailure_cases by done. rewrite Hp, Hwait. destruct (rejected r || _); [done|]. by destruct r.
  - intros secs clock Hs.
    assert (Hw : wrap64 (secs * Second) = (secs * Second)%Z).
    { apply wrap64_id. unfold in_int64, int64_min, int64_max, Second, Millisecond. lia. }
    rewrite header_wait_secs by (unfold in_int64, int64_min, int64_max; lia).
    rewrite Hw. destruct (Z.ltb_spec 0 (secs * Second)); [done|].
    unfold Second, Millisecond in *. lia.
  - intros clock. rewrite !header_wait_secs by (unfold in_int64, int64_min, int64_max; lia).
    done.
Qed.

(** C26: one [Send] of the channel client (circuit breaker in front of the webhook
    client) calls the HTTP client's [Do] at most once: there is no retry inside the
    adapter. It is not called when the breaker refuses, and the error then says so
    and is not permanent, nor when the request cannot be built, which fails for
    good. Otherwise it is called exactly once, for a POST to the configured URL with
    the delivery's id as Idempotency-Key, and the result is the webhook client's,
    never taken for a refusal of the breaker. A channel without a breaker is never
    refused. What the client does within one [Do] (redirects, replays of a request
    that carries an Idempotency-Key) is net/http's; each such repetition carries the
    same key. *)
Theorem Send_once `{lib : !BreakerLib (W * list HttpCall)} `{laws : !ProviderLaws W} cfg c req w l out wl' :
  Breaker_Send cfg (WebhookClient_Send (env := logged_env env) c) req (w, l) = (out, wl') ->
  (wl'.2 = l /\ has_breaker (pr_Channel req) = true /\
     exists e, out = Err (ProviderError_error (mkProviderError false 0 None true (Some e))) /\
       (e = ErrOpenState \/ e = ErrTooManyRequests)) \/
  (wl'.2 = l /\ exists e, out = Err (provider_failure true 0 None e)) \/
  (exists body, json_Marshal (mkRequestBody (pr_To req) (pr_Channel req) (pr_Content req)) = Ok body /\
     wl'.2 = l ++ [mkHttpCall (wc_url c) "application/json" (pr_DeliveryID req) body] /\
     (exists w0, (WebhookClient_Send (env := logged_env env) c req (w0, l)).1 = out) /\
     forall e, out = Err e -> exists perr, errors_As_Provider e = Some perr /\
       pe_BreakerOpen perr = false).
Proof.
  unfold Breaker_Send. destruct (has_breaker _) eqn:Hb; simpl; intros E.
  - destruct (cb_Execute cfg (pr_Channel req) (WebhookClient_Send (env := logged_env env) c req) (w, l))
      as [r w1] eqn:Ex.
    rewrite (attempt_bind _ _ _ _ _ Ex) in E.
    destruct (execute_spec _ _ _ _ _ _ Ex) as [[Hr Hc]|(w0 & w2 & Hc0 & Hs & Hc1)].
    + left. destruct Hr as [-> | ->]; cbn in E; unfold raise in E; simplify_eq; by eauto 10.
    + destruct (Send_logs _ _ _ _ _ Hs) as [He Hlog]. simpl in Hc0.
      assert (E' : r = out /\ w1 = wl').
      { destruct r as [res|e]; [change ((Ok res, w1) = (out, wl')) in E; by simplify_eq|].
        destruct (He e eq_refl) as [Ho _]. unfold own_error in Ho. rewrite Ho in E.
        change ((Err e, w1) = (out, wl')) in E. by simplify_eq. }
      destruct E' as [-> ->]. right. rewrite Hc1, <- Hc0. destruct w0 as [w0 l0]. simpl in *.
      destruct Hlog as [[Hq Hp]|(body & Hb' & Hq)]; [by left|].
      right. exists body. split_and!; [done|done| |].
      { exists w0. by rewrite Hs. }
      { intros e ->. by destruct (He e eq_refl) as [_ ?]. }
  - destruct (Send_logs _ _ _ _ _ E) as [He Hlog]. right.
    destruct Hlog as [[Hq Hp]|(body & Hb' & Hq)]; [by left|].
    right. exists body. split_and!; [done|done| |].
    { exists w. by rewrite E. }
    { intros e ->. by destruct (He e eq_refl) as [_ ?]. }
Qed.
End properties.

(** ** A provider to evaluate the model on

    The world holds the answers still to come, whether the breaker is open, and
    the requests made. *)

Record sample_world := mkSampleWorld {
  sw_answers : list HttpAnswer;
  sw_open : bool;
  sw_calls : list HttpCall
}.

#[export] Instance sample_provider : ProviderEnv sample_world := {
  json_Marshal b := Ok (rqb_To b ++ "|" ++ rqb_Channel b ++ "|" ++ rqb_Content b)%string;
  json_Unmarshal s := mkResponseBody s "" "";
  http_NewRequest u := if String.eqb u "" then Err (ELib "no URL") else Ok ();
  http_Do _ c w :=
    match sw_answers w with
    | [] => (Err (ELib "connection refused"), mkSampleWorld [] (sw_open w) (sw_calls w ++ [c]))
    | a :: l => (Ok a, mkSampleWorld l (sw_open w) (sw_calls w ++ [c]))
    end;
  time_Parse_RFC3339 _ := Err (ELib "parse");
  http_ParseTime _ := Err (ELib "parse");
  provider_Now w := (0%Z, w)
}.

#[export] Instance sample_breaker : BreakerLib sample_world := {
  cb_Execute _ _ f w := if sw_open w then (Err ErrOpenState, w) else f w
}.

(** The same breaker beside anything recorded. *)
Definition sample_breaker_with (T : Type) : BreakerLib (sample_world * T) := {|
  cb_Execute _ _ f wt := if sw_open wt.1 then (Err ErrOpenState, wt) else f wt
|}.

Lemma sample_provider_laws : ProviderLaws (lib := sample_breaker_with (list HttpCall)) sample_world.
Proof.
  constructor; simpl.
  - done.
  - intros u e. destruct (String.eqb u ""); naive_solver.
  - intros t c w e w'. destruct (sw_answers w); naive_solver.
  - intros cfg ch f w r w'. destruct (sw_open w.1); intros ?; simplify_eq; [by eauto|].
    right. by eauto.
Defined.

Definition sample_client : WebhookClient := NewWebhookClient "http://p" Second.
Definition sample_send : ProviderRequest := mkProviderRequest "d-1" "+90" ChannelSMS "hi".
Definition sample_config : BreakerConfig := mkBreakerConfig (f64_lit 1 (-1)) 20 Minute Minute 1.
Definition slow_down : sample_world := mkSampleWorld [mkHttpAnswer 429 "7" "busy"] false [].

Lemma Send_verdict_witness :
  exists e, (WebhookClient_Send sample_client sample_send slow_down).1 = Err e /\
    verdict (fun _ => 0%Z) sample_policy (f64_of_int 0) 0 0 e =
      Some (mkOutcome DeliveryRetrying 1 (Some (7 * Second)%Z)).
Proof.
  destruct (Send_verdict (fun _ => 0%Z) sample_policy (f64_of_int 0) 0 0 sample_client sample_send
    slow_down "+90|sms|hi" (Ok (mkHttpAnswer 429 "7" "busy"))
    (mkSampleWorld [] false [the_call sample_client sample_send "+90|sms|hi"])
    ltac:(split; vm_compute; congruence) eq_refl eq_refl eq_refl) as [H _].
  destruct (WebhookClient_Send sample_client sample_send slow_down).1 as [res|e] eqn:E;
    [vm_compute in E; discriminate|].
  exists e. split; [done|]. destruct H as [_ H]. exact H.
Defined.

Definition sample_sending : eff (sample_world * list HttpCall) error ProviderResult :=
  Breaker_Send (lib := sample_breaker_with _) sample_config
    (WebhookClient_Send (env := logged_env sample_provider) sample_client) sample_send.

Lemma Send_once_witness :
  exists out wl', sample_sending (slow_down, []) = (out, wl') /\ length wl'.2 = 1.
Proof.
  destruct (sample_sending (slow_down, [])) as [out wl'] eqn:E.
  exists out, wl'. split; [done|].
  destruct (Send_once (lib := sample_breaker_with _) (laws := sample_provider_laws)
    sample_config sample_client sample_send slow_down [] out wl' E)
    as [(H & _)|[(H & _)|(body & _ & H & _)]].
  - exfalso. vm_compute in E. injection E as <- <-. vm_compute in H. discriminate.
  - exfalso. vm_compute in E. injection E as <- <-. vm_compute in H. discriminate.
  - rewrite H. reflexivity.
Defined.

(** Half of twenty requests failing trips the breaker, of nineteen does not, and
    without requests the ratio is no number and trips nothing. *)
Example ReadyToTrip_samples :
  (ReadyToTrip sample_config (mkCounts 20 10), ReadyToTrip sample_config (mkCounts 20 9),
   ReadyToTrip sample_config (mkCounts 19 19),
   ReadyToTrip (mkBreakerConfig (f64_lit 1 (-1)) 0 0 0 0) (mkCounts 0 0))
  = (true, false, false, false).
Proof. vm_compute. reflexivity. Qed.
