(* ===== verification/Cursor.v ===== *)
(** * Pagination cursors (internal/transport/http/cursor.go)

    A cursor is the text of a time and an identifier, in base64. The UUID package
    is an interface; its law is that an identifier's text parses back to it. *)

From Stdlib Require Import Ascii.
From S2P Require Import Prelude GoStrings Domain GoText.

Local Open Scope string_scope.

Class UuidText := {
  uuid_String : uuid -> string;
  uuid_Parse : string -> result error uuid
}.

(** Sixteen bytes. *)
Definition uuid_ok (id : uuid) : Prop := (id < 2 ^ 128)%N.

Class UuidTextLaws `(ut : !UuidText) : Prop := {
  parse_string id : uuid_ok id -> uuid_Parse (uuid_String id) = Ok id
}.

Section cursor.
Context `{ut : !UuidText}.

(** [at.UnixNano()] keeps the low 64 bits. *)
Definition encodeCursor (id : uuid) (at_ : option time) : string :=
  let ts := match at_ with Some t => wrap64 t | None => 0%Z end in
  let raw := FormatInt ts ++ "|" ++ uuid_String id in
  EncodeToString raw.

Definition decodeCursor (s : string) : result error (uuid * option time) :=
  let? data := DecodeString s in
  match SplitN2 data "|"%char with
  | None => Err (ELib "malformed cursor")
  | Some (part0, part1) =>
      let? ts := ParseInt part0 in
      let? id := uuid_Parse part1 in
      Ok (id, Some ts)
  end.

Definition parseInt (s : string) : result error Z := Atoi s.
End cursor.

(** ** Round trip *)

Lemma digit_char_not_bar d : (d < 10)%N -> digit_char d <> "|"%char.
Proof.
  intros H. unfold digit_char. intros E; apply (f_equal N_of_ascii) in E;
    rewrite N_ascii_embedding in E by lia; simpl in E; lia.
Qed.

Lemma decimal_no_bar fuel n : "|"%char ∉ decimal fuel n.
Proof.
  revert n. induction fuel as [|fuel IH]; intros n; simpl; [apply not_elem_of_nil|].
  destruct (N.ltb_spec n 10) as [Hn|].
  - rewrite list_elem_of_singleton. by apply not_eq_sym, digit_char_not_bar.
  - rewrite elem_of_app, list_elem_of_singleton. intros [Hi|Hi]; [by apply IH in Hi|].
    symmetry in Hi. apply digit_char_not_bar in Hi; [done|]. by apply N.mod_lt.
Qed.

Lemma FormatInt_no_bar n : "|"%char ∉ bytes_of (FormatInt n).
Proof.
  unfold FormatInt. rewrite bytes_of_string_of, elem_of_app.
  intros [H|H]; [|by apply decimal_no_bar in H].
  destruct (n <? 0)%Z; [by apply list_elem_of_singleton in H|by apply not_elem_of_nil in H].
Qed.

Lemma SplitN2_bar s t : "|"%char ∉ bytes_of s -> SplitN2 (s ++ "|" ++ t) "|"%char = Some (s, t).
Proof.
  intros H. unfold SplitN2. rewrite bytes_of_app.
  change (bytes_of ("|" ++ t)) with ("|"%char :: bytes_of t).
  rewrite cut_app by done. by rewrite !string_of_bytes_of.
Qed.

(** Every character of the encoding is of the URL alphabet. *)
Lemma b64_char_alphabet n : (n < 64)%N -> b64_char n ∈ b64_alphabet.
Proof.
  intros H. unfold b64_char. rewrite list_elem_of_In. apply nth_In.
  change (length b64_alphabet) with 64%nat. lia.
Qed.

#[local] Ltac Zify.zify_post_hook ::= Z.to_euclidean_division_equations.

Lemma b64_encode_alphabet l c : c ∈ b64_encode l -> c ∈ b64_alphabet.
Proof.
  induction l as [|a|a b|a b d l IH] using list_ind3; [by intros ?%not_elem_of_nil|..];
    pose proof (byte_lt a); try pose proof (byte_lt b); try pose proof (byte_lt d);
    cbn [b64_encode]; cbv zeta; rewrite ?elem_of_cons, ?elem_of_nil; intros Hc;
    repeat destruct Hc as [->|Hc]; try apply b64_char_alphabet;
    try (first [apply N.mod_lt; lia | apply N.Div0.div_lt_upper_bound; lia]); auto; done.
Qed.

Section round_trip.
Context `{ut : !UuidText} `{laws : !UuidTextLaws ut}.

Lemma decode_encode_cursor id at_ :
  uuid_ok id ->
  decodeCursor (encodeCursor id at_) = Ok (id, Some (wrap64 (default 0%Z at_))).
Proof.
  intros Hid. unfold decodeCursor, encodeCursor. rewrite DecodeString_EncodeToString.
  rewrite SplitN2_bar by apply FormatInt_no_bar.
  assert (E : match at_ with Some t => wrap64 t | None => 0%Z end = wrap64 (default 0%Z at_))
    by by destruct at_.
  rewrite E, ParseInt_FormatInt by apply wrap64_range. by rewrite parse_string.
Qed.

Lemma encodeCursor_nonempty id at_ : encodeCursor id at_ <> "".
Proof.
  intros E. pose proof (DecodeString_EncodeToString
    (FormatInt match at_ with Some t => wrap64 t | None => 0%Z end ++ "|" ++ uuid_String id)) as H.
  unfold encodeCursor in E. rewrite E in H. injection H as H.
  apply (f_equal bytes_of) in H. rewrite bytes_of_app in H. by destruct (bytes_of (FormatInt _)).
Qed.

(** Pagination cursors round trip: the token of a row (its id and its creation
    time, any that fits 64 bits of nanoseconds) decodes to that row, so two rows
    never share a token; a row without a time reads back as the epoch; the token
    uses the URL-safe alphabet only; and whatever text a client sends, a time that
    decodes from it fits 64 bits. *)
Theorem cursor_round_trip id t :
  uuid_ok id -> in_int64 t ->
  decodeCursor (encodeCursor id (Some t)) = Ok (id, Some t) /\
  decodeCursor (encodeCursor id None) = Ok (id, Some 0%Z) /\
  (forall id' t', uuid_ok id' -> in_int64 t' ->
     encodeCursor id' (Some t') = encodeCursor id (Some t) -> id' = id /\ t' = t) /\
  (forall c, c ∈ bytes_of (encodeCursor id (Some t)) -> c ∈ b64_alphabet) /\
  (forall s id' at_, decodeCursor s = Ok (id', at_) -> exists t', at_ = Some t' /\ in_int64 t').
Proof.
  intros Hid Ht. split_and!.
  - rewrite decode_encode_cursor by done. simpl. by rewrite wrap64_id.
  - by rewrite decode_encode_cursor.
  - intros id' t' Hid' Ht' E. pose proof (decode_encode_cursor id (Some t) Hid) as H1.
    rewrite <- E, decode_encode_cursor in H1 by done. simpl in H1.
    rewrite !wrap64_id in H1 by done. by simplify_eq.
  - intros c. unfold encodeCursor, EncodeToString. rewrite bytes_of_string_of.
    apply b64_encode_alphabet.
  - intros s id' at_. unfold decodeCursor. destruct (DecodeString s); [|done].
    destruct (SplitN2 _ _) as [[p0 p1]|]; [|done].
    destruct (ParseInt p0) as [z|] eqn:Ep; [|done]. destruct (uuid_Parse p1); [|done].
    intros [= <- <-]. exists z. split; [done|]. by eapply ParseInt_range.
Qed.
End round_trip.

(** A UUID package to evaluate the model on. *)
#[export] Instance sample_uuid_text : UuidText := {
  uuid_String id := to_text id;
  uuid_Parse s := match of_text s with
                  | Some id => if (id <? 2 ^ 128)%N then Ok id else Err (ELib "invalid UUID")
                  | None => Err (ELib "invalid UUID")
                  end
}.

#[export] Instance sample_uuid_text_laws : UuidTextLaws sample_uuid_text.
Proof.
  split. intros id H. cbv [uuid_Parse uuid_String sample_uuid_text].
  rewrite of_text_to_text. by rewrite (proj2 (N.ltb_lt _ _) H).
Qed.

Lemma cursor_round_trip_witness :
  decodeCursor (encodeCursor 7 (Some 1717977600000000000%Z)) = Ok (7%N, Some 1717977600000000000%Z).
Proof.
  assert (H : in_int64 1717977600000000000) by (unfold in_int64, int64_min, int64_max; lia).
  destruct (cursor_round_trip 7 1717977600000000000 eq_refl H) as [E _]. exact E.
Defined.
