(* ===== verification/Http.v ===== *)
(** * The HTTP API (internal/transport/http)

    Requests, the response writer, the JSON data types, the handlers, the
    middlewares and the router. A handler acts on the process's world and on its
    response writer, and may panic: [raise] is a panic. The notification service,
    JSON decoding, time parsing, the Prometheus page and the answer of the mux to a
    path it has no pattern for are interfaces. *)

From Stdlib Require Import Ascii.
From S2P Require Import Prelude GoStrings Domain GoText Notification Auth Cursor.

Local Open Scope string_scope.
Local Open Scope list_scope.

(** ** Requests *)

(** [rq_Segments] is the escaped path between its slashes; [rq_Header] and
    [rq_Query] are [Header.Get] and [URL.Query().Get]. *)
Record HttpRequest := mkHttpRequest {
  rq_Method : string;
  rq_Segments : list string;
  rq_Header : string -> string;
  rq_Query : string -> string;
  rq_Body : string
}.

Definition hex_digit (c : ascii) : option N :=
  let n := byte_of c in
  if ((48 <=? n) && (n <=? 57))%N then Some (n - 48)%N
  else if ((65 <=? n) && (n <=? 70))%N then Some (n - 55)%N
  else if ((97 <=? n) && (n <=? 102))%N then Some (n - 87)%N
  else None.

(** Percent decoding of a segment. *)
Fixpoint unescape_bytes (l : bytes) : bytes :=
  match l with
  | [] => []
  | c :: rest =>
      match rest with
      | a :: b :: tail =>
          if Ascii.eqb c "%"%char then
            match hex_digit a, hex_digit b with
            | Some x, Some y => ascii_of_N (16 * x + y) :: unescape_bytes tail
            | _, _ => c :: unescape_bytes rest
            end
          else c :: unescape_bytes rest
      | _ => c :: unescape_bytes rest
      end
  end.
Definition pathUnescape (s : string) : string := string_of (unescape_bytes (bytes_of s)).

(** [r.URL.Path] *)
Definition URL_Path (r : HttpRequest) : string :=
  ("/" ++ strings_Join (map pathUnescape (rq_Segments r)) "/")%string.

(** [context.Context], as far as the program reads it. *)
Record Ctx := mkCtx { ctx_user : option string; ctx_correlation : option string }.

Definition background : Ctx := mkCtx None None.
Definition WithUserID (ctx : Ctx) (u : string) : Ctx := mkCtx (Some u) (ctx_correlation ctx).
Definition UserID (ctx : Ctx) : string := default "" (ctx_user ctx).
Definition WithCorrelationID (ctx : Ctx) (c : string) : Ctx := mkCtx (ctx_user ctx) (Some c).
Definition CorrelationID (ctx : Ctx) : string := default "" (ctx_correlation ctx).

(** ** Wire types (dto.go, errors.go) *)

Record createRequest := mkCreateRequest {
  crq_Recipient : string;
  crq_Channel : string;
  crq_Priority : string;
  crq_Content : string;
  crq_TemplateID : option string;
  crq_Variables : gmap string string;
  crq_IdempotencyKey : option string;
  crq_SendAt : option time
}.

Record batchRequest := mkBatchRequest {
  brq_IdempotencyKey : option string;
  brq_Notifications : list createRequest
}.

Record deliveryResponse := mkDeliveryResponse {
  dr_ID : uuid;
  dr_Status : string;
  dr_AttemptCount : Z;
  dr_ProviderMessageID : option string;
  dr_LastError : option string;
  dr_NextRetryAt : option time;
  dr_SendAt : option time;
  dr_UpdatedAt : time
}.

Record notificationResponse := mkNotificationResponse {
  nr_ID : uuid;
  nr_BatchID : option uuid;
  nr_Recipient : string;
  nr_Channel : string;
  nr_Priority : string;
  nr_Status : string;
  nr_Content : string;
  nr_CreatedAt : time;
  nr_Deliveries : list deliveryResponse
}.

Record batchResponse := mkBatchResponse {
  bre_ID : uuid;
  bre_TotalCount : Z;
  bre_PendingCount : Z;
  bre_SentCount : Z;
  bre_FailedCount : Z;
  bre_CancelledCount : Z;
  bre_CreatedAt : time
}.

Record listResponse := mkListResponse {
  lr_Items : list notificationResponse;
  lr_NextCursor : option string
}.

Record errorResponse := mkErrorResponse {
  er_Error : string;
  er_Field : string;
  er_Message : string
}.

Section dto.
Context `{ut : !UuidText}.

(** The body's key when it has one, else the header's. *)
Definition idempotency_key (bodyKey : option string) (headerKey : string) : option string :=
  match bodyKey with
  | Some k => if negb (String.eqb k "") then Some k
              else if negb (String.eqb headerKey "") then Some headerKey else None
  | None => if negb (String.eqb headerKey "") then Some headerKey else None
  end.

Definition createRequest_toInput (r : createRequest) (headerKey : string)
    : result error CreateInput :=
  let input t := mkCreateInput "" (crq_Recipient r) (crq_Channel r) (crq_Priority r) t
    (crq_Content r) (crq_Variables r) (idempotency_key (crq_IdempotencyKey r) headerKey)
    (crq_SendAt r) in
  match crq_TemplateID r with
  | Some s =>
      if negb (String.eqb s "") then
        match uuid_Parse s with
        | Err _ => Err (NewValidationError "template_id" "must be a valid UUID")
        | Ok id => Ok (input (Some id))
        end
      else Ok (input None)
  | None => Ok (input None)
  end.

Fixpoint inputs_of (rs : list createRequest) : result error (list CreateInput) :=
  match rs with
  | [] => Ok []
  | r :: rs =>
      let? item := createRequest_toInput r "" in
      let? items := inputs_of rs in
      Ok (item :: items)
  end.

Definition batchRequest_toInput (r : batchRequest) (headerKey : string)
    : result error BatchInput :=
  let? items := inputs_of (brq_Notifications r) in
  Ok (mkBatchInput "" (idempotency_key (brq_IdempotencyKey r) headerKey) items).
End dto.

Definition toNotificationSummaryResponse (req : Request) : notificationResponse :=
  mkNotificationResponse (r_ID req) (r_BatchID req) (r_Recipient req) (r_Channel req)
    (r_Priority req) (RequestStatus_String (r_Status req)) "" (r_CreatedAt req) [].

Definition toDeliveryResponse (d : Delivery) : deliveryResponse :=
  mkDeliveryResponse (d_ID d) (DeliveryStatus_String (d_Status d)) (d_AttemptCount d)
    (d_ProviderMessageID d) (d_LastError d) (d_NextRetryAt d) (d_SendAt d) (d_UpdatedAt d).

Definition toNotificationResponse (req : Request) (deliveries : list Delivery)
    : notificationResponse :=
  let resp := toNotificationSummaryResponse req in
  mkNotificationResponse (nr_ID resp) (nr_BatchID resp) (nr_Recipient resp) (nr_Channel resp)
    (nr_Priority resp) (nr_Status resp) (r_RenderedContent req) (nr_CreatedAt resp)
    (map toDeliveryResponse deliveries).

Definition toBatchResponse (b : Batch) : batchResponse :=
  mkBatchResponse (b_ID b) (b_TotalCount b) (b_PendingCount b) (b_SentCount b)
    (b_FailedCount b) (b_CancelledCount b) (b_CreatedAt b).

(** ** The response writer *)

Inductive Body :=
| BNotification (v : notificationResponse)
| BBatch (v : batchResponse)
| BBatchCreated (v : batchResponse) (CreatedCount DuplicateCount : Z)
| BList (v : listResponse)
| BError (v : errorResponse)
| BStatus (status : string)
| BReady (ready : bool) (checks : gmap string string)
| BText (name : string).

(** What was sent: the headers freeze with the first [WriteHeader] or [Write].
    [rw_Recorded] is the status field of the [statusRecorder]. *)
Record Writer := mkWriter {
  rw_CorrelationID : option string;
  rw_ContentType : option string;
  rw_Status : option Z;
  rw_Body : list Body;
  rw_Recorded : Z
}.

Definition fresh_writer : Writer := mkWriter None None None [] 0.

Definition set_ContentType (t : string) (w : Writer) : Writer :=
  match rw_Status w with
  | Some _ => w
  | None => mkWriter (rw_CorrelationID w) (Some t) None (rw_Body w) (rw_Recorded w)
  end.

Definition set_CorrelationID (c : string) (w : Writer) : Writer :=
  match rw_Status w with
  | Some _ => w
  | None => mkWriter (Some c) (rw_ContentType w) None (rw_Body w) (rw_Recorded w)
  end.

Definition WriteHeader (code : Z) (w : Writer) : Writer :=
  mkWriter (rw_CorrelationID w) (rw_ContentType w)
    (match rw_Status w with Some c => Some c | None => Some code end) (rw_Body w) code.

Definition Write (b : Body) (w : Writer) : Writer :=
  mkWriter (rw_CorrelationID w) (rw_ContentType w)
    (match rw_Status w with Some c => Some c | None => Some 200%Z end) (rw_Body w ++ [b])
    (rw_Recorded w).

Definition json_type : string := "application/json".

(** The functions on the writer, with the effect they have in a handler. *)
Section writer.
Context {W : Type}.

Abbreviation handler A := (eff (W * Writer) string A).

Definition on_writer (f : Writer -> Writer) : handler () := fun s => (Ok (), (s.1, f s.2)).

Definition on_world {A} (m : eff W string A) : handler A := fun s =>
  let '(r, w') := m s.1 in (r, (w', s.2)).

Definition writeJSON (status : Z) (v : Body) : handler () :=
  on_writer (fun w => Write v (WriteHeader status (set_ContentType json_type w))).

Definition error_reply (err : error) : Z * errorResponse :=
  match errors_As_Validation err with
  | Some ve => (400%Z, mkErrorResponse "validation_error" (ve_Field ve) (ve_Message ve))
  | None =>
      if errors_Is err ErrValidation then
        (400%Z, mkErrorResponse "validation_error" "" (Error err))
      else if errors_Is err ErrTemplateVariablesMissing then
        (400%Z, mkErrorResponse "template_variables_missing" "" (Error err))
      else if errors_Is err ErrNotFound then
        (404%Z, mkErrorResponse "not_found" "" "resource not found")
      else if errors_Is err ErrCancelNotAllowed then
        (409%Z, mkErrorResponse "cancel_not_allowed" "" (Error err))
      else if errors_Is err ErrConflict then
        (409%Z, mkErrorResponse "conflict" "" (Error err))
      else (500%Z, mkErrorResponse "internal_error" "" "an unexpected error occurred")
  end.

Definition writeError (err : error) : handler () :=
  let '(status, v) := error_reply err in writeJSON status (BError v).
End writer.

(** ** Interfaces *)

(** The service's methods: a Go error is a value, a panic is the monad's. *)
Class NotificationService (W : Type) := {
  svc_Create : Ctx -> CreateInput -> eff W string (result error CreateResult);
  svc_CreateBatch : Ctx -> BatchInput -> eff W string (result error BatchCreateResult);
  svc_Get : Ctx -> string -> uuid -> eff W string (result error View);
  svc_List : Ctx -> ListFilter -> eff W string (result error Page);
  svc_Cancel : Ctx -> string -> uuid -> eff W string (result error Request);
  svc_GetBatch : Ctx -> string -> uuid -> eff W string (result error Batch)
}.

(** How the reader of a body capped at [maxBodyBytes] ends. *)
Inductive reader_end := ReaderEOF | ReaderTooLarge.

Class HttpText := {
  decode_createRequest : string -> reader_end -> result error createRequest;
  decode_batchRequest : string -> reader_end -> result error batchRequest;
  time_Parse : string -> result error time
}.

Record AccessLog := mkAccessLog {
  al_Method : string;
  al_Path : string;
  al_Status : Z;
  al_Duration : duration;
  al_UserID : string;
  al_CorrelationID : string
}.

Class HttpEnv (W : Type) := {
  http_NewString : W -> string * W;
  http_Now : W -> time * W;
  log_Request : AccessLog -> W -> W;
  log_Panic : string -> W -> W;
  promhttp_Handler : W -> Z * W;
  mux_Unmatched : HttpRequest -> Z
}.

(** ** Handlers (handlers.go) *)

Definition maxBodyBytes : N := 1048576.
Definition EOF : error := ELib "EOF".

(** [http.MaxBytesReader]: the readable prefix and how the reading ends. *)
Fixpoint MaxBytesReader (n : N) (s : string) : string * reader_end :=
  match s with
  | EmptyString => (EmptyString, ReaderEOF)
  | String.String c s =>
      if (n =? 0)%N then (EmptyString, ReaderTooLarge) else
      let '(t, e) := MaxBytesReader (n - 1) s in (String.String c t, e)
  end.

Definition decodeJSON {A} (Decode : string -> reader_end -> result error A) (r : HttpRequest)
    : result error A :=
  let '(text, e) := MaxBytesReader maxBodyBytes (rq_Body r) in
  match Decode text e with
  | Ok v => Ok v
  | Err err =>
      if errors_Is err EOF then Err (NewValidationError "body" "request body is required")
      else Err (NewValidationError "body" ("invalid JSON: " ++ Error err)%string)
  end.

Definition optional (s : string) : option string := if String.eqb s "" then None else Some s.

Section handlers.
Context {W : Type} `{svc : !NotificationService W} `{txt : !HttpText} `{ut : !UuidText}.
Context `{jwt : !Jwt} `{env : !HttpEnv W}.

Abbreviation handler := (Ctx -> HttpRequest -> eff (W * Writer) string ()).

Definition parse_query_time (q : HttpRequest) (name message : string)
    : result error (option time) :=
  match optional (rq_Query q name) with
  | None => Ok None
  | Some s => match time_Parse s with
              | Ok t => Ok (Some t)
              | Err _ => Err (NewValidationError name message)
              end
  end.

Definition parseListFilter (q : HttpRequest) : result error ListFilter :=
  let status := optional (rq_Query q "status") in
  let? channel := match optional (rq_Query q "channel") with
                  | Some c => if negb (Channel_Valid c)
                              then Err (NewValidationError "channel" "invalid channel")
                              else Ok (Some c)
                  | None => Ok None
                  end in
  let? from := parse_query_time q "from"
    "must be an RFC3339 datetime (e.g. 2026-06-10T00:00:00Z)" in
  let? to := parse_query_time q "to"
    "must be an RFC3339 datetime (e.g. 2026-06-10T23:59:59Z)" in
  if match from, to with Some f, Some t => (f >? t)%Z | _, _ => false end
  then Err (NewValidationError "from" "must be before or equal to to") else
  let? limit := match optional (rq_Query q "limit") with
                | Some l => match parseInt l with
                            | Ok n => Ok n
                            | Err _ => Err (NewValidationError "limit" "must be an integer")
                            end
                | None => Ok 0%Z
                end in
  let? cursor := match optional (rq_Query q "cursor") with
                 | Some c => match decodeCursor c with
                             | Ok (id, at_) => Ok (Some id, at_)
                             | Err _ => Err (NewValidationError "cursor" "invalid cursor")
                             end
                 | None => Ok (None, None)
                 end in
  Ok (Normalize (mkListFilter "" status channel from to limit (fst cursor) (snd cursor))).

Definition filter_for (u : string) (f : ListFilter) : ListFilter :=
  mkListFilter u (lf_Status f) (lf_Channel f) (lf_From f) (lf_To f) (lf_Limit f)
    (lf_Cursor f) (lf_CursorAt f).

Definition unauthorized (message : string) : eff (W * Writer) string () :=
  writeJSON 401 (BError (mkErrorResponse "unauthorized" "" message)).

(** [userIDFromContext], and the early return of its callers. *)
Definition with_user (ctx : Ctx) (k : string -> eff (W * Writer) string ())
    : eff (W * Writer) string () :=
  let userID := UserID ctx in
  if String.eqb userID "" then unauthorized "authentication required" else k userID.

(** [if err != nil { writeError(w, err); return }] *)
Definition reply {A} (r : result error A) (k : A -> eff (W * Writer) string ())
    : eff (W * Writer) string () :=
  match r with Ok a => k a | Err err => writeError err end.

Definition createNotification : handler := fun ctx r =>
  with_user ctx (fun userID =>
  reply (decodeJSON decode_createRequest r) (fun body =>
  reply (createRequest_toInput body (rq_Header r "Idempotency-Key")) (fun input =>
  res ← on_world (svc_Create ctx (set_UserID userID input));
  reply res (fun res =>
  let status := if cr_Duplicate res then 200%Z else 202%Z in
  writeJSON status (BNotification (toNotificationResponse (cr_Request res) [])))))).

Definition batch_for (u : string) (b : BatchInput) : BatchInput :=
  mkBatchInput u (bn_IdempotencyKey b) (bn_Items b).

Definition createBatch : handler := fun ctx r =>
  with_user ctx (fun userID =>
  reply (decodeJSON decode_batchRequest r) (fun body =>
  reply (batchRequest_toInput body (rq_Header r "Idempotency-Key")) (fun input =>
  res ← on_world (svc_CreateBatch ctx (batch_for userID input));
  reply res (fun res =>
  let status := if bcr_Duplicate res then 200%Z else 202%Z in
  writeJSON status (BBatchCreated (toBatchResponse (bcr_Batch res)) (bcr_CreatedCount res)
    (bcr_DuplicateCount res)))))).

Definition path_id (id : string) : result error uuid :=
  match uuid_Parse id with
  | Ok id => Ok id
  | Err _ => Err (NewValidationError "id" "must be a valid UUID")
  end.

Definition getNotification (id : string) : handler := fun ctx r =>
  with_user ctx (fun userID =>
  reply (path_id id) (fun id =>
  view ← on_world (svc_Get ctx userID id);
  reply view (fun view =>
  writeJSON 200 (BNotification (toNotificationResponse (v_Request view) (v_Deliveries view)))))).

Definition cancelNotification (id : string) : handler := fun ctx r =>
  with_user ctx (fun userID =>
  reply (path_id id) (fun id =>
  req ← on_world (svc_Cancel ctx userID id);
  reply req (fun req =>
  writeJSON 200 (BNotification (toNotificationResponse req []))))).

Definition to_list_response (page : Page) : listResponse :=
  mkListResponse (map toNotificationSummaryResponse (pg_Items page))
    (match pg_NextCursor page with
     | Some id => Some (encodeCursor id (pg_NextAt page))
     | None => None
     end).

Definition listNotifications : handler := fun ctx r =>
  with_user ctx (fun userID =>
  reply (parseListFilter r) (fun filter =>
  page ← on_world (svc_List ctx (filter_for userID filter));
  reply page (fun page => writeJSON 200 (BList (to_list_response page))))).

Definition getBatch (id : string) : handler := fun ctx r =>
  with_user ctx (fun userID =>
  reply (path_id id) (fun id =>
  batch ← on_world (svc_GetBatch ctx userID id);
  reply batch (fun batch => writeJSON 200 (BBatch (toBatchResponse batch))))).

(** ** Operational endpoints (router.go, docs.go) *)

(** The dependencies in the order the map is ranged over. *)
Abbreviation Readiness := (list (string * eff W string (result error ()))).

Fixpoint ping_all (checks : Readiness) (results : gmap string string) (ready : bool)
    : eff W string (gmap string string * bool) :=
  match checks with
  | [] => mret (results, ready)
  | (name, ping) :: checks =>
      r ← ping;
      match r with
      | Err err => ping_all checks (<[name := ("down: " ++ Error err)%string]> results) false
      | Ok _ => ping_all checks (<[name := "ok"]> results) ready
      end
  end.

Definition handleLive : handler := fun _ _ => writeJSON 200 (BStatus "ok").

Definition handleReady (checks : Readiness) : handler := fun _ _ =>
  res ← on_world (ping_all checks ∅ true);
  let '(results, ready) := res in
  let status := if negb ready then 503%Z else 200%Z in
  writeJSON status (BReady ready results).

Definition handleOpenAPISpec : handler := fun _ _ =>
  on_writer (fun w => Write (BText "openapi.yaml") (set_ContentType "application/yaml" w)).

Definition handleSwaggerUI : handler := fun _ _ =>
  on_writer (fun w => Write (BText "swagger") (set_ContentType "text/html; charset=utf-8" w)).

Definition on_env (f : W -> Writer -> W) : eff (W * Writer) string () := fun s =>
  (Ok (), (f s.1 s.2, s.2)).

Definition total_world {A} (f : W -> A * W) : eff (W * Writer) string A := fun s =>
  let '(a, w') := f s.1 in (Ok a, (w', s.2)).

Definition handleMetrics : handler := fun _ _ =>
  status ← total_world promhttp_Handler;
  on_writer (fun w => Write (BText "metrics") (WriteHeader status w)).

(** ** Routing *)

Inductive Route :=
| RouteCreate | RouteCreateBatch | RouteList
| RouteGet (id : string) | RouteCancel (id : string) | RouteGetBatch (id : string)
| RouteLive | RouteReady | RouteMetrics | RouteOpenAPI | RouteDocs.

(** The mux redirects a path that is not clean, and decodes the segments one by
    one; a wildcard does not match the segment that decodes to a slash. *)
Definition clean_segment (s : string) : bool :=
  negb (String.eqb s "" || String.eqb s "." || String.eqb s "..").

(** A [GET] pattern matches [HEAD] too. *)
Definition is_get (method : string) : bool := String.eqb method "GET" || String.eqb method "HEAD".

Definition wildcard (s : string) : bool := negb (String.eqb s "/").

Definition route (swagger : bool) (r : HttpRequest) : option Route :=
  if negb (forallb clean_segment (rq_Segments r)) then None else
  let get := is_get (rq_Method r) in
  let post := String.eqb (rq_Method r) "POST" in
  match map pathUnescape (rq_Segments r) with
  | ["api"; "v1"; "notifications"] =>
      if post then Some RouteCreate else if get then Some RouteList else None
  | ["api"; "v1"; "notifications"; id] =>
      if post && String.eqb id "batch" then Some RouteCreateBatch
      else if get && wildcard id then Some (RouteGet id) else None
  | ["api"; "v1"; "notifications"; id; "cancel"] =>
      if post && wildcard id then Some (RouteCancel id) else None
  | ["api"; "v1"; "batches"; id] => if get && wildcard id then Some (RouteGetBatch id) else None
  | ["healthz"] => if get then Some RouteLive else None
  | ["readyz"] => if get then Some RouteReady else None
  | ["metrics"] => if get then Some RouteMetrics else None
  | ["openapi.yaml"] => if get then Some RouteOpenAPI else None
  | ["docs"] => if get && swagger then Some RouteDocs else None
  | _ => None
  end.

Definition ServeMux (swagger : bool) (checks : Readiness) : handler := fun ctx r =>
  match route swagger r with
  | Some RouteCreate => createNotification ctx r
  | Some RouteCreateBatch => createBatch ctx r
  | Some RouteList => listNotifications ctx r
  | Some (RouteGet id) => getNotification id ctx r
  | Some (RouteCancel id) => cancelNotification id ctx r
  | Some (RouteGetBatch id) => getBatch id ctx r
  | Some RouteLive => handleLive ctx r
  | Some RouteReady => handleReady checks ctx r
  | Some RouteMetrics => handleMetrics ctx r
  | Some RouteOpenAPI => handleOpenAPISpec ctx r
  | Some RouteDocs => handleSwaggerUI ctx r
  | None => on_writer (fun w => Write (BText "") (WriteHeader (mux_Unmatched r) w))
  end.

(** ** Middlewares (middleware.go, auth_middleware.go) *)

Definition correlationHeader : string := "X-Correlation-ID".
Definition authHeader : string := "Authorization".

Definition correlationMiddleware (next : handler) : handler := fun ctx r =>
  let given := rq_Header r correlationHeader in
  id ← (if String.eqb given "" then total_world http_NewString else mret given);
  let ctx := WithCorrelationID ctx id in
  on_writer (set_CorrelationID id) ≫= fun _ =>
  next ctx r.

Definition loggingMiddleware (next : handler) : handler := fun ctx r =>
  start ← total_world http_Now;
  on_writer (fun w => mkWriter (rw_CorrelationID w) (rw_ContentType w) (rw_Status w) (rw_Body w) 200)
    ≫= fun _ =>
  next ctx r ≫= fun _ =>
  now ← total_world http_Now;
  on_env (fun w rec => log_Request (mkAccessLog (rq_Method r) (URL_Path r) (rw_Recorded rec)
    (now - start) (UserID ctx) (CorrelationID ctx)) w).

Definition recoverMiddleware (next : handler) : handler := fun ctx r =>
  res ← attempt (next ctx r);
  match res with
  | Ok _ => mret ()
  | Err rec =>
      on_env (fun w _ => log_Panic rec w) ≫= fun _ =>
      writeJSON 500 (BError (mkErrorResponse "internal_error" "" "an unexpected error occurred"))
  end.

Definition requiresAuth (path : string) : bool := HasPrefix path "/api/v1/".

Definition bearerToken (header : string) : string :=
  let prefix := "Bearer " in
  if negb (HasPrefix header prefix) then "" else TrimSpace (TrimPrefix header prefix).

Definition authMiddleware (secret : string) (next : handler) : handler := fun ctx r =>
  if negb (requiresAuth (URL_Path r)) then next ctx r else
  let token := bearerToken (rq_Header r authHeader) in
  if String.eqb token "" then unauthorized "missing or invalid Authorization header" else
  now ← total_world http_Now;
  match ParseToken now secret token with
  | Err _ => unauthorized "invalid or expired token"
  | Ok userID => next (WithUserID ctx userID) r
  end.

(** [chain]: outermost first. *)
Fixpoint chain (h : handler) (mws : list (handler -> handler)) : handler :=
  match mws with [] => h | mw :: mws => mw (chain h mws) end.

Definition NewRouter (secret : string) (swagger : bool) (checks : Readiness) : handler :=
  chain (ServeMux swagger checks)
    [recoverMiddleware; correlationMiddleware; authMiddleware secret; loggingMiddleware].

(** What the server does with a request: the final world and response. *)
Definition serve (secret : string) (swagger : bool) (checks : Readiness) (r : HttpRequest) (w : W)
    : result string () * (W * Writer) :=
  NewRouter secret swagger checks background r (w, fresh_writer).
End handlers.
