(* ===== verification/HttpSpec.v ===== *)
(** * What the HTTP API guarantees

    Theorems on [Http]: authentication of every service call, the shape of every
    response, and the mapping of errors. *)

From S2P Require Import Prelude GoStrings Domain GoText Notification Auth Cursor Http.

Local Open Scope string_scope.
Local Open Scope list_scope.

Section spec.
Context {W : Type} `{svc : !NotificationService W} `{txt : !HttpText} `{ut : !UuidText}.
Context `{jwt : !Jwt} `{env : !HttpEnv W}.
Implicit Types (r : HttpRequest) (ctx : Ctx) (rw : Writer).

Abbreviation handler := (Ctx -> HttpRequest -> eff (W * Writer) string ()).
Abbreviation Readiness := (list (string * eff W string (result error ()))).

(** ** The calls a request makes *)

Inductive ServiceCall :=
| CallCreate (ctx : Ctx) (input : CreateInput)
| CallCreateBatch (ctx : Ctx) (input : BatchInput)
| CallGet (ctx : Ctx) (userID : string) (id : uuid)
| CallList (ctx : Ctx) (f : ListFilter)
| CallCancel (ctx : Ctx) (userID : string) (id : uuid)
| CallGetBatch (ctx : Ctx) (userID : string) (id : uuid).

Definition run_call (c : ServiceCall) (w : W) : W :=
  match c with
  | CallCreate ctx i => (svc_Create ctx i w).2
  | CallCreateBatch ctx i => (svc_CreateBatch ctx i w).2
  | CallGet ctx u id => (svc_Get ctx u id w).2
  | CallList ctx f => (svc_List ctx f w).2
  | CallCancel ctx u id => (svc_Cancel ctx u id w).2
  | CallGetBatch ctx u id => (svc_GetBatch ctx u id w).2
  end.

Definition call_ctx (c : ServiceCall) : Ctx :=
  match c with
  | CallCreate ctx _ | CallCreateBatch ctx _ | CallGet ctx _ _ | CallList ctx _
  | CallCancel ctx _ _ | CallGetBatch ctx _ _ => ctx
  end.

(** The user the service is asked to act for. *)
Definition call_user (c : ServiceCall) : string :=
  match c with
  | CallCreate _ i => ci_UserID i
  | CallCreateBatch _ i => bn_UserID i
  | CallList _ f => lf_UserID f
  | CallGet _ u _ | CallCancel _ u _ | CallGetBatch _ u _ => u
  end.

(** Changes of the world that are not the service's: identifiers, the clock, the
    log, the metrics page, the pings. *)
Inductive env_path (checks : Readiness) : W -> W -> Prop :=
| env_refl w : env_path checks w w
| env_uuid w w' : env_path checks (http_NewString w).2 w' -> env_path checks w w'
| env_now w w' : env_path checks (http_Now w).2 w' -> env_path checks w w'
| env_log l w w' : env_path checks (log_Request l w) w' -> env_path checks w w'
| env_panic p w w' : env_path checks (log_Panic p w) w' -> env_path checks w w'
| env_metrics w w' : env_path checks (promhttp_Handler w).2 w' -> env_path checks w w'
| env_ping name ping w w' :
    (name, ping) ∈ checks -> env_path checks (ping w).2 w' -> env_path checks w w'.

Lemma env_trans checks w1 w2 w3 :
  env_path checks w1 w2 -> env_path checks w2 w3 -> env_path checks w1 w3.
Proof. induction 1; [done|..]; eauto using env_path. Qed.

(** At most one service call, which [P] holds of. *)
Definition handled checks (P : ServiceCall -> Prop) (w w' : W) : Prop :=
  env_path checks w w' \/
  exists c w1, P c /\ env_path checks w w1 /\ env_path checks (run_call c w1) w'.

Lemma handled_before checks P w0 w w' :
  env_path checks w0 w -> handled checks P w w' -> handled checks P w0 w'.
Proof.
  intros H [H'|(c & w1 & Hc & H1 & H2)]; [left; by eapply env_trans|].
  right. exists c, w1. split_and!; [done|by eapply env_trans|done].
Qed.

Lemma handled_after checks P w w' w2 :
  handled checks P w w' -> env_path checks w' w2 -> handled checks P w w2.
Proof.
  intros [H'|(c & w1 & Hc & H1 & H2)] H; [left; by eapply env_trans|].
  right. exists c, w1. split_and!; [done|done|by eapply env_trans].
Qed.

Lemma handled_mono checks (P Q : ServiceCall -> Prop) w w' :
  (forall c, P c -> Q c) -> handled checks P w w' -> handled checks Q w w'.
Proof. intros HPQ [H|(c & w1 & Hc & H)]; [by left|]. right. exists c, w1. auto. Qed.

(** ** The shape of what is sent *)

Definition is_json (b : Body) : bool := match b with BText _ => false | _ => true end.

(** The statuses each kind of body is sent with. *)
Definition fits (status : Z) (b : Body) : Prop :=
  match b with
  | BNotification _ | BBatchCreated _ _ _ => status = 200%Z \/ status = 202%Z
  | BBatch _ | BList _ | BStatus _ => status = 200%Z
  | BError e => status ∈ [400; 401; 404; 409; 500]%Z /\ er_Error e <> "" /\
      (status = 500%Z -> er_Message e = "an unexpected error occurred" /\ er_Field e = "")
  | BReady ready _ => status = (if ready : bool then 200 else 503)%Z
  | BText _ => True
  end.

(** Nothing sent yet; exactly one complete response sent. *)
Definition unsent rw : Prop := rw_Status rw = None /\ rw_Body rw = [].

Definition sent rw : Prop := exists status b,
  rw_Status rw = Some status /\ rw_Body rw = [b] /\ fits status b /\
  (is_json b = true -> rw_ContentType rw = Some json_type).

(** What a handler does: it replies once, or panics before it replies; it leaves
    the correlation header; its calls satisfy [P]. *)
Definition well_behaved checks (P : ServiceCall -> Prop) (m : eff (W * Writer) string ()) : Prop :=
  forall w rw, unsent rw -> exists out w' rw', m (w, rw) = (out, (w', rw')) /\
    handled checks P w w' /\ rw_CorrelationID rw' = rw_CorrelationID rw /\
    match out with Ok _ => sent rw' | Err _ => unsent rw' end.

Lemma writeJSON_ok checks P status b :
  is_json b = true -> fits status b -> well_behaved checks P (writeJSON status b).
Proof.
  intros Hj Hf w [c t s bs n] [Hs Hb]. simpl in Hs, Hb. subst.
  eexists _, _, _. split; [done|]. split; [left; constructor|]. split; [done|].
  exists status, b. by repeat split.
Qed.

Lemma error_reply_fits err : fits (error_reply err).1 (BError (error_reply err).2).
Proof.
  unfold error_reply. destruct (errors_As_Validation err); [|repeat case_match];
    (split_and!; [simpl; set_solver|done|done]).
Qed.

Lemma writeError_ok checks P err : well_behaved checks P (writeError err).
Proof.
  unfold writeError. pose proof (error_reply_fits err).
  destruct (error_reply err). by apply writeJSON_ok.
Qed.

Lemma unauthorized_ok checks P m : well_behaved checks P (unauthorized m).
Proof. apply writeJSON_ok; [done|]. split_and!; [set_solver|done|done]. Qed.

Lemma reply_ok {A} checks P (x : result error A) k :
  (forall a, x = Ok a -> well_behaved checks P (k a)) -> well_behaved checks P (reply x k).
Proof. destruct x as [a|e]; simpl; [auto|]. intros _. apply writeError_ok. Qed.

Lemma with_user_ok checks P ctx k :
  (UserID ctx <> "" -> well_behaved checks P (k (UserID ctx))) ->
  well_behaved checks P (with_user ctx k).
Proof.
  unfold with_user. destruct (String.eqb_spec (UserID ctx) ""); [|auto].
  intros. apply unauthorized_ok.
Qed.

(** One service call, then a reply that makes none. *)
Lemma call_ok {A} checks (P : ServiceCall -> Prop) c (m : eff W string A) k :
  (forall w, (m w).2 = run_call c w) -> P c ->
  (forall a, well_behaved checks (fun _ => False) (k a)) ->
  well_behaved checks P (on_world m ≫= k).
Proof.
  intros Hm Hc Hk w rw Hrw. unfold mbind, eff_bind, on_world. simpl. specialize (Hm w).
  destruct (m w) as [[a|e] w1]; simpl in *; subst.
  - destruct (Hk a (run_call c w) rw Hrw) as (out & w' & rw' & E & Hh & ? & ?).
    exists out, w', rw'. split_and!; [done| |done|done].
    right. exists c, w. split_and!; [done|constructor|]. destruct Hh as [?|(? & ? & [] & _)]; done.
  - eexists _, _, _. split; [done|]. split_and!; [|done|done].
    right. exists c, w. split_and!; [done|constructor..].
Qed.

(** ** Each handler *)

(** The call is made for the context's user, who is known. *)
Definition acts_for ctx (c : ServiceCall) : Prop :=
  call_ctx c = ctx /\ call_user c = UserID ctx /\ UserID ctx <> "".

Ltac mux_reply :=
  first [ apply reply_ok; intros ? _ | apply writeJSON_ok; [done|simpl; auto] ].

Lemma ping_all_path checks0 checks res ready w :
  (forall x, x ∈ checks -> x ∈ checks0) ->
  env_path checks0 w (ping_all checks res ready w).2.
Proof.
  revert res ready w. induction checks as [|[name ping] checks IH]; intros res ready w Hin;
    [constructor|].
  simpl. unfold mbind, eff_bind. eapply env_ping; [apply Hin, list_elem_of_here|].
  destruct (ping w) as [[[[]|err]|p] w1]; simpl; [apply IH..|constructor]; set_solver.
Qed.

Lemma handleReady_ok checks P ctx r : well_behaved checks P (handleReady checks ctx r).
Proof.
  intros w rw Hrw. unfold handleReady, on_world. unfold mbind at 1, eff_bind at 1. simpl.
  pose proof (ping_all_path checks checks ∅ true w ltac:(done)) as Hp.
  destruct (ping_all checks ∅ true w) as [[[results ready]|p] w1]; simpl in *.
  - destruct (writeJSON_ok checks P (if negb ready then 503%Z else 200%Z) (BReady ready results)
      eq_refl ltac:(by destruct ready) w1 rw Hrw) as (out & w' & rw' & E & Hh & ? & ?).
    exists out, w', rw'. split_and!; [done|by eapply handled_before|done|done].
  - eexists _, _, _. split; [done|]. split; [by left|]. done.
Qed.

Lemma text_ok checks P name f :
  (forall rw, unsent rw -> unsent (f rw) /\ rw_CorrelationID (f rw) = rw_CorrelationID rw) \/
  (exists status, f = WriteHeader status) ->
  well_behaved checks P (on_writer (fun rw => Write (BText name) (f rw))).
Proof.
  intros Hf w rw Hrw. eexists _, _, _. split; [done|]. split; [left; constructor|].
  destruct Hf as [Hf|[status ->]].
  - destruct (Hf rw Hrw) as [[Hs Hb] Hc]. split; [done|]. exists 200%Z, (BText name).
    simpl. rewrite Hs, Hb. done.
  - destruct Hrw as [Hs Hb]. split; [done|]. exists status, (BText name). simpl.
    by rewrite Hs, Hb.
Qed.

Lemma type_unsent t rw : unsent rw ->
  unsent (set_ContentType t rw) /\ rw_CorrelationID (set_ContentType t rw) = rw_CorrelationID rw.
Proof. destruct rw as [c ty s b n]. unfold unsent. simpl. intros [-> ->]. done. Qed.

Lemma ServeMux_ok checks swagger ctx r :
  well_behaved checks (acts_for ctx) (ServeMux swagger checks ctx r).
Proof.
  unfold ServeMux. destruct (route swagger r) as [[| | |id|id|id| | | | |]|].
  - apply with_user_ok. intros Hu. mux_reply. mux_reply. eapply (call_ok _ _ (CallCreate ctx _)); [reflexivity|done|].
    intros res. mux_reply. mux_reply. destruct (cr_Duplicate _); auto.
  - apply with_user_ok. intros Hu. mux_reply. mux_reply. eapply (call_ok _ _ (CallCreateBatch ctx _)); [reflexivity|done|].
    intros res. mux_reply. mux_reply. destruct (bcr_Duplicate _); auto.
  - apply with_user_ok. intros Hu. mux_reply. eapply (call_ok _ _ (CallList ctx _)); [reflexivity|done|].
    intros res. mux_reply. mux_reply.
  - apply with_user_ok. intros Hu. mux_reply. eapply (call_ok _ _ (CallGet ctx _ _)); [reflexivity|done|].
    intros res. mux_reply. mux_reply.
  - apply with_user_ok. intros Hu. mux_reply. eapply (call_ok _ _ (CallCancel ctx _ _)); [reflexivity|done|].
    intros res. mux_reply. mux_reply.
  - apply with_user_ok. intros Hu. mux_reply. eapply (call_ok _ _ (CallGetBatch ctx _ _)); [reflexivity|done|].
    intros res. mux_reply. mux_reply.
  - by apply writeJSON_ok.
  - apply handleReady_ok.
  - unfold handleMetrics, total_world. intros w rw Hrw. unfold mbind, eff_bind. simpl.
    destruct (promhttp_Handler w) as [status w1] eqn:E.
    destruct (text_ok checks (acts_for ctx) "metrics" (WriteHeader status)
      ltac:(right; eauto) w1 rw Hrw) as (out & w' & rw' & E' & Hh & ? & ?).
    exists out, w', rw'. split_and!; [done| |done|done].
    eapply handled_before; [|done]. eapply env_metrics. rewrite E. constructor.
  - apply text_ok. left. apply type_unsent.
  - apply text_ok. left. apply type_unsent.
  - apply text_ok. right. eauto.
Qed.

(** ** The middlewares *)

(** Without a user, the API routes make no call. *)
Lemma loggingMiddleware_ok checks P (next : handler) ctx r :
  well_behaved checks P (next ctx r) -> well_behaved checks P (loggingMiddleware next ctx r).
Proof.
  intros Hn w rw Hrw. unfold loggingMiddleware, total_world, on_writer, on_env.
  unfold mbind, eff_bind. simpl. destruct (http_Now w) as [start w1] eqn:E1. simpl.
  set (rw0 := mkWriter _ _ _ _ _).
  destruct (Hn w1 rw0 Hrw) as (out & w2 & rw' & E & Hh & Hc & Ho). rewrite E.
  assert (Hb : handled checks P w w2).
  { eapply handled_before; [|exact Hh]. eapply env_now. rewrite E1. constructor. }
  destruct out as [[]|p]; [|by exists (Err p), w2, rw'].
  simpl. destruct (http_Now w2) as [now w3] eqn:E3. simpl. eexists _, _, _. split; [done|].
  split_and!; [|done|done]. eapply handled_after; [exact Hb|]. eapply env_now. rewrite E3. simpl.
  eapply env_log. constructor.
Qed.

(** The user of every call is the one of a token that [ParseToken] accepts. *)
Definition authenticated secret r (corr : string) (c : ServiceCall) : Prop :=
  call_ctx c = mkCtx (Some (call_user c)) (Some corr) /\ call_user c <> "" /\
  exists now, ParseToken now secret (bearerToken (rq_Header r authHeader)) = Ok (call_user c).

Lemma authMiddleware_ok checks secret corr (next : handler) r :
  (forall ctx, well_behaved checks (acts_for ctx) (next ctx r)) ->
  well_behaved checks (authenticated secret r corr) (authMiddleware secret next (mkCtx None (Some corr)) r).
Proof.
  intros Hn. unfold authMiddleware. destruct (requiresAuth (URL_Path r)); simpl.
  - destruct (String.eqb _ ""); [apply unauthorized_ok|].
    intros w rw Hrw. unfold total_world. unfold mbind at 1, eff_bind at 1. simpl.
    destruct (http_Now w) as [now w1] eqn:E1.
    assert (Hp : env_path checks w w1) by (eapply env_now; rewrite E1; constructor).
    destruct (ParseToken now secret _) as [u|e] eqn:Et.
    + destruct (Hn (WithUserID (mkCtx None (Some corr)) u) w1 rw Hrw) as (out & w' & rw' & E & Hh & ? & ?).
      exists out, w', rw'. split_and!; [done| |done|done].
      eapply handled_before; [exact Hp|]. eapply handled_mono; [|exact Hh].
      intros c (Hc & Hu & Hne). unfold authenticated. simpl in Hu, Hne.
      split_and!; [by rewrite Hc, Hu|by rewrite Hu|by exists now; rewrite Hu].
    + destruct (unauthorized_ok checks (authenticated secret r corr) "invalid or expired token"
        w1 rw Hrw) as (out & w' & rw' & E & Hh & ? & ?).
      exists out, w', rw'. split_and!; [done|by eapply handled_before|done|done].
  - intros w rw Hrw. destruct (Hn (mkCtx None (Some corr)) w rw Hrw) as (out & w' & rw' & E & Hh & ? & ?).
    exists out, w', rw'. split_and!; [done| |done|done]. eapply handled_mono; [|exact Hh].
    by intros c (_ & _ & Hne).
Qed.

(** A request with no acceptable token is answered 401 on the API's paths. *)
Lemma authMiddleware_rejects checks secret corr (next : handler) r :
  requiresAuth (URL_Path r) = true ->
  (forall now, is_ok (ParseToken now secret (bearerToken (rq_Header r authHeader))) = false) ->
  forall w rw, unsent rw -> exists w' rw',
    authMiddleware secret next (mkCtx None (Some corr)) r (w, rw) = (Ok (), (w', rw')) /\
    env_path checks w w' /\ rw_Status rw' = Some 401%Z /\
    rw_CorrelationID rw' = rw_CorrelationID rw /\ sent rw'.
Proof.
  intros Hr Hno w rw Hrw. unfold authMiddleware. rewrite Hr. simpl.
  assert (H401 : forall m w1, env_path checks w w1 -> exists w' rw',
    unauthorized m (w1, rw) = (Ok (), (w', rw')) /\ env_path checks w w' /\
    rw_Status rw' = Some 401%Z /\ rw_CorrelationID rw' = rw_CorrelationID rw /\ sent rw').
  { intros m w1 Hp. destruct (unauthorized_ok checks (fun _ => False) m w1 rw Hrw)
      as (out & w' & rw' & E & _ & Hc & Ho).
    destruct rw as [c t s b n]. destruct Hrw as [Hs Hb]. simpl in Hs, Hb. subst.
    unfold unauthorized, writeJSON, on_writer in E. cbn in E. simplify_eq.
    eexists _, _. split_and!; [reflexivity|done|done|done|exact Ho]. }
  destruct (String.eqb _ ""); [apply H401; constructor|].
  unfold total_world. unfold mbind at 1, eff_bind at 1. simpl.
  destruct (http_Now w) as [now w1] eqn:E1. specialize (Hno now).
  destruct (ParseToken now secret _) as [u|e]; [done|]. apply H401.
  eapply env_now. rewrite E1. constructor.
Qed.

(** The correlation id of a request: the client's, else a new one. *)
Definition request_id r (w : W) : string :=
  if String.eqb (rq_Header r correlationHeader) "" then (http_NewString w).1
  else rq_Header r correlationHeader.

Definition after_id r (w : W) : W :=
  if String.eqb (rq_Header r correlationHeader) "" then (http_NewString w).2 else w.

Lemma after_id_path checks r w : env_path checks w (after_id r w).
Proof. unfold after_id. destruct (String.eqb _ ""); [eapply env_uuid|]; constructor. Qed.

Lemma correlationMiddleware_run (next : handler) r w : exists rw0,
  correlationMiddleware next background r (w, fresh_writer)
    = next (mkCtx None (Some (request_id r w))) r (after_id r w, rw0) /\
  unsent rw0 /\ rw_CorrelationID rw0 = Some (request_id r w).
Proof.
  unfold correlationMiddleware, request_id, after_id.
  destruct (String.eqb _ ""); unfold mbind, eff_bind, total_world, on_writer; simpl;
    [destruct (http_NewString w) as [id w0]|]; by eexists.
Qed.

(** The whole chain. *)
Lemma serve_run secret swagger checks r w : exists w' rw',
  serve secret swagger checks r w = (Ok (), (w', rw')) /\
  handled checks (authenticated secret r (request_id r w)) w w' /\
  rw_CorrelationID rw' = Some (request_id r w) /\ sent rw'.
Proof.
  unfold serve, NewRouter. cbn [chain]. set (corr := request_id r w).
  pose proof (after_id_path checks r w) as Hp.
  destruct (correlationMiddleware_run
    (authMiddleware secret (loggingMiddleware (ServeMux swagger checks))) r w)
    as (rw0 & E & Hun & Hc). fold corr in E, Hc. set (w0 := after_id r w) in *.
  destruct (authMiddleware_ok checks secret corr (loggingMiddleware (ServeMux swagger checks)) r
    (fun ctx => loggingMiddleware_ok checks _ _ ctx r (ServeMux_ok checks swagger ctx r))
    w0 rw0 Hun) as (out & w1 & rw1 & E1 & Hh & Hc1 & Ho). rewrite E1 in E.
  unfold recoverMiddleware. rewrite (attempt_bind _ _ _ _ _ E).
  apply (handled_before _ _ w) in Hh; [|done]. destruct out as [[]|p].
  - eexists _, _. split; [done|]. by rewrite Hc1.
  - unfold mbind, eff_bind, on_env. simpl.
    destruct (writeJSON_ok checks (fun _ => False) 500 (BError (mkErrorResponse "internal_error" ""
      "an unexpected error occurred")) eq_refl ltac:(split_and!; [set_solver|done|done])
      (log_Panic p w1) rw1 Ho) as (out & w' & rw' & E' & Hh' & Hc' & Ho').
    assert (out = Ok ()) as ->. { destruct rw1 as [? ? ? ? ?], Ho as [Hs Hb]. simpl in Hs, Hb. subst.
      unfold writeJSON, on_writer in E'. cbn in E'. congruence. }
    exists w', rw'. split; [done|]. split_and!; [|congruence|done].
    eapply handled_after; [exact Hh|]. eapply env_panic.
    by destruct Hh' as [?|(? & ? & [] & _)].
Qed.
End spec.

(** ** Errors *)

(** [fmt.Errorf("...: %w ...", err)], any number of times. *)
Fixpoint wrap_all (ws : list (string * string)) (err : error) : error :=
  match ws with [] => err | (before, after) :: ws => EWrapped before (wrap_all ws err) after end.

Lemma As_wrap_all ws e : errors_As_Validation (wrap_all ws e) = errors_As_Validation e.
Proof. by induction ws as [|[b a] ws IH]. Qed.

Lemma same_sentinel_wrap t b e a : same_sentinel (EWrapped b e a) t = false.
Proof. by destruct t. Qed.

Lemma Is_wrap_all ws e t : errors_Is (wrap_all ws e) t = errors_Is e t.
Proof.
  induction ws as [|[b a] ws IH]; [done|]. cbn [wrap_all errors_Is].
  by rewrite same_sentinel_wrap, IH.
Qed.

(** The sentinels the API knows. *)
Definition api_sentinels : list error :=
  [ErrValidation; ErrTemplateVariablesMissing; ErrNotFound; ErrCancelNotAllowed; ErrConflict].

(** C29: errors map to responses as documented, and wrapping never changes the
    mapping. A validation error is a 400 with its field and message; a missing
    template variable a 400; a missing resource a 404 whose text is constant (it
    does not tell someone else's resource from none); a refused cancellation and a
    conflict 409s; and every other error, in particular any the database or a
    library raised, is a 500 with a constant text: nothing of it reaches the
    client. *)
Theorem writeError_spec ws :
  (forall f m, error_reply (wrap_all ws (EValidationError f m))
     = (400%Z, mkErrorResponse "validation_error" f m)) /\
  (error_reply (wrap_all ws ErrTemplateVariablesMissing)
     = (400%Z, mkErrorResponse "template_variables_missing" ""
                 (Error (wrap_all ws ErrTemplateVariablesMissing)))) /\
  (error_reply (wrap_all ws ErrNotFound)
     = (404%Z, mkErrorResponse "not_found" "" "resource not found")) /\
  (error_reply (wrap_all ws ErrCancelNotAllowed)
     = (409%Z, mkErrorResponse "cancel_not_allowed" "" (Error (wrap_all ws ErrCancelNotAllowed)))) /\
  (error_reply (wrap_all ws ErrConflict)
     = (409%Z, mkErrorResponse "conflict" "" (Error (wrap_all ws ErrConflict)))) /\
  (forall e, (error_reply (wrap_all ws e)).1 = (error_reply e).1 /\
     er_Error (error_reply (wrap_all ws e)).2 = er_Error (error_reply e).2) /\
  (forall e, (forall t, t ∈ api_sentinels -> errors_Is e t = false) ->
     error_reply (wrap_all ws e)
     = (500%Z, mkErrorResponse "internal_error" "" "an unexpected error occurred")).
Proof.
  assert (HAs : forall e t, errors_As_Validation e = Some t -> errors_Is e ErrValidation = true).
  { fix IH 1. intros [] t; simpl; try done; [destruct Err as [e|]; [|done]|]; intros H;
      apply IH in H; by rewrite H, ?orb_true_r. }
  split_and!.
  - intros f m. unfold error_reply. by rewrite As_wrap_all.
  - unfold error_reply. by rewrite As_wrap_all, !Is_wrap_all.
  - unfold error_reply. by rewrite As_wrap_all, !Is_wrap_all.
  - unfold error_reply. by rewrite As_wrap_all, !Is_wrap_all.
  - unfold error_reply. by rewrite As_wrap_all, !Is_wrap_all.
  - intros e. unfold error_reply. rewrite As_wrap_all, !Is_wrap_all. by repeat case_match.
  - intros e He. unfold error_reply. rewrite As_wrap_all, !Is_wrap_all.
    destruct (errors_As_Validation e) as [t|] eqn:Ea.
    { apply HAs in Ea. rewrite He in Ea; [done|]. unfold api_sentinels. set_solver. }
    rewrite !He by (unfold api_sentinels; set_solver). done.
Qed.

(** ** Requests *)

Section properties.
Context {W : Type} `{svc : !NotificationService W} `{txt : !HttpText} `{ut : !UuidText}.
Context `{jwt : !Jwt} `{env : !HttpEnv W}.
Abbreviation Readiness := (list (string * eff W string (result error ()))).

(** C12: every call on the notification service is authenticated. Whatever the
    request (its path escaped in any way, its body, the panics of the service) a
    request makes at most one service call, and that call acts for the user of a
    token [ParseToken] accepted from the request's Authorization header, never a
    blank one, under the request's correlation id; all other changes of the world
    are the environment's. On the API's paths a request whose token is not
    accepted makes no call and is answered 401. *)
Theorem serve_authenticated secret swagger (checks : Readiness) r w :
  exists w' rw, serve secret swagger checks r w = (Ok (), (w', rw)) /\
  handled checks (authenticated secret r (request_id r w)) w w' /\
  (requiresAuth (URL_Path r) = true ->
   (forall now, is_ok (ParseToken now secret (bearerToken (rq_Header r authHeader))) = false) ->
   env_path checks w w' /\ rw_Status rw = Some 401%Z).
Proof.
  destruct (serve_run secret swagger checks r w) as (w' & rw & E & Hh & _).
  exists w', rw. split_and!; [done|done|]. intros Hr Hno.
  unfold serve, NewRouter in E. cbn [chain] in E.
  pose proof (after_id_path checks r w) as Hp.
  destruct (correlationMiddleware_run
    (authMiddleware secret (loggingMiddleware (ServeMux swagger checks))) r w)
    as (rw0 & E0 & Hun & _). set (w0 := after_id r w) in *.
  destruct (authMiddleware_rejects checks secret (request_id r w)
    (loggingMiddleware (ServeMux swagger checks)) r Hr Hno w0 rw0 Hun)
    as (w1 & rw1 & E1 & Hp1 & H401 & _). rewrite E1 in E0.
  unfold recoverMiddleware in E. rewrite (attempt_bind _ _ _ _ _ E0) in E.
  unfold mret, eff_ret in E. simplify_eq. split; [by eapply env_trans|done].
Qed.

(** C28: every request gets exactly one well-formed response, panics of the service
    and of the health checks included: one status, one body of a kind that goes
    with the status (resources with 200 or 202, error envelopes with 400, 401,
    404, 409 or 500, and a 500 says nothing but the constant text), the JSON
    content type on JSON bodies, and the correlation id, the client's own if it
    sent one. *)
Theorem serve_responds secret swagger (checks : Readiness) r w :
  exists w' rw status b, serve secret swagger checks r w = (Ok (), (w', rw)) /\
    rw_Status rw = Some status /\ rw_Body rw = [b] /\ fits status b /\
    (is_json b = true -> rw_ContentType rw = Some json_type) /\
    rw_CorrelationID rw = Some (request_id r w) /\
    (rq_Header r correlationHeader <> "" -> request_id r w = rq_Header r correlationHeader).
Proof.
  destruct (serve_run secret swagger checks r w) as (w' & rw & E & _ & Hc & status & b & ? & ? & ? & ?).
  exists w', rw, status, b. split_and!; try done.
  unfold request_id. by destruct (String.eqb_spec (rq_Header r correlationHeader) "").
Qed.
End properties.
