(* ===== verification/Api.v ===== *)
(** * The API server: HTTP transport over the notification service over the store

    [app_service] is the port adapter the composition root of cmd/api builds. The
    theorems follow requests from the wire to the tables and back: paging through
    the list, and replaying a creation. *)

From S2P Require Import Prelude GoStrings Domain GoText Template Store StoreRuns StoreInv.
From S2P Require Import StoreCreate StoreCalls StoreQuiet StoreSamples StoreLater StoreList.
From S2P Require Import Notification NotificationStore Auth Cursor Http HttpSpec.

Local Open Scope string_scope.
Local Open Scope list_scope.

(** ** Wiring *)

Section wiring.
Context `{codec : !MessageCodec} `{uuids : !UuidSource} (Quote : string -> string).
Context `{ut : !UuidText} `{txt : !HttpText} `{jwt : !Jwt} (unmatched : HttpRequest -> Z).

#[local] Instance api_renderer : Renderer App := app_renderer Quote.

(** A service method does not panic. *)
Definition method {A} (m : eff App error A) : eff App string (result error A) := fun a =>
  let '(r, a') := m a in (Ok r, a').

(** [notification.New(store, renderer, clock, metrics)] behind the handler's port. *)
#[export] Instance app_service : NotificationService App := {
  svc_Create ctx i := method (Create (CorrelationID ctx) i);
  svc_CreateBatch ctx b := method (Notification.CreateBatch (CorrelationID ctx) b);
  svc_Get _ u id := method (Get u id);
  svc_List _ f := method (List f);
  svc_Cancel _ u id := method (Cancel u id);
  svc_GetBatch _ u id := method (GetBatch u id)
}.

(** Logs and the metrics page do not touch the store; the clock is the process's. *)
#[export] Instance app_http : HttpEnv App := {
  http_NewString a :=
    (uuid_String (uuid_New (entropy (app_sess a))), (rt_uuid_New a).2);
  http_Now a := (app_clock a, a);
  log_Request _ a := a;
  log_Panic _ a := a;
  promhttp_Handler a := (200%Z, a);
  mux_Unmatched := unmatched
}.

(** ** A client of the list endpoint *)

(** [q] are the other query parameters. *)
Definition list_request (hdr q : string -> string) (cursor : option string) : HttpRequest :=
  mkHttpRequest "GET" ["api"; "v1"; "notifications"] hdr
    (fun k => if String.eqb k "cursor" then default "" cursor else q k) "".

(** It follows [next_cursor] until there is none; [None] is an answer that is not
    a page, or the end of the fuel. *)
Fixpoint api_list (secret : string) (hdr q : string -> string) (fuel : nat)
    (cursor : option string) (a : App) : option (list notificationResponse) * App :=
  match fuel with
  | 0 => (None, a)
  | S fuel =>
      let '(_, (a1, rw)) := serve secret false [] (list_request hdr q cursor) a in
      match rw_Body rw with
      | [BList page] =>
          match lr_NextCursor page with
          | Some c =>
              let '(rest, a2) := api_list secret hdr q fuel (Some c) a1 in
              (match rest with Some l => Some (lr_Items page ++ l) | None => None end, a2)
          | None => (Some (lr_Items page), a1)
          end
      | _ => (None, a1)
      end
  end.

(** A server that answers, without other sessions in between. *)
Definition calm (d : DB) (rep : option DB) (clock : time) (a : App) : Prop :=
  tables a = d /\ replica (app_sess a) = rep /\ faults (app_sess a) = [] /\ app_env a = [] /\
  app_clock a = clock.

Lemma calm_sess d rep t a : calm d rep t a ->
  exists n, a = mkApp (quiet d rep n) [] t (app_db_clock a) (app_created a).
Proof.
  destruct a as [[d' rep' fs n] env c dc cr]. intros (E1 & E2 & E3 & E4 & E5).
  unfold tables in *. simpl in *. subst. by exists n.
Qed.

Definition logged_writer (corr : string) : Writer := mkWriter (Some corr) None None [] 200.

(** A request whose token is accepted reaches its handler, with the user. *)
Lemma serve_accepted secret swagger checks r a u a' rw' :
  requiresAuth (URL_Path r) = true ->
  ParseToken (app_clock a) secret (bearerToken (rq_Header r authHeader)) = Ok u ->
  ServeMux swagger checks (mkCtx (Some u) (Some (request_id r a))) r
    (after_id r a, logged_writer (request_id r a)) = (Ok (), (a', rw')) ->
  serve secret swagger checks r a = (Ok (), (a', rw')).
Proof.
  intros Hr Ht Hm. unfold serve, NewRouter. cbn [chain]. unfold recoverMiddleware.
  assert (E : correlationMiddleware (authMiddleware secret (loggingMiddleware (ServeMux swagger checks)))
    background r (a, fresh_writer) = (Ok (), (a', rw'))); [|by rewrite (attempt_bind _ _ _ _ _ E)].
  assert (Hc : correlationMiddleware (authMiddleware secret (loggingMiddleware (ServeMux swagger checks)))
    background r (a, fresh_writer) = authMiddleware secret (loggingMiddleware (ServeMux swagger checks))
    (mkCtx None (Some (request_id r a))) r (after_id r a, mkWriter (Some (request_id r a)) None None [] 0)).
  { unfold correlationMiddleware, request_id, after_id, mbind, eff_bind, total_world, on_writer.
    by destruct (String.eqb _ ""). }
  rewrite Hc. unfold authMiddleware. rewrite Hr. cbn [negb].
  assert (Htok : String.eqb (bearerToken (rq_Header r authHeader)) "" = false).
  { apply String.eqb_neq. intros E. rewrite E in Ht. unfold ParseToken in Ht.
    by destruct (ValidateSecret secret). }
  rewrite Htok. unfold total_world at 1. unfold mbind at 1, eff_bind at 1. cbn [fst http_Now app_http].
  assert (Hclk : app_clock (after_id r a) = app_clock a).
  { unfold after_id. destruct (String.eqb (rq_Header r correlationHeader) ""); [|done].
    by destruct a as [[] ? ? ? ?]. }
  rewrite Hclk, Ht. unfold loggingMiddleware, total_world, on_writer, on_env, mbind, eff_bind.
  cbn [http_Now app_http fst snd]. unfold logged_writer in Hm.
  cbn [WithUserID ctx_correlation CorrelationID rw_CorrelationID rw_ContentType rw_Status rw_Body].
  change (WithUserID (mkCtx None (Some (request_id r a))) u) with (mkCtx (Some u) (Some (request_id r a))).
  by rewrite Hm.
Qed.

Lemma ParseToken_nonempty now secret tok u : ParseToken now secret tok = Ok u -> String.eqb u "" = false.
Proof.
  intros H. apply String.eqb_neq. intros ->. apply ParseToken_user in H as [H _]. by vm_compute in H.
Qed.

Lemma after_id_calm r d rep t a : calm d rep t a -> calm d rep t (after_id r a).
Proof. unfold after_id. destruct (String.eqb _ ""); [|done]. by destruct a as [[] ? ? ? ?]. Qed.

Lemma after_id_same r a :
  tables (after_id r a) = tables a /\ app_env (after_id r a) = app_env a /\
  faults (app_sess (after_id r a)) = faults (app_sess a) /\
  app_created (after_id r a) = app_created a.
Proof. unfold after_id. destruct (String.eqb _ ""); [|done]. by destruct a as [[] ? ? ? ?]. Qed.

(** One authenticated request for the list. *)
Lemma serve_list secret hdr q cursor d rep t a u f :
  calm d rep t a -> ParseToken t secret (bearerToken (hdr authHeader)) = Ok u ->
  parseListFilter (list_request hdr q cursor) = Ok f ->
  exists a' rw, serve secret false [] (list_request hdr q cursor) a = (Ok (), (a', rw)) /\
    calm d rep t a' /\
    rw_Body rw = [BList (to_list_response (page_at (requests (default d rep)) (filter_for u f)))].
Proof.
  intros Ha Ht Hf. set (r := list_request hdr q cursor) in *.
  pose proof (after_id_calm r _ _ _ _ Ha) as H0. destruct (calm_sess _ _ _ _ H0) as [n E0].
  eexists _, _. split; [apply (serve_accepted secret false [] r a u)|].
  - done.
  - assert (app_clock a = t) as -> by apply Ha. exact Ht.
  - unfold ServeMux. change (route false r) with (Some RouteList). cbv iota.
    unfold listNotifications, with_user. cbn [UserID ctx_user default id from_option]. rewrite (ParseToken_nonempty _ _ _ _ Ht), Hf.
    unfold reply at 1. unfold on_world, mbind, eff_bind. cbn [fst snd svc_List app_service].
    unfold method, List. cbn [repo_ListRequests app_repository]. rewrite E0. unfold port.
    cbn [app_env app_sess]. rewrite ListRequests_quiet. reflexivity.
  - by split.
Qed.

(** One authenticated creation. *)
Definition post_request (hdr : string -> string) (body : string) : HttpRequest :=
  mkHttpRequest "POST" ["api"; "v1"; "notifications"] hdr (fun _ => "") body.

Lemma serve_create secret hdr body a u b i :
  ParseToken (app_clock a) secret (bearerToken (hdr authHeader)) = Ok u ->
  decodeJSON decode_createRequest (post_request hdr body) = Ok b ->
  createRequest_toInput b (hdr "Idempotency-Key") = Ok i ->
  let r := post_request hdr body in
  exists res a' rw, Create (request_id r a) (set_UserID u i) (after_id r a) = (res, a') /\
    serve secret false [] r a = (Ok (), (a', rw)) /\
    match res with
    | Ok res => rw_Status rw = Some (if cr_Duplicate res then 200 else 202)%Z /\
        rw_Body rw = [BNotification (toNotificationResponse (cr_Request res) [])]
    | Err e => rw_Status rw = Some (error_reply e).1 /\ rw_Body rw = [BError (error_reply e).2]
    end.
Proof.
  intros Ht Hb Hi r. destruct (Create (request_id r a) (set_UserID u i) (after_id r a)) as [res a'] eqn:E.
  set (s := match res with
    | Ok res => writeJSON (if cr_Duplicate res then 200 else 202)%Z
        (BNotification (toNotificationResponse (cr_Request res) []))
    | Err e => writeError e end (a', logged_writer (request_id r a))).
  exists res, a', s.2.2. split; [done|]. split.
  - apply (serve_accepted secret false [] r a u); [done|done|].
    unfold ServeMux. change (route false r) with (Some RouteCreate). cbv iota.
    unfold createNotification, with_user. cbn [UserID ctx_user default id from_option]. rewrite (ParseToken_nonempty _ _ _ _ Ht).
    unfold r at 1. rewrite Hb. unfold reply at 1. change (rq_Header r) with hdr. rewrite Hi.
    unfold reply at 1. unfold on_world, mbind, eff_bind. cbn [fst snd svc_Create app_service].
    unfold method. cbn [CorrelationID ctx_correlation default from_option id]. rewrite E. unfold s.
    destruct res as [res|e]; [done|]. simpl. unfold writeError. by destruct (error_reply e).
  - unfold s. destruct res as [res|e]; [done|]. unfold writeError. by destruct (error_reply e).
Qed.

(** ** Reading the cursor back *)

Lemma Normalize_Cursor f : lf_Cursor (Normalize f) = lf_Cursor f.
Proof. unfold Normalize. cbv zeta. by repeat case_match. Qed.

Lemma Normalize_set_cursor id t f : set_cursor id t (Normalize f) = Normalize (set_cursor id t f).
Proof.
  unfold Normalize. cbv zeta. simpl.
  destruct (lf_Limit f <=? 0)%Z; simpl; [done|]. by destruct (lf_Limit f >? 200)%Z.
Qed.

Lemma parse_cursor `{utl : !UuidTextLaws ut} hdr q f id t :
  uuid_ok id -> in_int64 t -> parseListFilter (list_request hdr q None) = Ok f ->
  lf_Cursor f = None /\
  parseListFilter (list_request hdr q (Some (encodeCursor id (Some t)))) = Ok (set_cursor id t f).
Proof.
  intros Hid Ht. unfold parseListFilter, parse_query_time. cbn [list_request rq_Query String.eqb Ascii.eqb Bool.eqb].
  cbn [default from_option Datatypes.id].
  assert (Ho : optional (encodeCursor id (Some t)) = Some (encodeCursor id (Some t))).
  { unfold optional. destruct (String.eqb_spec (encodeCursor id (Some t)) ""); [|done].
    by apply encodeCursor_nonempty in e. }
  rewrite Ho, (decode_encode_cursor id (Some t) Hid). simpl default. rewrite wrap64_id by done.
  change (optional "") with (@None string). cbv iota.
  repeat match goal with
  | |- context [match ?x with _ => _ end] =>
      match x with
      | optional _ => destruct x
      | time_Parse _ => destruct x
      | parseInt _ => destruct x
      | negb _ => destruct x
      | Z.gtb _ _ => destruct x
      end; try (intros ?; discriminate); cbv iota
  end;
  intros [= <-]; by rewrite Normalize_Cursor, Normalize_set_cursor.
Qed.

Lemma filter_set_cursor u id t f : filter_for u (set_cursor id t f) = set_cursor id t (filter_for u f).
Proof. done. Qed.

(** The client reads what [follow] reads on the rows of the reader. *)
Lemma api_list_follow `{utl : !UuidTextLaws ut} secret hdr q d rep t u f fuel :
  ParseToken t secret (bearerToken (hdr authHeader)) = Ok u ->
  parseListFilter (list_request hdr q None) = Ok f ->
  (forall r, r ∈ requests (default d rep) ->
     uuid_ok (r_ID r) /\ in_int64 (r_CreatedAt r) /\ micros (r_CreatedAt r)) ->
  forall cursor g a, calm d rep t a ->
  (cursor = None /\ g = f \/
   exists x, x ∈ requests (default d rep) /\ g = set_cursor (r_ID x) (r_CreatedAt x) f /\
     cursor = Some (encodeCursor (r_ID x) (Some (r_CreatedAt x)))) ->
  exists a', calm d rep t a' /\
    api_list secret hdr q fuel cursor a =
      (match follow (requests (default d rep)) fuel (filter_for u g) with
       | Some l => Some (map toNotificationSummaryResponse l) | None => None end, a').
Proof.
  intros Ht Hf Hok. induction fuel as [|fuel IH]; intros cursor g a Ha Hg; [by exists a|].
  assert (Hpar : parseListFilter (list_request hdr q cursor) = Ok g).
  { destruct Hg as [[-> ->]|(x & Hx & -> & ->)]; [done|].
    destruct (Hok x Hx) as (? & ? & _). by eapply parse_cursor. }
  destruct (serve_list secret hdr q cursor d rep t a u g Ha Ht Hpar) as (a1 & rw & E & Ha1 & Hb).
  cbn [api_list]. rewrite E, Hb. cbn [to_list_response lr_NextCursor lr_Items follow].
  destruct (page_at_next (requests (default d rep)) (filter_for u g)) as [Hn|(x & Hx & Hn & Hat)].
  { rewrite Hn. by exists a1. }
  rewrite Hn, Hat. cbv iota.
  destruct (IH (Some (encodeCursor (r_ID x) (Some (r_CreatedAt x))))
    (set_cursor (r_ID x) (r_CreatedAt x) f) a1 Ha1) as (a2 & Ha2 & E2).
  { right. by exists x. }
  rewrite E2, filter_set_cursor. exists a2. split; [done|].
  assert (Hs : set_cursor (r_ID x) (r_CreatedAt x) (filter_for u g)
    = set_cursor (r_ID x) (r_CreatedAt x) (filter_for u f)).
  { by destruct Hg as [[_ ->]|(y & _ & -> & _)]. }
  rewrite Hs. destruct (follow _ _ _) as [l|]; [|done]. by rewrite map_app.
Qed.
End wiring.

(** ** Properties *)

(** C17: a client that pages through GET /api/v1/notifications with any filters and
    any limit, sending back each [next_cursor], terminates with a page for every
    request and sees exactly the notifications of its token's user that match the
    filters, each once, newest first, as the reader's snapshot holds them: the
    token, the query parameters, the cursor text and the keyset query fit
    together. *)
Theorem api_list_complete `{!MessageCodec} `{!UuidSource} Quote `{ut : !UuidText}
    `{utl : !UuidTextLaws ut} `{!HttpText} `{!Jwt} unmatched secret hdr q d rep t u f fuel a :
  calm d rep t a ->
  ParseToken t secret (bearerToken (hdr authHeader)) = Ok u ->
  parseListFilter (list_request hdr q None) = Ok f ->
  NoDup (map r_ID (requests (default d rep))) ->
  (forall r, r ∈ requests (default d rep) -> uuid_ok (r_ID r) /\ in_int64 (r_CreatedAt r) /\ micros (r_CreatedAt r)) ->
  length (where_ (list_where (filter_for u f)) (requests (default d rep))) < fuel ->
  exists rs a', api_list Quote unmatched secret hdr q fuel None a
      = (Some (map toNotificationSummaryResponse rs), a') /\
    calm d rep t a' /\ StronglySorted list_order rs /\ NoDup (map r_ID rs) /\
    rs ≡ₚ where_ (list_where (filter_for u f)) (requests (default d rep)) /\
    Forall (fun r => r_UserID r = u) rs.
Proof.
  intros Ha Ht Hf Hnd Hok Hfuel.
  destruct (api_list_follow Quote unmatched secret hdr q d rep t u f fuel Ht Hf Hok None f a Ha)
    as (a' & Ha' & E); [by left|].
  assert (Hc : lf_Cursor f = None).
  { by destruct (parse_cursor hdr q f 0 0 ltac:(done) ltac:(by vm_compute) Hf). }
  rewrite follow_complete in E by (try done; intros r Hr; by destruct (Hok r Hr) as (_ & _ & ?)).
  exists (listing (filter_for u f) (requests (default d rep))), a'.
  split_and!; [by rewrite E, map_map|done|apply listing_sorted|by apply listing_NoDup|
    apply listing_perm|].
  rewrite Forall_forall. intros r Hr. rewrite listing_perm in Hr.
  apply elem_of_where in Hr as [_ Hw]. unfold list_where in Hw.
  repeat apply andb_true_iff in Hw as [Hw _]. by apply String.eqb_eq in Hw.
Qed.

(** The key of a creation is the body's, or else the header's. *)
Lemma toInput_key `{!UuidText} b hdr i :
  createRequest_toInput b hdr = Ok i ->
  ci_IdempotencyKey i = idempotency_key (crq_IdempotencyKey b) hdr.
Proof. unfold createRequest_toInput. intros E. repeat case_match; by simplify_eq. Qed.

(** C16: a POST of a notification under an idempotency key may be repeated at any
    later time. Once a request was answered with a notification (202, or 200 for a
    replay), and after any legal store calls of workers, schedulers and other
    requests, a POST of the same user under that key, in the Idempotency-Key header
    or in the body, whatever else it asks for, is answered 200 with that
    notification: the same id, batch, recipient, channel, priority and content,
    its status of now, and its creation time as the table holds it, that is
    without what the first answer shows below the microsecond. Nothing is written
    or counted. The repeated POST must decode, pass validation and be served
    without a database failure and without another session writing meanwhile. *)
Theorem api_post_idempotent `{!MessageCodec} `{!UuidSource} Quote `{!UuidText} `{!HttpText} `{!Jwt}
    unmatched secret hdr body hdr2 body2 u b i b2 i2 key a a1 rw a' :
  app_env a = [] -> reachable (tables a) ->
  ParseToken (app_clock a) secret (bearerToken (hdr authHeader)) = Ok u ->
  decodeJSON decode_createRequest (post_request hdr body) = Ok b ->
  createRequest_toInput b (hdr "Idempotency-Key") = Ok i ->
  idempotency_key (crq_IdempotencyKey b) (hdr "Idempotency-Key") = Some key ->
  let serve := @serve App (app_service Quote) _ _ _ (app_http unmatched) secret false [] in
  serve (post_request hdr body) a = (Ok (), (a1, rw)) ->
  rw_Status rw = Some 200%Z \/ rw_Status rw = Some 202%Z ->
  later (tables a1) (tables a') -> app_env a' = [] -> faults (app_sess a') = [] ->
  ParseToken (app_clock a') secret (bearerToken (hdr2 authHeader)) = Ok u ->
  decodeJSON decode_createRequest (post_request hdr2 body2) = Ok b2 ->
  createRequest_toInput b2 (hdr2 "Idempotency-Key") = Ok i2 ->
  idempotency_key (crq_IdempotencyKey b2) (hdr2 "Idempotency-Key") = Some key ->
  CreateInput_validate (set_UserID u i2) = Ok () ->
  exists q st a2 rw2,
    rw_Body rw = [BNotification (toNotificationResponse q [])] /\
    set_Status st (stored_request q) ∈ requests (tables a') /\
    serve (post_request hdr2 body2) a' = (Ok (), (a2, rw2)) /\
    rw_Status rw2 = Some 200%Z /\
    rw_Body rw2 = [BNotification (toNotificationResponse (set_Status st (stored_request q)) [])] /\
    tables a2 = tables a' /\ app_created a2 = app_created a'.
Proof.
  intros He Hr Ht Hb Hi Hk serve Hs Hst Hlater He1 Hq1 Ht2 Hb2 Hi2 Hk2 Hv2.
  rewrite <- (toInput_key _ _ _ Hi) in Hk. rewrite <- (toInput_key _ _ _ Hi2) in Hk2.
  destruct (serve_create Quote unmatched secret hdr body a u b i Ht Hb Hi)
    as (res & ar & rw' & Hc & Hs' & Hout).
  unfold serve in Hs. rewrite Hs in Hs'. simplify_eq.
  destruct (after_id_same unmatched (post_request hdr body) a) as (Et & Ee & _).
  destruct res as [res|e]; [|destruct Hout as [Hx _]; exfalso; rewrite Hx in Hst;
    unfold error_reply in Hst; repeat case_match; naive_solver].
  destruct Hout as [_ Hbody].
  pose proof (Create_stored Quote _ (set_UserID u i) key _ _ _ (eq_trans Ee He)
    ltac:(by rewrite Et) Hk Hc) as [Hin Hidem].
  apply Create_outcomes in Hc as [_ Hr1]; [|by rewrite Ee]. rewrite Et in Hr1. specialize (Hr1 Hr).
  destruct (later_request _ _ (stored_request (cr_Request res)) Hlater) as [st Hst'].
  { exists (r_Status (stored_request (cr_Request res))). by rewrite set_Status_same. }
  destruct (serve_create Quote unmatched secret hdr2 body2 a' u b2 i2 Ht2 Hb2 Hi2)
    as (res2 & a2 & rw2 & Hc2 & Hs2 & Hout2).
  destruct (after_id_same unmatched (post_request hdr2 body2) a') as (Et2 & Ee2 & Ef2 & Ec2).
  pose proof (later_reachable _ _ Hr1 Hlater) as Hr2.
  rewrite (Create_replay Quote _ _ key (set_Status st (stored_request (cr_Request res)))) in Hc2;
    try done; [|by rewrite Ee2|by rewrite Et2|by rewrite Ef2|by rewrite Et2].
  injection Hc2 as <- <-. destruct Hout2 as [Hx1 Hx2].
  eexists (cr_Request res), st, _, rw2.
  split_and!; [done|done|exact Hs2|done|by rewrite Hx2|by rewrite Et2|done].
Qed.

(** ** Witnesses *)

Definition create_tuple (r : createRequest) :=
  (crq_Recipient r, crq_Channel r, crq_Priority r, crq_Content r, crq_TemplateID r,
   map_to_list (crq_Variables r), crq_IdempotencyKey r, crq_SendAt r).
Definition tuple_create (t : string * string * string * string * option string
    * list (string * string) * option string * option Z) : createRequest :=
  let '(a, b, c, d, e, f, g, h) := t in mkCreateRequest a b c d e (list_to_map f) g h.

#[local] Instance sample_http_text : HttpText := {
  decode_createRequest s _ := match of_text s with
                              | Some t => Ok (tuple_create t)
                              | None => Err (ELib "invalid character")
                              end;
  decode_batchRequest _ _ := Err (ELib "invalid character");
  time_Parse _ := Err (ELib "cannot parse")
}.

Definition sample_header (key : string) (k : string) : string :=
  if String.eqb k authHeader then "Bearer " ++ sample_token
  else if String.eqb k "Idempotency-Key" then key else "".

Definition sample_body (content : string) : string :=
  to_text (create_tuple (mkCreateRequest "+905551234567" "sms" "high" content None ∅ None None)).

Definition one_per_page (k : string) : string := if String.eqb k "limit" then "1" else "".

Definition no_page (r : HttpRequest) : Z := 404.

Lemma sample_rows_ok r : r ∈ requests sample_db ->
  uuid_ok (r_ID r) /\ in_int64 (r_CreatedAt r) /\ micros (r_CreatedAt r).
Proof.
  assert (H : forallb (fun r => (r_ID r <? 2 ^ 128)%N && ((int64_min <=? r_CreatedAt r)
    && (r_CreatedAt r <=? int64_max)
    && (timestamptz (r_CreatedAt r) =? r_CreatedAt r)))%Z (requests sample_db) = true)
    by (vm_compute; reflexivity).
  rewrite forallb_forall in H. rewrite list_elem_of_In. intros Hr. specialize (H r Hr).
  apply andb_true_iff in H as [H1%N.ltb_lt
    [[H2%Z.leb_le H3%Z.leb_le]%andb_true_iff H4%Z.eqb_eq]%andb_true_iff].
  by split_and!.
Qed.

(** Alice pages through her three notifications. *)
Lemma api_list_complete_witness :
  exists rs a', api_list sample_quote no_page sample_secret (sample_header "") one_per_page 4 None
      (app_on sample_db []) = (Some (map toNotificationSummaryResponse rs), a') /\ length rs = 3.
Proof.
  destruct (api_list_complete sample_quote no_page sample_secret (sample_header "") one_per_page
    sample_db None 1000 "alice" (mkListFilter "" None None None None 1 None None) 4
    (app_on sample_db [])) as (rs & a' & E & _ & _ & _ & Hp & _).
  - by split.
  - vm_compute. reflexivity.
  - vm_compute. reflexivity.
  - apply (bool_decide_unpack _). vm_compute. exact I.
  - exact sample_rows_ok.
  - vm_compute. lia.
  - exists rs, a'. split; [exact E|]. rewrite Hp. vm_compute. reflexivity.
Defined.

(** The same POST again, with another content, after the delivery of the first was
    cancelled. *)
Definition first_post : App * Writer :=
  (@serve App (app_service sample_quote) _ _ _ (app_http no_page) sample_secret false []
     (post_request (sample_header "new") (sample_body "hi")) (app_on sample_db [])).2.

Definition posted_id : uuid := match rw_Body first_post.2 with
                               | [BNotification n] => nr_ID n
                               | _ => 0%N
                               end.

Definition cancel_first : call := CallCancelRequest posted_id 2000.

Definition repost : App :=
  mkApp (exec cancel_first (app_sess first_post.1)).2 [] 2000 2000 (app_created first_post.1).

Lemma api_post_idempotent_witness :
  exists q st a2 rw2, rw_Body first_post.2 = [BNotification (toNotificationResponse q [])] /\
    @serve App (app_service sample_quote) _ _ _ (app_http no_page) sample_secret false []
      (post_request (sample_header "new") (sample_body "changed")) repost = (Ok (), (a2, rw2)) /\
    rw_Status rw2 = Some 200%Z /\
    rw_Body rw2
      = [BNotification (toNotificationResponse (set_Status st (stored_request q)) [])].
Proof.
  assert (Hvalid : forall c, createRequest_toInput
      (mkCreateRequest "+905551234567" "sms" "high" c None ∅ None None) "new"
    = Ok (mkCreateInput "" "+905551234567" "sms" "high" None c ∅ (Some "new") None)) by done.
  destruct (api_post_idempotent sample_quote no_page sample_secret (sample_header "new")
    (sample_body "hi") (sample_header "new") (sample_body "changed") "alice"
    (mkCreateRequest "+905551234567" "sms" "high" "hi" None ∅ None None)
    (mkCreateInput "" "+905551234567" "sms" "high" None "hi" ∅ (Some "new") None)
    (mkCreateRequest "+905551234567" "sms" "high" "changed" None ∅ None None)
    (mkCreateInput "" "+905551234567" "sms" "high" None "changed" ∅ (Some "new") None)
    "new" (app_on sample_db []) first_post.1 first_post.2 repost)
    as (q & st & a2 & rw2 & Hq & Hin & E & Hs & Hb & _).
  - reflexivity.
  - exact sample_db_reachable.
  - vm_compute. reflexivity.
  - vm_compute. reflexivity.
  - apply Hvalid.
  - reflexivity.
  - vm_compute. reflexivity.
  - right. vm_compute. reflexivity.
  - eapply (later_call _ cancel_first (app_sess first_post.1)); [apply later_here|exact I|].
    apply surjective_pairing.
  - vm_compute. reflexivity.
  - vm_compute. reflexivity.
  - vm_compute. reflexivity.
  - vm_compute. reflexivity.
  - apply Hvalid.
  - reflexivity.
  - vm_compute. reflexivity.
  - exists q, st, a2, rw2. split_and!; [exact Hq|exact E|exact Hs|exact Hb].
Defined.

(** The status of the repeated answer is the one of now. *)
Example repost_cancelled : map (fun b => match b with BNotification n => nr_Status n | _ => "" end)
    (rw_Body (@serve App (app_service sample_quote) _ _ _ (app_http no_page) sample_secret false []
      (post_request (sample_header "new") (sample_body "changed")) repost).2.2) = ["CANCELLED"].
Proof. vm_compute. reflexivity. Qed.
