(* ===== verification/Queue.v ===== *)
(** * The Redis adapters (internal/adapters/redis)

    The Streams queue with its poison-pill handling, the dead-letter publisher and
    the two rate limiters. The Redis client, the JSON codecs and the two limiter
    libraries are interfaces; [RedisLaws] is the documented behaviour of the stream
    commands, in terms of the entries of a stream, the group's position in it and
    the entries delivered but not acknowledged. *)

From Stdlib Require Import Ascii.
From S2P Require Import Prelude GoStrings Domain Store.

Local Open Scope string_scope.
Local Open Scope list_scope.

(** ** The client *)

Record XMessage := mkXMessage { xm_ID : string; xm_Values : gmap string string }.
Record XStream := mkXStream { xs_Stream : string; xs_Messages : list XMessage }.

(** [XReadGroup] is given the streams whose new entries it reads. *)
Class RedisClient (W : Type) := {
  XGroupCreateMkStream : string -> string -> string -> eff W error ();
  XAdd : string -> gmap string string -> eff W error ();
  XReadGroup : string -> string -> list string -> Z -> duration -> eff W error (list XStream);
  XAck : string -> string -> string -> eff W error ();
  XLen : string -> eff W error Z;
  XPendingCount : string -> string -> eff W error Z
}.

(** [goredis.Nil]: no message within the block window. *)
Definition redis_Nil : error := ELib "redis: nil".

(** The clock and the poison counters, which do not fail, and the codec of the
    dead-letter messages. *)
Class QueueEnv (W : Type) := {
  queue_Now : W -> time * W;
  report_IncPoison : W -> W;
  report_IncDLQ : string -> W -> W;
  marshalDLQ : DLQMessage -> result error string
}.

(** [time.Time{}]: the first instant of year 1. *)
Definition zero_time : time := -62135596800 * Second.

Definition zero_message : DeliveryMessage := mkDeliveryMessage 0 zero_time 0 "" "" "".

Definition messageField : string := "data".

(** The optional dead-letter publisher and metrics are set together. *)
Record Queue := mkQueue { q_group : string; q_dlq : bool; q_metrics : bool }.

Definition NewQueue (group : string) : Queue := mkQueue group false false.
Definition WithDLQ (q : Queue) : Queue := mkQueue (q_group q) true true.

Section queue.
Context {W : Type} `{client : !RedisClient W} `{env : !QueueEnv W} `{codec : !MessageCodec}.
Implicit Types (q : Queue) (stream consumer id reason : string).

Definition effect (f : W -> W) : eff W error () := fun w => (Ok (), f w).
Definition read_clock : eff W error time := fun w => let '(t, w') := queue_Now w in (Ok t, w').

(** ** dlq.go *)

Definition DLQ_Publish (msg : DLQMessage) : eff W error () :=
  timestamp ← (if (dlq_Timestamp msg =? zero_time)%Z then read_clock else mret (dlq_Timestamp msg));
  let msg := mkDLQMessage (dlq_Original msg) (dlq_Reason msg) (dlq_Error msg)
    (dlq_AttemptCount msg) (dlq_Stream msg) (dlq_EntryID msg) timestamp in
  match marshalDLQ msg with
  | Err err => raise (Errorf "marshal dlq message" err)
  | Ok payload =>
      r ← attempt (XAdd DLQStream {[ "data" := payload ]});
      match r with
      | Err err => raise (Errorf "xadd dlq" err)
      | Ok _ => mret ()
      end
  end.

(** ** queue.go *)

Definition isBusyGroup (err : error) : bool :=
  String.eqb (Error err) "BUSYGROUP Consumer Group name already exists".

Definition EnsureGroup q stream : eff W error () :=
  r ← attempt (XGroupCreateMkStream stream (q_group q) "0");
  match r with
  | Err err => if negb (isBusyGroup err)
               then raise (Errorf ("ensure group " ++ stream)%string err) else mret ()
  | Ok _ => mret ()
  end.

Definition Publish q stream (msg : DeliveryMessage) : eff W error () :=
  match marshalMessage msg with
  | Err err => raise (Errorf "marshal message" err)
  | Ok payload =>
      r ← attempt (XAdd stream {[ messageField := payload ]});
      match r with
      | Err err => raise (Errorf ("xadd " ++ stream)%string err)
      | Ok _ => mret ()
      end
  end.

Definition Ack q stream id : eff W error () := XAck stream (q_group q) id.

Definition dropPoison q stream entryID reason errMsg : eff W error () :=
  (if q_dlq q then
     now ← read_clock;
     attempt (DLQ_Publish (mkDLQMessage zero_message reason errMsg 0 stream entryID now))
       ≫= fun _ => mret ()
   else mret ()) ≫= fun _ =>
  (if q_metrics q then
     effect report_IncPoison ≫= fun _ => effect (report_IncDLQ "poison_pill")
   else mret ()) ≫= fun _ =>
  attempt (Ack q stream entryID) ≫= fun _ => mret ().

(** The inner loop of [Read], over the entries of one stream. *)
Fixpoint read_entries q stream (entries : list XMessage) (out : list StreamMessage)
    : eff W error (list StreamMessage) :=
  match entries with
  | [] => mret out
  | entry :: entries =>
      match xm_Values entry !! messageField with
      | None =>
          dropPoison q stream (xm_ID entry) "missing_data_field" "stream entry missing data field"
            ≫= fun _ => read_entries q stream entries out
      | Some raw =>
          match unmarshalMessage raw with
          | Err err =>
              dropPoison q stream (xm_ID entry) "invalid_json" (Error err)
                ≫= fun _ => read_entries q stream entries out
          | Ok dm =>
              read_entries q stream entries (out ++ [mkStreamMessage stream (xm_ID entry) dm])
          end
      end
  end.

Fixpoint read_streams q (res : list XStream) (out : list StreamMessage)
    : eff W error (list StreamMessage) :=
  match res with
  | [] => mret out
  | s :: res =>
      out ← read_entries q (xs_Stream s) (xs_Messages s) out;
      read_streams q res out
  end.

Definition Read q consumer (streams : list string) (count : Z) (block : duration)
    : eff W error (list StreamMessage) :=
  match streams with
  | [] => mret []
  | _ =>
      r ← attempt (XReadGroup (q_group q) consumer streams count block);
      match r with
      | Err err => if errors_Is err redis_Nil then mret [] else raise (Errorf "xreadgroup" err)
      | Ok res => read_streams q res []
      end
  end.

Definition Depth stream : eff W error Z := XLen stream.
Definition Pending q stream : eff W error Z := XPendingCount stream (q_group q).
End queue.

(** ** Rate limiters (ratelimit.go) *)

(** [redis_rate.Limit] per second, and the part of its result the code reads. *)
Record Limit := mkLimit { li_Rate : Z; li_Burst : Z; li_Period : duration }.
Record RateResult := mkRateResult { rr_Allowed : Z; rr_RetryAfter : duration }.

(** A limiter of golang.org/x/time/rate is a pointer; a reservation is made,
    inspected and perhaps cancelled. *)
Class RateLibs (W : Type) := {
  redis_rate_Allow : string -> Limit -> eff W error RateResult;
  xrate_NewLimiter : Z -> Z -> W -> nat * W;
  xrate_Reserve : nat -> W -> nat * W;
  xrate_OK : nat -> W -> bool;
  xrate_Delay : nat -> W -> duration * W;
  xrate_Cancel : nat -> W -> W
}.

Section limiters.
Context {W : Type} `{libs : !RateLibs W}.

Record RedisRateLimiter := mkRedisRateLimiter { rl_limit : Limit; rl_failOpen : bool }.

Definition NewRedisRateLimiter (perSecond burst : Z) (failOpen : bool) : RedisRateLimiter :=
  mkRedisRateLimiter (mkLimit perSecond burst Second) failOpen.

Definition key (channel : Channel) : string := ("ratelimit:" ++ channel)%string.

(** Allowed or not, the time to wait, and an error. *)
Definition RedisRateLimiter_Allow (r : RedisRateLimiter) (channel : Channel)
    : eff W error (bool * duration * option error) :=
  res ← attempt (redis_rate_Allow (key channel) (rl_limit r));
  match res with
  | Err err =>
      if rl_failOpen r then mret (true, 0%Z, Some (Errorf "rate limiter (fail-open)" err))
      else mret (false, 0%Z, Some (Errorf "rate limiter (fail-closed)" err))
  | Ok res =>
      if (rr_Allowed res >? 0)%Z then mret (true, 0%Z, None)
      else mret (false, rr_RetryAfter res, None)
  end.

(** The map of limiters, under its mutex. *)
Record InProcessRateLimiter := mkInProcessRateLimiter {
  ip_perSecond : Z;
  ip_burst : Z;
  ip_limiters : gmap string nat
}.

Definition NewInProcessRateLimiter (perSecond burst : Z) : InProcessRateLimiter :=
  mkInProcessRateLimiter perSecond burst ∅.

Abbreviation with_limiter A := (eff (W * InProcessRateLimiter) error A).

Definition limiterFor (channel : Channel) : with_limiter nat := fun s =>
  match ip_limiters s.2 !! channel with
  | Some lim => (Ok lim, s)
  | None =>
      let '(lim, w) := xrate_NewLimiter (ip_perSecond s.2) (ip_burst s.2) s.1 in
      (Ok lim, (w, mkInProcessRateLimiter (ip_perSecond s.2) (ip_burst s.2)
                     (<[channel := lim]> (ip_limiters s.2))))
  end.

Definition on_lib {A} (f : W -> A * W) : with_limiter A := fun s =>
  let '(a, w) := f s.1 in (Ok a, (w, s.2)).

Definition InProcessRateLimiter_Allow (channel : Channel)
    : with_limiter (bool * duration * option error) :=
  lim ← limiterFor channel;
  res ← on_lib (xrate_Reserve lim);
  ok ← on_lib (fun w => (xrate_OK res w, w));
  if negb ok then mret (false, Second, None) else
  d ← on_lib (xrate_Delay res);
  if (d >? 0)%Z then
    on_lib (fun w => ((), xrate_Cancel res w)) ≫= fun _ => mret (false, d, None)
  else mret (true, 0%Z, None).
End limiters.
