(* ===== verification/QueueSpec.v ===== *)
(** * What the queue guarantees

    Theorems on [Queue]: how a read splits into messages and poison, first in
    first out delivery over Redis's streams, and the limiters' verdicts. *)

From Stdlib Require Import Ascii.
From S2P Require Import Prelude GoStrings Domain GoText Store StoreSamples Queue.

Local Open Scope string_scope.
Local Open Scope list_scope.

Section read.
Context {W : Type} `{client : !RedisClient W} `{env : !QueueEnv W} `{codec : !MessageCodec}.
Implicit Types (q : Queue) (w : W).

(** ** Messages and poison *)

Inductive entry_kind :=
| Good (m : StreamMessage)
| Poison (stream id reason errMsg : string).

Definition classify (stream : string) (e : XMessage) : entry_kind :=
  match xm_Values e !! messageField with
  | None => Poison stream (xm_ID e) "missing_data_field" "stream entry missing data field"
  | Some raw => match unmarshalMessage raw with
                | Ok dm => Good (mkStreamMessage stream (xm_ID e) dm)
                | Err err => Poison stream (xm_ID e) "invalid_json" (Error err)
                end
  end.

(** The entries of a reply, in order. *)
Definition kinds (res : list XStream) : list entry_kind :=
  s ← res; map (classify (xs_Stream s)) (xs_Messages s).

Definition goods (l : list entry_kind) : list StreamMessage :=
  omap (fun k => match k with Good m => Some m | Poison _ _ _ _ => None end) l.

(** What dropping one poison entry does to the world: an entry on the dead-letter
    stream, the two counters, an acknowledgement, whichever of them fails. *)
Definition drop_one q (w : W) (k : entry_kind) : W :=
  match k with
  | Good _ => w
  | Poison stream id reason errMsg =>
      let w := if q_dlq q then
        let '(now, w) := queue_Now w in
        (DLQ_Publish (mkDLQMessage zero_message reason errMsg 0 stream id now) w).2 else w in
      let w := if q_metrics q then report_IncDLQ "poison_pill" (report_IncPoison w) else w in
      (XAck stream (q_group q) id w).2
  end.

Lemma dropPoison_run q stream id reason errMsg w :
  dropPoison q stream id reason errMsg w = (Ok (), drop_one q w (Poison stream id reason errMsg)).
Proof.
  unfold dropPoison, drop_one, effect, read_clock, Ack, attempt, mbind, eff_bind, mret, eff_ret.
  destruct (q_dlq q).
  - destruct (queue_Now w) as [now w1]. destruct (DLQ_Publish _ w1) as [r w2]. simpl.
    destruct (q_metrics q); by destruct (XAck _ _ _ _).
  - destruct (q_metrics q); by destruct (XAck _ _ _ _).
Qed.

Lemma read_entries_run q stream es out w :
  read_entries q stream es out w =
  (Ok (out ++ goods (map (classify stream) es)), foldl (drop_one q) w (map (classify stream) es)).
Proof.
  revert out w. induction es as [|e es IH]; intros out w; simpl; [by rewrite app_nil_r|].
  assert (Hc := eq_refl (classify stream e)). unfold classify in Hc at 1.
  destruct (xm_Values e !! messageField) as [raw|].
  2: { rewrite <- Hc. erewrite bind_step_ok by apply dropPoison_run. apply IH. }
  destruct (unmarshalMessage raw) as [dm|err]; rewrite <- Hc.
  - rewrite IH. simpl. by rewrite <- app_assoc.
  - erewrite bind_step_ok by apply dropPoison_run. apply IH.
Qed.

Lemma goods_app l1 l2 : goods (l1 ++ l2) = goods l1 ++ goods l2.
Proof. apply omap_app. Qed.

Lemma read_streams_run q res out w :
  read_streams q res out w = (Ok (out ++ goods (kinds res)), foldl (drop_one q) w (kinds res)).
Proof.
  revert out w. induction res as [|s res IH]; intros out w; simpl; [by rewrite app_nil_r|].
  erewrite bind_step_ok by apply read_entries_run. rewrite IH.
  change (kinds (s :: res)) with (map (classify (xs_Stream s)) (xs_Messages s) ++ kinds res).
  by rewrite goods_app, foldl_app, app_assoc.
Qed.

(** What a read returns and how it leaves the world, by the classes of the entries. *)
Lemma Read_run q consumer streams count block w :
  Read q consumer streams count block w =
  match streams with
  | [] => (Ok [], w)
  | _ => match XReadGroup (q_group q) consumer streams count block w with
         | (Err err, w1) =>
             (if errors_Is err redis_Nil then Ok [] else Err (Errorf "xreadgroup" err), w1)
         | (Ok res, w1) => (Ok (goods (kinds res)), foldl (drop_one q) w1 (kinds res))
         end
  end.
Proof.
  unfold Read. destruct streams as [|s streams]; [done|].
  unfold attempt, mbind, eff_bind. destruct (XReadGroup _ _ _ _ _ w) as [[res|err] w1].
  - by rewrite read_streams_run.
  - by destruct (errors_Is err redis_Nil).
Qed.

(** A read loses and invents nothing. The messages returned are exactly the
    decodable entries of Redis's reply, in its order; every other entry is dropped
    exactly once, in order: published on the dead-letter stream with its stream,
    id and reason (when a publisher is attached), counted, and acknowledged, even
    if the publication fails; no decodable entry is acknowledged or dropped. A
    timeout is an empty read, any other error is returned with the world as Redis
    left it, and without streams Redis is not asked. *)
Theorem Read_partition q consumer streams count block w :
  Read q consumer streams count block w =
  match streams with
  | [] => (Ok [], w)
  | _ => match XReadGroup (q_group q) consumer streams count block w with
         | (Err err, w1) =>
             (if errors_Is err redis_Nil then Ok [] else Err (Errorf "xreadgroup" err), w1)
         | (Ok res, w1) => (Ok (goods (kinds res)), foldl (drop_one q) w1 (kinds res))
         end
  end.
Proof. apply Read_run. Qed.
End read.

(** ** Redis's streams *)

(** The entries of each stream in the order they were added, the group's position
    in it, and the entries the group has not acknowledged. [XREADGROUP] gives the
    next entries of each stream, at most [count] of each, streams without new
    entries left out; the reply is nil only when there is no new entry. *)
Class RedisLaws (W : Type) `{client : !RedisClient W} (group : string) := {
  entries : W -> string -> list XMessage;
  position : W -> string -> nat;
  unacked : W -> string -> list string;
  add_ok stream v w w' : XAdd stream v w = (Ok (), w') ->
    exists id, (forall s, entries w' s =
      entries w s ++ (if String.eqb s stream then [mkXMessage id v] else [])) /\
    (forall s, position w' s = position w s) /\ (forall s, unacked w' s = unacked w s);
  read_ok consumer streams count block w res w' :
    NoDup streams -> (0 < count)%Z ->
    XReadGroup group consumer streams count block w = (Ok res, w') ->
    let new s := take (Z.to_nat count) (drop (position w s) (entries w s)) in
    res = List.filter (fun x => negb (bool_decide (xs_Messages x = [])))
            (map (fun s => mkXStream s (new s)) streams) /\
    (forall s, entries w' s = entries w s) /\
    (forall s, position w' s = position w s + (if decide (s ∈ streams) then length (new s) else 0)) /\
    (forall s, unacked w' s = unacked w s ++ (if decide (s ∈ streams) then map xm_ID (new s) else []));
  read_nil consumer streams count block w e w' :
    (0 < count)%Z -> XReadGroup group consumer streams count block w = (Err e, w') -> errors_Is e redis_Nil = true ->
    (forall s, entries w' s = entries w s) /\ (forall s, position w' s = position w s) /\
    (forall s, unacked w' s = unacked w s) /\
    (forall s, s ∈ streams -> length (entries w s) <= position w s);
  ack_any stream id w r w' : XAck stream group id w = (r, w') ->
    (forall s, entries w' s = entries w s) /\ (forall s, position w' s = position w s) /\
    (forall s, unacked w' s = unacked w s \/
       (s = stream /\ unacked w' s = List.filter (fun x => negb (String.eqb x id)) (unacked w s)))
}.

(** ** Runs of the queue *)

Inductive queue_op :=
| OpPublish (stream : string) (msg : DeliveryMessage)
| OpRead (consumer : string) (streams : list string) (count : Z) (block : duration)
| OpAck (stream id : string).

Definition well_formed (op : queue_op) : Prop :=
  match op with OpRead _ streams count _ => NoDup streams /\ (0 < count)%Z | _ => True end.

Section runs.
Context {W : Type} `{client : !RedisClient W} `{env : !QueueEnv W} `{codec : !MessageCodec}.

Definition run_op (q : Queue) (op : queue_op) : eff W error (list StreamMessage) :=
  match op with
  | OpPublish stream msg => Publish q stream msg ≫= fun _ => mret []
  | OpRead consumer streams count block => Read q consumer streams count block
  | OpAck stream id => attempt (Ack q stream id) ≫= fun _ => mret []
  end.

(** The messages received in a run whose operations succeed. *)
Fixpoint run_ops (q : Queue) (ops : list queue_op) : eff W error (list StreamMessage) :=
  match ops with
  | [] => mret []
  | op :: ops =>
      got ← run_op q op;
      rest ← run_ops q ops;
      mret (got ++ rest)
  end.

Definition published (s : string) (ops : list queue_op) : list DeliveryMessage :=
  omap (fun op => match op with
                  | OpPublish stream m => if String.eqb stream s then Some m else None
                  | _ => None
                  end) ops.

Definition received (s : string) (got : list StreamMessage) : list DeliveryMessage :=
  map sm_Delivery (List.filter (fun m => String.eqb (sm_Stream m) s) got).
End runs.

Section fifo.
Context {W : Type} `{client : !RedisClient W} `{env : !QueueEnv W} `{codec : !MessageCodec}.
Context (q : Queue) `{laws : !RedisLaws W (q_group q)}.
Context (codec_ok : forall m p, marshalMessage m = Ok p -> unmarshalMessage p = Ok m).
Implicit Types (w : W) (s : string).

(** The entry carries the message. *)
Definition carries s (e : XMessage) (m : DeliveryMessage) : Prop :=
  classify s e = Good (mkStreamMessage s (xm_ID e) m).

(** The entries the group has not read carry the messages [ms]. *)
Definition waiting w s (ms : list DeliveryMessage) : Prop :=
  Forall2 (carries s) (drop (position w s) (entries w s)) ms /\ position w s <= length (entries w s).

Lemma goods_carried s es ms :
  Forall2 (carries s) es ms ->
  goods (map (classify s) es) = zip_with (fun e m => mkStreamMessage s (xm_ID e) m) es ms.
Proof. induction 1 as [|e m es ms He _ IH]; [done|]. simpl. rewrite He. simpl. by rewrite IH. Qed.

Lemma received_carried s t es ms :
  Forall2 (carries t) es ms ->
  received s (goods (map (classify t) es)) = if String.eqb t s then ms else [].
Proof.
  intros H. rewrite (goods_carried _ _ _ H). unfold received.
  induction H as [|e m es ms He _ IH]; simpl; [by destruct (String.eqb t s)|].
  destruct (String.eqb t s); simpl; by rewrite ?IH.
Qed.

Lemma received_app s l1 l2 : received s (l1 ++ l2) = received s l1 ++ received s l2.
Proof. unfold received. by rewrite List.filter_app, map_app. Qed.

(** The reply [read_ok] describes, with [new] for the new entries of a stream. *)
Definition reply_of (new : string -> list XMessage) (streams : list string) : list XStream :=
  List.filter (fun x => negb (bool_decide (xs_Messages x = [])))
    (map (fun s => mkXStream s (new s)) streams).

Lemma kinds_reply new streams :
  kinds (reply_of new streams) = s ← streams; map (classify s) (new s).
Proof.
  unfold reply_of. induction streams as [|s l IH]; [done|]. simpl.
  case_bool_decide as E; simpl in *; [by rewrite E, IH|].
  unfold kinds in *. simpl. by rewrite IH.
Qed.

Lemma received_reply s new streams (ms : string -> list DeliveryMessage) :
  NoDup streams -> (forall t, t ∈ streams -> Forall2 (carries t) (new t) (ms t)) ->
  received s (goods (kinds (reply_of new streams))) = if decide (s ∈ streams) then ms s else [].
Proof.
  rewrite kinds_reply. induction 1 as [|t l Hnot Hnd IH]; intros Hc.
  { rewrite decide_False by apply not_elem_of_nil. done. }
  rewrite bind_cons, goods_app, received_app, IH by (intros; apply Hc; set_solver).
  rewrite (received_carried s t _ (ms t)) by (apply Hc; set_solver).
  destruct (String.eqb_spec t s) as [->|Hne].
  - rewrite (decide_True (P := s ∈ s :: l)) by set_solver.
    rewrite decide_False by done. by rewrite app_nil_r.
  - simpl. destruct (decide (s ∈ l)); [rewrite decide_True|rewrite decide_False]; set_solver.
Qed.

Lemma reply_no_poison new streams ms w :
  (forall t, t ∈ streams -> Forall2 (carries t) (new t) (ms t)) ->
  foldl (drop_one q) w (kinds (reply_of new streams)) = w.
Proof.
  rewrite kinds_reply. intros Hc. induction streams as [|t l IH]; [done|].
  rewrite bind_cons, foldl_app. assert (E : foldl (drop_one q) w (map (classify t) (new t)) = w).
  { pose proof (Hc t ltac:(set_solver)) as H. induction H as [|e m es ms' He _ IH']; [done|].
    simpl. rewrite He. apply IH'. }
  rewrite E. apply IH. intros. apply Hc. set_solver.
Qed.

Lemma reply_ids s m new streams :
  (forall t, t ∈ streams -> exists ms, Forall2 (carries t) (new t) ms) ->
  m ∈ goods (kinds (reply_of new streams)) -> sm_Stream m = s ->
  s ∈ streams /\ sm_ID m ∈ map xm_ID (new s).
Proof.
  rewrite kinds_reply. intros Hc. induction streams as [|t l IH]; [by intros ?%not_elem_of_nil|].
  rewrite bind_cons, goods_app, elem_of_app. intros [Hm|Hm] Hs.
  - destruct (Hc t ltac:(set_solver)) as [ms H]. rewrite (goods_carried _ _ _ H) in Hm.
    assert (E : sm_Stream m = t /\ sm_ID m ∈ map xm_ID (new t)).
    { clear Hs Hc. induction H as [|e x es ms' He _ IH']; [by apply not_elem_of_nil in Hm|].
      simpl in Hm |- *. apply elem_of_cons in Hm as [->|Hm]; [split; [done|left]|].
      destruct (IH' Hm). split; [done|by right]. }
    destruct E as [<- E]. rewrite Hs in E. split; [rewrite <- Hs; left|done].
  - destruct IH as [H1 H2]; [intros; apply Hc; set_solver|done|done|]. split; [by right|done].
Qed.

(** What one operation does to streams that carry [ms]. *)
Definition fifo_step (op : queue_op) (w w' : W) (got : list StreamMessage)
    (ms ms' : string -> list DeliveryMessage) : Prop :=
  (forall s, waiting w' s (ms' s)) /\
  (forall s, ms s ++ published s [op] = received s got ++ ms' s) /\
  (forall s m, m ∈ got -> sm_Stream m = s -> sm_ID m ∈ unacked w' s) /\
  (forall s id, id ∈ unacked w s -> op <> OpAck s id -> id ∈ unacked w' s) /\
  match op with
  | OpRead _ streams count _ =>
      forall s, s ∈ streams -> received s got = take (Z.to_nat count) (ms s)
  | _ => True
  end.

Lemma publish_fifo stream msg w got w' ms :
  (forall s, waiting w s (ms s)) -> run_op q (OpPublish stream msg) w = (Ok got, w') ->
  exists ms', fifo_step (OpPublish stream msg) w w' got ms ms'.
Proof.
  intros Hw H. simpl in H.
  apply bind_ok in H as ([] & w1 & H & Hr). apply ret_ok in Hr as [<- <-].
  unfold Publish in H. destruct (marshalMessage msg) as [p|] eqn:Ep; [|done].
  apply bind_ok in H as (r & w2 & H & Hr). apply attempt_ok_inv in H.
  destruct r as [[]|]; [|done]. apply ret_ok in Hr as [_ <-].
  destruct (add_ok _ _ _ _ H) as (id & He & Hp & Hu).
  exists (fun s => ms s ++ published s [OpPublish stream msg]). split_and!; try done.
  - intros s. destruct (Hw s) as [H1 H2]. unfold waiting. rewrite He, Hp, drop_app_le by done.
    rewrite length_app. split; [|lia]. apply Forall2_app; [done|]. simpl.
    rewrite (String.eqb_sym s). destruct (String.eqb_spec stream s) as [->|]; [|constructor].
    constructor; [|constructor]. unfold carries, classify. simpl.
    rewrite lookup_singleton_eq. by rewrite (codec_ok _ _ Ep).
  - intros s m Hm. by apply not_elem_of_nil in Hm.
  - intros s x Hx _. by rewrite Hu.
Qed.

Lemma read_fifo consumer streams count block w got w' ms :
  well_formed (OpRead consumer streams count block) -> (forall s, waiting w s (ms s)) ->
  run_op q (OpRead consumer streams count block) w = (Ok got, w') ->
  exists ms', fifo_step (OpRead consumer streams count block) w w' got ms ms'.
Proof.
  intros Hwf Hw H. simpl in H.
  destruct Hwf as [Hnd Hcount]. rewrite Read_run in H.
  destruct streams as [|s0 streams0] eqn:Es.
  { simplify_eq. exists ms. split_and!; try done; [by intros; rewrite app_nil_r|..].
    - intros s m Hm. by apply not_elem_of_nil in Hm.
    - intros s Hs. by apply not_elem_of_nil in Hs. }
  rewrite <- Es in *. clear s0 streams0 Es.
  destruct (XReadGroup (q_group q) consumer streams count block w) as [[res|e] w1] eqn:E.
  2: { destruct (errors_Is e redis_Nil) eqn:En; [|done]. simplify_eq.
    destruct (read_nil _ _ _ _ _ _ _ Hcount E En) as (He & Hp & Hu & Hnone). exists ms.
    split_and!; try done.
    - intros s. unfold waiting. rewrite He, Hp. apply Hw.
    - by intros; rewrite app_nil_r.
    - intros s m Hm. by apply not_elem_of_nil in Hm.
    - intros s x Hx _. by rewrite Hu.
    - intros s Hs. destruct (Hw s) as [H1 _]. rewrite drop_ge in H1 by auto.
      inversion H1. by rewrite take_nil. }
  destruct (read_ok _ _ _ _ _ _ _ Hnd Hcount E) as (Hres & He & Hp & Hu).
  set (n := Z.to_nat count) in *.
  set (new := fun s => take n (drop (position w s) (entries w s))).
  change (res = reply_of new streams) in Hres.
  assert (Hc : forall t, Forall2 (carries t) (new t) (take n (ms t))).
  { intros t. apply Forall2_take, Hw. }
  rewrite Hres, (reply_no_poison new streams (fun t => take n (ms t))) in H by auto.
  simplify_eq. exists (fun s => if decide (s ∈ streams) then drop n (ms s) else ms s).
  split_and!.
  - intros s. destruct (Hw s) as [H1 H2]. unfold waiting. rewrite He, Hp.
    destruct (decide (s ∈ streams)); [|by rewrite Nat.add_0_r].
    rewrite <- drop_drop. rewrite length_take, length_drop. split; [|lia].
    destruct (Nat.le_gt_cases n (length (drop (position w s) (entries w s)))) as [Hle|Hgt];
      rewrite length_drop in *.
    + rewrite Nat.min_l by lia. by apply Forall2_drop.
    + rewrite Nat.min_r by lia. rewrite drop_ge by (rewrite length_drop; lia).
      apply Forall2_length in H1 as Hl. rewrite length_drop in Hl.
      rewrite drop_ge by lia. constructor.
  - intros s. rewrite (received_reply s new streams (fun t => take n (ms t))) by auto.
    simpl. rewrite app_nil_r. destruct (decide (s ∈ streams)); [by rewrite take_drop|done].
  - intros s m Hm Hs. destruct (reply_ids s m new streams ltac:(eauto) Hm Hs) as [Hin Hid].
    rewrite Hu, decide_True by done. apply elem_of_app. by right.
  - intros s x Hx _. rewrite Hu. apply elem_of_app. by left.
  - intros s Hs. rewrite (received_reply s new streams (fun t => take n (ms t))) by auto.
    by rewrite decide_True.
Qed.

Lemma ack_fifo stream id w got w' ms :
  (forall s, waiting w s (ms s)) -> run_op q (OpAck stream id) w = (Ok got, w') ->
  exists ms', fifo_step (OpAck stream id) w w' got ms ms'.
Proof.
  intros Hw H. simpl in H.
  apply bind_ok in H as (r & w1 & H & Hr). apply ret_ok in Hr as [<- <-].
  apply attempt_ok_inv in H. unfold Ack in H. destruct (ack_any _ _ _ _ _ H) as (He & Hp & Hu).
  exists ms. split_and!.
  - intros s. unfold waiting. rewrite He, Hp. apply Hw.
  - by intros; rewrite app_nil_r.
  - intros s m Hm. by apply not_elem_of_nil in Hm.
  - intros s x Hx Hne. destruct (Hu s) as [->|[-> ->]]; [done|].
    rewrite list_elem_of_In. apply filter_In. rewrite <- list_elem_of_In. split; [done|].
    apply negb_true_iff, String.eqb_neq. congruence.
  - done.
Qed.

(** One operation. *)
Lemma step_fifo op w got w' (ms : string -> list DeliveryMessage) :
  well_formed op -> (forall s, waiting w s (ms s)) -> run_op q op w = (Ok got, w') ->
  exists ms', fifo_step op w w' got ms ms'.
Proof.
  intros Hwf Hw H. destruct op; [by apply publish_fifo|by apply read_fifo|by apply ack_fifo].
Qed.

Lemma run_fifo ops w got w' (ms : string -> list DeliveryMessage) :
  Forall well_formed ops -> (forall s, waiting w s (ms s)) -> run_ops q ops w = (Ok got, w') ->
  exists ms', (forall s, waiting w' s (ms' s)) /\
    (forall s, ms s ++ published s ops = received s got ++ ms' s) /\
    (forall m, m ∈ got -> OpAck (sm_Stream m) (sm_ID m) ∉ ops -> sm_ID m ∈ unacked w' (sm_Stream m)) /\
    (forall s id, id ∈ unacked w s -> OpAck s id ∉ ops -> id ∈ unacked w' s).
Proof.
  intros Hwf. revert w got ms. induction Hwf as [|op ops Hop _ IH]; intros w got ms Hw H.
  { simpl in H. apply ret_ok in H as [<- <-]. exists ms. split_and!; try done.
    - intros s. by rewrite app_nil_r.
    - by intros m ?%not_elem_of_nil. }
  simpl in H. apply bind_ok in H as (g1 & w1 & H1 & H). apply bind_ok in H as (g2 & w2 & H2 & H).
  apply ret_ok in H as [<- <-].
  destruct (step_fifo op w g1 w1 ms Hop Hw H1) as (ms1 & Hw1 & Hm1 & Hp1 & Hu1 & _).
  destruct (IH w1 g2 ms1 Hw1 H2) as (ms2 & Hw2 & Hm2 & Hp2 & Hu2). exists ms2. split_and!.
  - done.
  - intros s. change (op :: ops) with ([op] ++ ops). unfold published. rewrite omap_app.
    fold (published s [op]). fold (published s ops).
    by rewrite app_assoc, Hm1, <- app_assoc, Hm2, received_app, app_assoc.
  - intros m Hm Hno. apply not_elem_of_cons in Hno as [_ Hno].
    apply elem_of_app in Hm as [Hm|Hm]; [|auto]. apply Hu2; [by eapply Hp1|done].
  - intros s id Hid [Hne Hno]%not_elem_of_cons. apply Hu2; [|done]. by apply Hu1; [|congruence].
Qed.
End fifo.

(** C13: the queue is first in, first out and loses nothing while Redis answers:
    starting from streams whose entries the group has all read, after any sequence
    of publications, reads (by any consumers, with any counts) and acknowledgements
    over any streams, the messages received from a stream are a prefix of those
    published on it, in order, each received once; the rest is what the group still
    has to read, and one read with a count large enough gets exactly it. A received
    message stays pending until it is acknowledged by its id. *)
Theorem queue_fifo {W} `{client : !RedisClient W} `{!QueueEnv W} `{codec : !MessageCodec}
    (q : Queue) `{laws : !RedisLaws W (q_group q)} ops w got w' :
  (forall m p, marshalMessage m = Ok p -> unmarshalMessage p = Ok m) ->
  Forall well_formed ops ->
  (forall s, position w s = length (entries w s)) ->
  run_ops q ops w = (Ok got, w') ->
  (forall s, exists unread, published s ops = received s got ++ unread /\
     length unread = length (entries w' s) - position w' s /\
     forall consumer streams count block got2 w2,
       NoDup streams -> s ∈ streams -> (Z.of_nat (length unread) <= count)%Z -> (0 < count)%Z ->
       run_op q (OpRead consumer streams count block) w' = (Ok got2, w2) ->
       received s got2 = unread) /\
  (forall m, m ∈ got -> OpAck (sm_Stream m) (sm_ID m) ∉ ops -> sm_ID m ∈ unacked w' (sm_Stream m)).
Proof.
  intros Hcodec Hwf Hstart H.
  assert (Hw : forall s, waiting q w s []).
  { intros s. unfold waiting. rewrite drop_ge by (by rewrite Hstart). split; [constructor|].
    by rewrite Hstart. }
  destruct (run_fifo q Hcodec ops w got w' (fun _ => []) Hwf Hw H) as (ms & Hw' & Hms & Hp & _).
  split; [|done]. intros s. exists (ms s). split; [apply (Hms s)|]. destruct (Hw' s) as [Hf Hle].
  split; [apply Forall2_length in Hf; rewrite length_drop in Hf; lia|].
  intros consumer streams count block got2 w2 Hnd Hin Hc Hpos H2.
  destruct (step_fifo q Hcodec (OpRead consumer streams count block) w' got2 w2 ms) as
    (_ & _ & _ & _ & _ & Hr); [by split|done|done|].
  rewrite (Hr s Hin). apply take_ge. lia.
Qed.

(** ** Limiters *)

(** A denied send carries a wait, an allowed one none; when Redis fails the
    configuration decides, and the error is reported. *)
Lemma RedisRateLimiter_verdicts {W} `{libs : !RateLibs W} r channel (w : W) :
  let '(res, w') := redis_rate_Allow (key channel) (rl_limit r) w in
  exists allowed wait err, RedisRateLimiter_Allow r channel w = (Ok (allowed, wait, err), w') /\
    (err = None <-> is_ok res = true) /\
    match res with
    | Err _ => allowed = rl_failOpen r /\ wait = 0%Z
    | Ok rr => allowed = (0 <? rr_Allowed rr)%Z /\ wait = if allowed : bool then 0%Z else rr_RetryAfter rr
    end.
Proof.
  unfold RedisRateLimiter_Allow, attempt, mbind, eff_bind.
  destruct (redis_rate_Allow _ _ w) as [[rr|e] w'].
  - rewrite Z.gtb_ltb. destruct (0 <? rr_Allowed rr)%Z; by eexists _, _, _.
  - destruct (rl_failOpen r); by eexists _, _, _.
Qed.

(** The process's limiter: one per channel, made once; a send that would have to
    wait is denied and its reservation given back. *)
Lemma InProcessRateLimiter_verdicts {W} `{libs : !RateLibs W} channel (w : W) st :
  exists lim w0 w1 allowed wait st', 
    limiterFor channel (w, st) = (Ok lim, (w0, st')) /\ ip_limiters st' !! channel = Some lim /\
    (forall c, c <> channel -> ip_limiters st' !! c = ip_limiters st !! c) /\
    InProcessRateLimiter_Allow channel (w, st) = (Ok (allowed, wait, None), (w1, st')) /\
    (allowed = true -> wait = 0%Z) /\
    let '(res, w2) := xrate_Reserve lim w0 in
    if xrate_OK res w2 then
      let '(d, w3) := xrate_Delay res w2 in
      allowed = (d <=? 0)%Z /\ w1 = if allowed : bool then w3 else xrate_Cancel res w3
    else allowed = false /\ wait = Second.
Proof.
  destruct (limiterFor channel (w, st)) as [rl [w0 st']] eqn:E.
  assert (H : exists lim, rl = Ok lim /\ ip_limiters st' !! channel = Some lim /\
    (forall c, c <> channel -> ip_limiters st' !! c = ip_limiters st !! c)).
  { unfold limiterFor in E. simpl in E. destruct (ip_limiters st !! channel) as [lim|] eqn:El.
    - simplify_eq. by exists lim.
    - destruct (xrate_NewLimiter _ _ w) as [lim w2]. simplify_eq. exists lim. simpl.
      split_and!; [done|by rewrite lookup_insert_eq|]. intros c Hc. by rewrite lookup_insert_ne. }
  destruct H as (lim & -> & Hl & Ho). exists lim, w0.
  unfold InProcessRateLimiter_Allow. erewrite bind_step_ok by exact E.
  unfold on_lib, mbind, eff_bind, mret, eff_ret. simpl.
  destruct (xrate_Reserve lim w0) as [res w2]. simpl.
  destruct (xrate_OK res w2); simpl; [|by eexists _, _, _, _; split_and!].
  destruct (xrate_Delay res w2) as [d w3]. simpl. rewrite Z.gtb_ltb.
  destruct (Z.ltb_spec 0 d); eexists _, _, _, _; split_and!; try done;
    symmetry; first [apply Z.leb_gt; lia | apply Z.leb_le; lia].
Qed.

(** ** A Redis to evaluate the model on *)

Record sample_redis := mkSampleRedis {
  sr_entries : string -> list XMessage;
  sr_position : string -> nat;
  sr_unacked : string -> list string;
  sr_next : N
}.

Definition sample_new (streams : list string) (count : Z) (w : sample_redis) (s : string)
    : list XMessage :=
  if decide (s ∈ streams) then take (Z.to_nat count) (drop (sr_position w s) (sr_entries w s)) else [].

#[export] Instance sample_client : RedisClient sample_redis := {
  XGroupCreateMkStream _ _ _ w := (Ok (), w);
  XAdd stream v w := (Ok (), mkSampleRedis
    (fun s => sr_entries w s ++
       (if String.eqb s stream then [mkXMessage (FormatInt (Z.of_N (sr_next w))) v] else []))
    (sr_position w) (sr_unacked w) (sr_next w + 1));
  XReadGroup _ _ streams count _ w :=
    let res := reply_of (fun s => take (Z.to_nat count) (drop (sr_position w s) (sr_entries w s)))
                 streams in
    if decide (res = []) then (Err redis_Nil, w) else
    (Ok res, mkSampleRedis (sr_entries w)
      (fun s => sr_position w s + length (sample_new streams count w s))
      (fun s => sr_unacked w s ++ map xm_ID (sample_new streams count w s)) (sr_next w));
  XAck stream _ id w := (Ok (), mkSampleRedis (sr_entries w) (sr_position w)
    (fun s => if String.eqb s stream then List.filter (fun x => negb (String.eqb x id)) (sr_unacked w s)
              else sr_unacked w s) (sr_next w));
  XLen s w := (Ok (Z.of_nat (length (sr_entries w s))), w);
  XPendingCount s _ w := (Ok (Z.of_nat (length (sr_unacked w s))), w)
}.

#[export] Instance sample_queue_env : QueueEnv sample_redis := {
  queue_Now w := (0%Z, w);
  report_IncPoison w := w;
  report_IncDLQ _ w := w;
  marshalDLQ m := Ok (dlq_EntryID m)
}.

#[export] Instance sample_redis_laws group : RedisLaws sample_redis group.
Proof.
  refine {| entries := sr_entries; position := sr_position; unacked := sr_unacked |}; simpl.
  - intros stream v w w' [= <-]. by eexists.
  - intros consumer streams count block w res w' _ _ H. destruct (decide _); [done|].
    injection H as <- <-. simpl. unfold sample_new.
    split_and!; try done; intros s; by destruct (decide (s ∈ streams)).
  - intros consumer streams count block w e w' Hc H _. destruct (decide _) as [E|]; [|done].
    injection H as _ <-. split_and!; try done. intros s Hs.
    set (new := fun s => take (Z.to_nat count) (drop (sr_position w s) (sr_entries w s))) in E.
    assert (Hx : mkXStream s (new s) ∈ map (fun s => mkXStream s (new s)) streams)
      by (apply list_elem_of_fmap; eauto).
    pose proof (proj1 (where_nil_iff _ _) E _ Hx) as E2.
    apply negb_false_iff, bool_decide_eq_true in E2. simpl in E2.
    apply (f_equal length) in E2. unfold new in E2. rewrite length_take, length_drop in E2.
    simpl in E2. lia.
  - intros stream id w r w' [= _ <-]. split_and!; try done. intros s. simpl.
    destruct (String.eqb_spec s stream); auto.
Defined.

Definition empty_redis : sample_redis := mkSampleRedis (fun _ => []) (fun _ => 0) (fun _ => []) 1.

Definition high_sms : string := Stream "high" "sms".

(** Three publications; two are read, one of them acknowledged. *)
Definition sample_ops : list queue_op := [
  OpPublish high_sms (sample_message 1 1); OpPublish high_sms (sample_message 2 2);
  OpRead "worker" [Stream "low" "sms"; high_sms] 2 Second;
  OpPublish high_sms (sample_message 3 3); OpAck high_sms "1" ].

Lemma queue_fifo_witness :
  exists got w', run_ops (NewQueue "g") sample_ops empty_redis = (Ok got, w') /\
    received high_sms got = [sample_message 1 1; sample_message 2 2] /\
    exists unread, published high_sms sample_ops = received high_sms got ++ unread /\
      length unread = 1.
Proof.
  destruct (run_ops (NewQueue "g") sample_ops empty_redis) as [[got|e] w'] eqn:E;
    [|exfalso; vm_compute in E; discriminate].
  destruct (queue_fifo (NewQueue "g") sample_ops empty_redis got w') as [H Hp].
  - intros m p Hm. cbv [marshalMessage unmarshalMessage sample_codec] in *. injection Hm as <-.
    rewrite of_text_to_text. by destruct m.
  - repeat (constructor; [by try (split; [apply (bool_decide_unpack _); vm_compute; exact I|done])|]).
    constructor.
  - done.
  - exact E.
  - exists got, w'. split; [done|].
    assert (Hg : received high_sms got = [sample_message 1 1; sample_message 2 2]).
    { assert (Hf : received high_sms (match fst (run_ops (NewQueue "g") sample_ops empty_redis) with
        | Ok got => got | Err _ => [] end) = [sample_message 1 1; sample_message 2 2])
        by (vm_compute; reflexivity). by rewrite E in Hf. }
    split; [exact Hg|]. destruct (H high_sms) as (unread & Hu & Hl & _).
    exists unread. split; [exact Hu|]. apply (f_equal length) in Hu.
    rewrite length_app, Hg in Hu. change (length (published high_sms sample_ops)) with 3 in Hu.
    simpl in Hu. lia.
Defined.
