(* ===== verification/WorkerPool.v ===== *)
(** * The worker's read loop and pool (internal/worker: Run, readLoop)

    [Run] makes a channel of capacity [Concurrency], starts that many goroutines
    that range over it, feeds it from [readLoop] and drains. [pool_step] is one
    step of the reader, of one goroutine, or of the outside (a cancellation, what
    [queue.Read] returns); any interleaving is a sequence of steps. [process] runs
    under a context that is never cancelled; what it does to the world is [Worker].
    The traces [p_read], [p_dropped], [p_started] and [p_done] record the messages
    returned by [Read], left behind at a cancellation, received by a goroutine, and
    processed. *)

From S2P Require Import Prelude GoStrings GoFloat Domain Retry Worker.

Local Open Scope list_scope.

(** ** States *)

(** Where [readLoop] is: at the top of its loop, inside [Read], handing the rest of
    a batch to the channel, in the one-second wait after an error, or returned. *)
Inductive Reader :=
| LoopTop
| Reading
| Feeding (rest : list StreamMessage)
| Backing
| Returned.

(** A goroutine: waiting on the channel, in [process], or past its loop. *)
Inductive Goroutine :=
| Ranging
| Processing (msg : StreamMessage)
| Exited.

#[export] Instance Exited_dec g : Decision (g = Exited).
Proof. by destruct g; [right|right|left]. Defined.

Record Pool := mkPool {
  p_cancelled : bool;
  p_reader : Reader;
  p_jobs : list StreamMessage;
  p_closed : bool;
  p_workers : list Goroutine;
  p_stopped : bool;
  p_read : list StreamMessage;
  p_dropped : list StreamMessage;
  p_started : list StreamMessage;
  p_done : list StreamMessage
}.

Definition concurrency (w : Worker) : nat := Z.to_nat (cfg_Concurrency (w_cfg w)).

(** [Run] after the groups exist. *)
Definition pool_start (w : Worker) : Pool :=
  mkPool false LoopTop [] false (replicate (concurrency w) Ranging) false [] [] [] [].

(** [EnsureGroup] for every stream, before anything is read. *)
Definition ensure_groups {W} (EnsureGroup : string -> eff W error ()) (w : Worker) : eff W error () :=
  for_each EnsureGroup (w_streams w).

Definition set_reader (r : Reader) (p : Pool) : Pool :=
  mkPool (p_cancelled p) r (p_jobs p) (p_closed p) (p_workers p) (p_stopped p) (p_read p)
    (p_dropped p) (p_started p) (p_done p).

(** ** Steps *)

Section steps.
Context (w : Worker).

(** The steps of the program; [capacity] is the channel's. *)
Inductive pool_step : Pool -> Pool -> Prop :=
(* the context is cancelled, at any time *)
| step_cancel p :
    pool_step p (mkPool true (p_reader p) (p_jobs p) (p_closed p) (p_workers p) (p_stopped p)
      (p_read p) (p_dropped p) (p_started p) (p_done p))
(* if ctx.Err() != nil { return nil } *)
| step_top p :
    p_reader p = LoopTop ->
    pool_step p (set_reader (if p_cancelled p then Returned else Reading) p)
(* msgs, err := w.queue.Read(...) *)
| step_read p msgs :
    p_reader p = Reading ->
    pool_step p (mkPool (p_cancelled p) (Feeding msgs) (p_jobs p) (p_closed p) (p_workers p)
      (p_stopped p) (p_read p ++ msgs) (p_dropped p) (p_started p) (p_done p))
| step_read_error p :
    p_reader p = Reading ->
    pool_step p (set_reader (if p_cancelled p then Returned else Backing) p)
(* select { case <-ctx.Done(): return nil; case <-time.After(time.Second): } *)
| step_backed p : p_reader p = Backing -> pool_step p (set_reader LoopTop p)
| step_backing_cancelled p :
    p_reader p = Backing -> p_cancelled p = true -> pool_step p (set_reader Returned p)
(* case jobs <- msg: *)
| step_feed p msg rest :
    p_reader p = Feeding (msg :: rest) -> length (p_jobs p) < concurrency w ->
    pool_step p (mkPool (p_cancelled p) (Feeding rest) (p_jobs p ++ [msg]) (p_closed p) (p_workers p)
      (p_stopped p) (p_read p) (p_dropped p) (p_started p) (p_done p))
(* case <-ctx.Done(): return nil *)
| step_feed_cancelled p rest :
    p_reader p = Feeding rest -> rest <> [] -> p_cancelled p = true ->
    pool_step p (mkPool true Returned (p_jobs p) (p_closed p) (p_workers p) (p_stopped p)
      (p_read p) (p_dropped p ++ rest) (p_started p) (p_done p))
| step_fed p : p_reader p = Feeding [] -> pool_step p (set_reader LoopTop p)
(* close(jobs) *)
| step_close p :
    p_reader p = Returned -> p_closed p = false ->
    pool_step p (mkPool (p_cancelled p) Returned (p_jobs p) true (p_workers p) (p_stopped p)
      (p_read p) (p_dropped p) (p_started p) (p_done p))
(* for msg := range jobs *)
| step_receive p i msg rest :
    p_workers p !! i = Some Ranging -> p_jobs p = msg :: rest ->
    pool_step p (mkPool (p_cancelled p) (p_reader p) rest (p_closed p)
      (<[i := Processing msg]> (p_workers p)) (p_stopped p) (p_read p) (p_dropped p)
      (p_started p ++ [msg]) (p_done p))
(* w.process(context.WithoutCancel(ctx), msg) returns *)
| step_processed p i msg :
    p_workers p !! i = Some (Processing msg) ->
    pool_step p (mkPool (p_cancelled p) (p_reader p) (p_jobs p) (p_closed p)
      (<[i := Ranging]> (p_workers p)) (p_stopped p) (p_read p) (p_dropped p) (p_started p)
      (p_done p ++ [msg]))
(* the channel is closed and empty: defer wg.Done() *)
| step_exit p i :
    p_workers p !! i = Some Ranging -> p_jobs p = [] -> p_closed p = true ->
    pool_step p (mkPool (p_cancelled p) (p_reader p) [] true (<[i := Exited]> (p_workers p))
      (p_stopped p) (p_read p) (p_dropped p) (p_started p) (p_done p))
(* wg.Wait() *)
| step_stop p :
    p_closed p = true -> Forall (fun g => g = Exited) (p_workers p) -> p_stopped p = false ->
    pool_step p (mkPool (p_cancelled p) (p_reader p) (p_jobs p) true (p_workers p) true
      (p_read p) (p_dropped p) (p_started p) (p_done p)).

Inductive pool_reachable : Pool -> Prop :=
| pool_init : pool_reachable (pool_start w)
| pool_next p p' : pool_reachable p -> pool_step p p' -> pool_reachable p'.

(** ** Invariant *)

Definition in_hand (g : Goroutine) : list StreamMessage :=
  match g with Processing m => [m] | _ => [] end.

Definition in_process (p : Pool) : list StreamMessage := g ← p_workers p; in_hand g.

Definition to_feed (p : Pool) : list StreamMessage :=
  match p_reader p with Feeding rest => rest | _ => [] end.

Record pool_inv (p : Pool) : Prop := {
  pi_order : p_started p ++ p_jobs p ++ to_feed p ++ p_dropped p = p_read p;
  pi_started : p_started p ≡ₚ p_done p ++ in_process p;
  pi_workers : length (p_workers p) = concurrency w;
  pi_jobs : length (p_jobs p) <= concurrency w;
  pi_dropped : p_reader p = Returned \/ p_dropped p = [];
  pi_returned : p_reader p = Returned -> p_cancelled p = true;
  pi_closed : p_reader p = Returned \/ p_closed p = false;
  pi_exited : Exited ∈ p_workers p -> p_jobs p = [] /\ p_closed p = true;
  pi_stopped : p_stopped p = true -> p_closed p = true /\ Forall (fun g => g = Exited) (p_workers p)
}.

(** Replacing the state of one goroutine. *)
Lemma in_process_insert (gs : list Goroutine) i g g' :
  gs !! i = Some g ->
  in_hand g ++ (x ← <[i := g']> gs; in_hand x) ≡ₚ in_hand g' ++ (x ← gs; in_hand x).
Proof.
  revert i. induction gs as [|x gs IH]; intros i H; [done|].
  destruct i as [|i]; simpl in H.
  - injection H as ->. change (<[0:=g']> (g :: gs)) with (g' :: gs). rewrite !bind_cons.
    solve_Permutation.
  - change (<[S i:=g']> (x :: gs)) with (x :: <[i:=g']> gs). rewrite !bind_cons.
    specialize (IH i H). set (a := y ← <[i:=g']> gs; in_hand y) in *.
    set (b := y ← gs; in_hand y) in *. rewrite (Permutation_app_swap_app (in_hand g)), IH.
    solve_Permutation.
Qed.

(** A goroutine that leaves [Ranging] or [Processing] was not [Exited]. *)
Lemma exited_insert (gs : list Goroutine) i g :
  Exited ∈ <[i := g]> gs -> g <> Exited -> Exited ∈ gs.
Proof.
  intros H Hg. apply list_elem_of_lookup in H as [k Hk]. apply list_elem_of_lookup. exists k.
  destruct (decide (k = i)) as [->|]; [|by rewrite list_lookup_insert_ne in Hk].
  destruct (decide (i < length gs)) as [Hl|Hl].
  - rewrite list_lookup_insert_eq in Hk by done. congruence.
  - rewrite list_insert_ge in Hk by lia. done.
Qed.

Lemma all_exited (gs : list Goroutine) i g :
  gs !! i = Some g -> g <> Exited -> ~ Forall (fun g => g = Exited) gs.
Proof. intros H Hg Hall. rewrite Forall_lookup in Hall. by apply Hg, (Hall i). Qed.

(** The steps of the reader keep the invariant. *)
Ltac reader_step Ho He Hstop :=
  unfold to_feed in *;
  match goal with H : p_reader _ = _ |- _ => rewrite H in * end;
  split; unfold to_feed, in_process, set_reader in *; simpl in *;
  repeat match goal with H : _ \/ _ |- _ => destruct H; try discriminate end;
  repeat match goal with |- context [if ?b then _ else _] => destruct b eqn:? end;
  try match goal with H : p_dropped _ = [] |- _ => rewrite H in * end;
  rewrite ?length_app; simpl; auto; try congruence; try lia;
  try (rewrite <- Ho, ?app_nil_r, <- ?app_assoc, ?app_nil_r; reflexivity);
  try (intros Hx; destruct (He Hx); (congruence || done));
  try (intros Hx; split; [done|by apply Hstop]).

Lemma step_inv p p' : pool_step p p' -> pool_inv p -> pool_inv p'.
Proof.
  intros Hs [Ho Hst Hw Hj Hd Hr Hc He Hstop].
  destruct Hs as [p|p E|p msgs E|p E|p E|p E Ec|p msg rest E Hl|p rest E Hne Ec|p E|p E Ec
    |p i msg rest Hi E|p i msg Hi|p i Hi E Ec|p Ec Hall E].
  all: try solve [reader_step Ho He Hstop].
  - split; simpl; auto.
  - split; simpl; auto.
    + rewrite <- Ho, E. unfold to_feed. simpl. by rewrite <- app_assoc.
    + pose proof (in_process_insert _ _ _ (Processing msg) Hi) as Hp.
      unfold in_process in *. cbn [in_hand app p_workers p_done] in *. rewrite Hp, Hst. solve_Permutation.
    + by rewrite length_insert.
    + rewrite E in Hj. simpl in Hj. lia.
    + intros Hx%exited_insert; [|done]. destruct (He Hx) as [Hx1 _]. congruence.
    + intros Hx. destruct (Hstop Hx) as [_ Hall]. by apply (all_exited _ _ _ Hi) in Hall.
  - split; simpl; auto.
    + pose proof (in_process_insert _ _ _ Ranging Hi) as Hp.
      unfold in_process in *. cbn [in_hand app p_workers p_done] in *. rewrite Hst, <- Hp. solve_Permutation.
    + by rewrite length_insert.
    + intros Hx%exited_insert; auto.
    + intros Hx. destruct (Hstop Hx) as [_ Hall]. by apply (all_exited _ _ _ Hi) in Hall.
  - split; simpl; auto.
    + rewrite <- Ho, E. done.
    + pose proof (in_process_insert _ _ _ Exited Hi) as Hp.
      unfold in_process in *. cbn [in_hand app p_workers p_done] in *. by rewrite Hp.
    + by rewrite length_insert.
    + lia.
    + rewrite Ec in Hc. destruct Hc; [by left|done].
    + intros Hx. destruct (Hstop Hx) as [_ Hall]. by apply (all_exited _ _ _ Hi) in Hall.
  - split; simpl; auto.
    + rewrite Ec in Hc. destruct Hc; [by left|done].
    + intros Hx. by destruct (He Hx).
Qed.

Lemma reachable_inv p : pool_reachable p -> pool_inv p.
Proof.
  induction 1 as [|p p' _ IH Hs]; [|by eapply step_inv].
  split; simpl; auto; try done.
  - unfold in_process, pool_start. simpl. induction (concurrency w); [done|]. done.
  - apply length_replicate.
  - lia.
  - intros H. by apply elem_of_replicate in H as [H _].
Qed.

(** ** Draining *)

(** What is left to do after the cancellation, counted down by every step but the
    return of a [Read] that was under way, which can only happen once. *)
Definition reading (p : Pool) : nat := match p_reader p with Reading => 1 | _ => 0 end.

Definition reader_work (p : Pool) : nat :=
  match p_reader p with
  | Feeding rest => 4 * length rest + 3
  | Reading => 3
  | Backing => 2
  | LoopTop => 1
  | Returned => 0
  end.

Definition goroutine_work (g : Goroutine) : nat :=
  match g with Processing _ => 2 | Ranging => 1 | Exited => 0 end.

Definition work (p : Pool) : nat :=
  reader_work p + 2 * length (p_jobs p) + sum_list (map goroutine_work (p_workers p))
  + (if p_closed p then 0 else 1) + (if p_stopped p then 0 else 1).

(** A step of the program, not a second cancellation. *)
Definition moves (p p' : Pool) : Prop := pool_step p p' /\ p' <> p.

Lemma sum_insert (gs : list Goroutine) i g g' :
  gs !! i = Some g ->
  sum_list (map goroutine_work (<[i := g']> gs)) + goroutine_work g
  = sum_list (map goroutine_work gs) + goroutine_work g'.
Proof.
  revert i. induction gs as [|x gs IH]; intros i H; [done|].
  destruct i as [|i]; simpl in *; [injection H as ->; lia|]. specialize (IH i H). lia.
Qed.

(** After the cancellation every step but the return of [Read] leaves less work. *)
Lemma step_decreases p p' :
  p_cancelled p = true -> moves p p' ->
  p_cancelled p' = true /\
  (reading p' < reading p \/ (reading p' = reading p /\ work p' < work p)).
Proof.
  intros Hc [Hs Hne].
  destruct Hs as [p|p E|p msgs E|p E|p E|p E Ec|p msg rest E Hl|p rest E Hr Ec|p E|p E Ec
    |p i msg rest Hi E|p i msg Hi|p i Hi E Ec|p Ec Hall E].
  1: { destruct Hne. destruct p. simpl in *. by subst. }
  all: simpl; try (split; [done|]); unfold reading, work, reader_work; simpl;
    try (rewrite E; simpl); try (rewrite Hc; simpl); rewrite ?length_app; simpl; auto; try lia.
  - rewrite Ec. lia.
  - pose proof (sum_insert _ _ _ (Processing msg) Hi) as Hsum. simpl in Hsum. lia.
  - pose proof (sum_insert _ _ _ Ranging Hi) as Hsum. simpl in Hsum. lia.
  - pose proof (sum_insert _ _ _ Exited Hi) as Hsum. simpl in Hsum. rewrite Ec. lia.
Qed.

(** A cancelled pool that has not stopped can move, whatever the outside does,
    unless it waits for [Read] to return. *)
Lemma step_progress p :
  pool_inv p -> p_cancelled p = true -> p_stopped p = false -> exists p', moves p p'.
Proof.
  intros [Ho Hst Hw Hj Hd Hr Hc He Hstop] Hcan Hns.
  assert (Hmove : forall p', pool_step p p' -> p' <> p -> exists p', moves p p') by (unfold moves; eauto).
  destruct (p_reader p) as [| |rest| |] eqn:Er.
  - eapply Hmove; [by apply step_top|]. rewrite Hcan. intros E. rewrite <- E in Er. done.
  - eapply Hmove; [by apply step_read_error|]. rewrite Hcan. intros E. rewrite <- E in Er. done.
  - destruct rest as [|m rest].
    + eapply Hmove; [by apply step_fed|]. intros E. rewrite <- E in Er. done.
    + eapply Hmove; [by eapply step_feed_cancelled|]. intros E. rewrite <- E in Er. done.
  - eapply Hmove; [by eapply step_backing_cancelled|]. intros E. rewrite <- E in Er. done.
  - destruct (p_closed p) eqn:Ecl.
    2: { eapply Hmove; [by eapply step_close|]. intros E. rewrite <- E in Ecl. done. }
    destruct (decide (Forall (fun g => g = Exited) (p_workers p))) as [Hall|Hnot].
    { eapply Hmove; [by apply step_stop|]. intros E. rewrite <- E in Hns. done. }
    assert (Hx : exists i g, p_workers p !! i = Some g /\ g <> Exited).
    { apply not_Forall_Exists, Exists_exists in Hnot as (g & Hg & Hne); [|apply _].
      apply list_elem_of_lookup in Hg as [i Hi]. eauto. }
    destruct Hx as (i & [|msg|] & Hi & Hne); [| |done].
    + destruct (p_jobs p) as [|m jobs] eqn:Ej.
      * eapply Hmove; [by eapply step_exit|]. intros E. apply (f_equal p_workers) in E. simpl in E.
        apply (f_equal (fun l => l !! i)) in E. rewrite list_lookup_insert_eq in E by
          (by eapply lookup_lt_Some). congruence.
      * eapply Hmove; [by eapply step_receive|]. intros E. rewrite <- E in Ej. simpl in Ej.
        apply (f_equal length) in Ej. simpl in Ej. lia.
    + eapply Hmove; [by eapply step_processed|]. intros E. apply (f_equal (fun p => length (p_done p))) in E.
      simpl in E. rewrite length_app in E. simpl in E. lia.
Qed.
End steps.

Lemma cancelled_Acc w a b p :
  p_cancelled p = true -> reading p <= a -> work p <= b -> Acc (fun p' p => moves w p p') p.
Proof.
  revert b p. induction a as [|a IHa]; intros b p; revert p;
    induction b as [|b IHb]; intros p Hc Ha Hb; constructor; intros p' Hm;
    destruct (step_decreases w p p' Hc Hm) as [Hc' [Hr|[Hr Hw]]]; try lia.
  - apply IHb; [done|lia|lia].
  - apply (IHa (work p')); [done|lia|lia].
  - apply (IHa (work p')); [done|lia|lia].
  - apply IHb; [done|lia|lia].
Qed.

Lemma concurrency_pos cfg policy dlq : 1 <= concurrency (newWorker cfg policy dlq).
Proof. unfold concurrency, newWorker, positive_or. simpl. destruct (Z.leb_spec (cfg_Concurrency cfg) 0); lia. Qed.

Lemma stopped_empty cfg policy dlq p :
  pool_inv (newWorker cfg policy dlq) p -> p_stopped p = true ->
  p_jobs p = [] /\ to_feed p = [] /\ in_process p = [] /\ p_closed p = true /\ p_reader p = Returned.
Proof.
  intros [_ _ Hw _ _ _ Hc He Hstop] Hs. destruct (Hstop Hs) as [Hcl Hall].
  assert (Hr : p_reader p = Returned) by (destruct Hc; [done|congruence]).
  pose proof (concurrency_pos cfg policy dlq) as Hpos. rewrite <- Hw in Hpos.
  split_and!; [| | |done|done].
  - destruct (p_workers p) as [|g gs]; [simpl in Hpos; lia|].
    apply Forall_cons in Hall as [-> _]. apply He. left.
  - unfold to_feed. by rewrite Hr.
  - unfold in_process. clear -Hall. induction Hall as [|g gs -> _ IH]; [done|]. by rewrite bind_cons, IH.
Qed.

(** ** Properties *)

(** C11: the pool processes every message it reads exactly once, in the order read:
    in every reachable state, under any interleaving of the reader, the goroutines
    and a cancellation, the messages received by goroutines, waiting in the
    channel, still to be fed and left behind are, in this order, the messages read;
    those received are the processed ones and the ones in process; at most
    [Concurrency] are in process and at most [Concurrency] wait. Messages are left
    behind only by a cancellation, and they are the tail of what was read (they
    stay pending in Redis). When [Run] returns, everything read has been processed
    or left behind. *)
Theorem pool_accounts cfg policy dlq p :
  let w := newWorker cfg policy dlq in
  pool_reachable w p ->
  p_started p ++ p_jobs p ++ to_feed p ++ p_dropped p = p_read p /\
  p_started p ≡ₚ p_done p ++ in_process p /\
  length (in_process p) <= concurrency w /\ length (p_jobs p) <= concurrency w /\
  (p_cancelled p = false -> p_dropped p = [] /\ p_stopped p = false) /\
  (p_stopped p = true -> p_done p ++ p_dropped p ≡ₚ p_read p).
Proof.
  intros w Hp. apply reachable_inv in Hp. pose proof Hp as [Ho Hst Hw Hj Hd Hr Hc He Hstop].
  assert (Hlen : length (in_process p) <= length (p_workers p)).
  { unfold in_process. clear. induction (p_workers p) as [|g gs IH]; [done|].
    rewrite bind_cons, length_app. destruct g; simpl; lia. }
  split_and!; [done|done|lia|done| |].
  - intros Hn. assert (Hnr : p_reader p <> Returned) by (intros E; apply Hr in E; congruence).
    split; [by destruct Hd|]. apply not_true_iff_false. intros Hs.
    by destruct (stopped_empty _ _ _ _ Hp Hs) as (_ & _ & _ & _ & ?).
  - intros Hs. destruct (stopped_empty _ _ _ _ Hp Hs) as (E1 & E2 & E3 & _).
    rewrite E1, E2 in Ho. rewrite E3, app_nil_r in Hst. simpl in Ho. by rewrite <- Ho, Hst.
Qed.

(** C19: the drain terminates: once the context is cancelled, there is no infinite
    run of the reader and the goroutines (each [process] and the [Read] under way
    returning), and the run can only end with [Run] returned: no deadlock between
    the channel, the goroutines and the closing reader. *)
Theorem pool_drains cfg policy dlq p :
  let w := newWorker cfg policy dlq in
  pool_reachable w p -> p_cancelled p = true ->
  Acc (fun p' p => moves w p p') p /\
  (p_stopped p = true <-> forall p', ~ moves w p p').
Proof.
  intros w Hp Hc. split; [by eapply cancelled_Acc|]. apply reachable_inv in Hp. split.
  - intros Hs p' [Hm Hne]. destruct (stopped_empty _ _ _ _ Hp Hs) as (E1 & _ & E3 & Ecl & Er).
    destruct (pi_stopped _ _ Hp Hs) as [_ Hall].
    destruct Hm; try congruence.
    + apply Hne. destruct p. simpl in *. by subst.
    + by apply (all_exited _ _ _ H) in Hall.
    + by apply (all_exited _ _ _ H) in Hall.
  - intros Hno. apply not_false_iff_true. intros Hs.
    destruct (step_progress w p Hp Hc Hs) as [p' Hm]. by apply (Hno p').
Qed.

(** ** Witnesses *)

Definition pool_config : Config :=
  mkConfig [PriorityHigh] [ChannelSMS] 1 "c" 10 Minute Second Second Second.

Definition pool_message (n : N) : StreamMessage :=
  mkStreamMessage "s" "1-1" (mkDeliveryMessage n 0 n ChannelSMS PriorityHigh "").

Abbreviation pool_worker := (newWorker pool_config sample_policy false).

(** Three messages read; the first in process, the second waiting, the context
    cancelled and the third left behind. *)
Definition pool_sample : Pool :=
  mkPool true Returned [pool_message 2] false [Processing (pool_message 1)] false
    [pool_message 1; pool_message 2; pool_message 3] [pool_message 3] [pool_message 1] [].

Lemma pool_sample_reachable : pool_reachable pool_worker pool_sample.
Proof.
  assert (H := pool_init pool_worker).
  eapply pool_next in H; [|by apply step_top].
  eapply pool_next in H;
    [|by apply (step_read _ _ [pool_message 1; pool_message 2; pool_message 3])].
  eapply pool_next in H; [|eapply step_feed; [reflexivity|vm_compute; lia]].
  eapply pool_next in H; [|by apply (step_receive _ _ 0 (pool_message 1) [])].
  eapply pool_next in H; [|eapply step_feed; [reflexivity|vm_compute; lia]].
  eapply pool_next in H; [|apply step_cancel].
  eapply pool_next in H; [|by eapply step_feed_cancelled].
  exact H.
Qed.

Lemma pool_accounts_witness :
  pool_reachable pool_worker pool_sample /\
  p_started pool_sample ≡ₚ p_done pool_sample ++ in_process pool_sample.
Proof.
  split; [exact pool_sample_reachable|].
  apply (pool_accounts pool_config sample_policy false pool_sample pool_sample_reachable).
Defined.

Lemma pool_drains_witness : Acc (fun p' p => moves pool_worker p p') pool_sample.
Proof.
  apply (pool_drains pool_config sample_policy false pool_sample pool_sample_reachable eq_refl).
Defined.
