(* ===== verification/Bootstrap.v ===== *)
(** * Wiring (internal/bootstrap, cmd/api, cmd/worker, cmd/scheduler, cmd/gentoken)

    How the binaries turn a configuration into the components of the other files,
    the checks they make before they start, and the health endpoints of the worker
    and the scheduler. *)

From Stdlib Require Import Ascii.
From S2P Require Import Prelude GoStrings GoFloat Domain AppConfig Retry Worker WorkerTime Auth Provider Queue Scheduler SchedulerRun.

Local Open Scope string_scope.
Local Open Scope list_scope.

(** ** Components from settings (bootstrap.go) *)

(** [postgres.Config]: the two data sources and the pool size. *)
Definition Postgres (c : AppConfig) : string * string * Z :=
  (pg_DSN (ac_Postgres c), ReplicaOrPrimary (ac_Postgres c), pg_MaxConns (ac_Postgres c)).

Definition Bootstrap_Queue (c : AppConfig) : Queue := NewQueue (wc_GroupName (ac_Worker c)).

Definition QueueWithDLQ (c : AppConfig) : Queue := WithDLQ (NewQueue (wc_GroupName (ac_Worker c))).

Definition RateLimiter (c : AppConfig) : InProcessRateLimiter + RedisRateLimiter :=
  let r := ac_RateLimiter c in
  if String.eqb (lc_Kind r) "inproc" then
    inl (NewInProcessRateLimiter (lc_PerSecond r) (lc_Burst r))
  else inr (NewRedisRateLimiter (lc_PerSecond r) (lc_Burst r) (lc_FailOpen r)).

Definition RetryPolicy (c : AppConfig) : Policy :=
  let r := ac_Retry c in NewPolicy (rc_MaxAttempts r) (rc_Backoff r) (rc_JitterRatio r).

Definition Bootstrap_Provider (c : AppConfig) : WebhookClient * BreakerConfig :=
  let b := ac_Breaker c in
  (NewWebhookClient (pc_WebhookURL (ac_Provider c)) (pc_Timeout (ac_Provider c)),
   mkBreakerConfig (bs_FailureRateThreshold b) (bs_MinRequests b) (bs_Window b)
     (bs_OpenTimeout b) (bs_HalfOpenMax b)).

(** The states of the breaker library, as the gauge shows them. *)
Inductive BreakerState := StateClosed | StateHalfOpen | StateOpen.

Definition circuitStateValue (state : BreakerState) : float64 :=
  match state with
  | StateHalfOpen => f64_of_int 1
  | StateOpen => f64_of_int 2
  | StateClosed => f64_of_int 0
  end.

(** ** The health endpoints of the background binaries (bootstrap.go) *)

Section health.
Context {W : Type} (marshalChecks : gmap string string -> string).

(** The checks in the order the map is ranged over. *)
Abbreviation Readiness := (list (string * eff W error ())).

Fixpoint run_checks (checks : Readiness) (results : gmap string string) (ok : bool)
    : eff W error (gmap string string * bool) :=
  match checks with
  | [] => mret (results, ok)
  | (name, check) :: checks =>
      r ← attempt check;
      match r with
      | Err err => run_checks checks (<[name := "down: " +:+ Error err]> results) false
      | Ok _ => run_checks checks (<[name := "ok"]> results) ok
      end
  end.

Definition boolJSON (v : bool) : string := if v then "true" else "false".

Definition quoted (s : string) : string :=
  let dq := string_of [ascii_of_N 34] in dq +:+ s +:+ dq.

Definition ready_body (ok : bool) (checks : string) : string :=
  "{" +:+ quoted "ready" +:+ ":" +:+ boolJSON ok +:+ "," +:+ quoted "checks" +:+ ":"
    +:+ checks +:+ "}".

Definition handleReady (checks : Readiness) : eff W error (Z * string) :=
  res ← run_checks checks ∅ true;
  let '(results, ok) := res in
  mret (if negb ok then 503%Z else 200%Z,
        ready_body ok (marshalChecks results)).

(** The mux of [MetricsServer]; without checks [/readyz] is not served. *)
Definition metrics_mux (metrics : eff W error (Z * string)) (checks : Readiness)
    (method path : string) : option (eff W error (Z * string)) :=
  if negb (String.eqb method "GET" || String.eqb method "HEAD") then None
  else if String.eqb path "/metrics" then Some metrics
  else if String.eqb path "/healthz" then Some (mret (200%Z, "{" +:+ quoted "status" +:+ ":" +:+ quoted "ok" +:+ "}"))
  else if String.eqb path "/readyz" && (0 <? Z.of_nat (length checks))%Z
  then Some (handleReady checks)
  else None.
End health.

(** [METRICS_ADDR], read when the server is built. *)
Definition metrics_addr (LookupEnv : string -> option string) : string :=
  match LookupEnv "METRICS_ADDR" with
  | Some a => if String.eqb a "" then ":9090" else a
  | None => ":9090"
  end.

(** ** The mains *)

Section mains.
Context (LookupEnv : string -> option string) (Hostname : result error string).

(** cmd/api checks the secret before it connects to anything. *)
Definition api_settings : result error AppConfig :=
  let? cfg := Load LookupEnv Hostname in
  let? _ := ValidateSecret (au_JWTSecret (ac_Auth cfg)) in
  Ok cfg.

(** The worker of cmd/worker. *)
Definition worker_main : result error Worker :=
  let? cfg := Load LookupEnv Hostname in
  Ok (newWorker (worker_config cfg) (RetryPolicy cfg) true).

(** The scheduler of cmd/scheduler. *)
Definition scheduler_main : result error SchedConfig :=
  let? cfg := Load LookupEnv Hostname in
  Ok (Scheduler.New (scheduler_config cfg)).

(** [os.Getenv] *)
Definition Getenv (key : string) : string := default "" (LookupEnv key).

(** cmd/gentoken: the token on standard output, or the exit code. *)
Definition gentoken `{jwt : !Jwt} (now : time) (args : list string) : string + Z :=
  match args with
  | [_; user] =>
      let secret := Getenv "JWT_SECRET" in
      match ValidateSecret secret with
      | Err _ => inr 1%Z
      | Ok _ => match SignToken now secret user DemoTokenTTL with
                | Err _ => inr 1%Z
                | Ok token => inl token
                end
      end
  | _ => inr 2%Z
  end.
End mains.

(** ** Lemmas *)

Section health_lemmas.
Context {W : Type} (marshalChecks : gmap string string -> string).
Implicit Types (checks : list (string * eff W error ())).

(** What the checks answer, one after the other. *)
Fixpoint answers checks (w : W) : list (string * result error ()) :=
  match checks with
  | [] => []
  | (name, check) :: checks => let '(r, w') := check w in (name, r) :: answers checks w'
  end.

Definition report (results : gmap string string) (a : string * result error ()) :
    gmap string string :=
  <[a.1 := match a.2 with Ok _ => "ok" | Err err => "down: " +:+ Error err end]> results.

Lemma run_checks_spec checks results ok w : exists w',
  run_checks checks results ok w =
  (Ok (foldl report results (answers checks w), ok && forallb (fun a => is_ok a.2) (answers checks w)), w').
Proof.
  revert results ok w. induction checks as [|[name check] checks IH]; intros results ok w.
  { exists w. simpl. by rewrite andb_true_r. }
  cbn [run_checks answers]. destruct (check w) as [r w1] eqn:E.
  rewrite (attempt_bind _ _ _ _ _ E). destruct r as [[]|err]; simpl.
  - apply IH.
  - rewrite andb_false_r. apply (IH _ false).
Qed.

(** The endpoint is ready exactly when every check answers without an error; each
    is asked once and its answer reported under its name. *)
Lemma handleReady_spec checks w : exists w',
  let ok := forallb (fun a => is_ok a.2) (answers checks w) in
  handleReady marshalChecks checks w =
    (Ok (if ok then 200%Z else 503%Z,
         ready_body ok (marshalChecks (foldl report ∅ (answers checks w)))), w').
Proof.
  destruct (run_checks_spec checks ∅ true w) as [w' E]. exists w'. unfold handleReady.
  rewrite (bind_step_ok _ _ _ _ _ E). simpl. by destruct (forallb _ _).
Qed.
End health_lemmas.

(** ** Properties *)

Lemma Getenv_setting env key : getString env key "" = Getenv env key.
Proof.
  unfold getString, setting, Getenv. destruct (env key) as [v|]; [|done].
  by destruct (String.eqb_spec v "") as [->|].
Qed.

Lemma streams_of_config c policy s :
  s ∈ w_streams (newWorker (worker_config c) policy true) <->
  exists p ch, p ∈ wc_Priorities (ac_Worker c) /\ ch ∈ AllChannels /\ s = Stream p ch.
Proof.
  cbn [newWorker w_streams worker_config cfg_Priorities cfg_Channels].
  rewrite list_elem_of_bind. split.
  - intros (p & (ch & Hs & Hch)%list_elem_of_bind & Hp). apply list_elem_of_singleton in Hs. eauto.
  - intros (p & ch & Hp & Hch & ->). exists p. split; [|done]. apply list_elem_of_bind.
    exists ch. by split; [apply list_elem_of_singleton|].
Qed.

Lemma positive_or_pos n d : (0 < d)%Z -> (0 < positive_or n d)%Z.
Proof. unfold positive_or. destruct (Z.leb_spec n 0); lia. Qed.

(** The first of January 1970 and an hour later, under one secret. *)
Definition sample_environ (key : string) : option string :=
  if String.eqb key "JWT_SECRET" then Some sample_secret
  else if String.eqb key "WORKER_PRIORITIES" then Some "High, urgent" else None.

(** C27: what the binaries are started with. The API starts only with a sound
    configuration and a secret of at least 32 bytes, and a token that gentoken
    prints under the same environment authenticates its user there for as long as
    the token lasts. A worker reads at least one stream, and exactly those of its
    valid priorities and all channels; its pool, batches and waits are positive,
    its lease is longer than the provider's timeout; and any delivery that keeps
    failing is FAILED after at most [MAX_ATTEMPTS] sends. *)
Theorem deployment `{jwt : !Jwt} `{laws : !JwtLaws jwt} env host :
  (forall cfg, api_settings env host = Ok cfg ->
     config_ok cfg /\ (minSecretLen <= len (au_JWTSecret (ac_Auth cfg)))%Z /\
     forall now later user tok t, gentoken env now ["gentoken"; user] = inl tok ->
       utf8_valid (bytes_of (TrimSpace user)) = true ->
       (later < jwt_NewNumericDate (now + DemoTokenTTL))%Z -> TrimSpace t = tok ->
       ParseToken later (au_JWTSecret (ac_Auth cfg)) t = Ok (TrimSpace user)) /\
  (forall w, worker_main env host = Ok w ->
     exists cfg, Load env host = Ok cfg /\ w_streams w <> [] /\
       (forall s, s ∈ w_streams w <-> exists p ch,
          p ∈ wc_Priorities (ac_Worker cfg) /\ ch ∈ AllChannels /\ s = Stream p ch) /\
       (forall p, p ∈ wc_Priorities (ac_Worker cfg) -> Priority_Valid p = true) /\
       (0 < cfg_Concurrency (w_cfg w) /\ 0 < cfg_BatchSize (w_cfg w) /\
        0 < cfg_RateWaitMax (w_cfg w) /\ 0 < cfg_RateWaitStep (w_cfg w) /\
        pc_Timeout (ac_Provider cfg) < cfg_LeaseTTL (w_cfg w))%Z /\
       ((MaxAttempts (w_policy w) < 2 ^ 31)%Z -> forall overflow failures,
          (Z.to_nat (MaxAttempts (w_policy w)) <= length failures)%nat ->
          exists k, (1 <= k <= MaxAttempts (w_policy w))%Z /\
            retry_run overflow (w_policy w) failures 0 = Some (seqZ 1 k, DeliveryFailed))).
Proof.
  pose proof (Load_verdict env host) as Hv. unfold api_settings, worker_main.
  destruct (Load env host) as [cfg|e] eqn:E; [|done]. destruct Hv as [Ec Hok].
  split.
  - destruct (ValidateSecret (au_JWTSecret (ac_Auth cfg))) as [[]|] eqn:Hs; [|done].
    intros ? [= <-]. split; [done|]. split; [by apply ValidateSecret_ok|].
    intros now later user tok t. unfold gentoken.
    rewrite <- Getenv_setting. subst cfg. change (au_JWTSecret _) with (getString env "JWT_SECRET" "") in *.
    rewrite Hs. destruct (SignToken _ _ _ _) eqn:Et; [|done]. intros [= ->] ???.
    by eapply ParseToken_signed.
  - intros w [= <-]. exists cfg. destruct Hok as (Hlease & [Hne Hval] & [Ha _] & _).
    split; [done|]. split; [|split; [intros s; apply streams_of_config|split]].
    + destruct (wc_Priorities (ac_Worker cfg)) as [|p ps] eqn:Ep; [done|].
      intros Hnil. assert (Hin : Stream p ChannelSMS ∈ w_streams (newWorker (worker_config cfg) (RetryPolicy cfg) true)).
      { apply streams_of_config. exists p, ChannelSMS. rewrite Ep. split_and!; [set_solver|set_solver|done]. }
      rewrite Hnil in Hin. by apply not_elem_of_nil in Hin.
    + intros p [i Hi]%list_elem_of_lookup. exact (Forall_lookup_1 _ _ _ _ Hval Hi).
    + split; [split_and!; try (apply positive_or_pos; by vm_compute); exact Hlease|].
      intros Hmax overflow failures Hlen.
      destruct (retry_run_bound overflow (RetryPolicy cfg) failures 0) as (k & Hk & Hrun);
        [split; lia|simpl; lia|done|by rewrite Z.sub_0_r|].
      exists k. split; [simpl in *; lia|done].
Qed.

Definition sample_host : result error string := Ok "host-1".

Definition sample_demo_token : string :=
  sample_sign (mkClaims "alice" "alice" 0 DemoTokenTTL) sample_secret.

Lemma deployment_witness :
  ParseToken Hour sample_secret sample_demo_token = Ok "alice" /\
  exists w, worker_main sample_environ sample_host = Ok w /\
    forall s, s ∈ w_streams w <-> exists p ch, p ∈ ["high"] /\ ch ∈ AllChannels /\ s = Stream p ch.
Proof.
  destruct (deployment sample_environ sample_host) as [H1 H2]. split.
  - destruct (H1 (read_config sample_environ sample_host)) as (_ & _ & H); [vm_compute; reflexivity|].
    apply (H 0%Z Hour " alice " sample_demo_token sample_demo_token);
      [vm_compute; reflexivity|reflexivity|reflexivity|by apply TrimSpace_solid].
  - eexists. split; [reflexivity|].
    destruct (H2 _ eq_refl) as (cfg & Hcfg & _ & Hs & _).
    assert (E : wc_Priorities (ac_Worker cfg) = ["high"]).
    { assert (Hc : cfg = read_config sample_environ sample_host) by (vm_compute in Hcfg; injection Hcfg as <-; vm_compute; reflexivity).
      rewrite Hc. vm_compute. reflexivity. }
    rewrite E in Hs. exact Hs.
Defined.
