(* ===== verification/Process.v ===== *)
(** * The processes (cmd/api, cmd/worker, cmd/scheduler)

    What each binary acquires when it starts, runs under, and releases when it
    ends, on every path: [run] of the three mains with [postgres.New],
    [redis.NewClient] and [tracing.Init]. The operating system and the client
    libraries are the interface [Sys]; [Traced] is the instance that records what is
    opened and closed and lets any call fail. *)

From S2P Require Import Prelude GoStrings Domain AppConfig Retry Worker WorkerTime Auth Scheduler SchedulerRun Bootstrap.

Local Open Scope string_scope.
Local Open Scope list_scope.

(** What a process runs once everything is connected. *)
Inductive Component :=
| ApiServer (secret addr : string)
| WorkerPool (w : Worker)
| SchedulerLoops (c : SchedConfig).

(** Handles are numbers. [sys_NewPool] parses the DSN and makes the pool, with the
    default size or the one given; [sys_Listen] starts [ListenAndServe] in a
    goroutine; [sys_Wait] is the API's [select] between its error and the signal;
    [sys_Run] is [Run] of the worker or of the scheduler. *)
Class Sys (W : Type) := {
  sys_NotifyContext : W -> W;
  sys_StopSignals : W -> W;
  sys_NewExporter : string -> eff W error nat;
  sys_MergeResource : string -> eff W error ();
  sys_NewTracerProvider : nat -> W -> nat * W;
  sys_TracerShutdown : nat -> W -> W;
  sys_NewPool : string -> option Z -> eff W error nat;
  sys_PingPool : nat -> eff W error ();
  sys_ClosePool : nat -> W -> W;
  sys_NewRedis : string -> string -> Z -> W -> nat * W;
  sys_PingRedis : nat -> eff W error ();
  sys_CloseRedis : nat -> W -> W;
  sys_Listen : string -> W -> nat * W;
  sys_Wait : nat -> Component -> eff W error ();
  sys_Run : Component -> eff W error ();
  sys_Shutdown : nat -> duration -> eff W error ()
}.

Section processes.
Context {W : Type} `{sys : !Sys W}.
Context (LookupEnv : string -> option string) (Hostname : result error string).

Definition act (f : W -> W) : eff W error () := fun w => (Ok (), f w).
Definition make (f : W -> nat * W) : eff W error nat := fun w => let '(x, w') := f w in (Ok x, w').

(** [defer f()] before the rest of the function, however it returns. *)
Definition defer {A} (f : W -> W) (rest : eff W error A) : eff W error A := fun w =>
  let '(r, w') := rest w in (r, f w').

(** ** The store's pools (adapters/postgres/store.go) *)

Definition newPool (dsn : string) (maxConns : Z) : eff W error nat :=
  pool ← sys_NewPool dsn (if (0 <? maxConns)%Z then Some maxConns else None);
  r ← attempt (sys_PingPool pool);
  match r with
  | Err err => act (sys_ClosePool pool) ≫= fun _ => raise err
  | Ok _ => mret pool
  end.

(** The primary, and the reader unless it is the primary's own pointer. *)
Record Pools := mkPools { ps_primary : nat; ps_reader : option nat }.

Definition store_New (primaryDSN readerDSN : string) (maxConns : Z) : eff W error Pools :=
  r ← attempt (newPool primaryDSN maxConns);
  match r with
  | Err err => raise (Errorf "connect primary" err)
  | Ok primary =>
      if negb (String.eqb readerDSN "") && negb (String.eqb readerDSN primaryDSN) then
        r ← attempt (newPool readerDSN maxConns);
        match r with
        | Err err => act (sys_ClosePool primary) ≫= fun _ => raise (Errorf "connect reader" err)
        | Ok reader => mret (mkPools primary (Some reader))
        end
      else mret (mkPools primary None)
  end.

Definition store_Close (s : Pools) (w : W) : W :=
  sys_ClosePool (ps_primary s)
    (match ps_reader s with Some reader => sys_ClosePool reader w | None => w end).

(** ** The Redis client (adapters/redis/client.go) *)

Definition NewClient (addr password : string) (db : Z) : eff W error nat :=
  client ← make (sys_NewRedis addr password db);
  r ← attempt (sys_PingRedis client);
  match r with
  | Err err => act (sys_CloseRedis client) ≫= fun _ => raise err
  | Ok _ => mret client
  end.

(** ** Health checks *)

(** [Store.Ping] and [RedisHealth.Ping] *)
Definition Store_Ping (s : Pools) : eff W error () := sys_PingPool (ps_primary s).
Definition RedisHealth_Ping (client : nat) : eff W error () := sys_PingRedis client.

(** The [Readiness] map of the mains. *)
Definition readiness (s : Pools) (client : nat) : list (string * eff W error ()) :=
  [("postgres", Store_Ping s); ("redis", RedisHealth_Ping client)].

(** ** Tracing (platform/tracing/tracing.go) *)

(** The provider to shut down, or none when tracing is off. *)
Definition tracing_Init (cfg : TracingConfig) : eff W error (option nat) :=
  if negb (tr_Enabled cfg) then mret None else
  let name := if String.eqb (tr_ServiceName cfg) "" then "notification-system"
              else tr_ServiceName cfg in
  r ← attempt (sys_NewExporter (tr_Endpoint cfg));
  match r with
  | Err err => raise (Errorf "tracing: create exporter" err)
  | Ok exporter =>
      r ← attempt (sys_MergeResource name);
      match r with
      | Err err => raise (Errorf "tracing: create resource" err)
      | Ok _ => tp ← make (sys_NewTracerProvider exporter); mret (Some tp)
      end
  end.

Definition traceShutdown (tp : option nat) (w : W) : W :=
  match tp with Some tp => sys_TracerShutdown tp w | None => w end.

(** ** run of the three mains *)

(** [if cfg.Tracing.ServiceName == "" { ... = name }] *)
Definition tracing_for (name : string) (t : TracingConfig) : TracingConfig :=
  mkTracingConfig (tr_Enabled t) (tr_Endpoint t)
    (if String.eqb (tr_ServiceName t) "" then name else tr_ServiceName t).

(** [bootstrap.Redis] *)
Definition Redis (cfg : AppConfig) : eff W error nat :=
  let rd := ac_Redis cfg in NewClient (rd_Addr rd) (rd_Password rd) (rd_DB rd).

(** Signals, tracing, the store and Redis, released in the reverse order after
    [body], or by the failure of a later one. *)
Definition connected (name : string) (cfg : AppConfig) (body : eff W error ()) : eff W error () :=
  act sys_NotifyContext ≫= fun _ =>
  defer sys_StopSignals (
  tp ← tracing_Init (tracing_for name (ac_Tracing cfg));
  defer (traceShutdown tp) (
  let '(dsn, reader, conns) := Postgres cfg in
  store ← store_New dsn reader conns;
  defer (store_Close store) (
  client ← Redis cfg;
  defer (sys_CloseRedis client) body))).

Definition api_component (cfg : AppConfig) : Component :=
  ApiServer (au_JWTSecret (ac_Auth cfg)) (ac_HTTPAddr cfg).

Definition api_run : eff W error () :=
  cfg ← of_result (api_settings LookupEnv Hostname);
  connected "api" cfg (
    srv ← make (sys_Listen (ac_HTTPAddr cfg));
    sys_Wait srv (api_component cfg) ≫= fun _ =>
    sys_Shutdown srv (ac_ShutdownTimeout cfg)).

(** The two background binaries: their metrics server listens beside [Run], and its
    own errors are only logged. *)
Definition background_run (name : string) (component : AppConfig -> Component) : eff W error () :=
  cfg ← of_result (Load LookupEnv Hostname);
  connected name cfg (
    srv ← make (sys_Listen (metrics_addr LookupEnv));
    err ← attempt (sys_Run (component cfg));
    attempt (sys_Shutdown srv (ac_ShutdownTimeout cfg)) ≫= fun _ =>
    of_result err).

Definition worker_component (cfg : AppConfig) : Component :=
  WorkerPool (newWorker (worker_config cfg) (RetryPolicy cfg) true).
Definition scheduler_component (cfg : AppConfig) : Component :=
  SchedulerLoops (Scheduler.New (scheduler_config cfg)).

Definition worker_run : eff W error () := background_run "worker" worker_component.
Definition scheduler_run_main : eff W error () := background_run "scheduler" scheduler_component.

(** [main]: the exit code. *)
Definition exit_code (run : eff W error ()) (w : W) : Z * W :=
  let '(r, w') := run w in (match r with Ok _ => 0%Z | Err _ => 1%Z end, w').
End processes.

(** ** A recording system

    [fails n] is the outcome of the [n]-th call that can fail. *)

Inductive Resource :=
| RSignals
| RExporter (h : nat)
| RTracer (h : nat)
| RPool (h : nat)
| RRedis (h : nat)
| RServer (h : nat).

#[export] Instance Resource_eq_dec : EqDecision Resource.
Proof. solve_decision. Defined.

(** [EvAdopt r r']: [r'] is opened and owns [r] from then on, which it releases with
    itself: the tracer provider its exporter. *)
Inductive sys_event :=
| EvOpen (r : Resource)
| EvAdopt (r r' : Resource)
| EvClose (r : Resource)
| EvPing (r : Resource)
| EvRun (c : Component).

Record Traced := mkTraced { tc_asked : nat; tc_log : list sys_event }.

Definition note (e : sys_event) (s : Traced) : Traced :=
  mkTraced (tc_asked s) (tc_log s ++ [e]).

Section traced.
Context (fails : nat -> option error).

(** The next outcome. *)
Definition ask : eff Traced error () := fun s =>
  (match fails (tc_asked s) with Some e => Err e | None => Ok () end,
   mkTraced (S (tc_asked s)) (tc_log s)).

(** A fresh handle on an opened resource. *)
Definition open (r : nat -> Resource) (s : Traced) : nat * Traced :=
  let h := length (tc_log s) in (h, note (EvOpen (r h)) s).

Definition adopt (r : Resource) (r' : nat -> Resource) (s : Traced) : nat * Traced :=
  let h := length (tc_log s) in (h, note (EvAdopt r (r' h)) s).

#[export] Instance traced_sys : Sys Traced := {
  sys_NotifyContext := note (EvOpen RSignals);
  sys_StopSignals := note (EvClose RSignals);
  sys_NewExporter _ := ask ≫= fun _ => make (open RExporter);
  sys_MergeResource _ := ask;
  sys_NewTracerProvider exporter := adopt (RExporter exporter) RTracer;
  sys_TracerShutdown h := note (EvClose (RTracer h));
  sys_NewPool _ _ := ask ≫= fun _ => make (open RPool);
  sys_PingPool h := act (note (EvPing (RPool h))) ≫= fun _ => ask;
  sys_ClosePool h := note (EvClose (RPool h));
  sys_NewRedis _ _ _ := open RRedis;
  sys_PingRedis h := act (note (EvPing (RRedis h))) ≫= fun _ => ask;
  sys_CloseRedis h := note (EvClose (RRedis h));
  sys_Listen _ := open RServer;
  sys_Wait _ c := act (note (EvRun c)) ≫= fun _ => ask;
  sys_Run c := act (note (EvRun c)) ≫= fun _ => ask;
  sys_Shutdown h _ := act (note (EvClose (RServer h))) ≫= fun _ => ask
}.
End traced.

(** Releasing [r] out of those held: those opened after it, and those before it. *)
Fixpoint unwind (r : Resource) (held : list Resource) : option (list Resource * list Resource) :=
  match held with
  | [] => None
  | r' :: held =>
      if decide (r = r') then Some ([], held)
      else match unwind r held with Some (above, below) => Some (r' :: above, below) | None => None end
  end.

(** The resources held after a log, the last opened first, and those passed over:
    still held when one opened before them was released. [None] if the log releases
    what is not held, or again what was passed over. *)
Fixpoint nest (log : list sys_event) (held lost : list Resource)
    : option (list Resource * list Resource) :=
  match log with
  | [] => Some (held, lost)
  | EvOpen r :: log => nest log (r :: held) lost
  | EvAdopt r r' :: log =>
      match held with
      | r0 :: held => if decide (r = r0) then nest log (r' :: held) lost else None
      | [] => None
      end
  | EvClose r :: log =>
      match unwind r held with
      | Some (above, below) => nest log below (above ++ lost)
      | None => None
      end
  | _ :: log => nest log held lost
  end.

Lemma nest_app l1 l2 held lost held' lost' :
  nest l1 held lost = Some (held', lost') -> nest (l1 ++ l2) held lost = nest l2 held' lost'.
Proof.
  revert held lost. induction l1 as [|[r|r r'|r|r|c] l1 IH]; intros held lost H; simpl in *;
    simplify_eq; try done; auto.
  - destruct held as [|r0 held]; [done|]. case_decide; [by apply IH|done].
  - destruct (unwind r held) as [[above below]|]; [by apply IH|done].
Qed.

Definition unreleased (log : list sys_event) : option (list Resource) :=
  match nest log [] [] with Some (held, lost) => Some (held ++ lost) | None => None end.

(** What a failed start or a failed server may leave behind. *)
Definition stray (r : Resource) : bool :=
  match r with RExporter _ | RServer _ => true | _ => false end.

Lemma unwind_stray r kept held :
  stray r = false -> Forall (fun x => stray x = true) kept ->
  unwind r (kept ++ r :: held) = Some (kept, held).
Proof.
  intros Hr. induction 1 as [|x kept Hx _ IH]; simpl; [by rewrite decide_True|].
  rewrite decide_False by (intros ->; congruence). by rewrite IH.
Qed.

Section traces.
Context (fails : nat -> option error) (runs_ok : Component -> Prop).
#[local] Existing Instance traced_sys.
#[local] Instance sys_here : Sys Traced := traced_sys fails.

Definition allowed (e : sys_event) : Prop := match e with EvRun c => runs_ok c | _ => True end.

(** [m] adds a log that runs only what may run; from the resources [held] it
    leaves [f x] when it returns [x], and none of its own when it fails. *)
Definition leaves {A} (m : eff Traced error A) (pre : list Resource) (f : A -> list Resource) : Prop :=
  forall s r s', m s = (r, s') -> exists new,
    tc_log s' = tc_log s ++ new /\ Forall allowed new /\
    forall held lost, nest new (pre ++ held) lost =
      Some (match r with Ok x => f x | Err _ => [] end ++ held, lost).

Lemma leaves_ret {A} (x : A) f : leaves (mret x) (f x) f.
Proof. intros s r s' [= <- <-]. exists []. rewrite app_nil_r. by split_and!. Qed.

Lemma leaves_raise {A} e (f : A -> list Resource) : leaves (raise e) [] f.
Proof. intros s r s' [= <- <-]. exists []. rewrite app_nil_r. by split_and!. Qed.

Lemma leaves_of_result {A} (r : result error A) : leaves (of_result r) [] (fun _ => []).
Proof. intros s r' s' [= <- <-]. exists []. rewrite app_nil_r. split_and!; try done. by destruct r. Qed.

Lemma leaves_ask : leaves (ask fails) [] (fun _ => []).
Proof.
  intros s r s' [= <- <-]. exists []. simpl. rewrite app_nil_r. split_and!; try done.
  by destruct (fails _).
Qed.

Lemma leaves_bind {A B} (m : eff Traced error A) (k : A -> eff Traced error B) pre f g :
  leaves m pre f -> (forall x, leaves (k x) (f x) g) -> leaves (m ≫= k) pre g.
Proof.
  intros Hm Hk s r s' H. unfold mbind, eff_bind in H. destruct (m s) as [[x|e] s1] eqn:E.
  - destruct (Hm _ _ _ E) as (n1 & L1 & F1 & N1). destruct (Hk _ _ _ _ H) as (n2 & L2 & F2 & N2).
    exists (n1 ++ n2). rewrite L2, L1, app_assoc. split_and!; [done|by apply Forall_app|].
    intros held lost. by rewrite (nest_app _ _ _ _ _ _ (N1 held lost)).
  - simplify_eq. destruct (Hm _ _ _ E) as (n1 & L1 & F1 & N1). eauto.
Qed.

(** A failure that leaves nothing, inspected by what follows, with [pre] held. *)
Lemma leaves_attempt {A} (m : eff Traced error A) pre f :
  leaves m [] f ->
  leaves (attempt m) pre (fun r => match r with Ok x => f x | Err _ => [] end ++ pre).
Proof.
  intros Hm s r s' H. unfold attempt in H. destruct (m s) as [r1 s1] eqn:E. simplify_eq.
  destruct (Hm _ _ _ E) as (new & ? & ? & Hn). exists new. split_and!; [done|done|].
  intros held lost. rewrite <- app_assoc. by rewrite <- Hn.
Qed.

(** A call that gives up [pre] whether it fails or not. *)
Lemma leaves_attempt_all {A} (m : eff Traced error A) pre :
  leaves m pre (fun _ => []) -> leaves (attempt m) pre (fun _ => []).
Proof.
  intros Hm s r s' H. unfold attempt in H. destruct (m s) as [r1 s1] eqn:E. simplify_eq.
  destruct (Hm _ _ _ E) as (new & ? & ? & Hn). exists new. split_and!; [done|done|].
  intros held lost. rewrite Hn. by destruct r1.
Qed.

Lemma leaves_note e pre post :
  allowed e -> (forall held lost, nest [e] (pre ++ held) lost = Some (post ++ held, lost)) ->
  leaves (act (note e)) pre (fun _ => post).
Proof. intros Ha Hn s r s' [= <- <-]. exists [e]. split_and!; [done|by constructor|done]. Qed.

Lemma leaves_open r : leaves (make (open r)) [] (fun h => [r h]).
Proof. intros s x s' [= <- <-]. eexists. split_and!; [done|by repeat constructor|done]. Qed.

Lemma leaves_adopt r r' : leaves (make (adopt r r')) [r] (fun h => [r' h]).
Proof.
  intros s x s' [= <- <-]. eexists. split_and!; [done|by repeat constructor|].
  intros held lost. simpl. by rewrite decide_True.
Qed.

Lemma leaves_close r : leaves (act (note (EvClose r))) [r] (fun _ => []).
Proof. apply leaves_note; [done|]. intros held lost. simpl. by rewrite decide_True. Qed.

(** A function that returns [f x] held, or fails and may leave [left], of which it
    tells by its error ([spill]). *)
Definition spills {A} (spill : error -> list Resource -> Prop) (m : eff Traced error A)
    (pre : list Resource) (f : A -> list Resource) : Prop :=
  forall s r s', m s = (r, s') -> exists new kept gone,
    tc_log s' = tc_log s ++ new /\ Forall allowed new /\
    match r with Ok _ => kept ++ gone = [] | Err e => kept ++ gone = [] \/ spill e (kept ++ gone) end /\
    forall held lost, nest new (pre ++ held) lost =
      Some (match r with Ok x => f x | Err _ => [] end ++ kept ++ held, gone ++ lost).

Lemma spills_leaves {A} spill (m : eff Traced error A) pre f : leaves m pre f -> spills spill m pre f.
Proof.
  intros Hm s r s' H. destruct (Hm _ _ _ H) as (new & L & F & N). exists new, [], [].
  split_and!; [done|done|by destruct r; [|left]|exact N].
Qed.

Lemma spills_bind {A B} spill (m : eff Traced error A) (k : A -> eff Traced error B) pre f g :
  spills spill m pre f -> (forall x, spills spill (k x) (f x) g) -> spills spill (m ≫= k) pre g.
Proof.
  intros Hm Hk s r s' H. unfold mbind, eff_bind in H. destruct (m s) as [[x|e] s1] eqn:E.
  - destruct (Hm _ _ _ E) as (n1 & k1 & g1 & L1 & F1 & S1 & N1).
    apply app_nil in S1 as [-> ->].
    destruct (Hk _ _ _ _ H) as (n2 & k2 & g2 & L2 & F2 & S2 & N2).
    exists (n1 ++ n2), k2, g2. rewrite L2, L1, app_assoc. split_and!; [done|by apply Forall_app|done|].
    intros held lost. by rewrite (nest_app _ _ _ _ _ _ (N1 held lost)).
  - simplify_eq. destruct (Hm _ _ _ E) as (n1 & k1 & g1 & L1 & F1 & S1 & N1).
    exists n1, k1, g1. by split_and!.
Qed.

(** A release of [pre]; strays held above it are passed over. *)
Definition still (pre kept : list Resource) : list Resource := if pre then kept else [].
Definition passed (pre kept : list Resource) : list Resource := if pre then [] else kept.

Definition releases (f : Traced -> Traced) (pre : list Resource) : Prop :=
  forall s, exists new, tc_log (f s) = tc_log s ++ new /\ Forall allowed new /\
    forall kept held lost, Forall (fun x => stray x = true) kept ->
      nest new (kept ++ pre ++ held) lost = Some (still pre kept ++ held, passed pre kept ++ lost).

Lemma releases_close r : stray r = false -> releases (note (EvClose r)) [r].
Proof.
  intros Hr s. exists [EvClose r]. split_and!; [done|by repeat constructor|].
  intros kept held lost Hk. simpl. by rewrite unwind_stray.
Qed.

Lemma releases_nothing : releases (fun s => s) [].
Proof. intros s. exists []. rewrite app_nil_r. by split_and!. Qed.

Lemma releases_comp f g r pre :
  releases f [r] -> releases g pre -> releases (fun s => g (f s)) (r :: pre).
Proof.
  intros Hf Hg s. destruct (Hf s) as (n1 & L1 & F1 & N1). destruct (Hg (f s)) as (n2 & L2 & F2 & N2).
  exists (n1 ++ n2). rewrite L2, L1, app_assoc. split_and!; [done|by apply Forall_app|].
  intros kept held lost Hk. rewrite (nest_app _ _ _ _ _ _ (N1 kept (pre ++ held) lost Hk)). simpl.
  specialize (N2 [] held (kept ++ lost) (Forall_nil_2 _)). simpl in N2. rewrite N2. by destruct pre.
Qed.

(** The deferred release of what was held before the rest. *)
Lemma spills_defer {A} spill (release : Traced -> Traced) (m : eff Traced error A) pre :
  (forall e l, spill e l -> Forall (fun x => stray x = true) l) ->
  spills spill m [] (fun _ => []) -> releases release pre ->
  spills spill (defer release m) pre (fun _ => []).
Proof.
  intros Hs Hm Hr s r s' H. unfold defer in H. destruct (m s) as [r1 s1] eqn:E. simplify_eq.
  destruct (Hm _ _ _ E) as (n1 & k1 & g1 & L1 & F1 & S1 & N1).
  destruct (Hr s1) as (n2 & L2 & F2 & N2).
  assert (Hk : Forall (fun x => stray x = true) k1).
  { assert (Forall (fun x => stray x = true) (k1 ++ g1)) as Hkg.
    { destruct r as [x|e]; [by rewrite S1|destruct S1 as [-> | S1]; [done|by eapply Hs]]. }
    by apply Forall_app in Hkg as [? _]. }
  exists (n1 ++ n2), (still pre k1), (passed pre k1 ++ g1).
  rewrite L2, L1, app_assoc. split_and!; [done|by apply Forall_app|by destruct pre|].
  intros held lost. specialize (N1 (pre ++ held) lost). simpl in N1.
  assert (N1' : nest n1 (pre ++ held) lost = Some (k1 ++ pre ++ held, g1 ++ lost)) by (by destruct r).
  rewrite (nest_app _ _ _ _ _ _ N1'), N2 by done. rewrite <- app_assoc. by destruct r.
Qed.

(** ** The processes *)

Lemma newPool_leaves dsn n : leaves (newPool dsn n) [] (fun p => [RPool p]).
Proof.
  unfold newPool. eapply (leaves_bind _ _ _ (fun p => [RPool p])).
  { eapply leaves_bind; [apply leaves_ask|]. intros ?. apply leaves_open. }
  intros p. eapply leaves_bind; [apply (leaves_attempt _ [RPool p] (fun _ => []))|].
  { eapply (leaves_bind _ _ _ (fun _ => [])); [by apply leaves_note|]. intros ?. apply leaves_ask. }
  intros [[]|e]; simpl; [apply (leaves_ret p (fun p => [RPool p]))|].
  eapply leaves_bind; [apply leaves_close|]. intros ?. apply leaves_raise.
Qed.

Definition pools_held (s : Pools) : list Resource :=
  match ps_reader s with Some h => [RPool h] | None => [] end ++ [RPool (ps_primary s)].

Lemma store_New_leaves dsn reader n : leaves (store_New dsn reader n) [] pools_held.
Proof.
  unfold store_New. eapply leaves_bind; [apply (leaves_attempt _ [] _ (newPool_leaves dsn n))|].
  intros [p|e]; simpl; [|apply leaves_raise].
  destruct (_ && _); [|apply (leaves_ret (mkPools p None) pools_held)].
  eapply leaves_bind; [apply (leaves_attempt _ [RPool p] _ (newPool_leaves reader n))|].
  intros [h|e]; simpl; [apply (leaves_ret (mkPools p (Some h)) pools_held)|].
  eapply leaves_bind; [apply leaves_close|]. intros ?. apply leaves_raise.
Qed.

Lemma NewClient_leaves addr pw n : leaves (NewClient addr pw n) [] (fun c => [RRedis c]).
Proof.
  unfold NewClient. eapply (leaves_bind _ _ _ (fun c => [RRedis c])); [apply leaves_open|].
  intros c. eapply leaves_bind; [apply (leaves_attempt _ [RRedis c] (fun _ => []))|].
  { eapply (leaves_bind _ _ _ (fun _ => [])); [by apply leaves_note|]. intros ?. apply leaves_ask. }
  intros [[]|e]; simpl; [apply (leaves_ret c (fun c => [RRedis c]))|].
  eapply leaves_bind; [apply leaves_close|]. intros ?. apply leaves_raise.
Qed.

Definition tracer_held (tp : option nat) : list Resource :=
  match tp with Some h => [RTracer h] | None => [] end.

Lemma leaves_ext {A} (m : eff Traced error A) pre f g :
  leaves m pre f -> (forall x, f x = g x) -> leaves m pre g.
Proof.
  intros Hm Hfg s r s' H. destruct (Hm _ _ _ H) as (new & L & F & N). exists new.
  split_and!; [done|done|]. intros held lost. rewrite N. destruct r; [by rewrite Hfg|done].
Qed.

(** Its exporter stays when the resource cannot be made. *)
Definition exporter_left (e : error) (l : list Resource) : Prop :=
  exists h err, e = Errorf "tracing: create resource" err /\ l = [RExporter h].

Lemma tracing_Init_spills cfg : spills exporter_left (tracing_Init cfg) [] tracer_held.
Proof.
  unfold tracing_Init. destruct (negb _); [apply spills_leaves, (leaves_ret None tracer_held)|].
  apply (spills_bind _ _ _ _ (fun r => match r with Ok h => [RExporter h] | Err _ => [] end)).
  { eapply spills_leaves, leaves_ext; [apply (leaves_attempt _ [] (fun h => [RExporter h]))|].
    - eapply leaves_bind; [apply leaves_ask|]. intros ?. apply leaves_open.
    - by intros []. }
  intros [exporter|e]; simpl; [|apply spills_leaves, leaves_raise].
  apply (spills_bind _ _ _ _ (fun _ => [RExporter exporter])).
  { eapply spills_leaves, leaves_ext; [apply (leaves_attempt _ [RExporter exporter] _ leaves_ask)|].
    by intros []. }
  intros [[]|e]; simpl.
  - apply spills_leaves. eapply leaves_bind; [apply leaves_adopt|]. intros h. apply (leaves_ret (Some h) tracer_held).
  - intros s r s' [= <- <-]. exists [], [RExporter exporter], []. rewrite app_nil_r. split_and!; [done|done| |done].
    right. by eexists _, _.
Qed.

Lemma traceShutdown_releases tp : releases (traceShutdown tp) (tracer_held tp).
Proof. destruct tp; [by apply releases_close|apply releases_nothing]. Qed.

Lemma store_Close_releases s : releases (store_Close s) (pools_held s).
Proof.
  unfold store_Close, pools_held. destruct (ps_reader s) as [h|]; simpl; [|by apply releases_close].
  by apply (releases_comp (note (EvClose (RPool h))) (note (EvClose (RPool (ps_primary s)))) (RPool h)); apply releases_close.
Qed.

Lemma connected_spills (spill : error -> list Resource -> Prop) name cfg body :
  (forall e l, spill e l -> Forall (fun x => stray x = true) l) ->
  (forall e l, exporter_left e l -> spill e l) ->
  spills spill body [] (fun _ => []) -> spills spill (connected name cfg body) [] (fun _ => []).
Proof.
  intros Hs Hx Hb. unfold connected.
  eapply spills_bind; [by apply spills_leaves, (leaves_note _ [] [RSignals])|]. intros ?.
  apply spills_defer; [done| |by apply releases_close].
  eapply spills_bind.
  { intros s r s' H. destruct (tracing_Init_spills _ _ _ _ H) as (new & k & g & ? & ? & S & N).
    exists new, k, g. split_and!; [done|done| |exact N]. destruct r; [done|]. naive_solver. }
  intros tp. apply spills_defer; [done| |apply traceShutdown_releases].
  unfold Postgres. eapply spills_bind; [apply spills_leaves, store_New_leaves|]. intros store.
  apply spills_defer; [done| |apply store_Close_releases].
  eapply spills_bind; [apply spills_leaves, NewClient_leaves|]. intros client.
  apply spills_defer; [done|exact Hb|by apply releases_close].
Qed.

Lemma shutdown_leaves srv d : leaves (sys_Shutdown srv d) [RServer srv] (fun _ => []).
Proof. eapply leaves_bind; [apply leaves_close|]. intros ?. apply leaves_ask. Qed.

(** The API leaves its server when serving ends with an error. *)
Definition server_left (e : error) (l : list Resource) : Prop := exists h, l = [RServer h].

Lemma api_body_spills addr d c :
  runs_ok c ->
  spills server_left (srv ← make (sys_Listen addr); sys_Wait srv c ≫= fun _ => sys_Shutdown srv d)
    [] (fun _ => []).
Proof.
  intros Hc. eapply spills_bind; [apply spills_leaves, leaves_open|]. intros srv.
  apply (spills_bind _ _ _ _ (fun _ => [RServer srv])); [|intros ?; apply spills_leaves, shutdown_leaves].
  intros s r s' H. assert (Hw : leaves (sys_Wait srv c) [] (fun _ => [])).
  { eapply (leaves_bind _ _ _ (fun _ => [])); [by apply leaves_note|]. intros ?. apply leaves_ask. }
  destruct (Hw _ _ _ H) as (new & L & F & N). destruct r as [[]|e].
  - exists new, [], []. split_and!; [done|done|done|]. intros held lost.
    specialize (N (RServer srv :: held) lost). exact N.
  - exists new, [RServer srv], []. split_and!; [done|done|right; by eexists|]. intros held lost.
    specialize (N (RServer srv :: held) lost). exact N.
Qed.

Lemma background_body_leaves addr d c :
  runs_ok c ->
  leaves (srv ← make (sys_Listen addr); err ← attempt (sys_Run c);
          attempt (sys_Shutdown srv d) ≫= fun _ => of_result err) [] (fun _ => []).
Proof.
  intros Hc. eapply leaves_bind; [apply leaves_open|]. intros srv.
  eapply leaves_bind; [apply (leaves_attempt _ [RServer srv] (fun _ => []))|].
  { eapply (leaves_bind _ _ _ (fun _ => [])); [by apply leaves_note|]. intros ?. apply leaves_ask. }
  intros err. simpl. assert (E : match err with Ok _ => [] | Err _ => [] end ++ [RServer srv] = [RServer srv])
    by (by destruct err).
  rewrite E. eapply (leaves_bind _ _ _ (fun _ => [])); [|intros ?; apply leaves_of_result].
  apply leaves_attempt_all, (shutdown_leaves srv d).
Qed.
End traces.

(** ** Properties *)

(** The binaries, the settings each starts with, what it runs, and its [run]. *)
Inductive Binary := Api | WorkerBinary | SchedulerBinary.

Definition settings (b : Binary) env host : result error AppConfig :=
  match b with Api => api_settings env host | _ => Load env host end.

Definition component (b : Binary) : AppConfig -> Component :=
  match b with
  | Api => api_component
  | WorkerBinary => worker_component
  | SchedulerBinary => scheduler_component
  end.

Definition run {W} `{sys : !Sys W} (b : Binary) env host : eff W error () :=
  match b with
  | Api => api_run env host
  | WorkerBinary => worker_run env host
  | SchedulerBinary => scheduler_run_main env host
  end.

(** [/readyz] asks the primary pool and Redis once each and answers 200 exactly when
    both answer. *)
Theorem readyz_reports fails marshalChecks store client s :
  let rp := fails (tc_asked s) in
  let rr := fails (S (tc_asked s)) in
  exists body s',
    handleReady marshalChecks (readiness (sys := traced_sys fails) store client) s
      = (Ok (if decide (rp = None /\ rr = None) then 200%Z else 503%Z, body), s') /\
    tc_log s' = tc_log s ++ [EvPing (RPool (ps_primary store)); EvPing (RRedis client)].
Proof.
  intros rp rr. unfold handleReady, readiness, Store_Ping, RedisHealth_Ping. simpl.
  unfold mbind, eff_bind, attempt, act, ask. simpl. subst rp rr.
  destruct (fails (tc_asked s)) eqn:E1, (fails (S (tc_asked s))) eqn:E2; simpl; rewrite E2; simpl;
    eexists _, _; (split; [reflexivity|]); simpl; by rewrite <- app_assoc.
Qed.

Definition unstarted : Traced := mkTraced 0 [].

(** What a binary that fails with [e] may leave to the operating system. *)
Definition left_behind (b : Binary) (e : error) (l : list Resource) : Prop :=
  exporter_left e l \/ (b = Api /\ server_left e l).

Lemma left_behind_stray b e l : left_behind b e l -> Forall (fun x => stray x = true) l.
Proof. intros [(h & err & _ & ->)|(_ & h & ->)]; by apply Forall_singleton. Qed.

Lemma spills_impl ok {A} (s1 s2 : error -> list Resource -> Prop) (m : eff Traced error A) pre f :
  (forall e l, s1 e l -> s2 e l) -> spills ok s1 m pre f -> spills ok s2 m pre f.
Proof.
  intros Hi Hm s r s' H. destruct (Hm _ _ _ H) as (new & k & g & ? & ? & S & N).
  exists new, k, g. split_and!; [done|done| |exact N]. destruct r; [done|]. naive_solver.
Qed.

Lemma run_spills fails b env host cfg :
  settings b env host = Ok cfg ->
  spills (fun c => c = component b cfg) (left_behind b) (run (sys := traced_sys fails) b env host)
    [] (fun _ => []).
Proof.
  intros Hs. assert (Hbind : forall {A} (r : result error A) (k : A -> eff Traced error ()) x,
    r = Ok x -> of_result r ≫= k = k x) by (by intros ???? ->).
  assert (Hc : forall name body, spills (fun c => c = component b cfg) (left_behind b) body [] (fun _ => []) ->
    spills (fun c => c = component b cfg) (left_behind b) (connected (sys := traced_sys fails) name cfg body)
      [] (fun _ => [])).
  { intros name body. apply connected_spills; [apply left_behind_stray|by left]. }
  destruct b; cbn [run settings] in *.
  - unfold api_run. rewrite (Hbind _ _ _ _ Hs). apply Hc. eapply (spills_impl _ server_left); [by right|].
    by apply (api_body_spills fails _ _ _ (api_component cfg)).
  - unfold worker_run, background_run. rewrite (Hbind _ _ _ _ Hs).
    by apply Hc, spills_leaves, (background_body_leaves fails _ _ _ (worker_component cfg)).
  - unfold scheduler_run_main, background_run. rewrite (Hbind _ _ _ _ Hs).
    by apply Hc, spills_leaves, (background_body_leaves fails _ _ _ (scheduler_component cfg)).
Qed.

(** A system on which nothing fails: every call returns, and its log only grows. *)
Section calm.
Context (fails : nat -> option error).
Hypothesis Hcalm : forall n, fails n = None.
#[local] Instance sys_calm : Sys Traced := traced_sys fails.

(** [m] returns, having logged all of [es]. *)
Definition returns {A} (es : list sys_event) (m : eff Traced error A) : Prop :=
  forall s, exists x s' new, m s = (Ok x, s') /\ tc_log s' = tc_log s ++ new /\ es ⊆ new.

Lemma returns_bind {A B} es1 es2 (m : eff Traced error A) (k : A -> eff Traced error B) :
  returns es1 m -> (forall x, returns es2 (k x)) -> returns (es1 ++ es2) (m ≫= k).
Proof.
  intros Hm Hk s. destruct (Hm s) as (x & s1 & n1 & E1 & L1 & I1).
  destruct (Hk x s1) as (y & s2 & n2 & E2 & L2 & I2). exists y, s2, (n1 ++ n2).
  split_and!; [by rewrite (bind_step_ok _ _ _ _ _ E1)|by rewrite L2, L1, app_assoc|set_solver].
Qed.

Lemma returns_attempt {A B} es1 es2 (m : eff Traced error A) (k : result error A -> eff Traced error B) :
  returns es1 m -> (forall x, returns es2 (k (Ok x))) -> returns (es1 ++ es2) (attempt m ≫= k).
Proof.
  intros Hm Hk s. destruct (Hm s) as (x & s1 & n1 & E1 & L1 & I1).
  destruct (Hk x s1) as (y & s2 & n2 & E2 & L2 & I2). exists y, s2, (n1 ++ n2).
  split_and!; [by rewrite (attempt_bind _ _ _ _ _ E1)|by rewrite L2, L1, app_assoc|set_solver].
Qed.

Lemma returns_ret {A} (x : A) : returns [] (mret x).
Proof. intros s. exists x, s, []. rewrite app_nil_r. by split_and!. Qed.

Lemma returns_ask : returns [] (ask fails).
Proof.
  intros s. unfold ask. rewrite Hcalm. eexists _, _, []. split; [done|]. simpl.
  by rewrite app_nil_r.
Qed.

Lemma returns_note e : returns [e] (act (note e)).
Proof. intros s. by eexists _, _, [e]. Qed.

Lemma returns_open r : returns [] (make (open r)).
Proof. intros s. eexists _, _, [_]. split; [done|]. split; [done|]. apply list_subseteq_nil. Qed.

Lemma returns_adopt r r' : returns [] (make (adopt r r')).
Proof. intros s. eexists _, _, [_]. split; [done|]. split; [done|]. apply list_subseteq_nil. Qed.

Lemma returns_weaken {A} es es' (m : eff Traced error A) : returns es m -> es' ⊆ es -> returns es' m.
Proof. intros H Hi s. destruct (H s) as (x & s' & new & ? & ? & ?). exists x, s', new. set_solver. Qed.

Lemma returns_defer {A} es (f : Traced -> Traced) (m : eff Traced error A) :
  returns es m -> returns [] (act f) -> returns es (defer f m).
Proof.
  intros Hm Hf s. destruct (Hm s) as (x & s1 & n1 & E1 & L1 & I1).
  destruct (Hf s1) as (y & s2 & n2 & E2 & L2 & I2). unfold act in E2. simplify_eq.
  exists x, (f s1), (n1 ++ n2). unfold defer. rewrite E1.
  split_and!; [done|by rewrite L2, L1, app_assoc|set_solver].
Qed.

Lemma returns_ping e : returns [] (act (note e) ≫= fun _ => ask fails).
Proof.
  eapply returns_weaken; [eapply returns_bind; [apply returns_note|intros ?; apply returns_ask]|].
  apply list_subseteq_nil.
Qed.

Lemma newPool_returns dsn n : returns [] (newPool dsn n).
Proof.
  apply (returns_bind [] []).
  { apply (returns_bind [] []); [apply returns_ask|intros ?; apply returns_open]. }
  intros p. apply (returns_attempt [] []); [apply returns_ping|intros ?; apply returns_ret].
Qed.

Lemma store_New_returns dsn reader n : returns [] (store_New dsn reader n).
Proof.
  apply (returns_attempt [] []); [apply newPool_returns|]. intros p.
  destruct (_ && _); [|apply returns_ret].
  apply (returns_attempt [] []); [apply newPool_returns|]. intros h. apply returns_ret.
Qed.

Lemma NewClient_returns addr pw n : returns [] (NewClient addr pw n).
Proof.
  apply (returns_bind [] []); [apply returns_open|]. intros c.
  apply (returns_attempt [] []); [apply returns_ping|intros ?; apply returns_ret].
Qed.

Lemma tracing_Init_returns cfg : returns [] (tracing_Init cfg).
Proof.
  unfold tracing_Init. destruct (negb _); [apply returns_ret|].
  apply (returns_attempt [] []).
  { apply (returns_bind [] []); [apply returns_ask|intros ?; apply returns_open]. }
  intros ?. apply (returns_attempt [] []); [apply returns_ask|]. intros ?.
  apply (returns_bind [] []); [apply returns_adopt|]. intros ?. apply returns_ret.
Qed.

(** Releasing does not fail. *)
Lemma returns_release e : returns [] (act (note e)).
Proof. eapply returns_weaken; [apply returns_note|apply list_subseteq_nil]. Qed.

Lemma traceShutdown_returns tp : returns [] (act (traceShutdown tp)).
Proof.
  destruct tp; [apply returns_release|]. intros s. exists (), s, []. rewrite app_nil_r. by split_and!.
Qed.

Lemma store_Close_returns s : returns [] (act (store_Close s)).
Proof.
  unfold store_Close. destruct (ps_reader s) as [h|]; [|apply returns_release].
  apply (returns_bind [] [] (act (note (EvClose (RPool h))))
    (fun _ => act (note (EvClose (RPool (ps_primary s)))))); [apply returns_release|].
  intros ?. apply returns_release.
Qed.

Lemma connected_returns name cfg es body : returns es body -> returns es (connected name cfg body).
Proof.
  intros Hb. unfold connected, Postgres. apply (returns_bind [] es); [apply returns_release|].
  intros ?. apply returns_defer; [|apply returns_release].
  apply (returns_bind [] es); [apply tracing_Init_returns|]. intros tp.
  apply returns_defer; [|apply traceShutdown_returns].
  apply (returns_bind [] es); [apply store_New_returns|]. intros s.
  apply returns_defer; [|apply store_Close_returns].
  apply (returns_bind [] es); [apply NewClient_returns|]. intros c.
  apply returns_defer; [exact Hb|apply returns_release].
Qed.

Lemma run_returns b env host cfg :
  settings b env host = Ok cfg -> returns [EvRun (component b cfg)] (run b env host).
Proof.
  intros Hs. assert (Hbind : forall {A} (r : result error A) (k : A -> eff Traced error ()) x,
    r = Ok x -> of_result r ≫= k = k x) by (by intros ???? ->).
  assert (Hbg : forall addr d c, returns [EvRun c]
    (srv ← make (sys_Listen addr); err ← attempt (sys_Run c);
     attempt (sys_Shutdown srv d) ≫= fun _ => of_result err)).
  { intros addr d c. apply (returns_bind [] [EvRun c]); [apply returns_open|]. intros srv.
    apply (returns_attempt [EvRun c] []).
    { apply (returns_bind [EvRun c] []); [apply returns_note|intros ?; apply returns_ask]. }
    intros []. apply (returns_attempt [] []); [apply returns_ping|intros ?; apply returns_ret]. }
  destruct b; cbn [run settings component] in *; [unfold api_run|unfold worker_run, background_run|
    unfold scheduler_run_main, background_run]; rewrite (Hbind _ _ _ _ Hs); apply connected_returns;
    [|apply Hbg..].
  apply (returns_bind [] [EvRun (api_component cfg)]); [apply returns_open|]. intros srv.
  apply (returns_bind [EvRun (api_component cfg)] []); [|intros ?; apply returns_ping].
  apply (returns_bind [EvRun (api_component cfg)] []); [apply returns_note|]. intros ?. apply returns_ask.
Qed.
End calm.

(** C21: what the processes release. Whatever calls fail on the way (the exporter,
    its resource, the pools, their pings, Redis, the server, [Run], the shutdown),
    a binary that ends has released everything it opened, the last opened first and
    each once, the second pool only if there is one, with two exceptions: when the
    tracing resource cannot be made, the exporter made before it is never shut down;
    and when the API's server ends with an error, [run] returns without shutting the
    server down. A binary that ends without an error leaves nothing, and a worker or
    a scheduler that fails in any other way leaves nothing. Settings that are
    refused end it before it opens anything; whatever it runs is the component its
    settings describe; and when nothing fails it runs that component and exits with
    0. *)
Theorem process_resources b env host fails :
  let '(r, s) := run (sys := traced_sys fails) b env host unstarted in
  (exists left, unreleased (tc_log s) = Some left /\
     match r with
     | Ok _ => left = []
     | Err e => left = [] \/
         (exists h err, e = Errorf "tracing: create resource" err /\ left = [RExporter h]) \/
         (b = Api /\ exists h, left = [RServer h])
     end) /\
  (exit_code (run (sys := traced_sys fails) b env host) unstarted).1
    = (if is_ok r then 0 else 1)%Z /\
  match settings b env host with
  | Err e => r = Err e /\ tc_log s = []
  | Ok cfg =>
      (forall c, EvRun c ∈ tc_log s -> c = component b cfg) /\
      ((forall n, fails n = None) -> r = Ok () /\ EvRun (component b cfg) ∈ tc_log s)
  end.
Proof.
  unfold exit_code. destruct (run b env host unstarted) as [r s] eqn:E.
  destruct (settings b env host) as [cfg|e] eqn:Hs.
  - destruct (run_spills fails b env host cfg Hs _ _ _ E) as (new & kept & gone & L & F & S & N).
    cbn in L. rewrite L. specialize (N [] []). rewrite !(right_id_L [] (++)) in N.
    assert (E0 : match r with Ok _ => [] | Err _ => [] end = @nil Resource) by (by destruct r).
    rewrite E0 in N. cbn [app] in N. split_and!.
    + exists (kept ++ gone). unfold unreleased. rewrite N. destruct r; [done|]. split; [done|].
      destruct S as [-> |[(h & err & -> & ->)|(-> & h & ->)]]; [by left|right; left|right; right]; eauto.
    + by destruct r.
    + intros c [i Hi]%list_elem_of_lookup. exact (Forall_lookup_1 _ _ _ _ F Hi).
    + intros Hc. destruct (run_returns fails Hc b env host cfg Hs unstarted) as ([] & s' & n & E' & L' & I).
      unfold sys_calm in E'. rewrite E in E'. injection E' as -> <-. cbn in L'. split; [done|]. rewrite <- L, L'. set_solver.
  - assert (Hr : run (sys := traced_sys fails) b env host unstarted = (Err e, unstarted)).
    { destruct b; simpl in Hs |- *; unfold api_run, worker_run, scheduler_run_main, background_run;
        by rewrite Hs. }
    rewrite Hr in E. simplify_eq. split_and!; [|done..]. exists []. auto.
Qed.

(** The two exceptions: a worker whose tracing resource cannot be made, and an API
    whose server fails at once. *)
Definition fails_at (n k : nat) : option error := if Nat.eqb k n then Some (ELib "boom") else None.

Definition tracing_on (key : string) : option string :=
  if String.eqb key "OTEL_ENABLED" then Some "true" else None.

Example exporter_is_left :
  unreleased (tc_log (run (sys := traced_sys (fails_at 1)) WorkerBinary tracing_on (Ok "c1") unstarted).2)
    = Some [RExporter 1].
Proof. vm_compute. reflexivity. Qed.

Definition api_environ (key : string) : option string :=
  if String.eqb key "JWT_SECRET" then Some "0123456789abcdef0123456789abcdef" else None.

Example server_is_left :
  let '(r, s) := run (sys := traced_sys (fails_at 3)) Api api_environ (Ok "c1") unstarted in
  unreleased (tc_log s) = Some [RServer 5].
Proof. vm_compute. reflexivity. Qed.
