(* ===== verification/Observability.v ===== *)
(** * Metrics and logging (internal/platform/metrics, internal/platform/logging)

    The instruments the binaries register, the update each helper makes, and the
    logger's level and correlation id. The Prometheus library panics on a second
    collector of a name, on the wrong number of label values and on a counter that
    decreases: [registered] and [accepts] say when it does not. *)

From S2P Require Import Prelude GoStrings GoFloat Domain GoParse AppConfig Store Worker Scheduler SchedulerRun Bootstrap.

Local Open Scope string_scope.
Local Open Scope list_scope.

(** ** Instruments *)

Inductive Kind := KCounter | KGauge | KHistogram.

#[export] Instance Kind_eq_dec : EqDecision Kind.
Proof. solve_decision. Defined.

(** [prometheus.Opts] and the label names. *)
Record Desc := mkDesc { ds_Kind : Kind; ds_Name : string; ds_Labels : list string }.

(** [metrics.New], in its order; the help texts and the buckets are left out. *)
Definition instruments : list Desc :=
  [mkDesc KCounter "notifications_created_total" ["channel"; "priority"];
   mkDesc KCounter "deliveries_sent_total" ["channel"; "priority"];
   mkDesc KCounter "deliveries_failed_total" ["channel"; "priority"];
   mkDesc KCounter "retry_total" ["channel"; "priority"];
   mkDesc KCounter "deliveries_promoted_total" [];
   mkDesc KCounter "locks_reclaimed_total" [];
   mkDesc KCounter "reconciled_total" [];
   mkDesc KGauge "queue_depth" ["stream"];
   mkDesc KGauge "outbox_unpublished" [];
   mkDesc KGauge "scheduler_lag_seconds" [];
   mkDesc KGauge "provider_circuit_state" ["channel"];
   mkDesc KHistogram "provider_latency_seconds" ["channel"];
   mkDesc KHistogram "delivery_processing_seconds" ["channel"; "priority"];
   mkDesc KHistogram "delivery_e2e_latency_seconds" ["channel"; "priority"];
   mkDesc KCounter "dlq_messages_total" ["reason"];
   mkDesc KCounter "poison_messages_total" [];
   mkDesc KGauge "queue_pending" ["stream"]].

(** ** Updates *)

Inductive Op := Inc | Add (x : float64) | Set_ (x : float64) | Observe (x : float64).

(** [m.X.WithLabelValues(labels...).Op] *)
Record Update := mkUpdate { up_Name : string; up_Labels : list string; up_Op : Op }.

Definition Metrics_IncCreated (c : Channel) (p : Priority) := mkUpdate "notifications_created_total" [c; p] Inc.
Definition Metrics_IncSent (c : Channel) (p : Priority) := mkUpdate "deliveries_sent_total" [c; p] Inc.
Definition Metrics_IncFailed (c : Channel) (p : Priority) := mkUpdate "deliveries_failed_total" [c; p] Inc.
Definition Metrics_IncRetry (c : Channel) (p : Priority) := mkUpdate "retry_total" [c; p] Inc.
Definition Metrics_ObserveProviderLatency (c : Channel) (seconds : float64) :=
  mkUpdate "provider_latency_seconds" [c] (Observe seconds).
Definition Metrics_ObserveProcessing (c : Channel) (p : Priority) (seconds : float64) :=
  mkUpdate "delivery_processing_seconds" [c; p] (Observe seconds).
Definition Metrics_ObserveE2ELatency (c : Channel) (p : Priority) (seconds : float64) :=
  mkUpdate "delivery_e2e_latency_seconds" [c; p] (Observe seconds).
Definition Metrics_SetCircuitState (c : Channel) (state : float64) :=
  mkUpdate "provider_circuit_state" [c] (Set_ state).
Definition Metrics_SetQueueDepth (stream : string) (n : float64) :=
  mkUpdate "queue_depth" [stream] (Set_ n).
Definition Metrics_SetOutboxUnpublished (n : float64) := mkUpdate "outbox_unpublished" [] (Set_ n).
Definition Metrics_SetSchedulerLag (seconds : float64) := mkUpdate "scheduler_lag_seconds" [] (Set_ seconds).
Definition Metrics_AddPromoted (n : float64) := mkUpdate "deliveries_promoted_total" [] (Add n).
Definition Metrics_AddReclaimed (n : float64) := mkUpdate "locks_reclaimed_total" [] (Add n).
Definition Metrics_AddReconciled (n : float64) := mkUpdate "reconciled_total" [] (Add n).
Definition Metrics_IncDLQ (reason : string) := mkUpdate "dlq_messages_total" [reason] Inc.
Definition Metrics_IncPoison := mkUpdate "poison_messages_total" [] Inc.
Definition Metrics_SetQueuePending (stream : string) (n : float64) :=
  mkUpdate "queue_pending" [stream] (Set_ n).

(** The updates behind the ports of the worker and of the scheduler. A duration is
    reported in [seconds]. *)
Definition worker_update (m : Worker.metric) (seconds : float64) : Update :=
  match m with
  | IncSent c p => Metrics_IncSent c p
  | IncFailed c p => Metrics_IncFailed c p
  | IncRetry c p => Metrics_IncRetry c p
  | ObserveProviderLatency c => Metrics_ObserveProviderLatency c seconds
  | ObserveProcessing c p => Metrics_ObserveProcessing c p seconds
  | ObserveE2ELatency c p => Metrics_ObserveE2ELatency c p seconds
  | IncDLQ reason => Metrics_IncDLQ reason
  end.

Definition sched_update (m : sched_metric) (seconds : float64) : Update :=
  match m with
  | SetQueueDepth stream n => Metrics_SetQueueDepth stream (f64_of_int n)
  | SetQueuePending stream n => Metrics_SetQueuePending stream (f64_of_int n)
  | SetOutboxUnpublished n => Metrics_SetOutboxUnpublished (f64_of_int n)
  | SetSchedulerLag _ => Metrics_SetSchedulerLag seconds
  | AddPromoted n => Metrics_AddPromoted (f64_of_int n)
  | AddReclaimed n => Metrics_AddReclaimed (f64_of_int n)
  | AddReconciled n => Metrics_AddReconciled (f64_of_int n)
  end.

(** ** When the library does not panic *)

Definition registered (l : list Desc) : Prop := NoDup (map ds_Name l).

Definition allows (k : Kind) (o : Op) : bool :=
  match k, o with
  | KCounter, Inc | KCounter, Add _ | KGauge, Set_ _ | KHistogram, Observe _ => true
  | _, _ => false
  end.

Definition accepts (l : list Desc) (u : Update) : bool :=
  match List.find (fun d => String.eqb (ds_Name d) (up_Name u)) l with
  | Some d => Nat.eqb (length (up_Labels u)) (length (ds_Labels d)) && allows (ds_Kind d) (up_Op u)
  | None => false
  end.

(** What a counter is told to add is positive. *)
Definition increases (m : sched_metric) : Prop :=
  match m with
  | AddPromoted n | AddReclaimed n | AddReconciled n => (0 < n)%Z
  | _ => True
  end.

(** ** Logging (logging.go) *)

Inductive Level := LevelDebug | LevelInfo | LevelWarn | LevelError.

Definition logging_New (level : string) : Level :=
  let l := ToLower level in
  if String.eqb l "debug" then LevelDebug
  else if String.eqb l "warn" then LevelWarn
  else if String.eqb l "error" then LevelError
  else LevelInfo.

(** The attributes [FromContext] adds, for the context's correlation id. *)
Definition FromContext (correlationID : string) (base : list (string * string)) : list (string * string) :=
  if negb (String.eqb correlationID "") then base ++ [("correlation_id", correlationID)] else base.

(** ** Wiring (bootstrap.go) *)

(** The registry of every binary: the library's collectors ([NewGoCollector],
    [NewProcessCollector]), then the instruments. *)
Definition Bootstrap_Metrics (go_collector process_collector : list Desc) : list Desc :=
  go_collector ++ process_collector ++ instruments.

Definition Bootstrap_Logger (cfg : AppConfig) : Level := logging_New (ac_LogLevel cfg).

(** The breaker's [onChange]. *)
Definition onChange (channel : Channel) (state : BreakerState) : Update :=
  Metrics_SetCircuitState channel (circuitStateValue state).

(** ** The jobs report increases *)

Section reports.
Context `{codec : !MessageCodec} `{uuids : !UuidSource}.
Context (up : nat -> bool) (now : time) (locked : uuid * time -> bool).
Context (queue_depth queue_pending : string -> eff SWorld error Z).
Hypothesis Hdepth : forall s w, sw_metrics (queue_depth s w).2 = sw_metrics w.
Hypothesis Hpending : forall s w, sw_metrics (queue_pending s w).2 = sw_metrics w.
#[local] Instance ports_here : SchedPorts SWorld :=
  store_sched up now locked queue_depth queue_pending.

Definition reports {A} (m : eff SWorld error A) : Prop :=
  forall w, exists new, sw_metrics (m w).2 = sw_metrics w ++ new /\ Forall increases new.

Lemma reports_silent {A} (m : eff SWorld error A) :
  (forall w, sw_metrics (m w).2 = sw_metrics w) -> reports m.
Proof. intros H w. exists []. by rewrite H, app_nil_r. Qed.

Lemma reports_bind {A B} (m : eff SWorld error A) (k : A -> eff SWorld error B) :
  reports m -> (forall x, reports (k x)) -> reports (m ≫= k).
Proof.
  intros Hm Hk w. destruct (Hm w) as (n1 & L1 & F1). unfold mbind, eff_bind.
  destruct (m w) as [[x|e] w1]; [|by exists n1]. destruct (Hk x w1) as (n2 & L2 & F2).
  exists (n1 ++ n2). split; [by rewrite L2; simpl in L1; rewrite L1, app_assoc|by apply Forall_app].
Qed.

Lemma reports_attempt {A} (m : eff SWorld error A) : reports m -> reports (attempt m).
Proof. intros Hm w. destruct (Hm w) as (n & H). exists n. unfold attempt. by destruct (m w). Qed.

Lemma reports_store {A} (m : eff Sess error A) : reports (on_store m).
Proof. apply reports_silent. intros w. unfold on_store. by destruct (m (sw_sess w)). Qed.

Lemma reports_ret {A} (x : A) : reports (mret x).
Proof. by apply reports_silent. Qed.

Lemma reports_raise {A} e : reports (A := A) (raise e).
Proof. by apply reports_silent. Qed.

Lemma reports_publish stream msg : reports (publish up stream msg).
Proof. apply reports_silent. intros w. unfold publish. by destruct (up _). Qed.

Lemma reports_metric m : increases m -> reports (add_metric m).
Proof. intros H w. exists [m]. split; [done|by constructor]. Qed.

Lemma reports_for_each {A} (f : A -> eff SWorld error ()) l :
  (forall x, reports (f x)) -> reports (for_each f l).
Proof.
  intros H. induction l as [|x l IH]; [apply reports_ret|]. apply reports_bind; [apply H|auto].
Qed.

Lemma reports_count (n : Z) (m : sched_metric) :
  ((0 < n)%Z -> increases m) ->
  reports (if (n >? 0)%Z then add_metric m else mret ()).
Proof.
  intros H. destruct (Z.gtb_spec n 0); [apply reports_metric; auto|apply reports_ret].
Qed.

Lemma reports_gauge {A} (m : eff SWorld error A) f :
  reports m -> (forall x, increases (f x)) -> reports (gauge m f).
Proof.
  intros Hm Hf. apply reports_bind; [by apply reports_attempt|].
  intros [x|]; [by apply reports_metric|apply reports_ret].
Qed.

Lemma reports_publish_all entries : reports (publish_all entries).
Proof.
  induction entries as [|e entries IH]; [apply reports_ret|].
  apply reports_bind; [apply reports_attempt, reports_publish|]. intros r.
  apply reports_bind; [exact IH|]. intros ?. apply reports_ret.
Qed.

Lemma reports_relay cfg fuel : reports (relayOutbox cfg fuel).
Proof.
  induction fuel as [|fuel IH]; [apply reports_raise|]. cbn [relayOutbox].
  apply reports_bind; [apply reports_attempt, reports_store|]. intros [[|e es]|err]; try apply reports_ret.
  apply reports_bind; [apply reports_publish_all|]. intros ids.
  apply reports_bind; [apply reports_attempt, reports_store|]. intros [[]|err]; [|apply reports_ret].
  by destruct (_ <? _)%Z; [apply reports_ret|].
Qed.

Lemma reports_promote cfg fuel : reports (promoteDue cfg fuel).
Proof.
  induction fuel as [|fuel IH]; [apply reports_raise|]. cbn [promoteDue].
  apply reports_bind; [apply reports_attempt, reports_store|]. intros [n|err]; [|apply reports_ret].
  apply reports_bind; [by apply reports_count|]. intros ?.
  by destruct (_ <? _)%Z; [apply reports_ret|].
Qed.

Lemma reports_sweep cfg fuel : reports (sweepRetries cfg fuel).
Proof.
  induction fuel as [|fuel IH]; [apply reports_raise|]. cbn [sweepRetries].
  apply reports_bind; [apply reports_attempt, reports_store|]. intros [n|err]; [|apply reports_ret].
  by destruct (_ <? _)%Z; [apply reports_ret|].
Qed.

Lemma reports_job cfg fuel j : reports (job_body cfg fuel j).
Proof.
  destruct j; cbn [job_body].
  - apply reports_relay.
  - apply reports_promote.
  - apply reports_sweep.
  - apply reports_bind; [apply reports_attempt, reports_store|].
    intros [n|]; [by apply reports_count|apply reports_ret].
  - apply reports_bind; [apply reports_attempt, reports_store|].
    intros [n|]; [by apply reports_count|apply reports_ret].
  - apply reports_bind; [by apply reports_gauge; [apply reports_store|]|]. intros ?.
    apply reports_bind; [by apply reports_gauge; [apply reports_store|]|]. intros ?.
    apply reports_for_each. intros stream. apply reports_bind; [|intros ?].
    + apply reports_gauge; [by apply reports_silent, Hdepth|done].
    + apply reports_gauge; [by apply reports_silent, Hpending|done].
  - apply reports_bind; [apply reports_ret|]. intros t.
    apply reports_bind; [|intros ?; apply reports_bind; [apply reports_attempt, reports_store|]].
    + apply reports_for_each. intros i. apply reports_bind; [apply reports_attempt, reports_store|].
      intros ?. apply reports_ret.
    + intros ?. apply reports_bind; [apply reports_ret|]. intros ?.
      apply reports_bind; [apply reports_attempt, reports_store|]. intros ?. apply reports_ret.
Qed.
End reports.

(** Collectors of the library in front of the program's. *)
Lemma registered_app go process :
  registered (go ++ process) -> registered instruments ->
  (forall d, d ∈ go ++ process -> ds_Name d ∉ map ds_Name instruments) ->
  registered (Bootstrap_Metrics go process).
Proof.
  intros H1 H2 Hnew. unfold registered, Bootstrap_Metrics in *. rewrite (assoc_L (++)), map_app.
  apply NoDup_app. split_and!; [done| |done]. intros n (d & -> & Hd)%list_elem_of_fmap. by apply Hnew.
Qed.

Lemma accepts_app go process u :
  (forall d, d ∈ go ++ process -> ds_Name d ∉ map ds_Name instruments) ->
  accepts instruments u = true -> accepts (Bootstrap_Metrics go process) u = true.
Proof.
  unfold accepts, Bootstrap_Metrics. rewrite (assoc_L (++)). intros Hnew Hu.
  destruct (List.find _ instruments) as [d|] eqn:E; [|done].
  apply List.find_some in E as E'. destruct E' as [Hd Hn%String.eqb_eq].
  assert (Hnone : forall l, (forall d, d ∈ l -> ds_Name d ∉ map ds_Name instruments) ->
    List.find (fun d => String.eqb (ds_Name d) (up_Name u)) (l ++ instruments) = Some d).
  { induction l as [|x l IH]; intros Hl; simpl; [done|].
    destruct (String.eqb_spec (ds_Name x) (up_Name u)) as [Ex|_]; [|apply IH; intros y Hy; apply Hl; by right].
    exfalso. apply (Hl x); [left|]. rewrite Ex, <- Hn. by apply list_elem_of_fmap_2, list_elem_of_In. }
  by rewrite (Hnone _ Hnew).
Qed.

(** ** Properties *)

(** No metric panics. The collectors have different names, also beside the library's own
    if none of those is the program's; every update the
    helpers make, those behind the ports of the worker and the scheduler included,
    names a registered collector with one value per label and an operation of its
    kind; and whatever fails, a job of the scheduler adds only positive counts. *)
Theorem metrics_accepted :
  (forall go process, registered (go ++ process) ->
     (forall d, d ∈ go ++ process -> ds_Name d ∉ map ds_Name instruments) ->
     registered (Bootstrap_Metrics go process) /\
     forall u, accepts instruments u = true -> accepts (Bootstrap_Metrics go process) u = true) /\
  registered instruments /\
  (forall m seconds, accepts instruments (worker_update m seconds) = true) /\
  (forall m seconds, accepts instruments (sched_update m seconds) = true) /\
  (forall c p state, forallb (accepts instruments)
     [Metrics_IncCreated c p; onChange c state; Metrics_IncPoison] = true) /\
  (forall `{!MessageCodec} `{!UuidSource} up now locked depth pending cfg fuel j w,
     (forall s (w : SWorld), sw_metrics (depth s w).2 = sw_metrics w) ->
     (forall s (w : SWorld), sw_metrics (pending s w).2 = sw_metrics w) ->
     exists new, sw_metrics (job_body (ports := store_sched up now locked depth pending)
                              cfg fuel j w).2 = sw_metrics w ++ new /\ Forall increases new).
Proof.
  assert (Hreg : registered instruments) by (apply (bool_decide_eq_true_1 _); vm_compute; reflexivity).
  split_and!.
  - intros go process Hlib Hnew. split; [by apply registered_app|]. intros u Hu. by apply accepts_app.
  - apply (bool_decide_eq_true_1 _). vm_compute. reflexivity.
  - by intros [].
  - by intros [].
  - done.
  - intros. by apply reports_job.
Qed.
