(* ===== verification/Tracing.v ===== *)
(** * Spans (internal/platform/tracing)

    [StartSpan] and the four places that open a span: the worker's [process], the
    relay, the creating handler and the webhook client. OpenTelemetry is an interface
    ([Otel]); a span lives beside the program's world, so the traced components run on
    pairs. [spans_transparent]: tracing changes nothing of what they do, and the calls
    it makes nest: every span is ended, after its children. *)

From S2P Require Import Prelude GoStrings GoFloat Domain Store Retry Notification Provider Worker Scheduler Auth Cursor Http.

Local Open Scope string_scope.
Local Open Scope list_scope.

(** ** OpenTelemetry *)

(** [attribute.String] and [attribute.Int] *)
Inductive AttrValue := AttrString (s : string) | AttrInt (n : Z).
Definition KeyValue : Type := string * AttrValue.

(** [C]: what the library keeps in a context; [S]: spans; [T]: the library's state. *)
Class Otel (C S T : Type) := {
  tracer_Start : string -> string -> list KeyValue -> C -> T -> C * S * T;
  span_SetAttributes : S -> list KeyValue -> T -> T;
  span_End : S -> T -> T
}.

Section spans.
Context {C S T : Type} `{otel : !Otel C S T} {W : Type}.

Definition StartSpan (ctx : C) (name : string) (attrs : list KeyValue) : T -> C * S * T :=
  tracer_Start "notification-system" name attrs ctx.

(** [ctx, span := tracing.StartSpan(...)], [defer span.End()] and the rest. *)
Definition spanned {E A} (ctx : C) (name : string) (attrs : list KeyValue)
    (body : C -> S -> eff (W * T) E A) : eff (W * T) E A := fun wt =>
  let '(ctx', span, t1) := StartSpan ctx name attrs wt.2 in
  let '(r, (w2, t2)) := body ctx' span (wt.1, t1) in
  (r, (w2, span_End span t2)).

(** Code that opens no span. *)
Definition untraced {E A} (m : eff W E A) : eff (W * T) E A := fun wt =>
  let '(r, w') := m wt.1 in (r, (w', wt.2)).

Definition set_attributes (span : S) (attrs : list KeyValue) : eff (W * T) error () := fun wt =>
  (Ok (), (wt.1, span_SetAttributes span attrs wt.2)).

(** ** The traced components *)

Section webhook.
Context `{env : !ProviderEnv W} `{lib : !BreakerLib (W * T)}.

Definition send_attrs (req : ProviderRequest) : list KeyValue :=
  [("delivery_id", AttrString (pr_DeliveryID req)); ("channel", AttrString (pr_Channel req))].

Definition traced_Send (c : WebhookClient) (ctx : C) (req : ProviderRequest)
    : eff (W * T) error ProviderResult :=
  spanned ctx "provider.send" (send_attrs req) (fun _ _ => untraced (WebhookClient_Send c req)).

(** The worker's sender: the breaker in front of the webhook client. *)
Definition traced_sender (cfg : BreakerConfig) (c : WebhookClient) (ctx : C) (req : ProviderRequest)
    : eff (W * T) error ProviderResult :=
  Breaker_Send cfg (traced_Send c ctx) req.
End webhook.

Section worker.
Context `{ports : !Ports W} (sender : C -> ProviderRequest -> eff (W * T) error ProviderResult).

(** The worker's ports under a context. *)
Definition traced_ports (ctx : C) : Ports (W * T) := {|
  Worker.clock_Now := untraced Worker.clock_Now;
  Sleep d := untraced (Sleep d);
  draw := untraced draw;
  Allow c := untraced (Allow c);
  Worker.ClaimDelivery id at_ lease := untraced (Worker.ClaimDelivery id at_ lease);
  Worker.GetRequestByID id := untraced (Worker.GetRequestByID id);
  Send := sender ctx;
  Worker.MarkSent id at_ rid m := untraced (Worker.MarkSent id at_ rid m);
  Worker.MarkRetrying id at_ n next err := untraced (Worker.MarkRetrying id at_ n next err);
  Worker.MarkFailed id at_ rid n err := untraced (Worker.MarkFailed id at_ rid n err);
  Ack st id := untraced (Ack st id);
  DLQ_Publish m := untraced (DLQ_Publish m);
  Metrics m := untraced (Metrics m);
  Worker.uuid_String := Worker.uuid_String
|}.

Definition process_attrs (msg : StreamMessage) : list KeyValue :=
  let dm := sm_Delivery msg in
  [("delivery_id", AttrString (Worker.uuid_String (dm_DeliveryID dm)));
   ("request_id", AttrString (Worker.uuid_String (dm_RequestID dm)));
   ("channel", AttrString (dm_Channel dm)); ("priority", AttrString (dm_Priority dm));
   ("correlation_id", AttrString (dm_CorrelationID dm))].

(** [process] with its span; the deferred acknowledgement runs before the span ends. *)
Definition traced_process (overflow : float64 -> Z) (w : Worker) (fuel : nat) (ctx : C)
    (msg : StreamMessage) : eff (W * T) error () :=
  untraced Worker.clock_Now ≫= fun _ =>
  spanned ctx "worker.process" (process_attrs msg) (fun ctx _ =>
    process_body (ports := traced_ports ctx) overflow w fuel msg ≫= fun _ =>
    attempt (untraced (Ack (sm_Stream msg) (sm_ID msg))) ≫= fun _ =>
    untraced Worker.clock_Now ≫= fun _ =>
    untraced (Metrics (ObserveProcessing (dm_Channel (sm_Delivery msg))
                         (dm_Priority (sm_Delivery msg))))).
End worker.

Section relay.
Context `{ports : !SchedPorts W} (cfg : SchedConfig).

(** One fetched batch: its size goes on the span. *)
Fixpoint traced_batches (span : S) (fuel : nat) : eff (W * T) error () :=
  match fuel with
  | 0 => untraced spent
  | Datatypes.S fuel =>
      r ← attempt (untraced (sp_FetchUnpublishedOutbox (sc_OutboxBatchSize cfg)));
      match r with
      | Err _ => mret ()
      | Ok [] => mret ()
      | Ok entries =>
          set_attributes span [("batch_size", AttrInt (Z.of_nat (length entries)))] ≫= fun _ =>
          published ← untraced (publish_all entries);
          m ← attempt (untraced (sp_MarkOutboxPublished published));
          match m with
          | Err _ => mret ()
          | Ok _ =>
              if (Z.of_nat (length entries) <? sc_OutboxBatchSize cfg)%Z then mret ()
              else traced_batches span fuel
          end
      end
  end.

Definition traced_relay (fuel : nat) (ctx : C) : eff (W * T) error () :=
  spanned ctx "scheduler.outbox_relay" [] (fun _ span => traced_batches span fuel).
End relay.

(** The service's call inside [createNotification], whose context keeps what [Ctx] has
    and the library's part. *)
Definition create_attrs (i : CreateInput) : list KeyValue :=
  [("user_id", AttrString (ci_UserID i)); ("channel", AttrString (ci_Channel i));
   ("priority", AttrString (ci_Priority i))].

Definition traced_Create `{svc : !NotificationService W} (otel_ctx : C) (ctx : Ctx) (i : CreateInput)
    : eff (W * T) string (result error CreateResult) :=
  spanned otel_ctx "notification.create" (create_attrs i) (fun _ _ => untraced (svc_Create ctx i)).
End spans.

(** ** Following the untraced program *)

(** The traced run returns what the plain one returns, leaves the world it leaves, and
    moves the library's state by [R]. *)
Definition follows {W T E A} (R : T -> T -> Prop) (m' : eff (W * T) E A) (m : eff W E A) : Prop :=
  forall w t, exists t', m' (w, t) = ((m w).1, ((m w).2, t')) /\ R t t'.

Section follows.
Context {W T : Type} (R : T -> T -> Prop) `{!PreOrder R}.

Lemma follows_untraced {E A} (m : eff W E A) : follows R (untraced m) m.
Proof. intros w t. exists t. unfold untraced. simpl. by destruct (m w). Qed.

Lemma follows_ret {E A} (a : A) : follows R (mret a : eff (W * T) E A) (mret a).
Proof. intros w t. by exists t. Qed.

Lemma follows_raise {E A} (e : E) : follows R (raise e : eff (W * T) E A) (raise e).
Proof. intros w t. by exists t. Qed.

Lemma follows_attempt {E A} (m' : eff (W * T) E A) m : follows R m' m -> follows R (attempt m') (attempt m).
Proof.
  intros H w t. destruct (H w t) as (t' & E1 & Ht). exists t'. unfold attempt. rewrite E1.
  by destruct (m w).
Qed.

Lemma follows_bind {E A B} (m' : eff (W * T) E A) m (k' : A -> eff (W * T) E B) k :
  follows R m' m -> (forall a, follows R (k' a) (k a)) -> follows R (m' ≫= k') (m ≫= k).
Proof.
  intros Hm Hk w t. destruct (Hm w t) as (t1 & E1 & H1). unfold mbind, eff_bind. rewrite E1.
  destruct (m w) as [[a|e] w1]; simpl; [|by exists t1].
  destruct (Hk a w1 t1) as (t2 & E2 & H2). exists t2. split; [done|by etrans].
Qed.

(** A step that only the traced program makes. *)
Lemma follows_skip {E A} (u : eff (W * T) E ()) (k : eff (W * T) E A) m :
  follows R u (mret ()) -> follows R k m -> follows R (u ≫= fun _ => k) m.
Proof.
  intros Hu Hk w t. destruct (Hu w t) as (t1 & E1 & H1). unfold mbind, eff_bind. rewrite E1. simpl.
  destruct (Hk w t1) as (t2 & E2 & H2). exists t2. split; [done|by etrans].
Qed.
End follows.

#[local] Hint Resolve follows_untraced follows_ret follows_raise : follows.

(** Both programs take the same branch. *)
Ltac follow_step :=
  first [ solve [eauto with follows]
        | solve [by apply follows_raise | by apply follows_untraced]
        | apply follows_bind; [done| |intros ?]
        | apply follows_attempt
        | match goal with |- follows _ (match ?x with _ => _ end) (match ?x with _ => _ end) => destruct x end ].
Ltac follow := repeat follow_step.

(** What may happen to the library's state under a context. *)
Record trace_order {C S T} `{otel : !Otel C S T} (R : C -> T -> T -> Prop) (owns : C -> S -> Prop) : Prop := {
  to_preorder ctx : PreOrder (R ctx);
  to_span ctx name attrs t c s t1 t2 :
    StartSpan ctx name attrs t = (c, s, t1) -> R c t1 t2 -> R ctx t (span_End s t2);
  to_owns ctx name attrs t c s t1 : StartSpan ctx name attrs t = (c, s, t1) -> owns c s;
  to_set c s attrs t : owns c s -> R c t (span_SetAttributes s attrs t)
}.

Section order.
Context {C S T : Type} `{otel : !Otel C S T} (R : C -> T -> T -> Prop) (owns : C -> S -> Prop).
Hypothesis Hord : trace_order R owns.

Lemma follows_spanned {W E A} ctx name attrs (body : C -> S -> eff (W * T) E A) m :
  (forall c s, owns c s -> follows (R c) (body c s) m) -> follows (R ctx) (spanned ctx name attrs body) m.
Proof.
  intros H w t. unfold spanned. simpl. destruct (StartSpan ctx name attrs t) as [[c s] t1] eqn:Es.
  destruct (H c s (to_owns _ _ Hord _ _ _ _ _ _ _ Es) w t1) as (t2 & E1 & H2). rewrite E1.
  exists (span_End s t2). split; [done|]. by eapply (to_span _ _ Hord).
Qed.

Lemma follows_set {W} c s attrs : owns c s ->
  follows (R c) (set_attributes s attrs : eff (W * T) error ()) (mret ()).
Proof. intros Ho w t. eexists. split; [done|]. by apply (to_set _ _ Hord). Qed.

Section worker.
Context {W : Type} `{ports : !Ports W} (sender : C -> ProviderRequest -> eff (W * T) error ProviderResult).
Hypothesis Hsender : forall ctx req, follows (R ctx) (sender ctx req) (Send req).
Context (overflow : float64 -> Z) (w : Worker).

Lemma wait_follows ctx fuel deadline channel :
  follows (R ctx) (wait_loop (ports := traced_ports sender ctx) w fuel deadline channel)
    (wait_loop w fuel deadline channel).
Proof.
  pose proof (to_preorder _ _ Hord ctx). revert deadline. induction fuel as [|fuel IH]; intros deadline; simpl; [follow|].
  follow.
Qed.

Lemma failure_follows ctx del msg e :
  follows (R ctx) (handleFailure (ports := traced_ports sender ctx) overflow w del msg e)
    (handleFailure overflow w del msg e).
Proof.
  pose proof (to_preorder _ _ Hord ctx).
  unfold handleFailure, requeueWithoutAttempt, publishDLQ, panic. cbn -[EvaluateFailure]. follow.
Qed.

#[local] Hint Resolve wait_follows failure_follows : follows.

Lemma process_follows ctx fuel msg :
  follows (R ctx) (traced_process sender overflow w fuel ctx msg) (process overflow w fuel msg).
Proof.
  pose proof (to_preorder _ _ Hord ctx). unfold traced_process, process. follow.
  apply follows_spanned. intros c s _. pose proof (to_preorder _ _ Hord c).
  unfold process_body, waitForRateLimit, deliver, send, settle, requeueWithoutAttempt. follow.
Qed.
End worker.

Lemma relay_follows {W} `{ports : !SchedPorts W} cfg fuel ctx :
  follows (R ctx) (traced_relay (W := W) cfg fuel ctx) (relayOutbox cfg fuel).
Proof.
  unfold traced_relay. apply follows_spanned. intros c s Ho. pose proof (to_preorder _ _ Hord c).
  induction fuel as [|fuel IH]; simpl; [follow|]. follow.
  eapply follows_skip; [done|by apply follows_set|]. follow.
Qed.

(** The breaker's library runs the function it is given at most once and knows nothing
    of its world. *)
Lemma sender_follows {W} `{env : !ProviderEnv W} `{lib : !BreakerLib W} `{libT : !BreakerLib (W * T)}
    cfg c ctx req :
  (forall ch m' m, follows (R ctx) m' m ->
     follows (R ctx) (cb_Execute (W := W * T) cfg ch m') (cb_Execute cfg ch m)) ->
  follows (R ctx) (traced_sender (W := W) cfg c ctx req) (Breaker_Send cfg (WebhookClient_Send c) req).
Proof.
  intros Hlib. pose proof (to_preorder _ _ Hord ctx). unfold traced_sender, Breaker_Send.
  assert (Hs : follows (R ctx) (traced_Send (W := W) c ctx req) (WebhookClient_Send c req)).
  { apply follows_spanned. intros c' s _. pose proof (to_preorder _ _ Hord c'). follow. }
  follow.
Qed.

Lemma create_follows {W} `{svc : !NotificationService W} octx ctx i :
  follows (R octx) (traced_Create octx ctx i) (svc_Create ctx i).
Proof. apply follows_spanned. intros c s _. pose proof (to_preorder _ _ Hord c). follow. Qed.
End order.

(** ** Two orders *)

(** Any library, its state ignored. *)
Lemma anything_goes {C S T} `{otel : !Otel C S T} :
  trace_order (fun _ _ _ => True) (fun (_ : C) (_ : S) => True).
Proof. by split. Qed.

(** A library that writes the calls down. *)
Inductive SpanEvent :=
| EvStarted (id : nat) (parent : option nat) (name : string) (attrs : list KeyValue)
| EvAttributes (id : nat) (attrs : list KeyValue)
| EvEnded (id : nat).

#[export] Instance recorder : Otel (option nat) nat (list SpanEvent) := {
  tracer_Start _ name attrs parent t :=
    (Some (length t), length t, t ++ [EvStarted (length t) parent name attrs]);
  span_SetAttributes id attrs t := t ++ [EvAttributes id attrs];
  span_End id t := t ++ [EvEnded id]
}.

(** Spans opened under [parent], one after the other; each is ended, after the spans
    opened under it. *)
Inductive nested : option nat -> list SpanEvent -> Prop :=
| nested_nil parent : nested parent []
| nested_span parent id name attrs inner l :
    nested (Some id) inner -> nested parent l ->
    nested parent (EvStarted id parent name attrs :: inner ++ EvEnded id :: l)
| nested_attrs id attrs l :
    nested (Some id) l -> nested (Some id) (EvAttributes id attrs :: l).

Lemma nested_app parent l1 l2 : nested parent l1 -> nested parent l2 -> nested parent (l1 ++ l2).
Proof.
  intros H1 H2. induction H1 as [parent|parent id name attrs inner l Hi _ _ IH|id attrs l _ IH]; simpl; [done| |].
  - rewrite <- (assoc app). simpl. constructor; auto.
  - constructor. auto.
Qed.

(** What a span's calls add. *)
Definition recorded (parent : option nat) (t t' : list SpanEvent) : Prop :=
  exists l, t' = t ++ l /\ nested parent l.

Lemma recorder_nests : trace_order recorded (fun c s => c = Some s).
Proof.
  split.
  - intros ctx. split; [intros t; exists []; by rewrite app_nil_r; split; [|constructor]|].
    intros t1 t2 t3 (l1 & -> & H1) (l2 & -> & H2). exists (l1 ++ l2). rewrite (assoc app).
    split; [done|by apply nested_app].
  - intros ctx name attrs t c s t1 t2 [= <- <- <-] (l & -> & Hl). simpl.
    exists (EvStarted (length t) ctx name attrs :: l ++ [EvEnded (length t)]).
    rewrite <- !(assoc app). split; [done|]. constructor; [done|constructor].
  - by intros ctx name attrs t c s t1 [= <- <- <-].
  - intros c s attrs t ->. eexists. split; [done|]. constructor. constructor.
Qed.

(** ** The property *)

Section transparent.
Context {W V U : Type} `{ports : !Ports W} `{env : !ProviderEnv W} `{lib : !BreakerLib W}
  `{sched : !SchedPorts V} `{svc : !NotificationService U}.
Context (libT : forall T, BreakerLib (W * T)).
Context (bcfg : BreakerConfig) (client : WebhookClient).
(** The worker's sender is the breaker over the webhook client. *)
Hypothesis Hwired : forall req, Send req = Breaker_Send bcfg (WebhookClient_Send client) req.
(** The breaker runs the function it is given at most once, whatever its world. *)
Hypothesis Hlib : forall T (R : T -> T -> Prop) ch m' m, PreOrder R -> follows R m' m ->
  follows R (cb_Execute (W := W * T) bcfg ch m') (cb_Execute bcfg ch m).

(** C23: tracing observes and nothing else. Whatever library is behind [StartSpan],
    enabled or not, the worker's [process], the relay and the creation of a
    notification return the same, and do the same to the program's world, as without
    their spans. The calls they make to the library nest: every span that is started is
    ended, after the spans opened under it, whatever fails in between. *)
Theorem spans_transparent overflow w cfg :
  let process_as {C S T} (otel : Otel C S T) (R : C -> T -> T -> Prop) := forall ctx fuel msg,
    follows (R ctx) (traced_process (traced_sender (lib := libT T) bcfg client) overflow w fuel ctx msg)
      (process overflow w fuel msg) in
  let relay_as {C S T} (otel : Otel C S T) (R : C -> T -> T -> Prop) := forall ctx fuel,
    follows (R ctx) (traced_relay (W := V) cfg fuel ctx) (relayOutbox cfg fuel) in
  let create_as {C S T} (otel : Otel C S T) (R : C -> T -> T -> Prop) := forall octx ctx i,
    follows (R octx) (traced_Create (W := U) octx ctx i) (svc_Create ctx i) in
  (forall C S T (otel : Otel C S T), process_as otel (fun _ _ _ => True) /\
     relay_as otel (fun _ _ _ => True) /\ create_as otel (fun _ _ _ => True)) /\
  process_as recorder recorded /\ relay_as recorder recorded /\ create_as recorder recorded.
Proof.
  assert (H : forall C S T (otel : Otel C S T) R owns, trace_order R owns ->
    (forall ctx fuel msg, follows (R ctx)
       (traced_process (traced_sender (lib := libT T) bcfg client) overflow w fuel ctx msg)
       (process overflow w fuel msg)) /\
    (forall ctx fuel, follows (R ctx) (traced_relay (W := V) cfg fuel ctx) (relayOutbox cfg fuel)) /\
    (forall octx ctx i, follows (R octx) (traced_Create (W := U) octx ctx i) (svc_Create ctx i))).
  { intros C S T otel R owns Hord. split_and!; intros.
    - apply (process_follows R owns Hord). intros c req. rewrite Hwired.
      apply (sender_follows R owns Hord). intros ch m' m. apply Hlib, (to_preorder _ _ Hord).
    - apply (relay_follows R owns Hord).
    - apply (create_follows R owns Hord). }
  split; [intros C S T otel; apply (H _ _ _ otel _ _ anything_goes)|].
  apply (H _ _ _ recorder _ _ recorder_nests).
Qed.
End transparent.
