(* ===== verification/WorkerLog.v ===== *)
(** * What the worker logs (internal/worker/process.go)

    The lines one message writes. The logged components are those of [Worker] with the
    log calls in their places; the log lies beside the program's world, as the spans of
    [Tracing] do. [logged_process_follows]: logging changes nothing of what [process]
    does, and every line but one carries the attributes of the message's logger. *)

From S2P Require Import Prelude GoStrings GoFloat Domain Retry Worker WorkerSpec Http Observability Tracing.

Local Open Scope string_scope.
Local Open Scope list_scope.

(** ** slog *)

(** [slog.String], [slog.Int] and [slog.Time] *)
Inductive LogValue := LogString (s : string) | LogInt (n : Z) | LogTime (t : time).

(** A line: the attributes of the logger that writes it, then those of the call. *)
Record LogLine := mkLogLine {
  ll_Level : Level;
  ll_Message : string;
  ll_Logger : list (string * string);
  ll_Args : list (string * LogValue)
}.

Definition LogError (e : error) : list (string * LogValue) := [("error", LogString (Error e))].

(** ** The message's logger *)

(** [Worker.logger]: the attributes it adds. *)
Definition worker_logger (text : uuid -> string) (msg : StreamMessage) : list (string * string) :=
  let dm := sm_Delivery msg in
  [("delivery_id", text (dm_DeliveryID dm)); ("request_id", text (dm_RequestID dm));
   ("channel", dm_Channel dm); ("priority", dm_Priority dm)].

(** The context of [process]. *)
Definition process_context (ctx : Ctx) (msg : StreamMessage) : Ctx :=
  let id := dm_CorrelationID (sm_Delivery msg) in
  if negb (String.eqb id "") then WithCorrelationID ctx id else ctx.

(** [log] of [process]; [base] are the attributes of the worker's own logger, [w.log]. *)
Definition message_logger (text : uuid -> string) (base : list (string * string)) (ctx : Ctx)
    (msg : StreamMessage) : list (string * string) :=
  FromContext (CorrelationID (process_context ctx msg)) (base ++ worker_logger text msg).

Lemma message_logger_id text base msg :
  message_logger text base background msg =
  base ++ worker_logger text msg ++
  (if String.eqb (dm_CorrelationID (sm_Delivery msg)) "" then []
   else [("correlation_id", dm_CorrelationID (sm_Delivery msg))]).
Proof.
  unfold message_logger, process_context, FromContext.
  destruct (String.eqb (dm_CorrelationID _) "") eqn:E; cbn -[worker_logger app].
  - by rewrite (right_id_L [] (++)).
  - rewrite E. cbn -[worker_logger app]. by rewrite <- (assoc_L (++)).
Qed.

(** ** The logged components *)

Section logged.
Context {W : Type} `{ports : !Ports W} (f64_overflow : float64 -> Z) (w : Worker).
(** The attributes of [w.log] and of the message's logger. *)
Context (base log : list (string * string)).

Notation Logged := (eff (W * list LogLine) error).

Definition say (logger : list (string * string)) (level : Level) (message : string)
    (args : list (string * LogValue)) : Logged () := fun wl =>
  (Ok (), (wl.1, wl.2 ++ [mkLogLine level message logger args])).

Fixpoint logged_wait_loop (fuel : nat) (deadline : time) (channel : Channel) : Logged bool :=
  match fuel with
  | 0 => untraced out_of_fuel
  | S fuel =>
      a ← untraced (Allow channel);
      let '(allowed, retryAfter, err) := a : bool * duration * option error in
      match err with
      | Some e => say log LevelWarn "rate limiter error" (LogError e)
      | None => mret ()
      end ≫= fun _ =>
      if allowed then mret true else
      now ← untraced clock_Now;
      if (now >? deadline)%Z then mret false else
      let wait := cfg_RateWaitStep (w_cfg w) in
      let wait := if ((retryAfter >? 0) && (retryAfter <? wait))%Z then retryAfter else wait in
      untraced (Sleep wait) ≫= fun _ =>
      logged_wait_loop fuel deadline channel
  end.

Definition logged_waitForRateLimit (fuel : nat) (channel : Channel) : Logged bool :=
  now ← untraced clock_Now;
  logged_wait_loop fuel (now + cfg_RateWaitMax (w_cfg w))%Z channel.

Definition logged_requeueWithoutAttempt (del : Delivery) (reason : string) : Logged () :=
  now ← untraced clock_Now;
  let next := (now + cfg_RateWaitStep (w_cfg w))%Z in
  r ← attempt (untraced (MarkRetrying (d_ID del) (d_CreatedAt del) (d_AttemptCount del) next reason));
  match r with
  | Err err => say log LevelError "requeue failed" (LogError err)
  | Ok _ => say log LevelInfo "delivery requeued without attempt" [("reason", LogString reason)]
  end.

(** The failure of the dead letter goes to [w.log]. *)
Definition logged_publishDLQ (msg : StreamMessage) (attempts : Z) (errMsg : string) : Logged () :=
  if negb (w_dlq w) then mret () else
  let reason := if (attempts >? 0)%Z then "exhausted_retries" else "permanent_failure" in
  now ← untraced clock_Now;
  r ← attempt (untraced (DLQ_Publish (mkDLQMessage (sm_Delivery msg) reason errMsg attempts
                                        (sm_Stream msg) (sm_ID msg) now)));
  match r with
  | Err err => say base LevelWarn "dlq publish failed" (LogError err)
  | Ok _ => untraced (Metrics (IncDLQ reason))
  end.

Definition logged_handleFailure (del : Delivery) (msg : StreamMessage) (sendErr : error) : Logged () :=
  let perr := errors_As_Provider sendErr in
  if match perr with Some p => pe_BreakerOpen p | None => false end then
    logged_requeueWithoutAttempt del "circuit breaker open"
  else
    now ← untraced clock_Now;
    dr ← untraced draw;
    match EvaluateFailure f64_overflow (w_policy w) dr now (d_AttemptCount del) perr with
    | None => untraced panic
    | Some outcome =>
        match oc_Status outcome with
        | DeliveryFailed =>
            r ← attempt (untraced (MarkFailed (d_ID del) (d_CreatedAt del) (d_RequestID del)
                                     (oc_AttemptCount outcome) (Error sendErr)));
            match r with
            | Err err => say log LevelError "mark failed failed" (LogError err)
            | Ok _ =>
                untraced (Metrics (IncFailed (d_Channel del) (d_Priority del))) ≫= fun _ =>
                logged_publishDLQ msg (oc_AttemptCount outcome) (Error sendErr) ≫= fun _ =>
                say log LevelWarn "delivery failed permanently"
                  [("attempts", LogInt (oc_AttemptCount outcome)); ("error", LogString (Error sendErr))]
            end
        | _ =>
            now ← untraced clock_Now;
            let next := default now (oc_NextRetryAt outcome) in
            r ← attempt (untraced (MarkRetrying (d_ID del) (d_CreatedAt del) (oc_AttemptCount outcome)
                                     next (Error sendErr)));
            match r with
            | Err err => say log LevelError "mark retrying failed" (LogError err)
            | Ok _ =>
                untraced (Metrics (IncRetry (d_Channel del) (d_Priority del))) ≫= fun _ =>
                say log LevelInfo "delivery scheduled for retry"
                  [("attempt", LogInt (oc_AttemptCount outcome)); ("next_retry_at", LogTime next)]
            end
        end
    end.

Definition logged_settle (msg : StreamMessage) (del : Delivery) (sent : result error ProviderResult)
    : Logged () :=
  match sent with
  | Err sendErr => logged_handleFailure del msg sendErr
  | Ok res =>
      marked ← attempt (untraced (MarkSent (d_ID del) (d_CreatedAt del) (d_RequestID del)
                                    (pres_MessageID res)));
      match marked with
      | Err err => say log LevelError "mark sent failed" (LogError err)
      | Ok _ =>
          untraced (Metrics (IncSent (d_Channel del) (d_Priority del))) ≫= fun _ =>
          untraced clock_Now ≫= fun _ =>
          untraced (Metrics (ObserveE2ELatency (d_Channel del) (d_Priority del))) ≫= fun _ =>
          say log LevelInfo "delivery sent" [("provider_message_id", LogString (pres_MessageID res))]
      end
  end.

Definition logged_deliver (msg : StreamMessage) (del : Delivery) : Logged () :=
  loaded ← attempt (untraced (GetRequestByID (d_RequestID del)));
  match loaded with
  | Err err => say log LevelError "load request failed" (LogError err)
  | Ok req => untraced (send del (r_Recipient req) (r_RenderedContent req)) ≫= logged_settle msg del
  end.

Definition logged_body (fuel : nat) (msg : StreamMessage) : Logged () :=
  let dm := sm_Delivery msg in
  now ← untraced clock_Now;
  let leaseUntil := (now + cfg_LeaseTTL (w_cfg w))%Z in
  claim ← attempt (untraced (ClaimDelivery (dm_DeliveryID dm) (dm_DeliveryCreatedAt dm) leaseUntil));
  match claim with
  | Err err => say log LevelError "claim failed" (LogError err)
  | Ok None => say log LevelDebug "delivery already claimed or terminal; skipping" []
  | Ok (Some del) =>
      allowed ← logged_waitForRateLimit fuel (dm_Channel dm);
      if negb allowed then logged_requeueWithoutAttempt del "rate limited" else logged_deliver msg del
  end.

(** The deferred function of [process]. *)
Definition logged_ack (msg : StreamMessage) : Logged () :=
  r ← attempt (untraced (Ack (sm_Stream msg) (sm_ID msg)));
  match r with
  | Err err => say log LevelError "ack failed" (LogError err)
  | Ok _ => mret ()
  end ≫= fun _ =>
  untraced clock_Now ≫= fun _ =>
  untraced (Metrics (ObserveProcessing (dm_Channel (sm_Delivery msg)) (dm_Priority (sm_Delivery msg)))).
End logged.

(** [process] with its log calls, [ctx] being the context it is called with. *)
Definition logged_process {W} `{ports : !Ports W} (f64_overflow : float64 -> Z) (w : Worker)
    (base : list (string * string)) (fuel : nat) (ctx : Ctx) (msg : StreamMessage)
    : eff (W * list LogLine) error () :=
  let log := message_logger uuid_String base ctx msg in
  untraced clock_Now ≫= fun _ =>
  logged_body f64_overflow w base log fuel msg ≫= fun _ =>
  logged_ack log msg.

(** ** The lines *)

(** What a message adds to the log: every line is written by its logger [log], but
    the one that tells of a dead letter that was not published, which is written by
    the worker's own. *)
Definition line_of (base log : list (string * string)) (line : LogLine) : Prop :=
  ll_Logger line = log \/ (ll_Message line = "dlq publish failed" /\ ll_Logger line = base).

Definition spoke (base log : list (string * string)) (t t' : list LogLine) : Prop :=
  exists lines, t' = t ++ lines /\ Forall (line_of base log) lines.

#[export] Instance spoke_preorder base log : PreOrder (spoke base log).
Proof.
  split; [intros t; exists []; by rewrite (right_id_L [] (++))|].
  intros t1 t2 t3 (l1 & -> & H1) (l2 & -> & H2). exists (l1 ++ l2).
  rewrite (assoc_L (++)). split; [done|by apply Forall_app].
Qed.

Section follows.
Context {W : Type} `{ports : !Ports W} (f64_overflow : float64 -> Z) (w : Worker).
Context (base log : list (string * string)).
Notation told := (follows (spoke base log)).

Lemma told_say logger level message args :
  line_of base log (mkLogLine level message logger args) ->
  told (say (W := W) logger level message args) (mret ()).
Proof.
  intros Hl wd t. eexists. split; [done|]. eexists. split; [done|]. by apply Forall_singleton.
Qed.

(** A log call at the end, where the program returns. *)
Lemma told_last (m' : eff (W * list LogLine) error ()) m (u : eff (W * list LogLine) error ()) :
  told m' m -> told u (mret ()) -> told (m' ≫= fun _ => u) m.
Proof.
  intros Hm Hu wd t. destruct (Hm wd t) as (t1 & E1 & H1). unfold mbind, eff_bind. rewrite E1.
  destruct (m wd) as [[[]|e] w1]; simpl; [|by exists t1].
  destruct (Hu w1 t1) as (t2 & E2 & H2). exists t2. split; [done|by etrans].
Qed.

Lemma told_args level message args : told (say (W := W) log level message args) (mret ()).
Proof. apply told_say. by left. Qed.

Lemma told_dlq level args : told (say (W := W) base level "dlq publish failed" args) (mret ()).
Proof. apply told_say. by right. Qed.

#[local] Hint Resolve told_dlq follows_untraced follows_ret follows_raise told_args : follows.
(** Both programs take the same branch; a log call comes before or at the end. *)
Ltac tell_step :=
  first [ solve [eauto with follows | by apply follows_raise | by apply follows_untraced]
        | apply follows_bind; [done| |intros ?]
        | apply follows_attempt
        | eapply follows_skip; [done|by case_match; eauto with follows|]
        | apply told_last; [|solve [eauto with follows | case_match; eauto with follows]]
        | match goal with |- follows _ (match ?x with _ => _ end) (match ?x with _ => _ end) => destruct x end
        | match goal with |- follows _ (match ?x with _ => _ end) (mret ()) => destruct x end ].
Ltac tell := pose proof (spoke_preorder base log); repeat tell_step.

Lemma logged_wait_told fuel deadline channel :
  told (logged_wait_loop w log fuel deadline channel) (wait_loop w fuel deadline channel).
Proof.
  revert deadline. induction fuel as [|fuel IH]; intros deadline; simpl; tell.
Qed.

Lemma logged_requeue_told del reason :
  told (logged_requeueWithoutAttempt w log del reason) (requeueWithoutAttempt w del reason).
Proof. unfold logged_requeueWithoutAttempt, requeueWithoutAttempt. tell. Qed.

Lemma logged_failure_told del msg e :
  told (logged_handleFailure f64_overflow w base log del msg e) (handleFailure f64_overflow w del msg e).
Proof.
  unfold logged_handleFailure, handleFailure, logged_publishDLQ, publishDLQ, panic.
  pose proof logged_requeue_told. tell.
Qed.

Lemma logged_deliver_told msg del :
  told (logged_deliver f64_overflow w base log msg del) (deliver f64_overflow w msg del).
Proof.
  pose proof logged_failure_told. unfold logged_deliver, deliver, logged_settle, settle, send. tell.
Qed.

Lemma logged_body_told fuel msg :
  told (logged_body f64_overflow w base log fuel msg) (process_body f64_overflow w fuel msg).
Proof.
  pose proof logged_deliver_told. pose proof logged_requeue_told. pose proof logged_wait_told.
  unfold logged_body, process_body, logged_waitForRateLimit, waitForRateLimit. tell.
Qed.
End follows.

(** [logged_process] does to the world what [process] does, and adds lines of the
    message to the log. *)
Lemma logged_process_follows {W} `{ports : !Ports W} overflow w base fuel ctx msg :
  follows (spoke base (message_logger uuid_String base ctx msg))
    (logged_process overflow w base fuel ctx msg) (process overflow w fuel msg).
Proof.
  set (log := message_logger _ _ _ _). pose proof (spoke_preorder base log).
  pose proof (logged_body_told overflow w base log fuel msg) as Hb.
  unfold logged_process, process. fold log. unfold logged_ack.
  apply follows_bind; [done|by apply follows_untraced|]. intros ?.
  apply follows_bind; [done|exact Hb|]. intros ?.
  apply follows_bind; [done|by apply follows_attempt, follows_untraced|]. intros r.
  eapply follows_skip; [done|destruct r; [by apply follows_ret|by apply told_args]|].
  apply follows_bind; [done|by apply follows_untraced|]. intros ?. by apply follows_untraced.
Qed.

(** ** Samples *)

(** What the worker logs for the sample message of [WorkerSpec] in an environment. *)
Definition sample_lines (env : Env) : list (string * list (string * string)) :=
  map (fun l => (ll_Message l, ll_Logger l))
    (logged_process (ports := env_ports env) (fun _ => 0%Z)
       (newWorker sample_config sample_policy true) [("service", "worker")] 102 background
       (mkStreamMessage "notifications.high.sms" "1-0" (mkDeliveryMessage 11 100 1 "sms" "high" "c"))
       (mkWorld 0 [], [])).2.2.

Definition sample_dlq_down : Env := mkEnv (env_elapse sample_env) (env_allow sample_env)
  (env_claim sample_env) (env_request sample_env) (env_send sample_env) (Ok ()) (Ok ())
  (Err (ELib "redis down")) (f64_of_int 0) (fun _ => "id").

(** A dead letter that is not published is told of without the delivery, the request
    and the correlation id; the next line has them. *)
Example dlq_line_bare :
  sample_lines sample_dlq_down =
    [("dlq publish failed", [("service", "worker")]);
     ("delivery failed permanently",
      [("service", "worker"); ("delivery_id", "id"); ("request_id", "id"); ("channel", "sms");
       ("priority", "high"); ("correlation_id", "c")])].
Proof. vm_compute. reflexivity. Qed.
