(* ===== verification/Lifecycle.v ===== *)
(** * The life of a delivery: the store refines an automaton

    [next] is the abstract specification: the states of a delivery and the events
    that move it. [lifecycle_refinement] shows that every mutating call of the
    store, whatever fails in it, moves each delivery along at most one edge, the
    call's, when the worker marks only deliveries it holds in PROCESSING. *)

From S2P Require Import Prelude GoStrings Domain Template Store StoreRuns StoreInv.
From S2P Require Import StoreCreate StoreCalls StoreSamples StoreDue.

(** ** The automaton *)

Inductive event :=
| Promoted | Claimed | Delivered | GaveUp | Rescheduled | Swept | Reaped | Cancelled.

Definition next (e : event) (s : DeliveryStatus) : option DeliveryStatus :=
  match e, s with
  | Promoted, DeliveryScheduled => Some DeliveryPending
  | Claimed, (DeliveryPending | DeliveryRetrying) => Some DeliveryProcessing
  | Delivered, DeliveryProcessing => Some DeliverySent
  | GaveUp, DeliveryProcessing => Some DeliveryFailed
  | Rescheduled, DeliveryProcessing => Some DeliveryRetrying
  | Swept, DeliveryRetrying => Some DeliveryPending
  | Reaped, DeliveryProcessing => Some DeliveryRetrying
  | Cancelled, (DeliveryScheduled | DeliveryPending | DeliveryRetrying) => Some DeliveryCancelled
  | _, _ => None
  end.

(** Only a worker's verdict counts an attempt. *)
Definition counts_attempt (e : event) : bool :=
  match e with GaveUp | Rescheduled => true | _ => false end.

(** One event of a row: what it is stays, the status follows the automaton. *)
Record row_event (e : event) (x x' : Delivery) : Prop := {
  re_next : next e (d_Status x) = Some (d_Status x');
  re_key : del_key x' = del_key x;
  re_request : d_RequestID x' = d_RequestID x;
  re_route : (d_Channel x', d_Priority x') = (d_Channel x, d_Priority x);
  re_send_at : d_SendAt x' = d_SendAt x;
  re_attempts : counts_attempt e = false -> d_AttemptCount x' = d_AttemptCount x;
  re_lease : d_Status x' = DeliveryProcessing -> is_Some (d_LockedUntil x')
}.

Section lifecycle.
Context `{codec : !MessageCodec} `{uuids : !UuidSource}.

(** The event a call stands for, and the call's place in the automaton. *)
Definition call_event (c : call) : option event :=
  match c with
  | CallCancelRequest _ _ => Some Cancelled
  | CallClaimDelivery _ _ _ _ => Some Claimed
  | CallMarkSent _ _ _ _ _ => Some Delivered
  | CallMarkFailed _ _ _ _ _ _ => Some GaveUp
  | CallMarkRetrying _ _ _ _ _ _ => Some Rescheduled
  | CallPromoteDue _ _ _ => Some Promoted
  | CallSweepRetries _ _ _ => Some Swept
  | CallReapStuck _ => Some Reaped
  | _ => None
  end.

Definition creates (c : call) : Prop :=
  match c with CallCreateNotification _ _ _ _ | CallCreateBatch _ _ _ => True | _ => False end.

Definition archives (c : call) : Prop :=
  match c with CallArchiveAndDropPartition _ => True | _ => False end.

(** Dropping the partition of the day of [at_]. *)
Definition drops_day (at_ : time) (c : call) : Prop :=
  match c with
  | CallArchiveAndDropPartition day => day_of day = day_of at_
  | _ => False
  end.

Lemma drops_archives at_ c : drops_day at_ c -> archives c.
Proof. by destruct c. Qed.

(** One call, seen from one delivery: absent or a row, before and after. *)
Definition life_step (c : call) (o o' : option Delivery) : Prop :=
  match o, o' with
  | None, None => True
  | None, Some x' => creates c /\ d_LockedUntil x' = None /\
      (d_Status x' = DeliveryPending \/ d_Status x' = DeliveryScheduled)
  | Some x, Some x' => x' = x \/ exists e, call_event c = Some e /\ row_event e x x'
  | Some x, None => drops_day (d_CreatedAt x) c
  end.

(** The lease discipline: a worker marks the row it claimed and still holds. *)
Definition held (id : uuid) (at_ : time) (d : DB) : Prop :=
  forall x, x ∈ deliveries d -> del_key x = (id, timestamptz at_) ->
    d_Status x = DeliveryProcessing.

Definition disciplined (c : call) (d : DB) : Prop :=
  match c with
  | CallMarkSent id at_ _ _ _ | CallMarkFailed id at_ _ _ _ _ | CallMarkRetrying id at_ _ _ _ _ =>
      held id at_ d
  | _ => True
  end.

(** The row of a key. *)
Definition row_at (k : uuid * time) (d : DB) : option Delivery :=
  first_where (fun x => bool_decide (del_key x = k)) (deliveries d).

(** ** Rows through the store's updates *)

Lemma row_at_Some k d x : row_at k d = Some x -> x ∈ deliveries d /\ del_key x = k.
Proof. intros [H1 H2]%first_where_Some. bool_to_prop. done. Qed.

Lemma first_update (k : uuid * time) p f (l : list Delivery) :
  (forall x, x ∈ l -> p x = true -> del_key (f x) = del_key x) ->
  first_where (fun x => bool_decide (del_key x = k)) (update_where p f l)
  = (fun x => if p x then f x else x) <$> first_where (fun x => bool_decide (del_key x = k)) l.
Proof.
  intros Hk. unfold first_where, where_. induction l as [|x l IH]; [done|]. simpl.
  assert (E : del_key (if p x then f x else x) = del_key x).
  { destruct (p x) eqn:Ep; [apply Hk; [left|done]|done]. }
  rewrite E. case_bool_decide; [done|]. apply IH. intros y Hy. apply Hk. by right.
Qed.

(** An update that follows the call's event is a step of every row. *)
Lemma update_step c e p f k d d' :
  call_event c = Some e -> deliveries d' = update_where p f (deliveries d) ->
  (forall x, x ∈ deliveries d -> p x = true -> row_event e x (f x)) ->
  life_step c (row_at k d) (row_at k d').
Proof.
  intros Hc Hd Hp. unfold row_at at 2. rewrite Hd, first_update by (intros; by eapply re_key, Hp).
  fold (row_at k d). destruct (row_at k d) as [x|] eqn:E; [|done]. simpl.
  apply row_at_Some in E as [Hx _]. destruct (p x) eqn:Ep; [right; eauto|by left].
Qed.

Lemma same_step c k d d' : deliveries d' = deliveries d -> life_step c (row_at k d) (row_at k d').
Proof. intros E. unfold row_at. rewrite E. destruct (first_where _ _); [by left|done]. Qed.

Lemma append_step c k d d' l :
  creates c -> deliveries d' = deliveries d ++ l ->
  (forall x, x ∈ l -> d_LockedUntil x = None /\
     (d_Status x = DeliveryPending \/ d_Status x = DeliveryScheduled)) ->
  life_step c (row_at k d) (row_at k d').
Proof.
  intros Hc Hd Hl. unfold row_at. rewrite Hd. unfold first_where. rewrite where_app.
  destruct (where_ _ (deliveries d)) as [|x l'] eqn:E; simpl; [|by left].
  destruct (where_ _ l) as [|x l'] eqn:E2; [done|]. simpl. split; [done|].
  assert (Hx : x ∈ where_ (fun x => bool_decide (del_key x = k)) l) by (rewrite E2; left).
  apply elem_of_where in Hx as [Hx _]. by apply Hl.
Qed.

Lemma remove_step c k d d' q :
  deliveries d' = where_ q (deliveries d) ->
  (forall x y, del_key x = del_key y -> q x = q y) ->
  (forall x, q x = false -> drops_day (d_CreatedAt x) c) ->
  life_step c (row_at k d) (row_at k d').
Proof.
  intros Hd Hq Hc. unfold row_at at 2, first_where. rewrite Hd, where_where.
  destruct (row_at k d) as [x|] eqn:E.
  - pose proof (row_at_Some _ _ _ E) as [Hx Hk]. destruct (q x) eqn:Eq.
    + assert (Hsame : where_ (fun y => q y && bool_decide (del_key y = k)) (deliveries d)
        = where_ (fun y => bool_decide (del_key y = k)) (deliveries d)).
      { apply where_ext. intros y _. case_bool_decide as Ey; [|by rewrite andb_false_r].
        by rewrite (Hq y x), Eq by congruence. }
      rewrite Hsame. unfold row_at, first_where in E. rewrite E. by left.
    + rewrite where_none; [by apply Hc|]. intros y _. case_bool_decide as Ey; [|by rewrite andb_false_r].
      by rewrite (Hq y x), Eq by congruence.
  - rewrite where_none; [done|]. intros y Hy.
    pose proof (proj1 (first_where_None _ _) E y Hy) as Ey. simpl in Ey. by rewrite Ey, andb_false_r.
Qed.

(** ** Each call *)

Lemma deliveries_recomputed r d : deliveries (recomputed r d) = deliveries d.
Proof. unfold recomputed. by repeat case_match. Qed.

(** The rows a marking call updates are the ones of its key. *)
Lemma mark_step c e id at_ f k d d1 d' rid :
  call_event c = Some e -> held id at_ d ->
  d1 = update_deliveries (by_delivery_key id at_) f d ->
  (d' = d1 \/ runs (recomputeRequestStatusTx rid) d1 () d') ->
  (forall x, d_Status x = DeliveryProcessing -> row_event e x (f x)) ->
  life_step c (row_at k d) (row_at k d').
Proof.
  intros Hc Hheld -> Hd Hf.
  assert (E : deliveries d' = update_where (by_delivery_key id at_) f (deliveries d)).
  { destruct Hd as [->|H]; [done|]. apply recompute_runs in H as (r & _ & _ & ->).
    by rewrite deliveries_recomputed. }
  eapply update_step; [exact Hc|exact E|]. intros x Hx Hp. apply Hf, Hheld; [done|].
  unfold by_delivery_key in Hp. by bool_to_prop.
Qed.

Lemma transition_step c e k due key locked now limit d n d' sel :
  call_event c = Some e -> NoDup (map del_key (deliveries d)) ->
  transitioned due key locked now limit d n d' sel ->
  (forall x, due x = true -> row_event e x (pending_row now x)) ->
  life_step c (row_at k d) (row_at k d').
Proof.
  intros Hc Hnd Htr Hdue. eapply update_step; [exact Hc|apply Htr|].
  intros x Hx Hp. cbv beta in Hp. apply bool_decide_eq_true in Hp. apply list_elem_of_fmap in Hp as (y & Ey & Hy).
  destruct (tr_due _ _ _ _ _ _ _ _ _ Htr y Hy) as (Hyd & Hd & _).
  rewrite (NoDup_key_inj del_key (deliveries d) x y Hnd Hx Hyd Ey). by apply Hdue.
Qed.

Lemma outbox_deliveries now l d d' :
  runs (for_each (enqueueDueTx now) l) d () d' -> deliveries d' = deliveries d.
Proof.
  revert d. induction l as [|x l IH]; intros d H; simpl in H; [by inv_runs|].
  apply runs_bind in H as ([] & d1 & H1 & H). rewrite (IH _ H). unfold enqueueDueTx in H1.
  inv_runs. apply New_uuid_runs in Hr as ->. by apply insertOutbox_runs in H1 as (p & _ & _ & ->).
Qed.

Lemma run_step c k d d' :
  db_wf d -> legal c d -> disciplined c d -> runs (exec c) d () d' ->
  life_step c (row_at k d) (row_at k d').
Proof.
  intros Hwf Hl Hdis H. destruct c; simpl in H; unfold ignore in H;
    try (apply runs_bind in H as (? & ? & H & Hret); apply runs_ret in Hret as [_ ->]).
  - apply CreateNotification_runs in H as (_ & -> & _). destruct Hl.
    apply (append_step _ k d _ [stored_delivery x]); [done|done|].
    intros y ->%list_elem_of_singleton. simpl. rewrite ni_lock. auto.
  - apply CreateBatch_runs in H as (_ & _ & m & d1 & H1 & -> & _).
    apply create_items_runs in H1 as (-> & _ & _).
    eapply append_step; [done|simpl; by rewrite (proj1 (proj2 (add_items_proj _ _ _)))|].
    intros y Hy. apply list_elem_of_fmap in Hy as (i & -> & Hi). apply keep_sublist in Hi.
    simpl in Hl. rewrite Forall_forall in Hl. destruct (Hl i Hi) as [_ _ _ ? Hlock _].
    simpl. rewrite Hlock. auto.
  - apply CancelRequest_steps in H as (_ & H & _). apply recompute_runs in H as (r & _ & _ & ->).
    eapply update_step; [done|rewrite deliveries_recomputed; done|].
    intros y _ Hy. apply cancellable_spec in Hy as [_ Hy]. split; try done.
    destruct Hy as [E|[E|E]]; by rewrite E.
  - apply claim_runs in H as [->| ->]; [by apply same_step|].
    eapply update_step; [done|done|]. intros y _ Hy. unfold claimable in Hy.
    apply andb_true_iff in Hy as [_ Hy]. apply orb_true_iff in Hy as [Hy|Hy];
      apply has_status_eq in Hy; split; simpl; rewrite ?Hy; eauto.
  - unfold MarkSent in H. inv_runs. unfold mark_sql in Hr. case_match; simplify_eq.
    eapply mark_step; [done|exact Hdis|done|by right|]. intros y E. by split; simpl; rewrite ?E.
  - unfold MarkFailed in H. inv_runs. unfold mark_sql in Hr. case_match; simplify_eq.
    eapply mark_step; [done|exact Hdis|done|by right|]. intros y E. by split; simpl; rewrite ?E.
  - unfold MarkRetrying in H. inv_runs. unfold mark_sql in H. case_match; simplify_eq.
    eapply (mark_step _ _ _ _ _ _ _ _ _ 0%N); [done|exact Hdis|done|by left|].
    intros y E. by split; simpl; rewrite ?E.
  - apply transition_spec in H as [sel H]; [|apply Hwf].
    eapply transition_step; [done|apply Hwf|exact H|]. intros y Hy.
    apply andb_true_iff in Hy as [Hy _]. apply has_status_eq in Hy. by split; simpl; rewrite ?Hy.
  - apply transition_spec in H as [sel H]; [|apply Hwf].
    eapply transition_step; [done|apply Hwf|exact H|]. intros y Hy.
    apply andb_true_iff in Hy as [Hy _]. apply has_status_eq in Hy. by split; simpl; rewrite ?Hy.
  - apply same_step. unfold ReconcilePending in H. inv_runs. by eapply outbox_deliveries.
  - unfold ReapStuck in H. inv_runs. unfold reap_sql in Hr. simplify_eq.
    eapply update_step; [done|done|]. intros y _ Hy. apply andb_true_iff in Hy as [Hy _].
    apply has_status_eq in Hy. by split; simpl; rewrite ?Hy.
  - apply same_step. unfold MarkOutboxPublished in H. inv_runs; [done|].
    unfold mark_published_sql in H. by simplify_eq.
  - apply same_step. unfold CreateDeliveryPartition in H. inv_runs.
    unfold create_delivery_partition in H. repeat case_match; by simplify_eq.
  - unfold ArchiveAndDropPartition in H. inv_runs. unfold archive_and_drop_partition in H.
    destruct (partition_exists _ d); [|simplify_eq; by apply same_step].
    case_match; simplify_eq. eapply remove_step; [reflexivity| |].
    + intros y z E. unfold in_day. unfold del_key in E. by injection E as _ ->.
    + intros y E%negb_false_iff. unfold in_day in E. by apply Z.eqb_eq in E.
  - apply same_step. unfold PurgePublishedOutbox in H. inv_runs.
    unfold purge_published_outbox in Hr. by simplify_eq.
Qed.

Lemma exec_step c s r s' k :
  db_wf (db s) -> legal c (db s) -> disciplined c (db s) -> exec c s = (r, s') ->
  life_step c (row_at k (db s)) (row_at k (db s')).
Proof.
  intros Hwf Hl Hdis [E|H]%exec_cases; [apply same_step; by rewrite E|by apply run_step].
Qed.
End lifecycle.

(** ** Properties *)




Section properties.
Context `{codec : !MessageCodec} `{uuids : !UuidSource}.

(** C9: the store refines the delivery automaton: on reachable tables every legal
    call under the lease discipline (a worker marks only a row in PROCESSING),
    whichever of its round trips fail or are not answered, is one step of the abstract machine at
    every key: a creating call may add a row, PENDING or SCHEDULED and not
    leased; archiving its day's partition may remove one; any other call leaves the row or moves it
    along the call's own edge, keeping its identity, request, channel, priority
    and send time, keeping the attempt count unless the event counts an attempt,
    and leasing a row that becomes PROCESSING. *)
Theorem lifecycle_refinement c s r s' k :
  reachable (db s) -> legal c (db s) -> disciplined c (db s) -> exec c s = (r, s') ->
  life_step c (row_at k (db s)) (row_at k (db s')).
Proof. intros Hr. apply exec_step. by apply reachable_wf. Qed.



End properties.

(** ** Witnesses *)

Lemma lifecycle_refinement_witness :
  life_step (CallClaimDelivery 11 100000 999000 500000) (row_at (11%N, 100000%Z) sample_db)
    (row_at (11%N, 100000%Z) (db (exec (CallClaimDelivery 11 100000 999000 500000) (mkSess sample_db None [] 0)).2)).
Proof.
  apply (lifecycle_refinement (CallClaimDelivery 11 100000 999000 500000) (mkSess sample_db None [] 0) (Ok ())
    (exec (CallClaimDelivery 11 100000 999000 500000) (mkSess sample_db None [] 0)).2).
  - exact sample_db_reachable.
  - exact I.
  - exact I.
  - vm_compute. reflexivity.
Defined.

