(* ===== verification/Pipeline.v ===== *)
(** * The whole path of a notification: service, store, relay, worker

    [store_ports] runs the worker over the store; together with the service and the
    scheduler over the same tables it follows an accepted notification to the
    provider and back to the tables. *)

From S2P Require Import Prelude GoStrings GoFloat Domain Retry Store StoreRuns StoreInv StoreCreate.
From S2P Require Import StoreCalls StoreQuiet StoreSamples StoreSpec StoreDue Notification NotificationStore.
From S2P Require Import Scheduler SchedulerDrain SchedulerRelay SchedulerRecover Worker.

Local Open Scope string_scope.
Local Open Scope list_scope.

(** ** The worker over the store *)

(** The session of the worker, the number of times the clock was read, what the
    provider was asked to send, what was acknowledged and dead-lettered. *)
Record PWorld := mkPWorld {
  pw_sess : Sess;
  pw_ticks : nat;
  pw_sends : list ProviderRequest;
  pw_acks : list (string * string);
  pw_dlq : list DLQMessage
}.

Definition pw_tables (p : PWorld) : DB := db (pw_sess p).

Section ports.
Context (clock : nat -> time) (answer : ProviderRequest -> result error ProviderResult).
Context (jitter : float64) (text : uuid -> string).

Definition pipe_store {A} (m : eff Sess error A) : eff PWorld error A := fun p =>
  let '(r, s) := m (pw_sess p) in
  (r, mkPWorld s (pw_ticks p) (pw_sends p) (pw_acks p) (pw_dlq p)).

Definition pipe_now : eff PWorld error time := fun p =>
  (Ok (clock (pw_ticks p)), mkPWorld (pw_sess p) (S (pw_ticks p)) (pw_sends p) (pw_acks p) (pw_dlq p)).

(** A statement's [now()] is the database's clock: read like the worker's. *)
Definition pipe_at {A} (m : time -> eff Sess error A) : eff PWorld error A :=
  now ← pipe_now; pipe_store (m now).

(** The limiter has tokens; the queue and the dead-letter stream answer. *)
#[local] Instance store_ports : Ports PWorld := {
  clock_Now := pipe_now;
  Sleep _ := mret ();
  draw := mret jitter;
  Allow _ := mret (true, 0%Z, None);
  ClaimDelivery id at_ lease := pipe_at (Store.ClaimDelivery id at_ lease);
  GetRequestByID id := pipe_store (Store.GetRequestByID id);
  Send req := fun p =>
    (answer req, mkPWorld (pw_sess p) (pw_ticks p) (pw_sends p ++ [req]) (pw_acks p) (pw_dlq p));
  MarkSent id at_ rid m := pipe_at (Store.MarkSent id at_ rid m);
  MarkRetrying id at_ k next e := pipe_at (Store.MarkRetrying id at_ k next e);
  MarkFailed id at_ rid k e := pipe_at (Store.MarkFailed id at_ rid k e);
  Ack stream id := fun p =>
    (Ok (), mkPWorld (pw_sess p) (pw_ticks p) (pw_sends p) (pw_acks p ++ [(stream, id)]) (pw_dlq p));
  DLQ_Publish m := fun p =>
    (Ok (), mkPWorld (pw_sess p) (pw_ticks p) (pw_sends p) (pw_acks p) (pw_dlq p ++ [m]));
  Metrics _ := mret ();
  uuid_String := text
}.

(** The request a delivery asks of the provider. *)
Definition provider_request (x : Delivery) (q : Request) : ProviderRequest :=
  mkProviderRequest (text (d_ID x)) (r_Recipient q) (d_Channel x) (r_RenderedContent q).

(** ** One message *)

Section one_message.
Context (overflow : float64 -> Z) (w : Worker) (fuel : nat) (msg : StreamMessage).
Context (n : N).

Lemma pipe_store_quiet {A} (m : eff Sess error A) s s' r t se a q :
  m s = (r, s') -> pipe_store m (mkPWorld s t se a q) = (r, mkPWorld s' t se a q).
Proof. unfold pipe_store. simpl. by intros ->. Qed.

Lemma pipe_at_quiet {A} (m : time -> eff Sess error A) s s' r t se a q :
  m (clock t) s = (r, s') -> pipe_at m (mkPWorld s t se a q) = (r, mkPWorld s' (S t) se a q).
Proof. intros H. unfold pipe_at, pipe_now, mbind, eff_bind. simpl. by apply pipe_store_quiet. Qed.

Local Abbreviation id := (dm_DeliveryID (sm_Delivery msg)).
Local Abbreviation at_ := (dm_DeliveryCreatedAt (sm_Delivery msg)).

(** A message whose delivery cannot be claimed is acknowledged, nothing else. *)
Lemma process_unclaimed d t se a q :
  (forall y, y ∈ deliveries d -> claimable id at_ y = false) ->
  exists t', process overflow w fuel msg (mkPWorld (quiet d None n) t se a q)
    = (Ok (), mkPWorld (quiet d None n) t' se (a ++ [(sm_Stream msg, sm_ID msg)]) q).
Proof.
  intros H. assert (Hc : forall now lease, Store.ClaimDelivery id at_ lease now (quiet d None n)
    = (Ok None, quiet d None n)).
  { intros now lease. rewrite ClaimDelivery_quiet. rewrite (proj2 (first_where_None _ _) H).
    unfold update_deliveries. rewrite update_none by done. by destruct d. }
  eexists. unfold process, process_body.
  unfold mbind at 1, eff_bind at 1. cbn [clock_Now store_ports]. unfold pipe_now at 1. cbn [pw_sess pw_ticks pw_sends pw_acks pw_dlq].
  erewrite bind_step_ok; [|erewrite bind_step_ok; [|reflexivity];
    erewrite attempt_bind; [|by apply pipe_at_quiet, Hc]; reflexivity].
  reflexivity.
Qed.

(** The tables after a claim. *)
Lemma claimed_tables d x lease now :
  db_wf d -> x ∈ deliveries d -> claimable id at_ x = true ->
  let d1 := update_deliveries (claimable id at_) (claim_row lease now) d in
  Store.ClaimDelivery id at_ lease now (quiet d None n)
    = (Ok (Some (claim_row lease now x)), quiet d1 None n) /\
  db_wf d1 /\ claim_row lease now x ∈ deliveries d1 /\
  (forall y, y ∈ deliveries d -> y <> x ->
     y ∈ deliveries d1 /\ y <> claim_row lease now x).
Proof.
  intros Hwf Hx Hc d1.
  assert (Hkey : forall y, y ∈ deliveries d -> claimable id at_ y = true -> y = x).
  { intros y Hy [Hk _]%claimable_spec. apply claimable_spec in Hc as [Hkx _].
    apply (NoDup_key_inj del_key (deliveries d)); [apply Hwf|done|done|congruence]. }
  assert (E : Store.ClaimDelivery id at_ lease now (quiet d None n)
    = (Ok (Some (claim_row lease now x)), quiet d1 None n)).
  { rewrite ClaimDelivery_quiet. by rewrite (first_where_single _ _ x). }
  split_and!; [done| | |].
  - apply (claim_wf id at_ lease now d (Some (claim_row lease now x))); [|done].
    exists (quiet d None n), (quiet d1 None n). done.
  - apply elem_of_update. exists x. by rewrite Hc.
  - intros y Hy Hne. split.
    + apply elem_of_update. exists y. split; [done|]. destruct (claimable id at_ y) eqn:E'; [|done].
      by apply Hkey in E'.
    + intros ->. apply Hne. apply (NoDup_key_inj del_key (deliveries d)); [apply Hwf|done|done|done].
Qed.

(** A message whose request the reader does not have yet: the delivery stays claimed
    until its lease ends, no call to the provider, one acknowledgement. *)
Lemma process_stale_reader d rep x t se a q :
  db_wf d -> x ∈ deliveries d -> claimable id at_ x = true ->
  (forall r, r ∈ requests rep -> r_ID r <> d_RequestID x) ->
  exists lease c t',
    process overflow w (S fuel) msg (mkPWorld (quiet d (Some rep) n) t se a q)
      = (Ok (), mkPWorld (quiet (update_deliveries (claimable id at_) (claim_row lease c) d) (Some rep) n) t' se
                  (a ++ [(sm_Stream msg, sm_ID msg)]) q) /\
    claim_row lease c x ∈ deliveries (update_deliveries (claimable id at_) (claim_row lease c) d).
Proof.
  intros Hwf Hx Hc Hno. set (lease := (clock (S t) + cfg_LeaseTTL (w_cfg w))%Z).
  destruct (claimed_tables d x lease (clock (S (S t))) Hwf Hx Hc) as (_ & _ & Hx1 & _).
  set (d1 := update_deliveries (claimable id at_) (claim_row lease (clock (S (S t)))) d) in *.
  assert (E1 : Store.ClaimDelivery id at_ lease (clock (S (S t))) (quiet d (Some rep) n)
    = (Ok (Some (claim_row lease (clock (S (S t))) x)), quiet d1 (Some rep) n)).
  { rewrite ClaimDelivery_quiet. rewrite (first_where_single _ _ x); try done.
    intros y Hy [Hk _]%claimable_spec. apply claimable_spec in Hc as [Hkx _].
    apply (NoDup_key_inj del_key (deliveries d)); [apply Hwf|done|done|congruence]. }
  assert (E2 : Store.GetRequestByID (d_RequestID x) (quiet d1 (Some rep) n)
    = (Err ErrNotFound, quiet d1 (Some rep) n)).
  { rewrite GetRequestByID_quiet. simpl.
    assert (E : where_ (by_request_id (d_RequestID x)) (requests rep) = []); [|by rewrite E].
    apply where_none. intros r Hr. by apply bool_decide_false, Hno. }
  eexists lease, _, _. split; [|exact Hx1].
  unfold process. erewrite bind_step_ok by reflexivity.
  erewrite bind_step_ok; [|unfold process_body; erewrite bind_step_ok by reflexivity;
    erewrite attempt_bind by (by apply pipe_at_quiet);
    unfold waitForRateLimit; erewrite bind_step_ok by reflexivity;
    cbn [negb]; unfold deliver; erewrite attempt_bind by (by apply pipe_store_quiet); reflexivity].
  reflexivity.
Qed.

(** A message whose delivery can be claimed and which the provider accepts: one
    call to the provider, the delivery and its request SENT, one acknowledgement. *)
Lemma process_sends d x r res t se a q :
  db_wf d -> x ∈ deliveries d -> claimable id at_ x = true ->
  first_where (by_request_id (d_RequestID x)) (requests d) = Some r ->
  answer (provider_request x r) = Ok res -> varchar 255 (pres_MessageID res) = true ->
  exists d' t' x',
    process overflow w (S fuel) msg (mkPWorld (quiet d None n) t se a q)
      = (Ok (), mkPWorld (quiet d' None n) t' (se ++ [provider_request x r])
                  (a ++ [(sm_Stream msg, sm_ID msg)]) q) /\
    d_Status x' = DeliverySent /\ d_ProviderMessageID x' = Some (pres_MessageID res) /\
    del_key x' = del_key x /\ d_AttemptCount x' = d_AttemptCount x /\ settled d x x' RequestSent d'.
Proof.
  intros Hwf Hx Hc Hr Hans Hvar.
  pose proof (proj1 (proj1 (claimable_spec _ _ _) Hc)) as Hkey.
  unfold del_key in Hkey. injection Hkey as Hid Hat.
  set (lease := (clock (S t) + cfg_LeaseTTL (w_cfg w))%Z).
  destruct (claimed_tables d x lease (clock (S (S t))) Hwf Hx Hc) as (E1 & Hwf1 & Hx1 & Hoth).
  set (d1 := update_deliveries (claimable id at_) _ d) in *.
  set (x1 := claim_row lease (clock (S (S t))) x) in *.
  set (now := clock (S (S (S (S t))))).
  exists (recomputed r (update_deliveries (by_delivery_key (d_ID x) (d_CreatedAt x))
            (sent_row (pres_MessageID res) now) d1)).
  eexists _, (sent_row (pres_MessageID res) now x1).
  assert (E2 : Store.GetRequestByID (d_RequestID x) (quiet d1 None n) = (Ok r, quiet d1 None n)).
  { rewrite GetRequestByID_quiet. simpl. apply first_where_rows in Hr as (rest & Hw).
    change (requests d1) with (requests d). by rewrite Hw. }
  assert (E3 : Store.MarkSent (d_ID x) (d_CreatedAt x) (d_RequestID x) (pres_MessageID res) now
      (quiet d1 None n) = (Ok (), quiet (recomputed r (update_deliveries
        (by_delivery_key (d_ID x) (d_CreatedAt x)) (sent_row (pres_MessageID res) now) d1)) None n))
    by by apply MarkSent_quiet.
  split_and!; [|done|done|done|done|].
  - unfold process. erewrite bind_step_ok by reflexivity.
    erewrite bind_step_ok; [|unfold process_body; erewrite bind_step_ok by reflexivity;
      erewrite attempt_bind by (by apply pipe_at_quiet);
      unfold waitForRateLimit; erewrite bind_step_ok by reflexivity;
      cbn [negb]; unfold deliver; erewrite attempt_bind by (by apply pipe_store_quiet);
      unfold send; erewrite bind_step_ok by (erewrite attempt_bind by reflexivity; reflexivity);
      change (mkProviderRequest _ _ _ _) with (provider_request x r); rewrite Hans;
      unfold settle; erewrite attempt_bind by (by apply pipe_at_quiet); reflexivity].
    reflexivity.
  - assert (Hs : settled d1 x1 (sent_row (pres_MessageID res) now x1) RequestSent
      (recomputed r (update_deliveries (by_delivery_key (d_ID x) (d_CreatedAt x))
        (sent_row (pres_MessageID res) now) d1))).
    { apply settle_runs; try done; [by apply mark_row_update|by apply (key_only d1 x1)]. }
    destruct Hs as [S1 S2 S3 S4 S5 S6]. split; try done.
    + intros y Hy Hne. destruct (Hoth y Hy Hne). by apply S2.
    + rewrite S3. apply length_update.
Qed.
End one_message.
End ports.

(** ** From the API to the provider *)

Section journey.
Context `{codec : !MessageCodec} `{uuids : !UuidSource} (Quote : string -> string).
Context (Hcodec : forall m, exists p, marshalMessage m = Ok p /\ unmarshalMessage p = Ok m).
#[local] Instance journey_renderer : Renderer App := app_renderer Quote.

(** The tables after an immediate creation: its rows, a PENDING delivery and an
    unpublished outbox row that carries its message. *)
Lemma created_rows corr i a res a' :
  app_env a = [] -> Create corr i a = (Ok res, a') -> cr_Duplicate res = false ->
  scheduled_for_later i (app_clock a) = false ->
  exists x row msg, x ∈ deliveries (tables a') /\
    stored_request (cr_Request res) ∈ requests (tables a') /\
    d_RequestID x = r_ID (cr_Request res) /\ d_Status x = DeliveryPending /\
    d_Channel x = ci_Channel i /\ r_Recipient (cr_Request res) = ci_Recipient i /\
    del_key x = (dm_DeliveryID msg, timestamptz (dm_DeliveryCreatedAt msg)) /\
    row ∈ outbox (tables a') /\ unpublished row = true /\
    carries row (Stream (ci_Priority i) (ci_Channel i), msg) /\ dm_CorrelationID msg = corr /\
    (readable (tables a) -> readable (tables a')).
Proof.
  intros He Hc Hd Hnow. apply Create_outcomes in Hc as [(_ & H) _]; [|done].
  rewrite Hd in H. destruct H as (bt & (content & rid & did & oid & _ & ->) & Hq & Ht & _).
  unfold built_rows in *. rewrite Hnow in *. cbn [bt_Request bt_Delivery bt_Outbox] in *.
  set (msg := mkDeliveryMessage did (app_clock a) rid (ci_Channel i) (ci_Priority i) corr) in *.
  destruct (Hcodec msg) as (payload & Hm & Hu).
  set (row := mkOutboxRow oid did (timestamptz (app_clock a))
                (Stream (ci_Priority i) (ci_Channel i)) payload (app_db_clock a) None).
  assert (Ho : outbox (tables a') = outbox (tables a) ++ [row]).
  { rewrite Ht. unfold add_item. simpl. unfold outbox_row. simpl. by rewrite Hm. }
  eexists _, row, msg. rewrite Ho. split_and!.
  - rewrite Ht. unfold add_item. simpl. apply elem_of_app. right. left.
  - rewrite Ht, Hq. unfold add_item. simpl. apply elem_of_app. right. left.
  - by rewrite Hq.
  - done.
  - done.
  - by rewrite Hq.
  - done.
  - apply elem_of_app. right. left.
  - done.
  - done.
  - done.
  - intros Hr y Hy Hun. rewrite Ho in Hy. apply elem_of_app in Hy as [Hy|Hy]; [by apply Hr|].
    apply list_elem_of_singleton in Hy as ->. simpl. by rewrite Hu.
Qed.

(** The relay's tables, and the message it published for an outbox row. *)
Lemma relayed_row cfg up now locked depth pending fuel d rep n sent tries metrics row p :
  db_wf d -> (forall k, up k = true) -> (0 < sc_OutboxBatchSize cfg)%Z -> readable d ->
  count_where unpublished (outbox d) < fuel ->
  row ∈ outbox d -> unpublished row = true -> carries row p ->
  exists s',
    relayOutbox (ports := store_sched up now locked depth pending) cfg fuel
      (mkSWorld (quiet d rep n) sent tries metrics) = (Ok (), s') /\
    p ∈ sw_sent s' /\ deliveries (sw_db s') = deliveries d /\ requests (sw_db s') = requests d /\
    db_wf (sw_db s').
Proof.
  intros Hwf Hup Hb Hr Hf Hrow Hun [Hc1 Hc2].
  destruct (relay_drains up now locked depth pending cfg fuel d rep n sent tries metrics
    (wf_outbox_ids _ _ _ Hwf) Hup Hb Hr Hf) as (rows & new & s' & E & Hp & _ & Hall & Hs & Hdb).
  exists s'. unfold sw_db. rewrite Hdb. split_and!; try done.
  - assert (Hin : row ∈ rows) by (rewrite Hp; by apply elem_of_where).
    apply list_elem_of_lookup in Hin as [k Hk].
    destruct (Forall2_lookup_l _ _ _ _ _ Hall Hk) as (p' & Hk' & [H1 H2]).
    assert (p' = p) as -> by (destruct p, p'; simpl in *; congruence).
    rewrite Hs. apply elem_of_app. right. by eapply list_elem_of_lookup_2.
  - apply wf_set_outbox; [|done]. rewrite map_update_key by done. apply Hwf.
Qed.

(** C2: an accepted notification is sent, once. When [Create] accepts a notification
    to be sent now, the relay, with the database and the queue up, publishes on the
    stream of its priority and channel a message that names its delivery; a worker
    that takes the message and reads the primary, with a token and a provider that
    accepts under a message id of at most 255 characters, makes one call to the provider, for the recipient and the content the request was accepted
    with, leaves the request SENT and acknowledges the message; and any later
    delivery of that message, as Redis may make, is acknowledged and does nothing
    else. *)
Theorem accepted_is_sent corr i a res a' cfg up now locked depth pending fuel rep n sent tries metrics :
  app_env a = [] -> reachable (tables a) -> readable (tables a) ->
  Create corr i a = (Ok res, a') -> cr_Duplicate res = false ->
  scheduled_for_later i (app_clock a) = false ->
  (forall k, up k = true) -> (0 < sc_OutboxBatchSize cfg)%Z ->
  count_where unpublished (outbox (tables a')) < fuel ->
  let stream := Stream (ci_Priority i) (ci_Channel i) in
  exists s' msg,
    relayOutbox (ports := store_sched up now locked depth pending) cfg fuel
      (mkSWorld (quiet (tables a') rep n) sent tries metrics) = (Ok (), s') /\
    (stream, msg) ∈ sw_sent s' /\
    forall clock answer jitter text overflow w wait qid m t se ak dl pres,
      let req := mkProviderRequest (text (dm_DeliveryID msg)) (ci_Recipient i) (ci_Channel i)
                   (r_RenderedContent (cr_Request res)) in
      let run id := process (ports := store_ports clock answer jitter text) overflow w (S wait)
                      (mkStreamMessage stream id msg) in
      answer req = Ok pres -> varchar 255 (pres_MessageID pres) = true ->
      exists d1 t1,
        run qid (mkPWorld (quiet (sw_db s') None m) t se ak dl)
          = (Ok (), mkPWorld (quiet d1 None m) t1 (se ++ [req]) (ak ++ [(stream, qid)]) dl) /\
        (exists q, q ∈ requests d1 /\ r_ID q = r_ID (cr_Request res) /\ r_Status q = RequestSent) /\
        forall qid2 t2 se2 ak2, exists t3,
          run qid2 (mkPWorld (quiet d1 None m) t2 se2 ak2 dl)
          = (Ok (), mkPWorld (quiet d1 None m) t3 se2 (ak2 ++ [(stream, qid2)]) dl).
Proof.
  intros He Hr Hread Hc Hdup Hnow Hup Hb Hf stream.
  pose proof (proj2 (Create_outcomes Quote corr i a (Ok res) a' He Hc) Hr) as Hr'.
  apply reachable_wf in Hr'.
  destruct (created_rows corr i a res a' He Hc Hdup Hnow)
    as (x & row & msg & Hx & Hq & Hrid & Hst & Hch & Hrec & Hkey & Hrow & Hun & Hcar & _ & Hread').
  destruct (relayed_row cfg up now locked depth pending fuel (tables a') rep n sent tries metrics
    row (stream, msg) Hr' Hup Hb (Hread' Hread) Hf Hrow Hun Hcar) as (s' & E & Hin & Hds & Hrs & Hwf).
  exists s', msg. split_and!; [done|done|].
  intros clock answer jitter text overflow w wait qid m t se ak dl pres req run Hans Hvar.
  rewrite <- Hds in Hx. rewrite <- Hrs in Hq.
  assert (Hcl : claimable (dm_DeliveryID msg) (dm_DeliveryCreatedAt msg) x = true).
  { apply claimable_spec. rewrite Hkey. by split; [|left]. }
  assert (Hfirst : first_where (by_request_id (d_RequestID x)) (requests (sw_db s'))
    = Some (stored_request (cr_Request res))).
  { apply first_where_single; [|done|by apply bool_decide_true].
    intros y Hy Hid. unfold by_request_id in Hid. bool_to_prop.
    apply (NoDup_key_inj r_ID (requests (sw_db s'))); [apply Hwf|done|done|simpl; congruence]. }
  assert (Hreq : provider_request text x (stored_request (cr_Request res)) = req).
  { unfold provider_request, req. apply (f_equal fst) in Hkey. simpl in Hkey. simpl.
    by rewrite Hch, Hrec, Hkey. }
  destruct (process_sends clock answer jitter text overflow w wait (mkStreamMessage stream qid msg) m
    (sw_db s') x (stored_request (cr_Request res)) pres t se ak dl Hwf Hx Hcl Hfirst)
    as (d1 & t1 & x' & Hrun & Hs1 & _ & Hk' & _ & Hset); [by rewrite Hreq|done|].
  exists d1, t1. rewrite Hreq in Hrun. split_and!; [done| |].
  - destruct (se_request _ _ _ _ _ Hset) as (q & ? & ? & ?). exists q. by rewrite <- Hrid.
  - intros qid2 t2 se2 ak2. apply (process_unclaimed clock answer jitter text overflow w (S wait)
      (mkStreamMessage stream qid2 msg)). simpl.
    intros y Hy. destruct (claimable _ _ y) eqn:Ey; [|done]. exfalso.
    apply claimable_spec in Ey as [Hky Hsty].
    assert (y = x') as ->.
    { apply (NoDup_key_inj del_key (deliveries d1)); [apply (se_wf _ _ _ _ _ Hset)|done| |congruence].
      apply (se_delivery _ _ _ _ _ Hset). }
    rewrite Hs1 in Hsty. by destruct Hsty.
Qed.
End journey.

(** ** Witness *)

Definition accepting (req : ProviderRequest) : result error ProviderResult :=
  Ok (mkProviderResult "prov-9" "accepted" 0).

Definition created_app : App :=
  (@Create App _ (app_renderer sample_quote) _ "c" (sample_input (Some "new") None)
     (app_on sample_db [])).2.

Lemma accepted_is_sent_witness :
  exists s' msg,
    relayOutbox (ports := store_sched (fun _ => true) 700 no_lock no_gauge no_gauge) sample_sched 9
      (mkSWorld (quiet (tables created_app) None 0) [] 0 []) = (Ok (), s') /\
    exists d1 t1,
      process (ports := store_ports (fun k => Z.of_nat k) accepting (f64_of_int 0) (fun _ => "id"))
        (fun _ => 0%Z) (newWorker (mkConfig AllPriorities AllChannels 8 "c1" 16 Minute 0 0 0) sample_policy true)
        1 (mkStreamMessage (Stream "high" "sms") "1-0" msg)
        (mkPWorld (quiet (sw_db s') None 0) 0 [] [] [])
      = (Ok (), mkPWorld (quiet d1 None 0) t1 [mkProviderRequest "id" "+905551234567" "sms" "hi"]
                  [(Stream "high" "sms", "1-0")] []).
Proof.
  destruct (@Create App _ (app_renderer sample_quote) _ "c" (sample_input (Some "new") None)
    (app_on sample_db [])) as [r a'] eqn:E.
  assert (Ea : created_app = a') by (unfold created_app; by rewrite E).
  destruct r as [res|e]; [|exfalso; vm_compute in E; discriminate].
  assert (Hres : r_RenderedContent (cr_Request res) = "hi" /\ cr_Duplicate res = false)
    by (vm_compute in E; injection E as <- _; split; reflexivity).
  destruct Hres as [Hcontent Hdup].
  destruct (accepted_is_sent sample_quote sample_codec_total "c" (sample_input (Some "new") None)
    (app_on sample_db []) res a' sample_sched (fun _ => true) 700 no_lock no_gauge no_gauge 9 None 0 [] 0 [])
    as (s' & msg & E1 & _ & H).
  - reflexivity.
  - exact sample_db_reachable.
  - exact sample_readable.
  - exact E.
  - exact Hdup.
  - reflexivity.
  - reflexivity.
  - reflexivity.
  - rewrite <- Ea. apply Nat.ltb_lt. vm_compute. reflexivity.
  - exists s', msg. rewrite Ea. split; [exact E1|].
    destruct (H (fun k => Z.of_nat k) accepting (f64_of_int 0) (fun _ => "id") (fun _ => 0%Z)
      (newWorker (mkConfig AllPriorities AllChannels 8 "c1" 16 Minute 0 0 0) sample_policy true) 0
      "1-0" 0%N 0 [] [] [] (mkProviderResult "prov-9" "accepted" 0)) as (d1 & t1 & Hrun & _);
      [reflexivity|reflexivity|].
    exists d1, t1. rewrite Hcontent in Hrun. exact Hrun.
Defined.
