(* ===== verification/Correlation.v ===== *)
(** * Correlation ids, from the client to the worker's logs

    The API takes a request's [X-Correlation-ID] into its context, the service writes
    it into the message of the delivery, and the worker's logger takes it from there.
    [correlation_followed] follows it along that way, and says where it ends: a message
    that the scheduler writes carries none. At the end, the traced components of
    [Tracing] run on sample worlds. *)

From S2P Require Import Prelude GoStrings GoFloat Domain GoText Retry Template Store StoreRuns StoreInv StoreCreate.
From S2P Require Import StoreCalls StoreQuiet StoreSamples StoreSpec StoreDue Notification NotificationStore.
From S2P Require Import Worker WorkerSpec Scheduler SchedulerDrain SchedulerRelay Auth Provider ProviderSpec Cursor Http HttpSpec.
From S2P Require Import SchedulerRecover Api Observability Tracing WorkerLog Pipeline.

Local Open Scope string_scope.
Local Open Scope list_scope.

(** ** Messages of the scheduler *)

(** The calls that put a delivery on its stream again. *)
Definition requeues (c : call) : Prop :=
  match c with
  | CallPromoteDue _ _ _ | CallSweepRetries _ _ _ | CallReconcilePending _ _ _ _ _ => True
  | _ => False
  end.

Section correlation.
Context `{codec : !MessageCodec} `{uuids : !UuidSource}.
Context (Hcodec : forall m, exists p, marshalMessage m = Ok p /\ unmarshalMessage p = Ok m).

Definition anonymous (row : OutboxRow) : Prop :=
  exists m, unmarshalMessage (ob_payload row) = Ok m /\ dm_CorrelationID m = "".

Lemma enqueued_anonymous now sel rows row :
  Forall2 (enqueued now) sel rows -> row ∈ rows -> anonymous row.
Proof.
  intros H [i Hi]%list_elem_of_lookup. destruct (Forall2_lookup_r _ _ _ _ _ H Hi) as (x & _ & He).
  exists (due_message x). split; [|done]. destruct (Hcodec (due_message x)) as (p & E1 & E2).
  rewrite (eq_payload _ _ _ He) in E1. by simplify_eq.
Qed.

Lemma requeued_anonymous c s r s' row :
  db_wf (db s) -> requeues c -> exec c s = (r, s') -> row ∈ outbox (db s') ->
  row ∈ outbox (db s) \/ anonymous row.
Proof.
  intros Hwf Hc [E|H]%exec_cases Hrow; [left; by rewrite <- E|].
  assert (Hnew : exists rows sel now, outbox (db s') = outbox (db s) ++ rows /\ Forall2 (enqueued now) sel rows).
  { destruct c; try done; simpl in H; unfold ignore in H;
      apply runs_bind in H as (? & ? & H & Hret); apply runs_ret in Hret as [_ ->].
    - apply transition_spec in H as [sel H]; [|apply Hwf].
      destruct (tr_outbox _ _ _ _ _ _ _ _ _ H) as (rows & new & ? & _ & ?). eauto.
    - apply transition_spec in H as [sel H]; [|apply Hwf].
      destruct (tr_outbox _ _ _ _ _ _ _ _ _ H) as (rows & new & ? & _ & ?). eauto.
    - destruct (ReconcilePending_spec _ _ _ _ _ _ _ _ H) as (sel & rows & -> & ? & _). by exists rows, sel, now. }
  destruct Hnew as (rows & sel & now & E & Hrows). rewrite E in Hrow.
  apply elem_of_app in Hrow as [?|?]; [by left|right]. by eapply enqueued_anonymous.
Qed.

Context (Quote : string -> string).
Context `{ut : !UuidText} `{txt : !HttpText} `{jwt : !Jwt} (unmatched : HttpRequest -> Z).
#[local] Instance api_service : NotificationService App := app_service Quote.
#[local] Instance api_http : HttpEnv App := app_http unmatched.

(** C22: a correlation id is followed from the client to the worker's logs, once. When
    a POST of an authenticated client with an [X-Correlation-ID] creates a notification
    to be sent now, the response repeats the id and the message waiting in the outbox
    carries it. Whatever worker processes that message, and whatever its ports answer,
    the log calls change nothing of what [process] does, and every line they write for
    the message has the id beside the delivery, the request, the channel and the
    priority, except the one that tells of a dead letter that could not be published,
    which has none of them. A message that the scheduler writes (for a scheduled
    delivery, a retry, or a delivery it takes back) carries no id, so what the worker
    logs for it has no correlation id. *)
Theorem correlation_followed secret hdr body a u b i :
  app_env a = [] ->
  ParseToken (app_clock a) secret (bearerToken (hdr authHeader)) = Ok u ->
  decodeJSON decode_createRequest (post_request hdr body) = Ok b ->
  createRequest_toInput b (hdr "Idempotency-Key") = Ok i ->
  hdr correlationHeader <> "" -> scheduled_for_later i (app_clock a) = false ->
  forall a' rw,
  serve secret false [] (post_request hdr body) a = (Ok (), (a', rw)) -> rw_Status rw = Some 202%Z ->
  let id := hdr correlationHeader in
  rw_CorrelationID rw = Some id /\
  (exists row msg, row ∈ outbox (tables a') /\ unpublished row = true /\
     unmarshalMessage (ob_payload row) = Ok msg /\
     forall W (ports : Ports W) overflow w fuel base stream qid,
       let m := mkStreamMessage stream qid msg in
       follows (spoke base (base ++ worker_logger Worker.uuid_String m ++ [("correlation_id", id)]))
         (logged_process overflow w base fuel background m) (process overflow w fuel m)) /\
  (forall c s r s' row, db_wf (db s) -> requeues c -> exec c s = (r, s') ->
     row ∈ outbox (db s') -> row ∉ outbox (db s) ->
     exists msg, unmarshalMessage (ob_payload row) = Ok msg /\
     forall W (ports : Ports W) overflow w fuel base stream qid,
       let m := mkStreamMessage stream qid msg in
       follows (spoke base (base ++ worker_logger Worker.uuid_String m))
         (logged_process overflow w base fuel background m) (process overflow w fuel m)).
Proof.
  unfold api_service, api_http.
  intros Henv Ht Hb Hi Hid Hnow a' rw Hrun Hst. set (id := hdr correlationHeader) in *. set (r := post_request hdr body) in *.
  assert (Erid : request_id r a = id) by
    (unfold request_id; change (rq_Header r) with hdr; fold id; by apply String.eqb_neq in Hid as ->).
  assert (Eaft : after_id r a = a) by
    (unfold after_id; change (rq_Header r) with hdr; fold id; by apply String.eqb_neq in Hid as ->).
  destruct (serve_create Quote unmatched secret hdr body a u b i Ht Hb Hi) as (res & a1 & rw1 & Hc & Hrun1 & Hres).
  fold r in Hc, Hrun1. injection (eq_trans (eq_sym Hrun) Hrun1) as <- <-.
  pose proof (eq_trans (f_equal2 (fun x y => Create x (set_UserID u i) y) (eq_sym Erid) (eq_sym Eaft)) Hc) as Hcr.
  split; [|split].
  - destruct (serve_run secret false [] r a) as (w' & rw' & E & _ & Hcor & _).
    injection (eq_trans (eq_sym Hrun) E) as _ <-. exact (eq_trans Hcor (f_equal Some Erid)).
  - destruct res as [res|e]; destruct Hres as [Hs _]; [|exfalso; rewrite Hst in Hs; unfold error_reply in Hs; by repeat case_match].
    destruct (cr_Duplicate res) eqn:Hd; [by rewrite Hst in Hs|].
    destruct (created_rows Quote Hcodec id (set_UserID u i) a res a' Henv Hcr Hd Hnow)
      as (x & row & msg & _ & _ & _ & _ & _ & _ & _ & Hrow & Hun & [_ Hcar] & Hcorr & _).
    exists row, msg. split_and!; try done. intros W ports overflow w fuel base stream qid.
    pose proof (logged_process_follows overflow w base fuel background (mkStreamMessage stream qid msg)) as Hlog.
    rewrite message_logger_id in Hlog. simpl in Hlog. rewrite Hcorr in Hlog.
    apply String.eqb_neq in Hid as E. rewrite E in Hlog. exact Hlog.
  - intros c s r0 s' row Hwf Hc' He Hrow Hnew.
    destruct (requeued_anonymous c s r0 s' row Hwf Hc' He Hrow) as [?|(m & Hm & Ec)]; [done|].
    exists m. split; [done|]. intros W ports overflow w fuel base stream qid.
    pose proof (logged_process_follows overflow w base fuel background (mkStreamMessage stream qid m)) as Hlog.
    rewrite message_logger_id in Hlog. cbn [sm_Delivery] in Hlog. rewrite Ec in Hlog.
    simpl in Hlog. exact Hlog.
Qed.
End correlation.

(** ** Witnesses *)

#[local] Existing Instances sample_http_text.

Definition followed_header (k : string) : string :=
  if String.eqb k correlationHeader then "abc-123" else sample_header "new" k.

Definition followed_post : App * Writer :=
  (@serve App (app_service sample_quote) _ _ _ (app_http no_page) sample_secret false []
     (post_request followed_header (sample_body "hi")) (app_on sample_db [])).2.

Lemma correlation_followed_witness :
  rw_CorrelationID followed_post.2 = Some "abc-123" /\
  exists row msg, row ∈ outbox (tables followed_post.1) /\
    unmarshalMessage (ob_payload row) = Ok msg /\
    follows (spoke [("service", "worker")] ([("service", "worker")] ++
        worker_logger (fun _ => "id") (mkStreamMessage "s" "1-0" msg) ++ [("correlation_id", "abc-123")]))
      (logged_process (ports := env_ports sample_dlq_down) (fun _ => 0%Z)
         (newWorker WorkerSpec.sample_config sample_policy true) [("service", "worker")] 102 background
         (mkStreamMessage "s" "1-0" msg))
      (process (ports := env_ports sample_dlq_down) (fun _ => 0%Z)
         (newWorker WorkerSpec.sample_config sample_policy true) 102 (mkStreamMessage "s" "1-0" msg)).
Proof.
  destruct (correlation_followed sample_codec_total sample_quote no_page sample_secret followed_header
    (sample_body "hi") (app_on sample_db []) "alice"
    (mkCreateRequest "+905551234567" "sms" "high" "hi" None ∅ None None)
    (mkCreateInput "" "+905551234567" "sms" "high" None "hi" ∅ (Some "new") None)
    eq_refl) with (a' := followed_post.1) (rw := followed_post.2)
    as (Hc & (row & msg & Hrow & _ & Hm & Hlog) & _).
  - vm_compute. reflexivity.
  - vm_compute. reflexivity.
  - vm_compute. reflexivity.
  - discriminate.
  - reflexivity.
  - vm_compute. reflexivity.
  - vm_compute. reflexivity.
  - split; [exact Hc|]. exists row, msg. split; [exact Hrow|]. split; [exact Hm|].
    exact (Hlog World (env_ports sample_dlq_down) (fun _ => 0%Z)
      (newWorker WorkerSpec.sample_config sample_policy true) 102 [("service", "worker")] "s" "1-0").
Defined.

(** A worker over the sample provider, its store always answering. *)
#[local] Instance span_ports : Ports sample_world := {
  Worker.clock_Now := mret 100%Z;
  Sleep _ := mret ();
  draw := mret (f64_of_int 0);
  Allow _ := mret (true, 0%Z, None);
  Worker.ClaimDelivery _ _ lease := mret (Some (claim_row lease 100 (sample_delivery 11 1 DeliveryPending None)));
  Worker.GetRequestByID _ := mret (sample_request 1 None (Some "k1"));
  Send := Breaker_Send sample_config (WebhookClient_Send sample_client);
  Worker.MarkSent _ _ _ _ := mret ();
  Worker.MarkRetrying _ _ _ _ _ := mret ();
  Worker.MarkFailed _ _ _ _ _ := mret ();
  Ack _ _ := mret ();
  DLQ_Publish _ := mret ();
  Metrics _ := mret ();
  Worker.uuid_String _ := "id"
}.

Lemma sample_breaker_follows T (R : T -> T -> Prop) ch m' m :
  PreOrder R -> follows R m' m ->
  follows R (cb_Execute (BreakerLib := sample_breaker_with T) sample_config ch m') (cb_Execute sample_config ch m).
Proof. intros HR H w t. simpl. destruct (sw_open w) eqn:E; [by exists t|]. apply H. Qed.

Definition span_worker : Worker :=
  newWorker (mkConfig AllPriorities AllChannels 8 "c1" 16 Minute 0 0 0) sample_policy true.

Definition answering : sample_world := mkSampleWorld [mkHttpAnswer 200 "" "prov-1"] false [].

Definition span_process : eff (sample_world * list SpanEvent) error () :=
  traced_process (traced_sender (lib := sample_breaker_with (list SpanEvent)) sample_config sample_client)
    (fun _ => 0%Z) span_worker 1 None (mkStreamMessage "s" "1-0" (sample_message 11 1)).

(** The span of the provider's call is inside the worker's. *)
Lemma spans_transparent_witness :
  map (fun e => match e with
                | EvStarted id parent name _ => (id, parent, name)
                | EvAttributes id _ => (id, None, "attributes")
                | EvEnded id => (id, None, "ended")
                end) (span_process (answering, [])).2.2 =
    [(0, None, "worker.process"); (1, Some 0, "provider.send"); (1, None, "ended"); (0, None, "ended")] /\
  (span_process (answering, [])).2.1 =
    (process (fun _ => 0%Z) span_worker 1 (mkStreamMessage "s" "1-0" (sample_message 11 1)) answering).2 /\
  nested None (span_process (answering, [])).2.2.
Proof.
  split; [vm_compute; reflexivity|].
  destruct (spans_transparent
    (ports := span_ports) (lib := sample_breaker)
    (sched := store_sched (fun _ => true) 700 no_lock no_gauge no_gauge) (svc := app_service sample_quote)
    sample_breaker_with sample_config sample_client (fun _ => eq_refl) sample_breaker_follows
    (fun _ => 0%Z) span_worker sample_sched) as (_ & H & _).
  destruct (H None 1 (mkStreamMessage "s" "1-0" (sample_message 11 1)) answering []) as (t' & E & l & Et & Hn).
  simpl in Et. subst t'.
  change (span_process (answering, []) = ((process (fun _ => 0%Z) span_worker 1
    (mkStreamMessage "s" "1-0" (sample_message 11 1)) answering).1,
    ((process (fun _ => 0%Z) span_worker 1 (mkStreamMessage "s" "1-0" (sample_message 11 1)) answering).2, l))) in E.
  rewrite E. split; [reflexivity|exact Hn].
Defined.
