(* ===== verification/Outbox.v ===== *)
(** * What the outbox promises

    The messages of the transactional outbox. [routed] is the invariant: a row that
    waits to be published decodes, and it carries the message of its delivery, for the
    delivery's own stream. The rows the service builds satisfy what the creating
    calls need ([new_route]); every other call of the program keeps it. *)

From S2P Require Import Prelude GoStrings Domain Store StoreRuns StoreInv StoreCreate StoreCalls.
From S2P Require Import StoreQuiet StoreSamples StoreSpec StoreDue SchedulerRelay SchedulerRecover Notification.

Local Open Scope string_scope.
Local Open Scope list_scope.

(** What every change but creation leaves of a delivery. *)
Record same_delivery (x y : Delivery) : Prop := {
  sd_key : del_key y = del_key x;
  sd_request : d_RequestID y = d_RequestID x;
  sd_channel : d_Channel y = d_Channel x;
  sd_priority : d_Priority y = d_Priority x
}.

Lemma same_delivery_refl x : same_delivery x x.
Proof. by split. Qed.

Lemma same_delivery_trans x y z : same_delivery x y -> same_delivery y z -> same_delivery x z.
Proof. intros [] []. split; congruence. Qed.

Lemma same_delivery_id x y : same_delivery x y -> d_ID y = d_ID x.
Proof. intros [H _ _ _]. by injection H. Qed.

(** The row a message names: the tables hold its creation time in microseconds. *)
Definition message_key (m : DeliveryMessage) : uuid * time :=
  (dm_DeliveryID m, timestamptz (dm_DeliveryCreatedAt m)).

(** The message of a delivery: everything but the correlation id is the row's. *)
Record message_of (x : Delivery) (m : DeliveryMessage) : Prop := {
  mo_key : message_key m = del_key x;
  mo_request : dm_RequestID m = d_RequestID x;
  mo_channel : dm_Channel m = d_Channel x;
  mo_priority : dm_Priority m = d_Priority x
}.

Definition stream_of (x : Delivery) : string := Stream (d_Priority x) (d_Channel x).

Lemma message_of_same x y m : same_delivery x y -> message_of y m -> message_of x m.
Proof. intros [] []. split; congruence. Qed.

Lemma stream_of_same x y : same_delivery x y -> stream_of y = stream_of x.
Proof. intros []. unfold stream_of. congruence. Qed.

Section outbox.
Context `{codec : !MessageCodec} `{uuids : !UuidSource}.
Context (Hcodec : forall m, exists p, marshalMessage m = Ok p /\ unmarshalMessage p = Ok m).

Lemma codec_back m p : marshalMessage m = Ok p -> unmarshalMessage p = Ok m.
Proof. destruct (Hcodec m) as (q & E & H). rewrite E. by intros [= <-]. Qed.

(** ** The invariant *)

(** The row carries the message of every delivery with its id. *)
Definition carries_message (d : DB) (row : OutboxRow) (m : DeliveryMessage) : Prop :=
  unmarshalMessage (ob_payload row) = Ok m /\
  forall x, x ∈ deliveries d -> d_ID x = ob_delivery_id row ->
    message_of x m /\ ob_stream row = stream_of x.

Record routed (d : DB) : Prop := {
  ro_ids : NoDup (map d_ID (deliveries d));
  ro_streams : valid_streams (deliveries d);
  ro_rows : forall row, row ∈ outbox d -> unpublished row = true -> exists m, carries_message d row m
}.

Lemma routed_fresh ts : routed (fresh_db ts).
Proof. split; simpl; [apply NoDup_nil_2| |]; by intros ? ?%not_elem_of_nil. Qed.

(** Changes that create no delivery and no message. *)
Lemma routed_change d d' :
  NoDup (map d_ID (deliveries d')) ->
  (forall y, y ∈ deliveries d' -> exists x, x ∈ deliveries d /\ same_delivery x y) ->
  (forall row, row ∈ outbox d' -> unpublished row = true -> row ∈ outbox d) ->
  routed d -> routed d'.
Proof.
  intros Hnd Hd Ho [_ Hs Hr]. split; [done| |].
  - intros y (x & Hx & Hsame)%Hd. destruct (Hs x Hx). by rewrite (sd_channel _ _ Hsame), (sd_priority _ _ Hsame).
  - intros row Hrow Hu. destruct (Hr row (Ho row Hrow Hu) Hu) as (m & Hm & Hx). exists m. split; [done|].
    intros y (x & Hxd & Hsame)%Hd Hid. destruct (Hx x Hxd) as [Hmo Hst].
    + by rewrite <- (same_delivery_id x y).
    + split; [|by rewrite (stream_of_same x y)].
      apply (message_of_same y x); [|done]. destruct Hsame. by split.
Qed.

Lemma routed_update p f d d' :
  deliveries d' = update_where p f (deliveries d) -> outbox d' = outbox d ->
  (forall x, same_delivery x (f x)) -> routed d -> routed d'.
Proof.
  intros Hd Ho Hf Hr. apply (routed_change d); [| | |done].
  - rewrite Hd, map_update_key; [apply Hr|]. intros x _. by apply same_delivery_id.
  - intros y. rewrite Hd. intros (x & Hx & ->)%elem_of_update. exists x. split; [done|].
    destruct (p x); [done|apply same_delivery_refl].
  - by rewrite Ho.
Qed.

(** Rows [enqueueDueTx] writes for deliveries of the tables. *)
Lemma routed_enqueue now d d' sel rows :
  deliveries d' = deliveries d -> outbox d' = outbox d ++ rows -> Forall2 (enqueued now) sel rows ->
  (forall x, x ∈ sel -> micros (d_CreatedAt x) /\ exists y, y ∈ deliveries d /\ same_delivery x y) ->
  routed d -> routed d'.
Proof.
  intros Hd Ho Hrows Hsel [Hn Hs Hr]. split; [by rewrite Hd|by rewrite Hd|].
  intros row. rewrite Ho. intros [Hrow|Hrow]%elem_of_app Hu.
  - destruct (Hr row Hrow Hu) as (m & Hm). exists m. unfold carries_message. by rewrite Hd.
  - destruct (Forall2_partner (flip (enqueued now)) rows sel row) as (x & Hx & He);
      [by apply (Forall2_flip (enqueued now))|done|].
    destruct (Hsel x Hx) as (Hmic & y & Hy & Hsame). exists (due_message x).
    split; [by apply codec_back, (eq_payload _ _ _ He)|]. rewrite Hd. intros z Hz Hid.
    rewrite (eq_id _ _ _ He), <- (same_delivery_id x y Hsame) in Hid.
    assert (z = y) as -> by by apply (NoDup_key_inj d_ID (deliveries d)).
    destruct Hsame as [Hk Hq Hc Hp]. split; [split; simpl; try congruence|].
    + unfold message_key. simpl. by rewrite Hmic, Hk.
    + rewrite (eq_stream _ _ _ He). unfold stream_of. congruence.
Qed.

(** ** Creation *)

(** What a creating call is given: a delivery with a valid route and a new id, and
    its message. *)
Record new_route (x : Delivery) (o : option OutboxRecord) : Prop := {
  nr_channel : Channel_Valid (d_Channel x) = true;
  nr_priority : Priority_Valid (d_Priority x) = true;
  nr_record : forall r, o = Some r -> o_DeliveryID r = d_ID x /\ o_Stream r = stream_of x /\
    message_of (stored_delivery x) (o_Message r)
}.

Definition new_id (x : Delivery) (d : DB) : Prop :=
  d_ID x ∉ map d_ID (deliveries d) /\
  forall row, row ∈ outbox d -> unpublished row = true -> ob_delivery_id row <> d_ID x.

Lemma created_rows_in now o row :
  row ∈ omap (outbox_row now) (option_list o) -> exists r p, o = Some r /\
    marshalMessage (o_Message r) = Ok p /\
    row = mkOutboxRow (o_ID r) (o_DeliveryID r) (timestamptz (o_DeliveryCreatedAt r)) (o_Stream r) p now None.
Proof.
  destruct o as [r|]; simpl; [|by intros ?%not_elem_of_nil]. unfold outbox_row.
  destruct (marshalMessage _) as [p|] eqn:E; [|by intros ?%not_elem_of_nil].
  intros ->%list_elem_of_singleton. by exists r, p.
Qed.

Lemma routed_add now r x o d :
  new_route x o -> new_id x d -> routed d -> routed (add_item now r x o d).
Proof.
  intros [Hc Hp Ho] [Hid Hold] [Hn Hs Hr]. split; simpl.
  - rewrite map_app. apply NoDup_app. split_and!; [done| |apply NoDup_singleton].
    intros i Hi ->%list_elem_of_singleton. done.
  - intros y [Hy|Hy%list_elem_of_singleton]%elem_of_app; [by apply Hs|by subst].
  - intros row [Hrow|Hrow]%elem_of_app Hu.
    + destruct (Hr row Hrow Hu) as (m & Hm & Hx). exists m. split; [done|]. simpl.
      intros y [Hy|Hy%list_elem_of_singleton]%elem_of_app E; [by apply Hx|]. subst y.
      by destruct (Hold row Hrow Hu).
    + apply created_rows_in in Hrow as (rec & p & -> & Hm & ->).
      destruct (Ho rec eq_refl) as (Ed & Es & Hmo). exists (o_Message rec).
      split; [by apply codec_back|]. simpl. rewrite Ed.
      intros y [Hy|Hy%list_elem_of_singleton]%elem_of_app E; [|by subst y].
      exfalso. apply Hid. rewrite <- E. by apply list_elem_of_fmap_2.
Qed.

Lemma new_id_kept now r x y o d :
  new_route x o -> d_ID y <> d_ID x -> new_id y d -> new_id y (add_item now r x o d).
Proof.
  intros [_ _ Ho] Hne [Hid Hold]. split; simpl.
  - rewrite map_app, elem_of_app. intros [?|?%list_elem_of_singleton]; [done|by apply Hne].
  - intros row [Hrow|Hrow]%elem_of_app Hu; [by apply Hold|].
    apply created_rows_in in Hrow as (rec & p & -> & _ & ->). simpl.
    destruct (Ho rec eq_refl) as (-> & _). congruence.
Qed.

Definition item_route (i : BatchItem) : Prop := new_route (bi_Delivery i) (bi_Outbox i).
Definition item_id (i : BatchItem) : uuid := d_ID (bi_Delivery i).

Lemma routed_add_items now items d :
  Forall item_route items -> NoDup (map item_id items) ->
  Forall (fun i => new_id (bi_Delivery i) d) items -> routed d -> routed (add_items now items d).
Proof.
  intros Hr. revert d. induction Hr as [|i items Hi _ IH]; intros d Hn Hnew Hd; [done|].
  apply NoDup_cons in Hn as [Hni Hn]. apply Forall_cons in Hnew as [Hinew Hnew].
  apply IH; [done| |by apply routed_add].
  rewrite Forall_forall in *. intros j Hj. apply new_id_kept; [done| |by apply Hnew].
  intros E. apply Hni. rewrite <- (E : item_id j = item_id i). by apply (list_elem_of_fmap_2 item_id).
Qed.

Lemma keep_NoDup {B} (f : BatchItem -> B) rs items :
  NoDup (map f items) -> NoDup (map f (keep rs items)).
Proof.
  revert rs. induction items as [|i items IH]; intros rs; simpl; [done|].
  intros [Hi Hn]%NoDup_cons. destruct (request_conflict _ _); [by apply IH|]. simpl. apply NoDup_cons.
  split; [|by apply IH]. intros (j & E & Hj)%list_elem_of_fmap. apply Hi.
  apply list_elem_of_fmap. exists j. split; [done|by eapply keep_sublist].
Qed.

(** ** Calls *)

(** What the creating calls are given. *)
Definition routes (c : call) (d : DB) : Prop :=
  match c with
  | CallCreateNotification _ x o _ => new_route x o /\ new_id x d
  | CallCreateBatch _ items _ =>
      Forall item_route items /\ NoDup (map item_id items) /\
      Forall (fun i => new_id (bi_Delivery i) d) items
  | _ => True
  end.

Lemma routed_tables d d' :
  deliveries d' = deliveries d -> outbox d' = outbox d -> routed d -> routed d'.
Proof. intros E1 E2 [Hn Hs Hr]. split; rewrite ?E1, ?E2; try done. unfold carries_message. by rewrite E1. Qed.

Lemma routed_recomputed r d : routed d -> routed (recomputed r d).
Proof. destruct (recomputed_tables r d). by apply routed_tables. Qed.

Lemma routed_transition due key locked now limit d n d' sel :
  db_wf d -> transitioned due key locked now limit d n d' sel -> routed d -> routed d'.
Proof.
  intros Hwf T Hd. destruct (tr_outbox _ _ _ _ _ _ _ _ _ T) as (rows & new & Eo & Hperm & Hnew).
  set (d1 := set_deliveries (deliveries d') d).
  assert (H1 : routed d1) by (eapply (routed_update _ _ d d1); [apply T|done| |done]; by split).
  apply (routed_enqueue now d1 d' new rows); [done|done|done| |done].
  intros x Hx. rewrite Hperm in Hx. destruct (tr_due _ _ _ _ _ _ _ _ _ T x Hx) as [Hxd _].
  split; [by apply (proj1 (wf_micros _ _ _ Hwf))|]. exists (pending_row now x). split; [|by split]. simpl. rewrite (tr_rows _ _ _ _ _ _ _ _ _ T).
  apply elem_of_update. exists x. split; [done|]. rewrite bool_decide_true; [done|].
  by apply list_elem_of_fmap_2.
Qed.

Lemma routed_marked valid id at_ f rid d d1 d' :
  mark_sql valid id at_ f d = Ok ((), d1) -> (forall x, same_delivery x (f x)) ->
  d' = d1 \/ runs (recomputeRequestStatusTx rid) d1 () d' -> routed d -> routed d'.
Proof.
  unfold mark_sql. destruct valid; [|done]. intros [= <-] Hf H Hd.
  assert (H1 : routed (update_deliveries (by_delivery_key id at_) f d)) by (by eapply routed_update).
  destruct H as [-> |(r & _ & _ & ->)%recompute_runs]; [done|by apply routed_recomputed].
Qed.
Ltac routed_by_update := eapply routed_update; [reflexivity|reflexivity|by split|done].

Lemma run_routed c d d' :
  db_wf d -> routes c d -> runs (exec c) d () d' -> routed d -> routed d'.
Proof.
  intros Hwf Hc H Hd. destruct c; simpl in H, Hc; unfold ignore in H;
    try (apply runs_bind in H as (? & ? & H & Hret); apply runs_ret in Hret as [_ ->]).
  - apply CreateNotification_runs in H as (_ & -> & _). destruct Hc. by apply routed_add.
  - apply CreateBatch_runs in H as (_ & _ & m & d1 & H1 & -> & _).
    apply create_items_runs in H1 as (-> & _ & _). destruct Hc as (Hr & Hn & Hnew).
    assert (Hsub : forall (P : BatchItem -> Prop), Forall P items -> Forall P (keep (requests d) items)).
    { intros P. rewrite !Forall_forall. intros HP i Hi. by eapply HP, keep_sublist. }
    eapply routed_tables; [| |apply (routed_add_items now (keep (requests d) items)
      (set_batches (batches d ++ [empty_batch b]) d))]; [reflexivity|reflexivity|
      by apply Hsub|by apply keep_NoDup|by apply Hsub|by apply (routed_tables d)].
  - apply CancelRequest_steps in H as (_ & H & _). apply recompute_runs in H as (r & _ & _ & ->).
    apply routed_recomputed. routed_by_update.
  - apply claim_runs in H as [-> | ->]; [done|]. routed_by_update.
  - unfold MarkSent in H. inv_runs. eapply routed_marked; [exact Hr| |by right|done]. by split.
  - unfold MarkFailed in H. inv_runs. eapply routed_marked; [exact Hr| |by right|done]. by split.
  - unfold MarkRetrying in H. inv_runs. eapply (routed_marked _ _ _ _ 0%N); [exact H| |by left|done]. by split.
  - apply transition_spec in H as [sel H]; [|apply Hwf]. by eapply routed_transition.
  - apply transition_spec in H as [sel H]; [|apply Hwf]. by eapply routed_transition.
  - destruct (ReconcilePending_spec _ _ _ _ _ _ _ _ H) as (sel & rows & -> & Hrows & Hsel & _).
    apply (routed_enqueue now d _ sel rows); [done|done|done| |done].
    intros y Hy. apply Hsel, elem_of_where in Hy as [Hy _].
    split; [by apply (wf_micros _ _ _ Hwf)|]. exists y. split; [done|apply same_delivery_refl].
  - unfold ReapStuck in H. inv_runs. unfold reap_sql in Hr. simplify_eq. routed_by_update.
  - unfold MarkOutboxPublished in H. inv_runs; [done|]. unfold mark_published_sql in H. simplify_eq.
    apply (routed_change d); [apply Hd| | |done].
    + intros y Hy. exists y. split; [done|apply same_delivery_refl].
    + intros row (z & Hz & ->)%elem_of_update. by destruct (id_in _ _).
  - unfold CreateDeliveryPartition in H. inv_runs.
    unfold create_delivery_partition in H. repeat case_match; simplify_eq; [done|]. by apply (routed_tables d).
  - unfold ArchiveAndDropPartition in H. inv_runs. unfold archive_and_drop_partition in H.
    destruct (partition_exists _ d); [|by simplify_eq]. case_match; simplify_eq.
    apply (routed_change d); [simpl; apply NoDup_map_where, Hd| |done|done].
    intros y [Hy _]%elem_of_where. exists y. split; [done|apply same_delivery_refl].
  - unfold PurgePublishedOutbox in H. inv_runs. unfold purge_published_outbox in Hr. simplify_eq.
    apply (routed_change d); [apply Hd| | |done].
    + intros y Hy. exists y. split; [done|apply same_delivery_refl].
    + by intros row [Hrow _]%elem_of_where.
Qed.

Lemma exec_routed c s r s' :
  db_wf (db s) -> routes c (db s) -> exec c s = (r, s') -> routed (db s) -> routed (db s').
Proof.
  intros Hwf Hc [E|H]%exec_cases Hd; [by rewrite E|by eapply run_routed].
Qed.

(** Databases reached by calls that are legal and create routed deliveries. *)
Inductive served : DB -> Prop :=
| served_fresh ts : served (fresh_db ts)
| served_call c s r s' :
    served (db s) -> legal c (db s) -> routes c (db s) -> exec c s = (r, s') -> served (db s').

Lemma served_reachable d : served d -> reachable d.
Proof. induction 1 as [ts|c s r s' _ IH Hl _ H]; [apply reach_fresh|by eapply reach_call]. Qed.

Lemma served_routed d : served d -> routed d.
Proof.
  induction 1 as [ts|c s r s' Hs IH _ Hc H]; [apply routed_fresh|].
  eapply exec_routed; [|exact Hc|exact H|exact IH]. by apply reachable_wf, served_reachable.
Qed.

(** Tables with an unused generator are ones the scheduler's transactions commit on. *)
Lemma routed_ready d n : routed d -> fresh n d -> ready d n.
Proof.
  intros [_ Hs Hr] Hf. split; [done|done|]. intros row Hrow Hu.
  by destruct (Hr row Hrow Hu) as (m & -> & _).
Qed.

(** ** The service's rows *)

Lemma validated_route i :
  CreateInput_validate i = Ok () ->
  Channel_Valid (ci_Channel i) = true /\ Priority_Valid (ci_Priority i) = true.
Proof.
  unfold CreateInput_validate. destruct (blank _); [done|].
  destruct (Channel_Valid _); [|done]. by destruct (Priority_Valid _).
Qed.

(** A validated input, built with any identifiers at any time, is routed. *)
Lemma built_routes corr i batch tid content now rid did oid :
  CreateInput_validate i = Ok () ->
  let bt := built_rows corr i batch tid content now rid did oid in
  new_route (bt_Delivery bt) (bt_Outbox bt) /\ d_ID (bt_Delivery bt) = did.
Proof.
  intros [Hc Hp]%validated_route. unfold built_rows.
  destruct (scheduled_for_later i now); split; try done; split; try done.
  intros r [= <-]. by split_and!.
Qed.

(** C8: the outbox tells the truth. Whatever the program's calls did, failed at or
    crashed after: delivery ids are unique, channels and priorities are valid, and
    every row that waits to be published decodes to a message with the key (its time
    in whole microseconds), the request, the channel and the priority of the delivery
    that has its id, and goes to that delivery's stream. The rows the service builds
    from a validated input, whatever the generator draws for it, are such rows. *)
Theorem outbox_faithful d :
  served d ->
  NoDup (map d_ID (deliveries d)) /\ valid_streams (deliveries d) /\
  (forall row, row ∈ outbox d -> unpublished row = true ->
     exists m, unmarshalMessage (ob_payload row) = Ok m /\
       forall x, x ∈ deliveries d -> d_ID x = ob_delivery_id row ->
         message_of x m /\ ob_stream row = stream_of x) /\
  (forall corr i batch tid content now rid did oid, CreateInput_validate i = Ok () ->
     new_id (bt_Delivery (built_rows corr i batch tid content now rid did oid)) d ->
     let bt := built_rows corr i batch tid content now rid did oid in
     routed (add_item now (bt_Request bt) (bt_Delivery bt) (bt_Outbox bt) d)).
Proof.
  intros Hd%served_routed. pose proof Hd as [Hn Hs Hr]. split_and!; try done.
  intros corr i batch tid content now rid did oid Hi Hnew bt.
  apply routed_add; [|done|done]. by apply built_routes.
Qed.
End outbox.

(** Scripts of calls that keep the tables served. *)
Fixpoint served_script (cs : list call) (s : Sess) : Prop :=
  match cs with
  | [] => True
  | c :: cs => (legal c (db s) /\ routes c (db s)) /\ served_script cs (snd (exec c s))
  end.

Lemma script_served cs s : served (db s) -> served_script cs s -> served (db (run_calls cs s)).
Proof.
  revert s. induction cs as [|c cs IH]; intros s Hs; simpl; [done|].
  intros [[Hl Hc] Hcs]. apply (IH (snd (exec c s))); [|exact Hcs].
  destruct (exec c s) as [r s'] eqn:E. simpl. by apply (served_call c s r).
Qed.

(** ** Witness *)

(** A notification waits in the outbox, and its delivery is claimed. *)
Definition waiting_script : list call := [
  CallCreateNotification (sample_request 1 None (Some "k1"))
    (sample_delivery 11 1 DeliveryPending None) (Some (sample_outbox 21 11 1)) 100000;
  CallClaimDelivery 11 100000 160000 120000 ].
Definition waiting_db : DB := Eval vm_compute in db (run_calls waiting_script start).

Lemma sample_served r x o now cs :
  legal (CallCreateNotification r x o now) empty_db -> new_route x o ->
  served_script cs (snd (exec (CallCreateNotification r x o now) start)) ->
  served (db (run_calls (CallCreateNotification r x o now :: cs) start)).
Proof.
  intros Hl Hr Hcs. apply script_served; [apply (served_fresh [])|]. split; [|done]. split; [done|].
  split; [done|]. split; [by intros ?%not_elem_of_nil|]. by intros row ?%not_elem_of_nil.
Qed.

Lemma waiting_served : served waiting_db.
Proof.
  change waiting_db with (db (run_calls waiting_script start)).
  apply sample_served; [split; simpl; eauto; done| |by split_and!].
  split; try done. by intros r [= <-].
Qed.

Lemma outbox_faithful_witness :
  map unpublished (outbox waiting_db) = [true] /\ map d_Status (deliveries waiting_db) = [DeliveryProcessing] /\
  forall row, row ∈ outbox waiting_db -> exists m, unmarshalMessage (ob_payload row) = Ok m.
Proof.
  destruct (outbox_faithful sample_codec_total waiting_db waiting_served) as (_ & _ & H & _).
  split; [reflexivity|]. split; [reflexivity|]. intros row Hrow.
  destruct (H row Hrow) as (m & Hm & _); [|by exists m].
  apply list_elem_of_singleton in Hrow. subst row. reflexivity.
Defined.
