(* ===== verification/Retention.v ===== *)
(** * Deliveries beyond their partition

    Retiring a day moves its finished deliveries to the archive. [kept_at] is the row of
    a key wherever it is, in a partition or archived: retiring a day on which every
    delivery has finished keeps it ([retire_kept]), and no other call touches the
    archive ([exec_archive]). *)

From S2P Require Import Prelude GoStrings Domain Store StoreRuns StoreInv StoreCreate StoreCalls.
From S2P Require Import StoreQuiet StoreSpec StoreDue Lifecycle Outbox.

Local Open Scope string_scope.
Local Open Scope list_scope.

Definition archived_at (k : uuid * time) (d : DB) : option Delivery :=
  first_where (fun x => bool_decide (del_key x = k)) (archive d).

Definition kept_at (k : uuid * time) (d : DB) : option Delivery :=
  match row_at k d with Some x => Some x | None => archived_at k d end.

Lemma kept_row k d x : row_at k d = Some x -> kept_at k d = Some x.
Proof. unfold kept_at. by intros ->. Qed.

Lemma kept_same k d d' :
  archive d' = archive d -> row_at k d' = row_at k d -> kept_at k d' = kept_at k d.
Proof. unfold kept_at, archived_at. by intros -> ->. Qed.

(** Every delivery of the day has finished. *)
Definition retirable (day : time) (d : DB) : Prop :=
  forall x, x ∈ deliveries d -> in_day (day_of day) x = true -> IsTerminal (d_Status x) = true.

Section retention.
Context `{codec : !MessageCodec} `{uuids : !UuidSource}.

Lemma archive_recomputed r d : archive (recomputed r d) = archive d.
Proof. unfold recomputed. by repeat case_match. Qed.

Lemma archive_add_items now items d : archive (add_items now items d) = archive d.
Proof. revert d. induction items as [|i items IH]; intros d; simpl; [done|]. by rewrite IH. Qed.

Lemma archive_marked valid id at_ f rid d d1 d' :
  mark_sql valid id at_ f d = Ok ((), d1) -> d' = d1 \/ runs (recomputeRequestStatusTx rid) d1 () d' ->
  archive d' = archive d.
Proof.
  unfold mark_sql. destruct valid; [|done]. intros [= <-] [-> |(r & _ & _ & ->)%recompute_runs]; [done|].
  by rewrite archive_recomputed.
Qed.

Lemma archive_enqueued now l d d' :
  runs (for_each (enqueueDueTx now) l) d () d' -> archive d' = archive d.
Proof.
  revert d. induction l as [|x l IH]; intros d H; simpl in H; [by inv_runs|].
  apply runs_bind in H as ([] & d1 & H1 & H). rewrite (IH _ H). unfold enqueueDueTx in H1.
  inv_runs. apply New_uuid_runs in Hr as ->. by apply insertOutbox_runs in H1 as (p & _ & _ & ->).
Qed.

Lemma archive_transition due key locked now limit d n d' :
  runs (transitionAndEnqueue (transition_sql due key locked now) now limit) d n d' ->
  archive d' = archive d.
Proof.
  intros H. unfold transitionAndEnqueue in H. inv_runs. unfold transition_sql, limit_rows in Hr.
  destruct (limit <? 0)%Z; simplify_eq. by apply archive_enqueued in Hr0.
Qed.

Lemma run_archive c d d' : ~ archives c -> runs (exec c) d () d' -> archive d' = archive d.
Proof.
  intros Hc H. destruct c; simpl in H; unfold ignore in H;
    try (apply runs_bind in H as (? & ? & H & Hret); apply runs_ret in Hret as [_ ->]).
  - by apply CreateNotification_runs in H as (_ & -> & _).
  - apply CreateBatch_runs in H as (_ & _ & m & d1 & H1 & -> & _).
    apply create_items_runs in H1 as (-> & _ & _). simpl. by rewrite archive_add_items.
  - apply CancelRequest_steps in H as (_ & H & _). apply recompute_runs in H as (r & _ & _ & ->).
    by rewrite archive_recomputed.
  - by apply claim_runs in H as [-> | ->].
  - unfold MarkSent in H. inv_runs. eapply archive_marked; [exact Hr|by right].
  - unfold MarkFailed in H. inv_runs. eapply archive_marked; [exact Hr|by right].
  - unfold MarkRetrying in H. inv_runs. eapply (archive_marked _ _ _ _ 0%N); [exact H|by left].
  - by eapply archive_transition.
  - by eapply archive_transition.
  - unfold ReconcilePending in H. inv_runs. by eapply archive_enqueued.
  - unfold ReapStuck in H. inv_runs. unfold reap_sql in Hr. by simplify_eq.
  - unfold MarkOutboxPublished in H. inv_runs; [done|]. unfold mark_published_sql in H. by simplify_eq.
  - unfold CreateDeliveryPartition in H. inv_runs.
    unfold create_delivery_partition in H. repeat case_match; by simplify_eq.
  - by destruct Hc.
  - unfold PurgePublishedOutbox in H. inv_runs. unfold purge_published_outbox in Hr. by simplify_eq.
Qed.

Lemma exec_archive c s r s' : ~ archives c -> exec c s = (r, s') -> archive (db s') = archive (db s).
Proof.
  intros Hc [E|H]%exec_cases; [by rewrite E|by eapply run_archive].
Qed.

Lemma first_where_app {A} (p : A -> bool) l1 l2 :
  (forall x, x ∈ l2 -> p x = false) -> first_where p (l1 ++ l2) = first_where p l1.
Proof. intros H. unfold first_where. by rewrite where_app, (where_none p l2), app_nil_r. Qed.

(** The tables after a day was retired: its rows that had finished are archived. *)
Lemma retire_runs day d d' :
  runs (ArchiveAndDropPartition day) d () d' ->
  d' = d \/
  (forall x y, x ∈ deliveries d -> in_day (day_of day) x = true -> IsTerminal (d_Status x) = true ->
     y ∈ archive d -> del_key y <> del_key x) /\
  deliveries d' = where_ (fun x => negb (in_day (day_of day) x)) (deliveries d) /\
  archive d' = archive d ++ where_ (fun x => IsTerminal (d_Status x)) (where_ (in_day (day_of day)) (deliveries d)).
Proof.
  intros H. unfold ArchiveAndDropPartition in H. inv_runs. unfold archive_and_drop_partition in H.
  destruct (partition_exists _ d); [|simplify_eq; by left].
  destruct (existsb _ _) eqn:Enew; simplify_eq. right. split; [|done].
  intros x y Hx Hd Ht Hy E. apply not_true_iff_false in Enew. apply Enew.
  apply existsb_exists. exists x. split; [apply list_elem_of_In, elem_of_where; split; [by apply elem_of_where|done]|].
  apply existsb_exists. exists y. split; [by apply list_elem_of_In|].
  unfold by_delivery_key. by apply bool_decide_true.
Qed.

(** Retiring a day keeps every delivery, those that have not finished in their place. *)
Lemma retire_kept day s r s' k :
  db_wf (db s) -> retirable day (db s) -> exec (CallArchiveAndDropPartition day) s = (r, s') ->
  kept_at k (db s') = kept_at k (db s) /\
  forall x, row_at k (db s) = Some x -> IsTerminal (d_Status x) = false -> row_at k (db s') = Some x.
Proof.
  intros Hwf Hd [E|H]%exec_cases; [by rewrite E|].
  apply retire_runs in H as [-> |(Hnew & Edel & Earch)]; [done|].
  assert (Hu : forall x, row_at k (db s) = Some x -> forall y, y ∈ deliveries (db s) -> del_key y = k -> y = x).
  { intros x Hx y Hy E. apply row_at_Some in Hx as [Hx Hk].
    apply (NoDup_key_inj del_key (deliveries (db s))); [apply Hwf|done|done|congruence]. }
  unfold kept_at, archived_at. rewrite Earch. destruct (row_at k (db s)) as [x|] eqn:Ex.
  - pose proof (row_at_Some _ _ _ Ex) as [Hx Hk]. specialize (Hu x eq_refl).
    destruct (in_day (day_of day) x) eqn:Eday.
    + specialize (Hd x Hx Eday). split; [|intros y [= <-]; by rewrite Hd].
      assert (row_at k (db s') = None) as ->.
      { apply first_where_None. rewrite Edel. intros y [Hy Hyd]%elem_of_where. apply bool_decide_false. intros E.
        rewrite (Hu y Hy E), Eday in Hyd. done. }
      apply first_where_single; [| |by apply bool_decide_true].
      * intros y [Hy|[[Hy _]%elem_of_where _]%elem_of_where]%elem_of_app E; bool_to_prop; [|by apply Hu].
        destruct (Hnew x y Hx Eday Hd Hy). congruence.
      * apply elem_of_app. right. apply elem_of_where. split; [by apply elem_of_where|done].
    + assert (E : row_at k (db s') = Some x); [|rewrite E; split; [done|by intros y [= <-]]].
      apply first_where_single; [| |by apply bool_decide_true]; rewrite Edel.
      * intros y [Hy _]%elem_of_where E. bool_to_prop. by apply Hu.
      * apply elem_of_where. by rewrite Eday.
  - split; [|done]. pose proof (proj1 (first_where_None _ _) Ex) as Hno. simpl in Hno.
    assert (row_at k (db s') = None) as ->.
    { apply first_where_None. rewrite Edel. intros y [Hy _]%elem_of_where. by apply Hno. }
    apply first_where_app. intros y [[Hy _]%elem_of_where _]%elem_of_where. by apply Hno.
Qed.
End retention.
