(* ===== verification/Recovery.v ===== *)
(** * No delivery is ever stuck

    One pass of the scheduler's jobs (reconciliation, the reaper, promotion, the retry
    sweep, the relay) over any reachable tables: every delivery that is not finished
    and whose time has come, in whatever state a crash, a lost message or a lost
    worker left it, has its message on a stream afterwards, and the worker that gets
    the message can send it. *)

From S2P Require Import Prelude GoStrings GoFloat Domain Retry Store StoreRuns StoreInv StoreCreate.
From S2P Require Import StoreCalls StoreQuiet StoreSamples StoreSpec StoreDue Scheduler SchedulerDrain.
From S2P Require Import SchedulerRelay SchedulerRecover Worker WorkerSpec Pipeline Outbox.

Local Open Scope string_scope.
Local Open Scope list_scope.

(** The moment from which the scheduler acts on a delivery. The reconciliation compares
    in whole microseconds. *)
Definition due_time (after : duration) (x : Delivery) : time :=
  match d_Status x with
  | DeliveryScheduled => default 0%Z (d_SendAt x)
  | DeliveryRetrying => default 0%Z (d_NextRetryAt x)
  | DeliveryProcessing => (default 0%Z (d_LockedUntil x) + 1)%Z
  | _ => (d_UpdatedAt x + after + 1000)%Z
  end.

Section recovery.
Context `{codec : !MessageCodec} `{uuids : !UuidSource}.
Context (Hcodec : forall m, exists p, marshalMessage m = Ok p /\ unmarshalMessage p = Ok m).
Context (Huuid : forall a b : N, uuid_New a = uuid_New b -> a = b).
Context (up : nat -> bool) (now : time) (locked : uuid * time -> bool)
  (queue_depth queue_pending : string -> eff SWorld error Z) (cfg : SchedConfig).
Context (Hup : forall k, up k = true).
Context (Hbatch : (0 < sc_PromoteBatch cfg)%Z) (Houtbox : (0 < sc_OutboxBatchSize cfg)%Z).

#[local] Instance pass_ports : SchedPorts SWorld :=
  store_sched up now locked queue_depth queue_pending.

(** One tick of each job that moves deliveries, the relay's apart. *)
Definition jobs (fuel : nat) : eff SWorld error () :=
  reconcile cfg ≫= fun _ => reapStuck ≫= fun _ => promoteDue cfg fuel ≫= fun _ => sweepRetries cfg fuel.

(** The deliveries the reconciliation may pick up. *)
Definition orphan (d : DB) (x : Delivery) : bool :=
  orphaned (timestamptz (now - sc_ReconcileAfter cfg)) d x && negb (locked (del_key x)).

(** A delivery is PENDING with a message of its own, for its stream, in the outbox. *)
Definition queued (d : DB) (x : Delivery) : Prop :=
  exists y row m, y ∈ deliveries d /\ same_delivery x y /\ d_Status y = DeliveryPending /\
    row ∈ outbox d /\ unpublished row = true /\ unmarshalMessage (ob_payload row) = Ok m /\
    message_of x m /\ ob_stream row = stream_of x.

Lemma enqueued_message x row :
  enqueued now x row -> unpublished row = true /\ unmarshalMessage (ob_payload row) = Ok (due_message x).
Proof.
  intros []. destruct (Hcodec (due_message x)) as (p & Em & Eu). rewrite Em in eq_payload.
  injection eq_payload as ->. split; [|done]. unfold unpublished. by rewrite eq_published.
Qed.

Lemma enqueued_queued d x y row :
  y ∈ deliveries d -> micros (d_CreatedAt y) -> same_delivery x y -> d_Status y = DeliveryPending ->
  row ∈ outbox d -> enqueued now y row -> queued d x.
Proof.
  intros Hy Hmic Hs Hst Hrow He. destruct (enqueued_message y row He) as [Hu Hm].
  exists y, row, (due_message y). split_and!; try done.
  - apply (message_of_same x y); [done|]. split; try done. unfold message_key. simpl.
    by rewrite Hmic.
  - rewrite (eq_stream _ _ _ He). by apply stream_of_same.
Qed.

(** ** Reconciliation *)

Lemma reconcile_ready d rep n s :
  db_wf d -> ready d n -> sw_sess s = quiet d rep n ->
  exists s1 rows n1, reconcile cfg s = (Ok (), s1) /\ sw_sent s1 = sw_sent s /\
    sw_sess s1 = quiet (set_outbox (outbox d ++ rows) d) rep n1 /\
    ready (set_outbox (outbox d ++ rows) d) n1 /\ db_wf (set_outbox (outbox d ++ rows) d) /\
    forall x, x ∈ deliveries d -> orphan d x = true ->
      (Z.of_nat (count_where (orphan d) (deliveries d)) <= sc_PromoteBatch cfg)%Z ->
      exists row, row ∈ rows /\ enqueued now x row.
Proof.
  intros Hwf Hr Hs. set (limit := sc_PromoteBatch cfg) in *.
  set (sel := take (Z.to_nat limit) (order_by d_UpdatedAt (where_ (orphan d) (deliveries d)))).
  assert (Esql : reconcile_sql locked (timestamptz (now - sc_ReconcileAfter cfg)) limit d = Ok (map due_of sel)).
  { unfold reconcile_sql, limit_rows. by destruct (Z.ltb_spec limit 0); [lia|]. }
  destruct (enqueue_all_commits Hcodec Huuid now sel d rep n Hr) as (d' & Ee & Hr').
  { intros x Hx%elem_of_order_take. apply elem_of_where in Hx as [Hx _]. by apply (rd_streams _ _ Hr). }
  pose proof (run_runs _ _ _ _ Ee) as He. simpl in He.
  apply enqueue_all_runs in He as (rows & -> & Hrows).
  set (d' := set_outbox (outbox d ++ rows) d) in *. set (n1 := (n + N.of_nat (length sel))%N) in *.
  assert (E : ReconcilePending locked now now (sc_ReconcileAfter cfg) limit (quiet d rep n)
    = (Ok (Z.of_nat (length (map due_of sel))), quiet d' rep n1)).
  { unfold ReconcilePending. cbv zeta. unfold withTx. simpl.
    erewrite bind_quiet; [|rewrite wrap_quiet; erewrite bind_quiet by apply Query_quiet;
      unfold of_result; by rewrite Esql].
    by erewrite bind_step_ok by exact Ee. }
  assert (Ew : db_wf d').
  { eapply ReconcilePending_wf; [|exact Hwf]. exists (quiet d rep n), (quiet d' rep n1).
    split_and!; [done|exact E|done]. }
  assert (Ej : exists s1, reconcile cfg s = (Ok (), s1) /\ sw_sent s1 = sw_sent s /\
    sw_sess s1 = quiet d' rep n1).
  { destruct s as [ss sent tries metrics]. simpl in Hs. subst ss. unfold reconcile.
    assert (Eo : sp_ReconcilePending (sc_ReconcileAfter cfg) limit (mkSWorld (quiet d rep n) sent tries metrics)
      = (Ok (Z.of_nat (length (map due_of sel))), mkSWorld (quiet d' rep n1) sent tries metrics)).
    { simpl. unfold on_store. cbn [sw_sess sw_sent sw_tries sw_metrics]. by rewrite E. }
    erewrite attempt_bind by exact Eo.
    cbv beta iota. destruct (Z.of_nat (length (map due_of sel)) >? 0)%Z; eexists; split; done. }
  destruct Ej as (s1 & Ej & Hsent & Hs1). exists s1, rows, n1. split_and!; try done.
  intros x Hx Ho Hcount. assert (Hsel : x ∈ sel).
  { unfold sel. rewrite take_ge.
    - rewrite (order_by_perm d_UpdatedAt). by apply elem_of_where.
    - rewrite (order_by_perm d_UpdatedAt). unfold count_where in Hcount. lia. }
  by destruct (Forall2_partner _ _ _ _ Hrows Hsel) as (row & ? & ?); exists row.
Qed.
(** ** The other jobs *)

Definition reaped (d : DB) : DB := update_deliveries (lease_expired now) (reaped_row now) d.

Lemma not_processing x : d_Status x <> DeliveryProcessing -> lease_expired now x = false.
Proof. intros H. apply not_true_iff_false. by rewrite lease_expired_spec; intros [? _]. Qed.

Lemma reaped_keeps d x : x ∈ deliveries d -> d_Status x <> DeliveryProcessing -> x ∈ deliveries (reaped d).
Proof. intros Hx Hs. apply elem_of_update. exists x. by rewrite not_processing. Qed.

Lemma queued_reaped d x : queued d x -> queued (reaped d) x.
Proof.
  intros (y & row & m & Hy & Hs & Hst & H). exists y, row, m. split_and!; try done; try apply H.
  apply reaped_keeps; [done|]. by rewrite Hst.
Qed.

Lemma drained_keeps due d d' x :
  drained due locked now d d' -> x ∈ deliveries d -> due x = false -> x ∈ deliveries d'.
Proof.
  intros Hd Hx Hdue. destruct (Forall2_partner _ _ _ _ (dr_rows _ _ _ _ _ Hd) Hx)
    as (z & Hz & [->|(Hc & _)]); [done|]. unfold candidate in Hc. by rewrite Hdue in Hc.
Qed.

Lemma queued_drained due d d' x :
  drained due locked now d d' -> (forall y, d_Status y = DeliveryPending -> due y = false) ->
  queued d x -> queued d' x.
Proof.
  intros Hd Hdue (y & row & m & Hy & Hs & Hst & Hrow & H). exists y, row, m.
  split_and!; try done; try apply H; [eapply drained_keeps; [done|done|by apply Hdue]|].
  destruct (dr_outbox _ _ _ _ _ Hd) as [rows ->]. apply elem_of_app. by left.
Qed.

Lemma drained_queues due d d' x y :
  drained due locked now d d' -> count_where (candidate due locked) (deliveries d') = 0 ->
  y ∈ deliveries d -> micros (d_CreatedAt y) -> same_delivery x y ->
  candidate due locked y = true -> queued d' x.
Proof.
  intros Hd H0 Hy Hmic Hs Hc. destruct (drained_moves now locked due d d' y Hd Hy Hc H0) as [Hz (row & Hrow & He)].
  apply (enqueued_queued d' x (pending_row now y) row); try done.
  - by apply (same_delivery_trans x y).
  - destruct He. by split.
Qed.

Lemma scheduled_due_status x : d_Status x <> DeliveryScheduled -> scheduled_due now x = false.
Proof. intros H. unfold scheduled_due, has_status. by rewrite bool_decide_false. Qed.
Lemma retry_due_status x : d_Status x <> DeliveryRetrying -> retry_due now x = false.
Proof. intros H. unfold retry_due, has_status. by rewrite bool_decide_false. Qed.

(** A delivery the scheduler may act on at [now]. *)
Record actionable (d : DB) (x : Delivery) : Prop := {
  ac_row : x ∈ deliveries d;
  ac_unfinished : IsTerminal (d_Status x) = false;
  ac_free : locked (del_key x) = false;
  ac_due : (due_time (sc_ReconcileAfter cfg) x <= now)%Z;
  (* one tick reconciles as many orphans as a batch *)
  ac_pending : d_Status x = DeliveryPending ->
    (Z.of_nat (count_where (orphan d) (deliveries d)) <= sc_PromoteBatch cfg)%Z
}.

Lemma cutoff_after t a : (t + a + 1000 <= now)%Z -> (t < timestamptz (now - a))%Z.
Proof. pose proof (timestamptz_le (now - a)). lia. Qed.

(** Reconciliation: a PENDING delivery has a message in the outbox, or gets one. *)
Lemma reconciled_queued d rows x :
  db_wf d -> routed d -> actionable d x -> d_Status x = DeliveryPending ->
  (forall y, y ∈ deliveries d -> orphan d y = true ->
     (Z.of_nat (count_where (orphan d) (deliveries d)) <= sc_PromoteBatch cfg)%Z ->
     exists row, row ∈ rows /\ enqueued now y row) ->
  queued (set_outbox (outbox d ++ rows) d) x.
Proof.
  intros Hwf Hd [Hx _ Hfree Hdue Hpend] Hst Hrows. pose proof (Hpend Hst) as Hcount.
  unfold due_time in Hdue. rewrite Hst in Hdue.
  destruct (has_unpublished x d) eqn:Hu.
  - apply existsb_exists in Hu as (row & Hrow & [Hid Hup']%andb_true_iff).
    apply list_elem_of_In in Hrow. apply N.eqb_eq in Hid.
    destruct (ro_rows _ Hd row Hrow Hup') as (m & Hm & Hx'). destruct (Hx' x Hx (eq_sym Hid)) as [Hmo Hs].
    exists x, row, m. split_and!; try done. simpl. apply elem_of_app. by left.
  - assert (Ho : orphan d x = true).
    { unfold orphan, orphaned. rewrite Hu, Hfree, (proj2 (has_status_eq _ _) Hst).
      by rewrite (proj2 (Z.ltb_lt _ _)) by by apply cutoff_after. }
    destruct (Hrows x Hx Ho Hcount) as (row & Hrow & He).
    apply (enqueued_queued _ x x row); try done; [by apply (wf_micros _ _ _ Hwf)|].
    simpl. apply elem_of_app. by right.
Qed.

(** The row on its way through the jobs, from tables [d] after reconciliation to
    tables [d4] after the sweep. *)
Lemma jobs_queued d d1 d3 d4 x :
  actionable d x -> db_wf d -> deliveries d1 = deliveries d ->
  (d_Status x = DeliveryPending -> queued d1 x) ->
  drained (scheduled_due now) locked now (reaped d1) d3 ->
  count_where (candidate (scheduled_due now) locked) (deliveries d3) = 0 ->
  drained (retry_due now) locked now d3 d4 ->
  count_where (candidate (retry_due now) locked) (deliveries d4) = 0 ->
  queued d4 x.
Proof.
  intros [Hx Hterm Hfree Hdue _] Hwf E1 Hpend D3 Z3 D4 Z4.
  destruct (wf_rows _ _ _ Hwf x Hx) as [Hlease [Hsched Hretry]]. unfold due_time in Hdue.
  pose proof (proj1 (wf_micros _ _ _ Hwf) x Hx) as Hmic. rewrite <- E1 in Hx.
  assert (Hnp : forall y, d_Status y = DeliveryPending -> scheduled_due now y = false /\ retry_due now y = false).
  { intros y Hy. by rewrite scheduled_due_status, retry_due_status by (by rewrite Hy). }
  assert (H4 : queued d3 x -> queued d4 x) by (apply (queued_drained _ _ _ _ D4); apply Hnp).
  destruct (d_Status x) eqn:Hst; try done.
  - apply H4, (drained_queues _ _ _ x x D3 Z3); [|done|apply same_delivery_refl|].
    + apply reaped_keeps; [done|]. by rewrite Hst.
    + destruct (Hsched eq_refl) as [t Ht]. unfold candidate, scheduled_due, time_le.
      rewrite Hfree, (proj2 (has_status_eq _ _) Hst). rewrite Ht in *. simpl in *.
      by rewrite (proj2 (Z.leb_le _ _)).
  - apply H4, (queued_drained _ _ _ _ D3); [apply Hnp|]. by apply queued_reaped, Hpend.
  - destruct (proj1 Hlease Hst) as [t Ht]. rewrite Ht in Hdue. simpl in Hdue.
    assert (Hr : reaped_row now x ∈ deliveries (reaped d1)).
    { apply elem_of_update. exists x. split; [done|].
      by rewrite (proj2 (lease_expired_spec now x)) by (split; [done|exists t; split; [done|lia]]). }
    apply (drained_queues _ _ _ x (reaped_row now x) D4 Z4); [|done|by split|].
    + apply (drained_keeps _ _ _ _ D3 Hr). by apply scheduled_due_status.
    + unfold candidate. change (del_key (reaped_row now x)) with (del_key x). rewrite Hfree.
      unfold retry_due. simpl. by rewrite (proj2 (Z.leb_le _ _)) by lia.
  - destruct (Hretry eq_refl) as [t Ht].
    apply (drained_queues _ _ _ x x D4 Z4); [|done|apply same_delivery_refl|].
    + apply (drained_keeps _ _ _ _ D3); [apply reaped_keeps; [done|]; by rewrite Hst|].
      apply scheduled_due_status. by rewrite Hst.
    + unfold candidate, retry_due, time_le. rewrite Hfree, (proj2 (has_status_eq _ _) Hst).
      rewrite Ht in *. simpl in *. by rewrite (proj2 (Z.leb_le _ _)).
Qed.

(** The jobs return, and leave every delivery they may act on in the queue's hands. *)
Lemma jobs_run d rep n sent tries metrics fuel :
  db_wf d -> ready d n -> routed d -> length (deliveries d) < fuel ->
  exists s4, jobs fuel (mkSWorld (quiet d rep n) sent tries metrics) = (Ok (), s4) /\
    sw_sent s4 = sent /\ ready_session rep (sw_sess s4) /\ db_wf (sw_db s4) /\
    requests (sw_db s4) = requests d /\
    forall x, actionable d x -> queued (sw_db s4) x.
Proof.
  intros Hwf Hr Hd Hf.
  destruct (reconcile_ready d rep n (mkSWorld (quiet d rep n) sent tries metrics) Hwf Hr eq_refl)
    as ([ss1 sent1 tries1 metrics1] & rows & n1 & E1 & Hs1 & Hq1 & Hr1 & Hw1 & Hrows).
  simpl in Hs1, Hq1. subst ss1 sent1. set (d1 := set_outbox (outbox d ++ rows) d) in *.
  destruct (reap_quiet up now locked queue_depth queue_pending d1 rep n1 sent tries1 metrics1)
    as ([ss2 sent2 tries2 metrics2] & E2 & Hq2 & Hs2). simpl in Hq2, Hs2. subst ss2 sent2.
  fold (reaped d1) in E2.
  assert (Hw2 : db_wf (reaped d1)).
  { apply (ReapStuck_wf now d1 (Z.of_nat (count_where (lease_expired now) (deliveries d1)))); [|done].
    by exists (quiet d1 rep n1), (quiet (reaped d1) rep n1). }
  assert (Hlen2 : length (deliveries (reaped d1)) = length (deliveries d)) by apply length_update.
  destruct (promote_ready Hcodec Huuid up now locked queue_depth queue_pending cfg fuel rep
    (mkSWorld (quiet (reaped d1) rep n1) sent tries2 metrics2)) as (s3 & E3 & D3 & Hs3 & Hr3 & Hw3 & Z3);
    [done|exists (reaped d1), n1; split; [done|by apply ready_update]|done|
     eapply Nat.le_lt_trans; [apply List.filter_length_le|]; change (length (deliveries (reaped d1)) < fuel); by rewrite Hlen2|].
  assert (Hlen3 : length (deliveries (sw_db s3)) = length (deliveries d))
    by (rewrite <- Hlen2; symmetry; apply (Forall2_length _ _ _ (dr_rows _ _ _ _ _ D3))).
  destruct (sweep_ready Hcodec Huuid up now locked queue_depth queue_pending cfg fuel rep s3)
    as (s4 & E4 & D4 & Hs4 & Hr4 & Hw4 & Z4);
    [done|done|done|eapply Nat.le_lt_trans; [apply List.filter_length_le|];
     by rewrite Hlen3|].
  exists s4. split_and!; try done.
  - unfold jobs. rewrite (bind_step_ok _ _ _ _ _ E1), (bind_step_ok _ _ _ _ _ E2).
    by rewrite (bind_step_ok _ _ _ _ _ E3).
  - by rewrite Hs4, Hs3.
  - by rewrite (dr_requests _ _ _ _ _ D4), (dr_requests _ _ _ _ _ D3).
  - intros x Hx. eapply (jobs_queued d d1); try done. intros Hst.
    by apply reconciled_queued.
Qed.

(** The relay publishes a queued delivery's message. *)
Lemma queued_published d rep n sent tries metrics fuel x :
  db_wf d -> ready d n -> queued d x -> count_where unpublished (outbox d) < fuel ->
  exists s m y d', relayOutbox cfg fuel (mkSWorld (quiet d rep n) sent tries metrics) = (Ok (), s) /\
    (stream_of x, m) ∈ sw_sent s /\ message_of x m /\
    sw_sess s = quiet d' rep n /\ db_wf d' /\ requests d' = requests d /\
    y ∈ deliveries d' /\ same_delivery x y /\ d_Status y = DeliveryPending.
Proof.
  intros Hwf Hr (y & row & m & Hy & Hs & Hst & Hrow & Hu & Hm & Hk & Hstr) Hf.
  destruct (relay_drains up now locked queue_depth queue_pending cfg fuel d rep n sent tries metrics)
    as (rows & new & s & E & Hp & _ & Hca & Hsent & Hd);
    [apply Hwf|done|done|apply Hr|done|].
  assert (Hin : row ∈ rows) by (rewrite Hp; by apply elem_of_where).
  destruct (Forall2_partner _ _ _ _ Hca Hin) as ([stream m'] & Hnew & [Hs' Hm']). simpl in Hs', Hm'.
  rewrite Hm in Hm'. injection Hm' as <-. rewrite Hstr in Hs'. subst stream.
  exists s, m, y. eexists. split_and!; try done.
  - rewrite Hsent. apply elem_of_app. by right.
  - apply wf_set_outbox; [|done]. rewrite map_update_key by done. apply Hwf.
Qed.

(** ** The property *)

(** C3: nothing gets stuck. Take tables reached by the service's creations and legal
    store calls, whatever failed in them or crashed after ([served]: a worker
    reschedules only a row that is not finished), and a delivery that is not
    finished: SCHEDULED, PENDING, RETRYING, or held by a worker that died. Suppose
    its time has come (its send time, its retry time, the end of its lease, or the
    reconciliation age), no other transaction has its row locked, and, if it is
    PENDING, at most a batch of deliveries ([PromoteBatch]) waits for the
    reconciliation, which takes one batch a tick ([actionable]). Then one pass of
    the scheduler's jobs on a database and a queue that answer ends with its message
    on its own stream, and any worker that then processes the message with a
    provider that accepts sends it once, acknowledges it and leaves the delivery and
    its request SENT. *)
Theorem nothing_stuck d rep n sent tries metrics fuel x r :
  served d -> fresh n d -> actionable d x -> length (deliveries d) < fuel ->
  r ∈ requests d -> r_ID r = d_RequestID x ->
  exists s4, jobs fuel (mkSWorld (quiet d rep n) sent tries metrics) = (Ok (), s4) /\
  forall fuel', count_where unpublished (outbox (sw_db s4)) < fuel' ->
  exists s5 m, relayOutbox cfg fuel' s4 = (Ok (), s5) /\
    (stream_of x, m) ∈ sw_sent s5 /\ message_of x m /\
    forall overflow w wait jitter text clock answer qid k res,
      answer (provider_request text x r) = Ok res -> varchar 255 (pres_MessageID res) = true ->
      exists d6 t6 z q,
        process (ports := store_ports clock answer jitter text) overflow w (S wait)
          (mkStreamMessage (stream_of x) qid m) (mkPWorld (quiet (sw_db s5) None k) 0 [] [] [])
        = (Ok (), mkPWorld (quiet d6 None k) t6 [provider_request text x r] [(stream_of x, qid)] []) /\
        z ∈ deliveries d6 /\ del_key z = del_key x /\ d_Status z = DeliverySent /\
        d_ProviderMessageID z = Some (pres_MessageID res) /\
        q ∈ requests d6 /\ r_ID q = r_ID r /\ r_Status q = RequestSent.
Proof.
  intros Hs Hfresh Hx Hf Hr Hrid.
  pose proof (reachable_wf _ (served_reachable d Hs)) as Hwf. pose proof (served_routed Hcodec d Hs) as Hd.
  destruct (jobs_run d rep n sent tries metrics fuel Hwf (routed_ready d n Hd Hfresh) Hd Hf)
    as ([ss sent4 tries4 metrics4] & E4 & Hs4 & (d4 & n4 & Hq4 & Hr4) & Hw4 & Hreq4 & Hqueued).
  simpl in Hq4, Hs4. subst ss sent4. unfold sw_db in Hw4, Hreq4, Hqueued. simpl in Hw4, Hreq4, Hqueued.
  eexists. split; [exact E4|]. intros fuel' Hf'. unfold sw_db in Hf'. simpl in Hf'.
  destruct (queued_published d4 rep n4 sent tries4 metrics4 fuel' x Hw4 Hr4 (Hqueued x Hx) Hf')
    as (s5 & m & y & d5 & E5 & Hm & Hk & Hd5 & Hw5 & Hreq5 & Hy & Hsame & Hst).
  exists s5, m. split_and!; try done.
  intros overflow w wait jitter text clock answer qid k res Hans Hvar.
  unfold sw_db. rewrite Hd5. simpl db.
  assert (Hp : provider_request text y r = provider_request text x r).
  { unfold provider_request. by rewrite (same_delivery_id x y), (sd_channel _ _ Hsame). }
  destruct (process_sends clock answer jitter text overflow w wait (mkStreamMessage (stream_of x) qid m) k
    d5 y r res 0 [] [] [] Hw5 Hy) as (d6 & t6 & z & Erun & Hz & Hpm & Hkz & _ & Hset);
    [| |by rewrite Hp|done|].
  - apply claimable_spec. split; [|by left]. rewrite (sd_key _ _ Hsame). by rewrite <- (mo_key _ _ Hk).
  - rewrite Hreq5, Hreq4. apply first_where_single.
    + intros q Hq Hid. unfold by_request_id in Hid. bool_to_prop.
      apply (NoDup_key_inj r_ID (requests d)); [apply Hwf|done|done|].
      rewrite Hid, (sd_request _ _ Hsame). congruence.
    + done.
    + unfold by_request_id. apply bool_decide_true. by rewrite (sd_request _ _ Hsame).
  - destruct (se_request _ _ _ _ _ Hset) as (q & Hq & Hqid & Hqst). rewrite Hp in Erun.
    exists d6, t6, z, q. split_and!; try done; [apply (se_delivery _ _ _ _ _ Hset)| |].
    + by rewrite Hkz, (sd_key _ _ Hsame).
    + by rewrite Hqid, (sd_request _ _ Hsame).
Qed.
End recovery.

(** ** Witness *)

(** The delivery of a worker that died at 120us holding a lease until 160us. *)
Definition crashed_row : Delivery := hd far_delivery (deliveries crashed_db).
Definition crashed_request : Request := hd (sample_request 1 None None) (requests crashed_db).

Lemma crashed_actionable : actionable 170000 no_lock sample_sched crashed_db crashed_row.
Proof. split; [left|reflexivity|reflexivity|vm_compute; discriminate|discriminate]. Qed.

Lemma crashed_served : served crashed_db.
Proof.
  change crashed_db with (db (run_calls crashed_script start)).
  apply sample_served; [split; simpl; eauto; done| |by split_and!].
  split; try done. by intros r [= <-].
Qed.

Lemma nothing_stuck_witness :
  exists s4 s5 m,
    jobs (fun _ => true) 170000 no_lock no_gauge no_gauge sample_sched 2 (mkSWorld (quiet crashed_db None 0) [] 0 [])
      = (Ok (), s4) /\
    relayOutbox (ports := pass_ports (fun _ => true) 170000 no_lock no_gauge no_gauge) sample_sched 2 s4 = (Ok (), s5) /\
    (stream_of crashed_row, m) ∈ sw_sent s5 /\
    exists d6 t6, process (ports := store_ports (fun k => Z.of_nat k) accepting (f64_of_int 0) (fun _ => "id"))
      (fun _ => 0%Z) (newWorker (mkConfig AllPriorities AllChannels 8 "c1" 16 Minute 0 0 0) sample_policy true) 1
      (mkStreamMessage (stream_of crashed_row) "3-0" m) (mkPWorld (quiet (sw_db s5) None 0) 0 [] [] [])
      = (Ok (), mkPWorld (quiet d6 None 0) t6 [provider_request (fun _ => "id") crashed_row crashed_request]
                  [(stream_of crashed_row, "3-0")] []).
Proof.
  destruct (nothing_stuck sample_codec_total (fun a b => proj1 (N.add_cancel_l a b 1000))
    (fun _ => true) 170000 no_lock no_gauge no_gauge sample_sched (fun _ => eq_refl) eq_refl eq_refl
    crashed_db None 0 [] 0 [] 2 crashed_row crashed_request crashed_served (rd_fresh _ _ crashed_ready)
    crashed_actionable) as (s4 & E4 & H).
  - apply Nat.ltb_lt. reflexivity.
  - left.
  - reflexivity.
  - exists s4. destruct (H 2) as (s5 & m & E5 & Hin & _ & Hp).
    + rewrite <- (f_equal snd E4 : _ = s4). apply Nat.ltb_lt. vm_compute. reflexivity.
    + exists s5, m. split; [exact E4|]. split; [exact E5|]. split; [exact Hin|].
      destruct (Hp (fun _ => 0%Z) (newWorker (mkConfig AllPriorities AllChannels 8 "c1" 16 Minute 0 0 0)
        sample_policy true) 0 (f64_of_int 0) (fun _ => "id") (fun k => Z.of_nat k) accepting "3-0" 0%N
        (mkProviderResult "prov-9" "accepted" 0) eq_refl eq_refl) as (d6 & t6 & z & q & E & _).
      exists d6, t6. exact E.
Defined.
