(* ===== verification/Journey.v ===== *)
(** * A delivery the provider fails first and accepts later

    The retry loop of the whole program: [process] over the store with a provider
    that fails, the retry sweep and the relay once the retry is due, and [process]
    again on the message they published, until the provider accepts. *)

From S2P Require Import Prelude GoStrings GoFloat Domain Retry Store StoreRuns StoreInv StoreCreate.
From S2P Require Import StoreCalls StoreQuiet StoreSamples StoreSpec StoreDue Scheduler SchedulerDrain.
From S2P Require Import SchedulerRelay SchedulerRecover Worker WorkerSpec Pipeline Outbox.

Local Open Scope string_scope.
Local Open Scope list_scope.

(** A failure that is retried: not a refusal of the breaker, not permanent, with a
    message the column holds. *)
Record retriable (e : error) : Prop := {
  rt_breaker : breaker_open e = false;
  rt_permanent : is_permanent (errors_As_Provider e) = false;
  rt_text : pg_text (Error e) = true
}.

(** ** One failed send *)

Section failed_send.
Context (clock : nat -> time) (answer : ProviderRequest -> result error ProviderResult).
Context (jitter : float64) (text : uuid -> string).
#[local] Instance failing_ports : Ports PWorld := store_ports clock answer jitter text.
Context (overflow : float64 -> Z) (w : Worker) (fuel : nat) (msg : StreamMessage) (n : N).
Context (HM : (MaxAttempts (w_policy w) < 2 ^ 31)%Z).

Local Abbreviation id := (dm_DeliveryID (sm_Delivery msg)).
Local Abbreviation at_ := (dm_DeliveryCreatedAt (sm_Delivery msg)).

(** The tables after a claim at [c] and a reschedule at [now]. *)
Definition rescheduled (lease c k next now : Z) (err : string) (d : DB) : DB :=
  update_deliveries (by_delivery_key id (timestamptz at_)) (retrying_row k next err now)
    (update_deliveries (claimable id at_) (claim_row lease c) d).

Lemma rescheduled_row lease c k next now err d x :
  x ∈ deliveries d -> claimable id at_ x = true ->
  retrying_row k next err now (claim_row lease c x) ∈ deliveries (rescheduled lease c k next now err d).
Proof.
  intros Hx Hc. apply elem_of_update. exists (claim_row lease c x). split.
  - apply elem_of_update. exists x. by rewrite Hc.
  - apply claimable_spec in Hc as [Hk _]. unfold by_delivery_key.
    change (del_key (claim_row lease c x)) with (del_key x).
    by rewrite timestamptz_micros, bool_decide_true.
Qed.

Lemma rescheduled_wf lease c k next now err d x :
  db_wf d -> x ∈ deliveries d -> claimable id at_ x = true -> pg_text err && int4 k = true ->
  db_wf (rescheduled lease c k next now err d).
Proof.
  intros Hwf Hx Hc Hv.
  destruct (claimed_tables msg n d x lease c Hwf Hx Hc) as (_ & Hwf1 & Hx1 & _).
  set (d1 := update_deliveries (claimable id at_) (claim_row lease c) d) in *.
  apply (MarkRetrying_wf id (timestamptz at_) k next err now d1); [| |done].
  - exists (quiet d1 None n), (quiet (rescheduled lease c k next now err d) None n).
    split_and!; try done. by apply MarkRetrying_quiet.
  - intros y Hy Hk. assert (y = claim_row lease c x) as ->; [|done].
    apply (NoDup_key_inj del_key (deliveries d1)); [apply Hwf1|done|done|].
    apply claimable_spec in Hc as [Hkx _]. rewrite Hk, timestamptz_micros. by rewrite <- Hkx.
Qed.

(** A message whose delivery can be claimed and which the provider fails retriably:
    one call to the provider, the delivery RETRYING with one attempt more, one
    acknowledgement. *)
Lemma process_retries d x r e t se a q :
  db_wf d -> x ∈ deliveries d -> claimable id at_ x = true ->
  first_where (by_request_id (d_RequestID x)) (requests d) = Some r ->
  answer (provider_request text x r) = Err e -> retriable e ->
  (0 <= d_AttemptCount x)%Z -> (d_AttemptCount x + 1 < MaxAttempts (w_policy w))%Z ->
  exists lease c next now t',
    process overflow w (S fuel) msg (mkPWorld (quiet d None n) t se a q)
      = (Ok (), mkPWorld (quiet (rescheduled lease c (d_AttemptCount x + 1) next now (Error e) d) None n) t'
                  (se ++ [provider_request text x r]) (a ++ [(sm_Stream msg, sm_ID msg)]) q).
Proof.
  intros Hwf Hx Hc Hr Hans [Hbr Hperm Htext] H0 Hlt.
  pose proof (proj1 (proj1 (claimable_spec _ _ _) Hc)) as Hkey.
  unfold del_key in Hkey. injection Hkey as Hid Hat.
  set (lease := (clock (S t) + cfg_LeaseTTL (w_cfg w))%Z).
  destruct (claimed_tables msg n d x lease (clock (S (S t))) Hwf Hx Hc) as (E1 & Hwf1 & Hx1 & _).
  set (x1 := claim_row lease (clock (S (S t))) x) in *.
  assert (E2 : Store.GetRequestByID (d_RequestID x)
      (quiet (update_deliveries (claimable id at_) (claim_row lease (clock (S (S t)))) d) None n)
    = (Ok r, quiet (update_deliveries (claimable id at_) (claim_row lease (clock (S (S t)))) d) None n)).
  { rewrite GetRequestByID_quiet. simpl. apply first_where_rows in Hr as (rest & Hw). by rewrite Hw. }
  set (now := clock (S (S (S (S t))))).
  assert (Hev : exists next, EvaluateFailure overflow (w_policy w) jitter now (d_AttemptCount x)
      (errors_As_Provider e) = Some (mkOutcome DeliveryRetrying (d_AttemptCount x + 1) (Some next))).
  { rewrite EvaluateFailure_cases by (split; lia). rewrite Hperm. simpl.
    destruct (Z.leb_spec (MaxAttempts (w_policy w)) (d_AttemptCount x + 1)); [lia|]. by eexists. }
  destruct Hev as [next Hev].
  assert (E3 : Store.MarkRetrying (d_ID x) (d_CreatedAt x) (d_AttemptCount x + 1) next (Error e)
      (clock (S (S (S (S (S (S t)))))))
      (quiet (update_deliveries (claimable id at_) (claim_row lease (clock (S (S t)))) d) None n)
    = (Ok (), quiet (rescheduled lease (clock (S (S t))) (d_AttemptCount x + 1) next
                       (clock (S (S (S (S (S (S t))))))) (Error e) d) None n)).
  { rewrite Hid, Hat. apply MarkRetrying_quiet. rewrite Htext. simpl. unfold int4.
    rewrite (proj2 (Z.leb_le _ _)), (proj2 (Z.ltb_lt _ _)) by lia. done. }
  eexists lease, _, next, _, _.
  unfold process. erewrite bind_step_ok by reflexivity.
  erewrite bind_step_ok; [|unfold process_body; erewrite bind_step_ok by reflexivity;
    erewrite attempt_bind by (by apply pipe_at_quiet);
    unfold waitForRateLimit; erewrite bind_step_ok by reflexivity;
    cbn [negb]; unfold deliver; erewrite attempt_bind by (by apply pipe_store_quiet);
    unfold send; erewrite bind_step_ok by (erewrite attempt_bind by reflexivity; reflexivity);
    change (mkProviderRequest _ _ _ _) with (provider_request text x r); rewrite Hans;
    unfold settle, handleFailure; fold (breaker_open e); rewrite Hbr;
    erewrite bind_step_ok by reflexivity; erewrite bind_step_ok by reflexivity;
    cbn [pw_ticks pw_sess pw_sends pw_acks pw_dlq]; fold now;
    change (d_AttemptCount x1) with (d_AttemptCount x); rewrite Hev;
    cbn [oc_Status oc_AttemptCount oc_NextRetryAt default];
    erewrite bind_step_ok by reflexivity;
    erewrite attempt_bind by (by apply pipe_at_quiet); reflexivity].
  reflexivity.
Qed.
End failed_send.

(** ** Rounds *)

Definition msg_stream (m : DeliveryMessage) : string := Stream (dm_Priority m) (dm_Channel m).

Section rounds.
Context `{codec : !MessageCodec} `{uuids : !UuidSource}.
Context (Hcodec : forall m, exists p, marshalMessage m = Ok p /\ unmarshalMessage p = Ok m).
Context (Huuid : forall a b : N, uuid_New a = uuid_New b -> a = b).
(** The worker, and how it draws and prints. *)
Context (overflow : float64 -> Z) (w : Worker) (wait : nat) (jitter : float64) (text : uuid -> string).
(** The scheduler; a retry due at [t] is swept at [late t]. *)
Context (cfg : SchedConfig) (depth pending : string -> eff SWorld error Z) (late : time -> time).
Context (Hlate : forall t, (t <= late t)%Z).
Context (Hpromote : (0 < sc_PromoteBatch cfg)%Z) (Houtbox : (0 < sc_OutboxBatchSize cfg)%Z).
Context (HM : (MaxAttempts (w_policy w) < 2 ^ 31)%Z).

(** The worker processes [m] with its clock and the provider answering. *)
Definition worker_turn (clock : nat -> time) (answer : ProviderRequest -> result error ProviderResult)
    (qid : string) (m : DeliveryMessage) (d : DB) : result error () * PWorld :=
  process (ports := store_ports clock answer jitter text) overflow w (S wait)
    (mkStreamMessage (msg_stream m) qid m) (mkPWorld (quiet d None 0) 0 [] [] []).

Definition sched_ports (now : time) : SchedPorts SWorld :=
  store_sched (fun _ => true) now (fun _ => false) depth pending.

(** One failure: [m] is processed and the provider fails with [fst f]; when the retry
    is due it is swept and its message [m'] published. *)
Definition round (req : ProviderRequest) (f : error * (nat -> time)) (d : DB) (n : N)
    (m : DeliveryMessage) (d' : DB) (n' : N) (m' : DeliveryMessage) : Prop :=
  exists qid d1 t1 x1 next s2 s3,
    worker_turn (snd f) (fun _ => Err (fst f)) qid m d
      = (Ok (), mkPWorld (quiet d1 None 0) t1 [req] [(msg_stream m, qid)] []) /\
    x1 ∈ deliveries d1 /\ del_key x1 = message_key m /\ d_Status x1 = DeliveryRetrying /\
    d_NextRetryAt x1 = Some next /\
    sweepRetries (ports := sched_ports (late next)) cfg (S (length (deliveries d1)))
      (mkSWorld (quiet d1 None n) [] 0 []) = (Ok (), s2) /\
    relayOutbox (ports := sched_ports (late next)) cfg (S (count_where unpublished (outbox (sw_db s2)))) s2
      = (Ok (), s3) /\
    sw_sess s3 = quiet d' None n' /\ (msg_stream m', m') ∈ sw_sent s3 /\ message_key m' = message_key m.

Inductive rounds (req : ProviderRequest) : list (error * (nat -> time)) ->
    DB -> N -> DeliveryMessage -> DB -> N -> DeliveryMessage -> Prop :=
| rounds_end d n m : rounds req [] d n m d n m
| rounds_next f fs d n m d1 n1 m1 d' n' m' :
    round req f d n m d1 n1 m1 -> rounds req fs d1 n1 m1 d' n' m' ->
    rounds req (f :: fs) d n m d' n' m'.

(** A delivery that a round can start from. *)
Record waiting (d : DB) (n : N) (m : DeliveryMessage) (x : Delivery) (r : Request) : Prop := {
  wt_wf : db_wf d;
  wt_ready : ready d n;
  wt_row : x ∈ deliveries d;
  wt_claimable : claimable (dm_DeliveryID m) (dm_DeliveryCreatedAt m) x = true;
  wt_request : first_where (by_request_id (d_RequestID x)) (requests d) = Some r
}.

Lemma one_round (qid : string) (f : error * (nat -> time)) d n m x r :
  waiting d n m x r -> retriable (fst f) -> (0 <= d_AttemptCount x)%Z ->
  (d_AttemptCount x + 1 < MaxAttempts (w_policy w))%Z ->
  exists d' n' m' x', round (provider_request text x r) f d n m d' n' m' /\ waiting d' n' m' x' r /\
    provider_request text x' r = provider_request text x r /\ del_key x' = del_key x /\
    d_RequestID x' = d_RequestID x /\ d_AttemptCount x' = (d_AttemptCount x + 1)%Z.
Proof.
  intros [Hwf Hready Hx Hc Hr] He H0 Hlt.
  pose proof (proj1 (proj1 (claimable_spec _ _ _) Hc)) as Hkey.
  set (msg := mkStreamMessage (msg_stream m) qid m).
  destruct (process_retries (snd f) (fun _ => Err (fst f)) jitter text overflow w wait msg 0 HM d x r (fst f)
    0 [] [] [] Hwf Hx Hc Hr eq_refl He H0 Hlt) as (lease & c & next & now & t1 & Hrun).
  set (d1 := rescheduled _ _ _ _ _ _ _ d) in Hrun.
  set (x1 := retrying_row (d_AttemptCount x + 1) next (Error (fst f)) now (claim_row lease c x)).
  assert (Hx1 : x1 ∈ deliveries d1) by (by apply (rescheduled_row msg)).
  assert (Hwf1 : db_wf d1).
  { apply (rescheduled_wf msg 0) with x; try done. rewrite (rt_text _ He). simpl. unfold int4.
    rewrite (proj2 (Z.leb_le _ _)), (proj2 (Z.ltb_lt _ _)) by lia. done. }
  assert (Hmic : timestamptz (d_CreatedAt x) = d_CreatedAt x) by (by apply (wf_micros _ _ _ Hwf)).
  assert (Hr1 : ready d1 n) by (by apply ready_update, ready_update).
  destruct (requeue_due Hcodec Huuid (fun _ => true) (late (timestamptz next)) (fun _ => false) depth pending cfg
    d1 None n [] 0 [] (S (length (deliveries d1))) x1) as (s2 & E2 & H); try done.
  { unfold candidate, retry_due. simpl. rewrite andb_true_r. apply Z.leb_le, Hlate. }
  { lia. }
  destruct (H _ (Nat.lt_succ_diag_r _)) as (s3 & new & d3 & n3 & E3 & Hs3 & Hin & Hq & Hr3 & Hw3 & Hp & Hreq & _).
  exists d3, n3, (due_message x1), (pending_row (late (timestamptz next)) x1). split_and!; try done.
  - exists qid, d1, t1, x1, (timestamptz next), s2, s3. split_and!; try done; [by rewrite Hs3|].
    unfold message_key. simpl. by rewrite Hmic.
  - split; try done; [|by rewrite Hreq]. apply claimable_spec. split; [|by left].
    unfold del_key. simpl. by rewrite Hmic.
Qed.

(** C7: retries end in success. On a database, a queue and a limiter that answer, a
    delivery whose provider fails any number of times below the policy's limit and
    then accepts gets SENT: each failure is one call to the provider with the same
    request, one acknowledgement and one attempt counted; once the retry time it set
    has come, the sweep and the relay publish the delivery's message again; and the
    worker that processes the last of these messages with a provider that accepts
    leaves the delivery and its request SENT, the attempts counted being the failures. *)
Theorem retried_until_sent (fs : list (error * (nat -> time))) (qid : string) d n m x r :
  waiting d n m x r -> Forall (fun f => retriable (fst f)) fs ->
  (0 <= d_AttemptCount x)%Z ->
  (d_AttemptCount x + Z.of_nat (length fs) < MaxAttempts (w_policy w))%Z ->
  let req := provider_request text x r in
  exists d' n' m', rounds req fs d n m d' n' m' /\
    forall clock answer res, answer req = Ok res -> varchar 255 (pres_MessageID res) = true ->
    exists d2 t2 z q,
      worker_turn clock answer qid m' d'
        = (Ok (), mkPWorld (quiet d2 None 0) t2 [req] [(msg_stream m', qid)] []) /\
      z ∈ deliveries d2 /\ del_key z = del_key x /\ d_Status z = DeliverySent /\
      d_AttemptCount z = (d_AttemptCount x + Z.of_nat (length fs))%Z /\
      q ∈ requests d2 /\ r_ID q = d_RequestID x /\ r_Status q = RequestSent.
Proof.
  intros Hw Hfs. revert d n m x Hw.
  induction Hfs as [|f fs Hf _ IH]; intros d n m x Hw H0 Hlt req.
  - exists d, n, m. split; [constructor|]. intros clock answer res Ha Hv.
    destruct Hw as [Hwf _ Hx Hc Hr].
    destruct (process_sends clock answer jitter text overflow w wait (mkStreamMessage (msg_stream m) qid m) 0
      d x r res 0 [] [] [] Hwf Hx Hc Hr Ha Hv) as (d2 & t2 & z & Hrun & Hs & _ & Hk & Hat & Hset).
    destruct (se_request _ _ _ _ _ Hset) as (q & ? & ? & ?).
    exists d2, t2, z, q. split_and!; try done; [apply (se_delivery _ _ _ _ _ Hset)|simpl; lia].
  - rewrite length_cons, Nat2Z.inj_succ in Hlt.
    destruct (one_round qid f d n m x r Hw Hf H0 ltac:(lia)) as (d1 & n1 & m1 & x1 & Hround & Hw1 & Hreq & Hk & Hrid & Hat).
    destruct (IH d1 n1 m1 x1 Hw1) as (d' & n' & m' & Hrs & Hend); [lia|lia|].
    rewrite Hreq in Hrs, Hend. exists d', n', m'. split; [by eapply rounds_next|].
    intros clock answer res Ha Hv.
    destruct (Hend clock answer res Ha Hv) as (d2 & t2 & z & q & E & Hz & Hkz & Hsz & Haz & Hq & Hid & Hst).
    exists d2, t2, z, q. split_and!; try done; [congruence|rewrite Haz, Hat, length_cons; lia|congruence].
Qed.
End rounds.

(** ** Witness *)

Lemma sample_waiting :
  waiting sample_db 0 (sample_message 11 1) (sample_delivery 11 1 DeliveryPending None)
    (sample_request 1 None (Some "k1")).
Proof.
  split; [apply reachable_wf, sample_db_reachable| |left|reflexivity|reflexivity].
  split; [|intros x Hx; unfold sample_db in Hx; simpl in Hx; set_unfold in Hx;
           destruct_or?; subst; split; reflexivity|exact sample_readable].
  intros k _. change (map ob_id (outbox sample_db)) with [21%N; 22%N].
  unfold uuid_New, sample_uuids. rewrite !elem_of_cons, elem_of_nil. lia.
Qed.

Definition sample_timeout : error := EProviderError false 504 None false (Some (ELib "timeout")).

(** Two timeouts, then an acceptance, under a policy of three attempts. *)
Lemma retried_until_sent_witness :
  let w := newWorker (mkConfig AllPriorities AllChannels 8 "c1" 16 Minute 0 0 0) sample_policy true in
  let req := mkProviderRequest "id" "+905551234567" "sms" "hello" in
  exists d' n' m',
    rounds (fun _ => 0%Z) w 0 (f64_of_int 0) (fun _ => "id") sample_sched no_gauge no_gauge (fun t => t) req
      [(sample_timeout, fun k => Z.of_nat k); (sample_timeout, fun k => (1000000 + Z.of_nat k)%Z)]
      sample_db 0 (sample_message 11 1) d' n' m' /\
    exists d2 t2,
      worker_turn (fun _ => 0%Z) w 0 (f64_of_int 0) (fun _ => "id") (fun k => Z.of_nat k) accepting "3-0" m' d'
      = (Ok (), mkPWorld (quiet d2 None 0) t2 [req] [(msg_stream m', "3-0")] []).
Proof.
  intros w req.
  destruct (retried_until_sent sample_codec_total (fun a b => proj1 (N.add_cancel_l a b 1000))
    (fun _ => 0%Z) w 0 (f64_of_int 0) (fun _ => "id") sample_sched no_gauge no_gauge (fun t => t)
    (fun t => Z.le_refl t) eq_refl eq_refl eq_refl
    [(sample_timeout, fun k => Z.of_nat k); (sample_timeout, fun k => (1000000 + Z.of_nat k)%Z)] "3-0"
    sample_db 0 (sample_message 11 1) _ _ sample_waiting) as (d' & n' & m' & Hr & H).
  - repeat constructor.
  - discriminate.
  - reflexivity.
  - exists d', n', m'. split; [exact Hr|].
    destruct (H (fun k => Z.of_nat k) accepting (mkProviderResult "prov-9" "accepted" 0) eq_refl eq_refl)
      as (d2 & t2 & z & q & E & _). exists d2, t2. exact E.
Defined.
