(* ===== verification/System.v ===== *)
(** * The system: workers, scheduler and API over one database

    [System] is the tables, the time, the goroutines of every worker process and what
    happened so far. A goroutine is a message and the answers its [process] got
    ([WorkerTrace]); a step of the system is one call of one goroutine, answered by
    the store on the shared tables (any of its round trips may fail, its reader may
    lag) or by the provider, the limiter and the queue with anything; a write of a
    goroutine that commits while the goroutine reads an error; one call of the
    scheduler or of the API; a goroutine that starts on any message, ends or dies; or
    time that passes. Redis may deliver any message, any number of times.

    A worker is [prompt] when it does not outlive the lease of the row it holds.
    [sys_inv] is what holds of every run of prompt workers, however their calls
    interleave: a goroutine's row is exactly as it claimed it, and nobody else holds
    it. *)

From S2P Require Import Prelude GoStrings GoFloat Domain Retry Template Store StoreRuns StoreInv StoreCreate.
From S2P Require Import StoreCalls StoreSamples StoreQuiet StoreSpec StoreDue Lifecycle Outbox Retention Worker WorkerSpec WorkerTrace.

Local Open Scope string_scope.
Local Open Scope list_scope.

(** ** Rows through one call *)

Lemma row_at_update k p f d d' :
  deliveries d' = update_where p f (deliveries d) -> (forall x, del_key (f x) = del_key x) ->
  row_at k d' = (fun x => if p x then f x else x) <$> row_at k d.
Proof. intros E Hf. unfold row_at. rewrite E. apply first_update. intros; apply Hf. Qed.

Lemma row_at_same k d d' : deliveries d' = deliveries d -> row_at k d' = row_at k d.
Proof. unfold row_at. by intros ->. Qed.

(** In consistent tables the row of a key is the one with that key. *)
Lemma row_at_spec k d x : db_wf d -> row_at k d = Some x <-> x ∈ deliveries d /\ del_key x = k.
Proof.
  intros Hwf. split; [apply row_at_Some|]. intros [Hx Hk]. apply first_where_single.
  - intros y Hy Hky. bool_to_prop.
    apply (NoDup_key_inj del_key (deliveries d)); [apply Hwf|done|done|congruence].
  - done.
  - by apply bool_decide_true.
Qed.

Lemma rows_marked id at_ f d d' :
  deliveries d' = update_where (by_delivery_key id at_) f (deliveries d) ->
  (forall x, del_key (f x) = del_key x) ->
  let k := (id, timestamptz at_) in
  row_at k d' = f <$> row_at k d /\
  forall k', k' <> k -> row_at k' d' = row_at k' d.
Proof.
  intros E Hf k. split; [|intros k' Hk]; rewrite (row_at_update _ _ f d d' E Hf);
    [destruct (row_at k d) as [x|] eqn:Ex|destruct (row_at k' d) as [x|] eqn:Ex];
    try done; apply row_at_Some in Ex as [_ Ex]; simpl; unfold by_delivery_key; rewrite Ex.
  - by rewrite bool_decide_true.
  - by rewrite bool_decide_false.
Qed.

Section marks.
Context (id : uuid) (at_ : time) (rid : uuid) (now : time).

Lemma finalize_deliveries op valid f s r s' :
  heard s -> withTx (wrap op (Exec (mark_sql valid id at_ f)) ≫= fun _ => recomputeRequestStatusTx rid) s
    = (r, s') ->
  deliveries (db s') = match r with
                       | Ok _ => update_where (by_delivery_key id at_) f (deliveries (db s))
                       | Err _ => deliveries (db s)
                       end.
Proof.
  intros Hh H. destruct r as [[]|e].
  2:{ eapply atomic_heard in H; [by rewrite H| |done]. apply withTx_atomic. framed. apply adjust_framed. }
  apply run_runs in H. inv_runs. unfold mark_sql in Hr.
  destruct valid; simplify_eq. apply recompute_runs in H as (q & _ & _ & ->).
  by rewrite deliveries_recomputed.
Qed.

Lemma retrying_deliveries n next err s r s' :
  heard s -> Store.MarkRetrying id at_ n next err now s = (r, s') ->
  deliveries (db s') = match r with
                       | Ok _ => update_where (by_delivery_key id at_) (retrying_row n next err now)
                                   (deliveries (db s))
                       | Err _ => deliveries (db s)
                       end.
Proof.
  intros Hh H. destruct r as [[]|e].
  - apply run_runs in H. unfold Store.MarkRetrying in H. inv_runs. unfold mark_sql in H.
    destruct (_ && _); [|done]. injection H as <-. done.
  - unfold Store.MarkRetrying in H. by rewrite (atomic_heard _ _ _ _ (wrap_atomic _ _ (Exec_atomic _)) Hh H).
Qed.
End marks.

(** A claim that returns nothing changed nothing. *)
Lemma claim_None id at_ lease now s s' :
  heard s -> Store.ClaimDelivery id at_ lease now s = (Ok None, s') -> db s' = db s.
Proof.
  intros Hh H. unfold Store.ClaimDelivery in H. apply bind_ok in H as (a & s1 & Hm & H).
  apply attempt_ok_inv in Hm. destruct a as [z|e]; [by unfold mret, eff_ret in H|].
  assert (s' = s1) as -> by (destruct (errors_Is e _); unfold raise, mret, eff_ret in H; by simplify_eq).
  unfold scanDelivery, scan_entity, attempt, mbind, eff_bind in Hm.
  unfold Scan, mbind, eff_bind in Hm.
  destruct (Exec _ s) as [[[|x l]|e1] s2] eqn:E; [|done|].
  - assert (s1 = s2) as -> by (unfold raise in Hm; destruct (errors_Is ErrNoRows ErrNoRows); by simplify_eq).
    apply run_runs, Exec_runs in E. unfold claim_sql in E. injection E as E1 <-.
    apply fmap_nil_inv in E1. unfold update_deliveries.
    rewrite update_none; [by apply set_deliveries_id|]. by apply where_nil_iff.
  - assert (s1 = s2) as -> by (unfold raise in Hm; destruct (errors_Is e1 ErrNoRows); by simplify_eq).
    by apply (atomic_heard _ _ _ _ (Exec_atomic _) Hh E).
Qed.

Lemma claim_answer id at_ lease now s r s' :
  db_wf (db s) -> heard s -> Store.ClaimDelivery id at_ lease now s = (r, s') ->
  let k := (id, timestamptz at_) in
  (forall k', k' <> k -> row_at k' (db s') = row_at k' (db s)) /\
  match r with
  | Ok (Some x) => exists y, row_at k (db s) = Some y /\
      (d_Status y = DeliveryPending \/ d_Status y = DeliveryRetrying) /\
      x = claim_row lease now y /\ row_at k (db s') = Some x
  | _ => db s' = db s
  end.
Proof.
  intros Hwf Hh H k0. destruct r as [[x|]|e].
  - apply run_runs, claim_runs_Some in H as (y & Hy & Hc & -> & ->).
    assert (Hu : forall k, row_at k (update_deliveries (claimable id at_) (claim_row lease now) (db s))
      = (fun x => if claimable id at_ x then claim_row lease now x else x) <$> row_at k (db s))
      by (intros k; by apply row_at_update).
    pose proof (proj1 (claimable_spec _ _ _) Hc) as [Hk Hs]. split.
    + intros k Hne. rewrite Hu. destruct (row_at k (db s)) as [z|] eqn:Ez; [|done]. simpl.
      apply row_at_Some in Ez as [_ Ez]. destruct (claimable id at_ z) eqn:E; [|done].
      apply claimable_spec in E as [E _]. unfold k0 in Hne. congruence.
    + exists y. assert (Hr : row_at k0 (db s) = Some y) by by apply row_at_spec.
      split_and!; try done. rewrite Hu, Hr. simpl. by rewrite Hc.
  - by rewrite (claim_None id at_ lease now s s' Hh H).
  - by rewrite (atomic_heard _ _ _ _ (claim_atomic id at_ lease now) Hh H).
Qed.

(** ** States *)

Record Task := mkTask { tk_msg : StreamMessage; tk_answers : list answer }.

(** What happened: a call of a goroutine whose message has key [k], with its answer;
    a delivery taken back by the reaper. *)
Inductive entry :=
| EnCall (k : uuid * time) (ev : event) (a : answer)
| EnReaped (k : uuid * time).

Record System := mkSystem {
  sy_db : DB;
  sy_now : time;
  sy_tasks : gmap nat Task;
  sy_log : list entry
}.

(** The database after the migrations, nothing running. *)
Definition boot (ts : list Template) (t : time) : System := mkSystem (fresh_db ts) t ∅ [].

Section system.
Context `{codec : !MessageCodec} `{uuids : !UuidSource}.
Context (overflow : float64 -> Z) (text : uuid -> string).
(** The worker (configuration and policy) each goroutine belongs to, and the fuel of
    its wait for the limiter. *)
Context (workers : nat -> Worker) (fuel : nat).

(** ** Steps *)

(** What a call of a goroutine may be answered on the tables [d] at time [now], and
    the tables after it. The server may refuse any round trip; [sys_lost] is the call
    it carries out without the goroutine reading so. *)
Inductive answered (d : DB) (now : time) : event -> answer -> DB -> Prop :=
| an_now : answered d now EvNow (AnTime now) d
| an_sleep t : answered d now (EvSleep t) (AnUnit (Ok ())) d
| an_draw x : answered d now EvDraw (AnDraw x) d
| an_allow c a : answered d now (EvAllow c) (AnAllow a) d
| an_claim id at_ lease s r s' :
    db s = d -> heard s -> Store.ClaimDelivery id at_ lease now s = (r, s') ->
    answered d now (EvClaim id at_ lease) (AnClaim r) (db s')
| an_request id s r s' :
    db s = d -> heard s -> Store.GetRequestByID id s = (r, s') ->
    answered d now (EvGetRequest id) (AnRequest r) (db s')
| an_send req r : answered d now (EvSend req) (AnSend r) d
| an_mark_sent id at_ rid m s r s' :
    db s = d -> heard s -> Store.MarkSent id at_ rid m now s = (r, s') ->
    answered d now (EvMarkSent id at_ rid m) (AnUnit r) (db s')
| an_mark_retrying id at_ n next err s r s' :
    db s = d -> heard s -> Store.MarkRetrying id at_ n next err now s = (r, s') ->
    answered d now (EvMarkRetrying id at_ n next err) (AnUnit r) (db s')
| an_mark_failed id at_ rid n err s r s' :
    db s = d -> heard s -> Store.MarkFailed id at_ rid n err now s = (r, s') ->
    answered d now (EvMarkFailed id at_ rid n err) (AnUnit r) (db s')
| an_ack stream id r : answered d now (EvAck stream id) (AnUnit r) d
| an_dlq m r : answered d now (EvDLQ m) (AnUnit r) d
| an_metric m : answered d now (EvMetric m) (AnUnit (Ok ())) d.

(** The rows a call creates, as the tables hold them. *)
Definition created_by (c : call) : list Delivery :=
  match c with
  | CallCreateNotification _ x _ _ => [stored_delivery x]
  | CallCreateBatch _ items _ => map (fun i => stored_delivery (bi_Delivery i)) items
  | _ => []
  end.

(** The calls of the API and the scheduler at time [now] on the tables [d]. Deliveries
    are created with no attempt and with keys that were never used; a day is retired
    when its deliveries have finished. [legal] and [routes] (in [sys_outside]) say what
    the service's rows are. *)
Definition outside (c : call) (now : time) (d : DB) : Prop :=
  match c with
  | CallClaimDelivery _ _ _ _ | CallMarkSent _ _ _ _ _ | CallMarkFailed _ _ _ _ _ _
  | CallMarkRetrying _ _ _ _ _ _ => False
  | CallArchiveAndDropPartition day => retirable day d
  | CallReapStuck t => t = now
  | _ => forall x, x ∈ created_by c -> d_AttemptCount x = 0%Z /\ archived_at (del_key x) d = None
  end.

Definition reap_entries (c : call) (d : DB) (r : result error ()) : list entry :=
  match c, r with
  | CallReapStuck now, Ok _ =>
      map (fun x => EnReaped (del_key x)) (where_ (lease_expired now) (deliveries d))
  | _, _ => []
  end.

(** What a goroutine reads when the reply of a committed write is lost. *)
Definition lost_answer (e : error) (ev : event) : option answer :=
  match ev with
  | EvClaim _ _ _ => Some (AnClaim (Err e))
  | EvMarkSent _ _ _ _ | EvMarkRetrying _ _ _ _ _ | EvMarkFailed _ _ _ _ _ => Some (AnUnit (Err e))
  | _ => None
  end.

Definition task_pending (i : nat) (tk : Task) : option event :=
  pending overflow text (workers i) fuel (tk_msg tk) (tk_answers tk).

Inductive sys_step (s : System) : System -> Prop :=
(* a goroutine receives a message *)
| sys_receive i msg :
    sy_tasks s !! i = None ->
    sys_step s (mkSystem (sy_db s) (sy_now s) (<[i := mkTask msg []]> (sy_tasks s)) (sy_log s))
(* a goroutine's call is answered *)
| sys_call i tk ev a d' :
    sy_tasks s !! i = Some tk -> task_pending i tk = Some ev ->
    answered (sy_db s) (sy_now s) ev a d' ->
    sys_step s (mkSystem d' (sy_now s) (<[i := mkTask (tk_msg tk) (tk_answers tk ++ [a])]> (sy_tasks s))
                  (sy_log s ++ [EnCall (msg_key (tk_msg tk)) ev a]))
(* its write is applied, but the goroutine reads an error *)
| sys_lost i tk ev a d' e b :
    sy_tasks s !! i = Some tk -> task_pending i tk = Some ev ->
    answered (sy_db s) (sy_now s) ev a d' -> lost_answer e ev = Some b ->
    sys_step s (mkSystem d' (sy_now s) (<[i := mkTask (tk_msg tk) (tk_answers tk ++ [b])]> (sy_tasks s))
                  (sy_log s ++ [EnCall (msg_key (tk_msg tk)) ev a; EnCall (msg_key (tk_msg tk)) ev b]))
(* process returned, or its process died *)
| sys_leave i :
    sys_step s (mkSystem (sy_db s) (sy_now s) (delete i (sy_tasks s)) (sy_log s))
(* the API and the scheduler; a call that is carried out and whose reply is lost is
   the step of one that succeeds, its caller is not part of the state *)
| sys_outside c se r se' :
    db se = sy_db s -> heard se -> outside c (sy_now s) (sy_db s) -> legal c (sy_db s) -> routes c (sy_db s) ->
    exec c se = (r, se') ->
    sys_step s (mkSystem (db se') (sy_now s) (sy_tasks s) (sy_log s ++ reap_entries c (sy_db s) r))
| sys_tick t :
    (sy_now s <= t)%Z ->
    sys_step s (mkSystem (sy_db s) t (sy_tasks s) (sy_log s)).

(** ** Promptness *)

Definition phase_of (i : nat) (tk : Task) : phase :=
  task_phase overflow text (workers i) fuel (tk_msg tk) (tk_answers tk).

Definition held_by (i : nat) (tk : Task) : option Delivery := held_row (phase_of i tk).

(** No goroutine still works on a row whose lease has ended. *)
Definition prompt (s : System) : Prop :=
  forall i tk x lease, sy_tasks s !! i = Some tk -> held_by i tk = Some x ->
    d_LockedUntil x = Some lease -> (sy_now s <= lease)%Z.

Inductive sys_run (t0 : time) : System -> Prop :=
| run_boot ts : sys_run t0 (boot ts t0)
| run_step s s' : sys_run t0 s -> sys_step s s' -> prompt s' -> sys_run t0 s'.

(** ** What goroutines hold *)

Definition logged (k : uuid * time) (l : list (event * answer)) (s : System) : Prop :=
  forall ev a, (ev, a) ∈ l -> EnCall k ev a ∈ sy_log s.

Record sys_inv (s : System) : Prop := {
  si_db : served (sy_db s);
  si_prompt : prompt s;
  si_consumed i tk : sy_tasks s !! i = Some tk ->
    consumed overflow text (workers i) fuel (tk_msg tk) (tk_answers tk);
  si_logged i tk : sy_tasks s !! i = Some tk ->
    logged (msg_key (tk_msg tk)) (calls_made overflow text (workers i) fuel (tk_msg tk) (tk_answers tk)) s;
  si_held i tk x : sy_tasks s !! i = Some tk -> held_by i tk = Some x ->
    row_at (msg_key (tk_msg tk)) (sy_db s) = Some x /\ d_Status x = DeliveryProcessing /\
    is_Some (d_LockedUntil x);
  si_unique i j tk tk' x y : sy_tasks s !! i = Some tk -> sy_tasks s !! j = Some tk' ->
    held_by i tk = Some x -> held_by j tk' = Some y -> del_key x = del_key y -> i = j
}.

(** The store's calls among a goroutine's. *)
Definition port_call (now : time) (ev : event) : option call :=
  match ev with
  | EvClaim id at_ lease => Some (CallClaimDelivery id at_ lease now)
  | EvMarkSent id at_ rid m => Some (CallMarkSent id at_ rid m now)
  | EvMarkRetrying id at_ n next err => Some (CallMarkRetrying id at_ n next err now)
  | EvMarkFailed id at_ rid n err => Some (CallMarkFailed id at_ rid n err now)
  | _ => None
  end.

Lemma answered_exec d now ev a d' :
  answered d now ev a d' ->
  match port_call now ev with
  | Some c => exists se r se', db se = d /\ exec c se = (r, se') /\ db se' = d'
  | None => d' = d
  end.
Proof.
  intros H. destruct H; simpl; try done.
  - exists s. destruct r as [o|e].
    + exists (Ok ()), s'. split_and!; try done. unfold ignore, mbind, eff_bind. by rewrite H1.
    + exists (Err e), s'. split_and!; try done. unfold ignore, mbind, eff_bind. by rewrite H1.
  - subst d. unfold Store.GetRequestByID, scanRequest in H1.
    apply scan_entity_state in H1 as (r1 & H1). apply Scan_state in H1 as (r2 & H1).
    by apply QueryReader_db in H1.
  - by exists s, r, s'.
  - by exists s, r, s'.
  - by exists s, r, s'.
Qed.

Lemma answered_expects d now ev a d' : answered d now ev a d' -> expects ev a = true.
Proof. by destruct 1. Qed.

Lemma task_may i tk ev :
  task_pending i tk = Some ev -> may overflow text (workers i) (tk_msg tk) (phase_of i tk) ev.
Proof.
  unfold task_pending, phase_of. intros E.
  destruct (process_walks overflow text (workers i) fuel (tk_msg tk) (tk_answers tk)) as [_ H].
  by rewrite E in H.
Qed.

(** ** One call of a goroutine *)

(** A row in PROCESSING may be marked. *)
Lemma held_row_at id at_ d x :
  db_wf d -> row_at (id, timestamptz at_) d = Some x -> d_Status x = DeliveryProcessing ->
  held id at_ d /\ request_of_row id at_ (d_RequestID x) d /\ row_in_progress id at_ d.
Proof.
  intros Hwf Hx Hs.
  assert (Hu : forall y, y ∈ deliveries d -> del_key y = (id, timestamptz at_) -> y = x).
  { intros y Hy Hk.
    assert (row_at (id, timestamptz at_) d = Some y) by by apply row_at_spec. congruence. }
  split_and!; intros y Hy Hk; by rewrite (Hu y Hy Hk), ?Hs.
Qed.

Lemma si_row s i tk x :
  sys_inv s -> sy_tasks s !! i = Some tk -> held_by i tk = Some x ->
  row_at (msg_key (tk_msg tk)) (sy_db s) = Some x /\ d_Status x = DeliveryProcessing /\
  del_key x = msg_key (tk_msg tk).
Proof.
  intros Hi Ht Hx. destruct (si_held s Hi i tk x Ht Hx) as (H1 & H2 & _). split_and!; try done.
  by apply row_at_Some in H1 as [_ ?].
Qed.

(** A held row's own key, as the worker passes it back. *)
Lemma si_own_key s i tk x id at_ :
  sys_inv s -> sy_tasks s !! i = Some tk -> held_by i tk = Some x -> (id, at_) = del_key x ->
  msg_key (tk_msg tk) = (id, timestamptz at_).
Proof.
  intros Hi Ht Hx E. destruct (si_row s i tk x Hi Ht Hx) as (H1 & _ & <-).
  apply row_at_Some in H1 as [H1 _].
  pose proof (wf_micros _ _ _ (reachable_wf _ (served_reachable _ (si_db s Hi)))) as [Hm _].
  rewrite <- E. unfold del_key in E. injection E as -> ->. by rewrite (Hm x H1).
Qed.

(** The worker's store calls are legal and keep the lease discipline. *)
Lemma port_legal s i tk ev c :
  sys_inv s -> sy_tasks s !! i = Some tk -> task_pending i tk = Some ev ->
  port_call (sy_now s) ev = Some c -> legal c (sy_db s) /\ disciplined c (sy_db s).
Proof.
  intros Hi Ht Hp Hc. pose proof (task_may i tk ev Hp) as Hm.
  assert (Hk : forall id at_ x, held_by i tk = Some x -> (id, at_) = del_key x ->
    held id at_ (sy_db s) /\ request_of_row id at_ (d_RequestID x) (sy_db s) /\
    row_in_progress id at_ (sy_db s)).
  { intros id at_ x Hx E. destruct (si_row s i tk x Hi Ht Hx) as (H1 & H2 & H3).
    apply held_row_at; [apply reachable_wf, served_reachable, Hi| |done].
    by rewrite <- (si_own_key s i tk x id at_). }
  unfold held_by in Hk. destruct ev, (phase_of i tk) as [|x|x q|x q [res|e]| |]; simpl in Hc, Hm;
    simplify_eq; try done;
    destruct Hm as [Hkey Hm]; destruct (Hk _ _ x eq_refl Hkey) as (? & ? & ?);
    split; simpl; try done; by destruct Hm as [-> _].
Qed.

(** What the answer of a call does to the row of its message. *)
Definition moved (now : time) (ev : event) (a : answer) (o : option Delivery) : option Delivery :=
  match ev, a with
  | EvClaim _ _ _, AnClaim (Ok (Some x)) => Some x
  | EvMarkSent _ _ _ m, AnUnit (Ok _) => sent_row m now <$> o
  | EvMarkRetrying _ _ n next err, AnUnit (Ok _) => retrying_row n next err now <$> o
  | EvMarkFailed _ _ _ n err, AnUnit (Ok _) => failed_row n err now <$> o
  | _, _ => o
  end.

Definition claims_row (now : time) (ev : event) (a : answer) (o : option Delivery) : Prop :=
  match ev, a with
  | EvClaim _ _ lease, AnClaim (Ok (Some x)) => exists y, o = Some y /\
      (d_Status y = DeliveryPending \/ d_Status y = DeliveryRetrying) /\ x = claim_row lease now y
  | _, _ => True
  end.

Lemma mark_moves id at_ f d d' (r : result error ()) :
  deliveries d' = match r with
                  | Ok _ => update_where (by_delivery_key id at_) f (deliveries d)
                  | Err _ => deliveries d
                  end ->
  (forall x, del_key (f x) = del_key x) ->
  let k := (id, timestamptz at_) in
  (forall k', k' <> k -> row_at k' d' = row_at k' d) /\
  row_at k d' = match r with Ok _ => f <$> row_at k d | Err _ => row_at k d end.
Proof.
  intros E Hf k. destruct r; [destruct (rows_marked id at_ f d d' E Hf)|]; split; try done;
    [intros k' _|]; by apply row_at_same.
Qed.

Lemma port_rows s i tk ev a d' :
  sys_inv s -> sy_tasks s !! i = Some tk -> task_pending i tk = Some ev ->
  answered (sy_db s) (sy_now s) ev a d' ->
  let k := msg_key (tk_msg tk) in
  (forall k', k' <> k -> row_at k' d' = row_at k' (sy_db s)) /\
  row_at k d' = moved (sy_now s) ev a (row_at k (sy_db s)) /\
  claims_row (sy_now s) ev a (row_at k (sy_db s)).
Proof.
  intros Hi Ht Hp Ha k. pose proof (task_may i tk ev Hp) as Hm.
  pose proof (fun id at_ x => si_own_key s i tk x id at_ Hi Ht) as Hkey.
  unfold held_by in Hkey. destruct Ha; try (split_and!; done).
  - rename H1 into HC. destruct (phase_of i tk); try done. simpl in Hm. destruct Hm as [-> ->].
    set (id := dm_DeliveryID _) in *. set (at_ := dm_DeliveryCreatedAt _) in *.
    destruct (claim_answer id at_ lease (sy_now s) s0 r s') as [H1 H2]; [rewrite H; by apply reachable_wf, served_reachable, Hi|done|done|].
    rewrite H in *. split; [done|]. destruct r as [[x|]|e]; simpl; [|by rewrite H2..].
    destruct H2 as (y & Hy & Hs & -> & Hr). split; [done|]. by exists y.
  - rename H1 into HC. unfold Store.GetRequestByID, scanRequest in HC.
    apply scan_entity_state in HC as (r1 & HC). apply Scan_state in HC as (r2 & HC).
    apply QueryReader_db in HC. rewrite HC, H. done.
  - rename H1 into HC. destruct (phase_of i tk) as [|x|x q|x q [res|e]| |]; try done. destruct Hm as [Hid _].
    unfold k. rewrite (Hkey id at_ x eq_refl Hid). apply (finalize_deliveries id at_ rid) in HC; [|done].
    rewrite H in HC. destruct (mark_moves _ _ _ _ _ _ HC) as [H1 H2]; [done|].
    split; [done|]. split; [rewrite H2; by destruct r|done].
  - rename H1 into HC. assert (Hx : exists x, held_row (phase_of i tk) = Some x /\ (id, at_) = del_key x).
    { destruct (phase_of i tk) as [|x|x q|x q [res|e]| |]; try done; destruct Hm as [Hid _]; by exists x. }
    destruct Hx as (x & Hx & Hid). unfold k. rewrite (Hkey id at_ x Hx Hid). apply retrying_deliveries in HC; [|done].
    rewrite H in HC. destruct (mark_moves _ _ _ _ _ _ HC) as [H1 H2]; [done|].
    split; [done|]. split; [rewrite H2; by destruct r|done].
  - rename H1 into HC. destruct (phase_of i tk) as [|x|x q|x q [res|e]| |]; try done. destruct Hm as [Hid _].
    unfold k. rewrite (Hkey id at_ x eq_refl Hid). apply (finalize_deliveries id at_ rid) in HC; [|done].
    rewrite H in HC. destruct (mark_moves _ _ _ _ _ _ HC) as [H1 H2]; [done|].
    split; [done|]. split; [rewrite H2; by destruct r|done].
Qed.

(** A goroutine that holds nothing, at a key without a row, moves nothing. *)
Lemma moved_nothing w msg p now ev a o :
  may overflow text w msg p ev -> held_row p = None -> claims_row now ev a None ->
  moved now ev a o = o /\ claims_row now ev a o.
Proof.
  intros Hm Hp Hc. destruct ev, p as [|z|z q|z q v| |]; simpl in *; try done.
  destruct a as [| | | |[[x|]|]| |]; try done. by destruct Hc as (z & ? & _).
Qed.

Lemma answered_archive d now ev a d' : answered d now ev a d' -> archive d' = archive d.
Proof.
  intros Ha. pose proof (answered_exec _ _ _ _ _ Ha) as He. destruct (port_call now ev) as [c|] eqn:Ec; [|by subst].
  destruct He as (se & r & se' & <- & Hx & <-). eapply exec_archive; [|exact Hx].
  destruct ev; simplify_eq/=; by intros ?.
Qed.

(** The same of the rows wherever they are. *)
Lemma port_kept s i tk ev a d' :
  sys_inv s -> sy_tasks s !! i = Some tk -> task_pending i tk = Some ev ->
  answered (sy_db s) (sy_now s) ev a d' ->
  let k := msg_key (tk_msg tk) in
  (forall k', k' <> k -> kept_at k' d' = kept_at k' (sy_db s)) /\
  kept_at k d' = moved (sy_now s) ev a (kept_at k (sy_db s)) /\
  claims_row (sy_now s) ev a (kept_at k (sy_db s)).
Proof.
  intros Hi Ht Hp Ha k. destruct (port_rows s i tk ev a d' Hi Ht Hp Ha) as (Hoth & Hrow & Hcl).
  fold k in Hoth, Hrow, Hcl.
  pose proof (answered_archive _ _ _ _ _ Ha) as Har.
  split; [intros k' Hk; by apply kept_same; [|apply Hoth]|].
  destruct (row_at k (sy_db s)) as [x|] eqn:Ex.
  - rewrite (kept_row k _ x Ex). split; [|done].
    assert (Hs : is_Some (moved (sy_now s) ev a (Some x))).
    { destruct ev; simpl; eauto; destruct a as [|[]| | |[[]|]| |]; eauto. }
    destruct Hs as [y Hy]. rewrite Hy in *. by apply kept_row.
  - assert (Hn : held_row (phase_of i tk) = None).
    { destruct (held_row (phase_of i tk)) as [x|] eqn:E; [|done].
      destruct (si_row s i tk x Hi Ht E) as (Hx & _). unfold k in Ex. congruence. }
    pose proof (moved_nothing (workers i) (tk_msg tk) (phase_of i tk) (sy_now s) ev a) as Hm.
    destruct (Hm None (task_may i tk ev Hp) Hn Hcl) as [E _]. rewrite E in Hrow.
    destruct (Hm (kept_at k (sy_db s)) (task_may i tk ev Hp) Hn Hcl) as [-> Hc]. split; [|done].
    apply kept_same; [done|congruence].
Qed.

(** ** What a phase holds through a call *)

Lemma after_held p ev a x :
  held_row (after p ev a) = Some x ->
  (exists id at_ lease, ev = EvClaim id at_ lease /\ a = AnClaim (Ok (Some x))) \/
  held_row p = Some x /\ (forall now o, moved now ev a o = o).
Proof.
  destruct ev, p as [|y|y q|y q v| |]; simpl; try done; intros H;
    try (by right); destruct a as [| | | |[[z|]|]|[]|]; simpl in H; simplify_eq; try (by right).
  left. eauto.
Qed.

(** A goroutine that holds nothing leaves a row in PROCESSING alone. *)
Lemma moved_quiet w msg p now ev a y :
  may overflow text w msg p ev -> held_row p = None -> claims_row now ev a (Some y) ->
  d_Status y = DeliveryProcessing -> moved now ev a (Some y) = Some y.
Proof.
  intros Hm Hp Hc Hs. destruct ev, p as [|z|z q|z q v| |]; simpl in *; try done.
  destruct a as [| | | |[[x|]|]| |]; try done. destruct Hc as (z & [= <-] & Hz & _).
  rewrite Hs in Hz. by destruct Hz.
Qed.

(** A held row is PROCESSING, so nobody claims it. *)
Lemma claims_not_processing now id at_ lease x y :
  claims_row now (EvClaim id at_ lease) (AnClaim (Ok (Some x))) (Some y) ->
  d_Status y <> DeliveryProcessing.
Proof. intros (z & [= <-] & Hz & _) E. rewrite E in Hz. by destruct Hz. Qed.

(** ** The invariant is kept *)

Lemma reach_port s i tk ev a d' :
  sys_inv s -> sy_tasks s !! i = Some tk -> task_pending i tk = Some ev ->
  answered (sy_db s) (sy_now s) ev a d' -> served d'.
Proof.
  intros Hi Ht Hp Ha. pose proof (answered_exec _ _ _ _ _ Ha) as He.
  destruct (port_call (sy_now s) ev) as [c|] eqn:Ec; [|subst; apply Hi].
  destruct He as (se & r & se' & Hd & Hx & <-).
  destruct (port_legal s i tk ev c Hi Ht Hp Ec) as [Hl _]. rewrite <- Hd in Hl.
  eapply served_call; [rewrite Hd; apply Hi|done| |done]. by destruct ev; simplify_eq/=.
Qed.

Lemma task_after i tk ev a :
  consumed overflow text (workers i) fuel (tk_msg tk) (tk_answers tk) ->
  task_pending i tk = Some ev -> expects ev a = true ->
  phase_of i (mkTask (tk_msg tk) (tk_answers tk ++ [a])) = after (phase_of i tk) ev a.
Proof. intros. unfold phase_of. simpl. by apply task_phase_snoc. Qed.

(** A row held after the call was held before, or has just been claimed. *)
Lemma call_new_row s i tk ev a d' x :
  sys_inv s -> sy_tasks s !! i = Some tk -> task_pending i tk = Some ev ->
  answered (sy_db s) (sy_now s) ev a d' ->
  held_by i (mkTask (tk_msg tk) (tk_answers tk ++ [a])) = Some x ->
  row_at (msg_key (tk_msg tk)) d' = Some x /\ d_Status x = DeliveryProcessing /\
  is_Some (d_LockedUntil x) /\
  (held_by i tk = Some x \/ forall y, row_at (msg_key (tk_msg tk)) (sy_db s) = Some y ->
                                d_Status y <> DeliveryProcessing).
Proof.
  intros Hi Ht Hp Ha Hx.
  destruct (port_rows s i tk ev a d' Hi Ht Hp Ha) as (_ & Hrow & Hcl).
  unfold held_by in Hx.
  rewrite (task_after i tk ev a (si_consumed s Hi i tk Ht) Hp (answered_expects _ _ _ _ _ Ha)) in Hx.
  apply after_held in Hx as [(id & at_ & lease & -> & ->)|[Hx Hmv]].
  - rewrite Hrow. pose proof Hcl as (y & Hy & Hs & ->). split_and!; try done.
    right. intros z Hz. rewrite Hz in Hcl. by apply claims_not_processing in Hcl.
  - rewrite Hrow, Hmv. destruct (si_held s Hi i tk x Ht Hx) as (? & ? & ?). split_and!; try done.
    by left.
Qed.

(** The rows the other goroutines hold stay. *)
Lemma call_old_row s i tk ev a d' j tk' y :
  sys_inv s -> sy_tasks s !! i = Some tk -> task_pending i tk = Some ev ->
  answered (sy_db s) (sy_now s) ev a d' ->
  j <> i -> sy_tasks s !! j = Some tk' -> held_by j tk' = Some y ->
  row_at (msg_key (tk_msg tk')) d' = Some y.
Proof.
  intros Hi Ht Hp Ha Hj Ht' Hy.
  destruct (port_rows s i tk ev a d' Hi Ht Hp Ha) as (Hoth & Hrow & Hcl).
  pose proof (task_may i tk ev Hp) as Hm. pose proof (answered_expects _ _ _ _ _ Ha) as He.
  destruct (si_row s j tk' y Hi Ht' Hy) as (Hr & Hs & Hk).
  destruct (decide (msg_key (tk_msg tk') = msg_key (tk_msg tk))) as [E|E]; [|by rewrite Hoth].
  rewrite E in *. rewrite Hrow, Hr in *. apply (moved_quiet (workers i) (tk_msg tk) (phase_of i tk)); try done.
  destruct (held_row (phase_of i tk)) as [x|] eqn:Ex; [|done]. exfalso. apply Hj.
  destruct (si_row s i tk x Hi Ht Ex) as (_ & _ & Hkx).
  by apply (si_unique s Hi j i tk' tk y x); try done; congruence.
Qed.

(** The goroutine reads [b], the answer [a] itself or one that lets it hold nothing. *)
Lemma inv_call s i tk ev a d' b l :
  sys_inv s -> sy_tasks s !! i = Some tk -> task_pending i tk = Some ev ->
  answered (sy_db s) (sy_now s) ev a d' -> expects ev b = true ->
  b = a \/ held_by i (mkTask (tk_msg tk) (tk_answers tk ++ [b])) = None ->
  EnCall (msg_key (tk_msg tk)) ev b ∈ l ->
  let s' := mkSystem d' (sy_now s) (<[i := mkTask (tk_msg tk) (tk_answers tk ++ [b])]> (sy_tasks s))
              (sy_log s ++ l) in
  prompt s' -> sys_inv s'.
Proof.
  intros Hi Ht Hp Ha He Hb Hl s' Hpr. pose proof (si_consumed s Hi i tk Ht) as Hc.
  destruct (calls_made_snoc overflow text (workers i) fuel (tk_msg tk) (tk_answers tk) ev b Hc Hp He)
    as [Hmade Hcons].
  pose proof (fun x => call_new_row s i tk ev a d' x Hi Ht Hp Ha) as Hnew.
  assert (Hread : forall x, held_by i (mkTask (tk_msg tk) (tk_answers tk ++ [b])) = Some x -> b = a)
    by (intros x Hx; destruct Hb; congruence).
  split; simpl; try done.
  - by apply (reach_port s i tk ev a d').
  - intros j tk' [[<- <-]|[? ?]]%lookup_insert_Some; [done|by apply Hi].
  - intros j tk' H ev' a' Hin. simpl. apply elem_of_app.
    apply lookup_insert_Some in H as [[<- <-]|[? ?]].
    + simpl in Hin. rewrite Hmade in Hin. apply elem_of_app in Hin as [Hin|Hin].
      * left. by apply (si_logged s Hi i tk Ht).
      * right. by apply list_elem_of_singleton in Hin as [= -> ->].
    + left. by apply (si_logged s Hi j tk').
  - intros j tk' x [[<- <-]|[? ?]]%lookup_insert_Some Hx.
    + rewrite (Hread x Hx) in Hx. destruct (Hnew x Hx) as (? & ? & ? & _). done.
    + destruct (si_held s Hi j tk' x) as (_ & ? & ?); try done. split_and!; try done. by apply (call_old_row s i tk ev a d' j).
  - assert (Hex : forall j tk' x y, j <> i -> sy_tasks s !! j = Some tk' -> held_by j tk' = Some y ->
      held_by i (mkTask (tk_msg tk) (tk_answers tk ++ [b])) = Some x -> del_key x <> del_key y).
    { intros j tk' x y Hj Ht' Hy Hx E. rewrite (Hread x Hx) in Hx.
      destruct (Hnew x Hx) as (Hrx & _ & _ & [Hh|Hn]).
      - apply Hj. symmetry. by apply (si_unique s Hi i j tk tk' x y).
      - destruct (si_row s j tk' y Hi Ht' Hy) as (Hr & Hs & Hk). apply row_at_Some in Hrx as [_ Hkx].
        apply (Hn y); [|done]. by rewrite <- Hkx, E, Hk. }
    intros j1 j2 tk1 tk2 x y [[<- <-]|[N1 H1]]%lookup_insert_Some [[<- <-]|[N2 H2]]%lookup_insert_Some Hx Hy E;
      [done| | |by apply (si_unique s Hi j1 j2 tk1 tk2 x y)].
    + by destruct (Hex j2 tk2 x y).
    + by destruct (Hex j1 tk1 y x).
Qed.

(** A goroutine that read an error on its write works on no row any more. *)
Lemma lost_holds_nothing i tk e ev b :
  consumed overflow text (workers i) fuel (tk_msg tk) (tk_answers tk) ->
  task_pending i tk = Some ev -> lost_answer e ev = Some b ->
  expects ev b = true /\ held_by i (mkTask (tk_msg tk) (tk_answers tk ++ [b])) = None.
Proof.
  intros Hc Hp Hb. assert (He : expects ev b = true) by (by destruct ev; simplify_eq/=).
  split; [done|]. unfold held_by. rewrite (task_after i tk ev b Hc Hp He).
  destruct ev; simplify_eq/=; by destruct (phase_of i tk).
Qed.

(** The reaper takes exactly the expired leases. *)
Lemma reap_rows now se r se' k :
  heard se -> exec (CallReapStuck now) se = (r, se') ->
  row_at k (db se') =
  match r with
  | Ok _ => (fun x => if lease_expired now x then reaped_row now x else x) <$> row_at k (db se)
  | Err _ => row_at k (db se)
  end.
Proof.
  intros Hh H. destruct r as [[]|e].
  - apply run_runs in H. simpl in H. unfold ignore, ReapStuck in H. inv_runs.
    unfold reap_sql in *. simplify_eq.
    by apply (row_at_update k (lease_expired now) (reaped_row now)).
  - by rewrite (exec_heard _ _ _ _ Hh H).
Qed.

Lemma outside_disciplined c now d : outside c now d -> disciplined c d.
Proof. by destruct c. Qed.

(** Whether a call is the one that retires a day. *)
Lemma retires_dec c : (exists day, c = CallArchiveAndDropPartition day) \/ ~ archives c.
Proof. destruct c; simpl; eauto. Qed.

(** What the API and the scheduler do to a row. *)
Lemma outside_step s c se r se' k :
  db_wf (sy_db s) -> db se = sy_db s -> outside c (sy_now s) (sy_db s) -> legal c (sy_db s) ->
  exec c se = (r, se') -> life_step c (row_at k (sy_db s)) (row_at k (db se')).
Proof.
  intros Hwf Hd Ho Hl H. rewrite <- Hd in *. apply (exec_step c se r se' k); try done.
  by apply (outside_disciplined c (sy_now s)).
Qed.

(** A lease that has not ended protects its row from everything outside. *)
Lemma outside_keeps s c se r se' k x lease :
  db_wf (sy_db s) -> db se = sy_db s -> heard se -> outside c (sy_now s) (sy_db s) -> legal c (sy_db s) ->
  exec c se = (r, se') -> row_at k (sy_db s) = Some x -> d_Status x = DeliveryProcessing ->
  d_LockedUntil x = Some lease -> (sy_now s <= lease)%Z -> row_at k (db se') = Some x.
Proof.
  intros Hwf Hd Hh Ho Hl H Hx Hs Hlk Hle.
  destruct (retires_dec c) as [[day ->]|Hna].
  { rewrite <- Hd in *. apply (proj2 (retire_kept day se r se' k Hwf Ho H) x Hx). by rewrite Hs. }
  pose proof (outside_step s c se r se' k Hwf Hd Ho Hl H) as Hstep. rewrite Hx in Hstep.
  destruct (row_at k (db se')) as [x'|] eqn:E; [|by apply drops_archives in Hstep].
  destruct Hstep as [->|(e & He & Hev)]; [done|].
  apply re_next in Hev. rewrite Hs in Hev.
  destruct c; simpl in He; simplify_eq; try done.
  apply (reap_rows _ _ _ _ k Hh) in H. rewrite Hd, Hx in H. simpl in Ho. subst now.
  assert (Hn : lease_expired (sy_now s) x = false).
  { apply not_true_iff_false. rewrite lease_expired_spec, Hlk. intros (_ & t & [= <-] & Ht). lia. }
  rewrite E in H. destruct r; simpl in H; [rewrite Hn in H|]; congruence.
Qed.

Lemma inv_outside s c se r se' :
  sys_inv s -> db se = sy_db s -> heard se -> outside c (sy_now s) (sy_db s) -> legal c (sy_db s) ->
  routes c (sy_db s) -> exec c se = (r, se') ->
  sys_inv (mkSystem (db se') (sy_now s) (sy_tasks s) (sy_log s ++ reap_entries c (sy_db s) r)).
Proof.
  intros Hi Hd Hh Ho Hl Hc H. split; simpl; try apply Hi.
  - rewrite <- Hd in Hl, Hc. eapply served_call; [|done..]. rewrite Hd. apply Hi.
  - intros i tk Ht ev a Hin. apply elem_of_app. left. by apply (si_logged s Hi i tk Ht).
  - intros i tk x Ht Hx. destruct (si_held s Hi i tk x Ht Hx) as (Hr & Hs & [lease Hlk]).
    split_and!; [|done|by eexists].
    apply (outside_keeps s c se r se' _ x lease); try done; [apply reachable_wf, served_reachable, Hi|].
    by apply (si_prompt s Hi i tk x).
Qed.

Lemma held_by_start i msg : held_by i (mkTask msg []) = None.
Proof. unfold held_by, phase_of. cbn [tk_msg tk_answers]. by rewrite task_phase_nil. Qed.

(** Dropping goroutines, or adding one that has done nothing. *)
Lemma inv_tasks s tasks t :
  sys_inv s -> (forall i tk, tasks !! i = Some tk -> sy_tasks s !! i = Some tk \/ tk_answers tk = []) ->
  prompt (mkSystem (sy_db s) t tasks (sy_log s)) ->
  sys_inv (mkSystem (sy_db s) t tasks (sy_log s)).
Proof.
  intros Hi Ht Hpr.
  assert (Hold : forall i tk x, tasks !! i = Some tk -> held_by i tk = Some x -> sy_tasks s !! i = Some tk).
  { intros i tk x H Hx. destruct (Ht i tk H) as [?|E]; [done|]. destruct tk as [msg l]. simpl in E. subst l.
    by rewrite held_by_start in Hx. }
  split; simpl; try done; try apply Hi.
  - intros i tk H. destruct (Ht i tk H) as [?|E]; [by apply Hi|]. rewrite E. apply consumed_nil.
  - intros i tk H. destruct (Ht i tk H) as [?|E]; [by apply (si_logged s Hi i tk)|].
    rewrite E, (proj2 (consumed_nil _ _ _ _ _)). by intros ev a ?%not_elem_of_nil.
  - intros i tk x H Hx. apply (si_held s Hi i tk x); [by eapply Hold|done].
  - intros i j tk tk' x y H H' Hx Hy. apply (si_unique s Hi i j tk tk' x y); try done; by eapply Hold.
Qed.

Lemma inv_boot ts t : sys_inv (boot ts t).
Proof.
  assert (Hn : forall (i : nat) (tk : Task), sy_tasks (boot ts t) !! i = Some tk -> False)
    by (intros i tk; simpl; by rewrite lookup_empty).
  split; simpl; try apply served_fresh; unfold prompt; intros; by edestruct Hn.
Qed.

Lemma inv_step s s' : sys_inv s -> sys_step s s' -> prompt s' -> sys_inv s'.
Proof.
  intros Hi [i msg Hn|i tk ev a d' Ht Hp Ha|i tk ev a d' e b Ht Hp Ha Hb|i|c se r se' Hd Hh Ho Hl Hc H|t Hle] Hpr.
  - apply inv_tasks; [done| |done]. intros j tk [[<- <-]|[_ ?]]%lookup_insert_Some; [by right|by left].
  - apply (inv_call s i tk ev a d'); try done; [by eapply answered_expects|by left|left].
  - destruct (lost_holds_nothing i tk e ev b (si_consumed s Hi i tk Ht) Hp Hb) as [? ?].
    apply (inv_call s i tk ev a d'); try done; [by right|right; left].
  - apply inv_tasks; [done| |done]. intros j tk [_ ?]%lookup_delete_Some. by left.
  - by apply (inv_outside s c se r se').
  - apply inv_tasks; [done| |done]. by left.
Qed.

Lemma run_inv t0 s : sys_run t0 s -> sys_inv s.
Proof. induction 1; [apply inv_boot|by eapply inv_step]. Qed.
End system.
