(* ===== verification/SystemSpec.v ===== *)
(** * What the whole system guarantees

    The ledger of a delivery counts what happened to it: claims, calls to the
    provider, final writes, reschedules, reaps. [balanced] is the balance of a ledger
    with the delivery's row, kept by every step of prompt workers; the properties are
    read off it: nobody shares a delivery, it settles once, and the provider is called
    for it once per claim and reached at most as often as the retry policy and the
    crashes allow. Without promptness they fail ([late_worker_sends_twice]). *)

From S2P Require Import Prelude GoStrings GoFloat Domain Retry Template Store StoreRuns StoreInv StoreCreate.
From S2P Require Import StoreCalls StoreSamples StoreQuiet StoreSpec StoreDue Lifecycle Outbox Retention Worker WorkerSpec WorkerTrace System.

Local Open Scope string_scope.
Local Open Scope list_scope.

(** ** Ledgers *)

(** The provider's answer counts as a contact unless the breaker refused the call. *)
Definition refused (r : result error ProviderResult) : bool :=
  match r with Err e => breaker_open e | Ok _ => false end.

Definition claim_entry (k : uuid * time) (en : entry) : bool :=
  match en with
  | EnCall k' (EvClaim _ _ _) (AnClaim (Ok (Some _))) => bool_decide (k' = k)
  | _ => false
  end.
Definition ask_entry (k : uuid * time) (en : entry) : bool :=
  match en with EnCall k' (EvSend _) (AnSend _) => bool_decide (k' = k) | _ => false end.
Definition contact_entry (k : uuid * time) (en : entry) : bool :=
  match en with
  | EnCall k' (EvSend _) (AnSend r) => bool_decide (k' = k) && negb (refused r)
  | _ => false
  end.
Definition settled_entry (k : uuid * time) (en : entry) : bool :=
  match en with
  | EnCall k' (EvMarkSent _ _ _ _ | EvMarkFailed _ _ _ _ _) (AnUnit (Ok _)) => bool_decide (k' = k)
  | _ => false
  end.
Definition retried_entry (k : uuid * time) (en : entry) : bool :=
  match en with
  | EnCall k' (EvMarkRetrying _ _ _ _ _) (AnUnit (Ok _)) => bool_decide (k' = k)
  | _ => false
  end.
Definition reaped_entry (k : uuid * time) (en : entry) : bool :=
  match en with EnReaped k' => bool_decide (k' = k) | _ => false end.

Record Ledger := mkLedger {
  lg_claims : nat; lg_asks : nat; lg_contacts : nat;
  lg_settled : nat; lg_retried : nat; lg_reaped : nat
}.

Definition ledger (k : uuid * time) (l : list entry) : Ledger :=
  mkLedger (count_where (claim_entry k) l) (count_where (ask_entry k) l)
    (count_where (contact_entry k) l) (count_where (settled_entry k) l)
    (count_where (retried_entry k) l) (count_where (reaped_entry k) l).

Definition ledger_add (k : uuid * time) (L : Ledger) (en : entry) : Ledger :=
  mkLedger (lg_claims L + Nat.b2n (claim_entry k en)) (lg_asks L + Nat.b2n (ask_entry k en))
    (lg_contacts L + Nat.b2n (contact_entry k en)) (lg_settled L + Nat.b2n (settled_entry k en))
    (lg_retried L + Nat.b2n (retried_entry k en)) (lg_reaped L + Nat.b2n (reaped_entry k en)).

Lemma ledger_snoc k l en : ledger k (l ++ [en]) = ledger_add k (ledger k l) en.
Proof.
  unfold ledger, ledger_add. simpl. rewrite !count_app, !count_cons.
  by rewrite !(count_none _ []), !Nat.add_0_r by (by intros ? ?%not_elem_of_nil).
Qed.

(** ** Balance *)

Definition in_status (st : DeliveryStatus) (o : option Delivery) : nat :=
  match o with Some x => Nat.b2n (has_status st x) | None => 0 end.

Definition attempts (o : option Delivery) : Z :=
  match o with Some x => d_AttemptCount x | None => 0 end.

(** Phases in which the provider was not called for this claim, or was not reached. *)
Definition before_ask (p : phase) : bool :=
  match p with PhHolding _ | PhReady _ _ => true | _ => false end.
Definition before_contact (p : phase) : bool :=
  match p with PhHolding _ | PhReady _ _ => true | PhAnswered _ _ r => refused r | _ => false end.

(** [H]: the phases of the goroutines that hold the row [o]; [M]: the policy's
    [MaxAttempts]. *)
Record balanced (M : Z) (L : Ledger) (o : option Delivery) (H : phase -> Prop) : Prop := {
  ba_claims : lg_claims L = lg_settled L + lg_retried L + lg_reaped L
                            + in_status DeliveryProcessing o;
  ba_settled : lg_settled L = in_status DeliverySent o + in_status DeliveryFailed o;
  ba_asks : lg_asks L <= lg_claims L;
  ba_before_ask p : H p -> before_ask p = true -> lg_asks L < lg_claims L;
  ba_contacts : (Z.of_nat (lg_contacts L) <= attempts o + Z.of_nat (in_status DeliverySent o)
                   + Z.of_nat (lg_reaped L) + Z.of_nat (in_status DeliveryProcessing o))%Z;
  ba_before_contact p : H p -> before_contact p = true ->
    (Z.of_nat (lg_contacts L) <= attempts o + Z.of_nat (lg_reaped L))%Z;
  ba_attempts : (0 <= attempts o <= M)%Z;
  ba_not_failed x : o = Some x -> d_Status x <> DeliveryFailed -> (d_AttemptCount x < M)%Z
}.

Definition nobody : phase -> Prop := fun _ => False.

(** New holders in phases no earlier than those of the old ones. *)
Lemma balanced_holders M L o (H H' : phase -> Prop) :
  (forall p', H' p' -> before_contact p' = true -> exists p, H p /\ before_contact p = true /\
     (before_ask p' = true -> before_ask p = true)) ->
  balanced M L o H -> balanced M L o H'.
Proof.
  intros Hs [B1 B2 B3 B4 B5 B6 B7 B8]. split; try done.
  - intros p' Hp E. destruct (Hs p' Hp) as (p & ? & _ & Hb); [by destruct p'|]. by apply (B4 p), Hb.
  - intros p' Hp E. destruct (Hs p' Hp E) as (p & ? & ? & _). by apply (B6 p).
Qed.

(** Arithmetic on a balance, the status of the row being known. *)
Ltac balance :=
  simpl in *; unfold in_status, has_status in *; simpl in *;
  repeat match goal with E : d_Status _ = _ |- _ => rewrite E in * end;
  repeat case_bool_decide; simplify_eq; simpl in *; lia || done.

(** ** One call at its own delivery *)

Section one_call.
Context (overflow : float64 -> Z) (text : uuid -> string) (w : Worker) (msg : StreamMessage).
Context (M : Z) (HM : (1 <= M < 2 ^ 31)%Z) (Hpol : MaxAttempts (w_policy w) = M).

Lemma evaluates_attempts again x e n :
  (0 <= d_AttemptCount x < M)%Z -> evaluates overflow w again x e n ->
  n = (d_AttemptCount x + 1)%Z /\ (again = true -> (n < M)%Z).
Proof.
  intros Hx (_ & dr & now & oc & E & Hs & ->). unfold EvaluateFailure in E.
  rewrite Hpol, attempt_succ in E by (unfold attempt_ok; lia).
  destruct (match errors_As_Provider e with Some e => pe_Permanent e | None => false end);
    [simplify_eq; simpl in *; split; [done|]; by destruct again|].
  destruct (_ >=? M)%Z eqn:Em; [simplify_eq; simpl in *; split; [done|]; by destruct again|].
  destruct (match _ with Some d => Some d | None => _ end) as [wait|]; simplify_eq/=.
  split; [done|]. intros _. rewrite Z.geb_leb in Em. apply Z.leb_gt in Em. lia.
Qed.

Context (now : time) (k : uuid * time) (p : phase) (ev : event) (a : answer).
Context (L : Ledger) (o : option Delivery) (H H' : phase -> Prop).
Hypothesis Hmay : may overflow text w msg p ev.
Hypothesis Hclaim : claims_row now ev a o.
Hypothesis Hexp : expects ev a = true.
Hypothesis Hrow : forall x, held_row p = Some x -> o = Some x /\ d_Status x = DeliveryProcessing.
Hypothesis Hown : is_Some (held_row p) -> H p.
Hypothesis Hnew : forall p', H' p' -> p' = after p ev a /\ is_Some (held_row p') \/
  H p' /\ held_row p = None /\ in_status DeliveryProcessing o = 1.

(** A call that changes neither the ledger nor the row. *)
Lemma quiet_call :
  ledger_add k L (EnCall k ev a) = L -> moved now ev a o = o ->
  (is_Some (held_row (after p ev a)) -> is_Some (held_row p) /\ before_contact p = before_contact (after p ev a) /\
     before_ask p = before_ask (after p ev a)) ->
  balanced M L o H -> balanced M (ledger_add k L (EnCall k ev a)) (moved now ev a o) H'.
Proof.
  intros -> -> Hp. apply balanced_holders. intros p' Hp' Hb. apply Hnew in Hp' as [[-> Hh]|[? _]].
  - destruct (Hp Hh) as (Hh' & E1 & E2). exists p. split; [by apply Hown|]. by rewrite E1, E2.
  - by exists p'.
Qed.

Lemma claim_call y lease :
  d_Status y = DeliveryPending \/ d_Status y = DeliveryRetrying -> balanced M L (Some y) H ->
  balanced M (mkLedger (lg_claims L + 1) (lg_asks L) (lg_contacts L) (lg_settled L) (lg_retried L)
               (lg_reaped L)) (Some (claim_row lease now y)) H'.
Proof.
  intros Hs [B1 B2 B3 _ B5 _ B7 B8]. specialize (B8 y eq_refl).
  assert (Ht : d_Status y <> DeliveryFailed) by (by destruct Hs as [-> | ->]). specialize (B8 Ht).
  split; intros; destruct Hs; balance.
Qed.

Lemma ask_call x r :
  d_Status x = DeliveryProcessing -> before_ask p = true -> H p ->
  (forall p', H' p' -> before_ask p' = false /\ before_contact p' = refused r) ->
  balanced M L (Some x) H ->
  balanced M (mkLedger (lg_claims L) (lg_asks L + 1) (lg_contacts L + Nat.b2n (negb (refused r)))
               (lg_settled L) (lg_retried L) (lg_reaped L)) (Some x) H'.
Proof.
  intros Hs Hb Hp Hp' [B1 B2 B3 B4 B5 B6 B7 B8]. specialize (B4 p Hp Hb).
  assert (Hc : before_contact p = true) by by destruct p. specialize (B6 p Hp Hc).
  split; try done; simpl.
  - lia.
  - intros p' H1 E. destruct (Hp' p' H1). congruence.
  - destruct (refused r); balance.
  - intros p' H1 E. destruct (Hp' p' H1) as [_ E']. rewrite E' in E. rewrite E. simpl in *. lia.
Qed.

(** The final write of a row that is held. *)
Lemma settled_call x x' :
  d_Status x = DeliveryProcessing -> 
  d_Status x' = DeliverySent /\ d_AttemptCount x' = d_AttemptCount x \/
  d_Status x' = DeliveryFailed /\ d_AttemptCount x' = (d_AttemptCount x + 1)%Z ->
  (forall p', ~ H' p') -> balanced M L (Some x) H ->
  balanced M (mkLedger (lg_claims L) (lg_asks L) (lg_contacts L) (lg_settled L + 1) (lg_retried L)
               (lg_reaped L)) (Some x') H'.
Proof.
  intros Hs Hx' Hno [B1 B2 B3 _ B5 _ B7 B8]. specialize (B8 x eq_refl).
  rewrite Hs in B8. specialize (B8 ltac:(done)).
  split; try (intros p' Hp'; by destruct (Hno p')); try (destruct Hx' as [[? E]|[? E]]; balance).
  intros z [= <-] Ht. destruct Hx' as [[E ?]|[E _]]; [balance|by rewrite E in Ht].
Qed.

Lemma retried_call x x' :
  d_Status x = DeliveryProcessing -> d_Status x' = DeliveryRetrying ->
  d_AttemptCount x' = (d_AttemptCount x + 1)%Z /\ (d_AttemptCount x' < M)%Z \/
  d_AttemptCount x' = d_AttemptCount x /\ before_contact p = true /\ H p ->
  (forall p', ~ H' p') -> balanced M L (Some x) H ->
  balanced M (mkLedger (lg_claims L) (lg_asks L) (lg_contacts L) (lg_settled L) (lg_retried L + 1)
               (lg_reaped L)) (Some x') H'.
Proof.
  intros Hs Hs' Hx' Hno [B1 B2 B3 _ B5 B6 B7 B8]. specialize (B8 x eq_refl).
  rewrite Hs in B8. specialize (B8 ltac:(done)).
  split; try (intros p' Hp'; by destruct (Hno p')); simpl; try balance.
  - destruct Hx' as [[E _]|(E & Hb & Hp)]; [balance|]. specialize (B6 p Hp Hb). balance.
  - intros z [= <-] _. destruct Hx' as [[E ?]|(E & _)]; balance.
Qed.

(** The ledger after an entry. *)
Ltac ledger_tac :=
  unfold ledger_add; simpl; rewrite ?bool_decide_true by done; simpl;
  rewrite ?Nat.add_0_r; destruct L; reflexivity.

Ltac booked settled retried :=
  replace (ledger_add _ _ _) with
    (mkLedger (lg_claims L) (lg_asks L) (lg_contacts L) settled retried (lg_reaped L)) by ledger_tac.

(** Every call of a goroutine keeps the balance of its message's delivery. *)
Lemma own_call :
  balanced M L o H -> balanced M (ledger_add k L (EnCall k ev a)) (moved now ev a o) H'.
Proof.
  intros HB. pose proof quiet_call as Hquiet.
  pose proof ask_call as Hask. pose proof retried_call as Hretried.
  assert (Hin : forall x, held_row p = Some x -> (0 <= d_AttemptCount x < M)%Z).
  { intros x Hx. destruct (Hrow x Hx) as [-> Hs]. split; [apply (ba_attempts _ _ _ _ HB)|].
    by apply (ba_not_failed _ _ _ _ HB x eq_refl); rewrite Hs. }
  assert (Hnone : held_row (after p ev a) = None -> is_Some (held_row p) -> forall p', ~ H' p').
  { intros E [x Hx] p' Hp'. apply Hnew in Hp' as [[-> [? ?]]|(_ & ? & _)]; congruence. }
  assert (Hh : forall x, held_row p = Some x -> H p) by (intros x Hx; apply Hown; by eexists).
  destruct ev, p as [|x|x q|x q [res|e]| |]; try done.
  all: destruct a as [| | | |[[z|]|er]|[z|er]|]; try done.
  all: try (apply Hquiet; [ledger_tac|done|simpl; intros Hs; split_and!; (done || by destruct Hs)|done]).
  all: try (destruct r as [[]|er]; [|apply Hquiet; [ledger_tac|done|simpl; by intros [? ?]|done]]).
  - destruct Hclaim as (y & Hy & Hs & ->). rewrite Hy in HB.
    replace (ledger_add _ _ _) with (mkLedger (lg_claims L + 1) (lg_asks L) (lg_contacts L)
      (lg_settled L) (lg_retried L) (lg_reaped L)) by ledger_tac.
    by apply claim_call.
  - destruct (Hrow x eq_refl) as [Ho Hs]. rewrite Ho in *. simpl moved.
    replace (ledger_add _ _ _) with (mkLedger (lg_claims L) (lg_asks L + 1)
      (lg_contacts L + Nat.b2n (negb (refused r0))) (lg_settled L) (lg_retried L) (lg_reaped L))
      by ledger_tac.
    apply (Hask x r0); try done; [by apply (Hh x)|].
    intros p' Hp'. by apply Hnew in Hp' as [[-> _]|(_ & ? & _)].
  - destruct (Hrow x eq_refl) as [Ho Hs]. rewrite Ho in *.
    booked (lg_settled L + 1) (lg_retried L). apply (settled_call x); try done; [by left|]. apply Hnone; [done|by eexists].
  - destruct (Hrow x eq_refl) as [Ho Hs]. rewrite Ho in *. destruct Hmay as [_ ->].
    booked (lg_settled L) (lg_retried L + 1). apply (Hretried x); try done; [|apply Hnone; [done|by eexists]].
    right. split_and!; try done. by apply (Hh x).
  - destruct (Hrow x eq_refl) as [Ho Hs]. rewrite Ho in *.
    booked (lg_settled L) (lg_retried L + 1). apply (Hretried x); try done; [|apply Hnone; [done|by eexists]].
    destruct Hmay as [_ [[Hb ->]|He]]; [right; split_and!; try done; by apply (Hh x)|left].
    simpl. by destruct (evaluates_attempts true x e n (Hin x eq_refl) He) as [-> Hlt]; auto.
  - destruct (Hrow x eq_refl) as [Ho Hs]. rewrite Ho in *.
    booked (lg_settled L + 1) (lg_retried L). apply (settled_call x); try done; [|apply Hnone; [done|by eexists]].
    right. split; [done|]. destruct Hmay as (_ & _ & He).
    by destruct (evaluates_attempts false x e n (Hin x eq_refl) He) as [-> _].
Qed.
End one_call.

Section system.
Context `{codec : !MessageCodec} `{uuids : !UuidSource}.
Context (overflow : float64 -> Z) (text : uuid -> string) (workers : nat -> Worker) (fuel : nat).
Local Abbreviation sys_inv := (sys_inv overflow text workers fuel).
Local Abbreviation phase_of := (phase_of overflow text workers fuel).
Local Abbreviation held_by := (held_by overflow text workers fuel).
Local Abbreviation task_pending := (task_pending overflow text workers fuel).
Local Abbreviation sys_run := (sys_run overflow text workers fuel).

(** All workers of the deployment run one retry policy's bound. *)
Context (M : Z) (HM : (1 <= M < 2 ^ 31)%Z).
Context (Hpol : forall i, MaxAttempts (w_policy (workers i)) = M).

Definition holder (s : System) (k : uuid * time) (p : phase) : Prop :=
  exists i tk, sy_tasks s !! i = Some tk /\ phase_of i tk = p /\ msg_key (tk_msg tk) = k /\
    is_Some (held_row p).

Definition account (s : System) (k : uuid * time) : Prop :=
  balanced M (ledger k (sy_log s)) (kept_at k (sy_db s)) (holder s k).

Lemma holder_row s k p :
  sys_inv s -> holder s k p ->
  exists x, row_at k (sy_db s) = Some x /\ d_Status x = DeliveryProcessing /\
    lease_expired (sy_now s) x = false.
Proof.
  intros Hi (i & tk & Ht & <- & <- & [x Hx]). exists x.
  destruct (si_held _ _ _ _ s Hi i tk x Ht Hx) as (H1 & H2 & [lease Hl]). split_and!; try done.
  apply not_true_iff_false. rewrite lease_expired_spec, Hl. intros (_ & t & [= <-] & Hlt).
  pose proof (si_prompt _ _ _ _ s Hi i tk x lease Ht Hx Hl). lia.
Qed.

Lemma no_holder s k :
  sys_inv s -> (forall x, kept_at k (sy_db s) = Some x -> d_Status x = DeliveryProcessing ->
     lease_expired (sy_now s) x = true) -> forall p, ~ holder s k p.
Proof.
  intros Hi H p Hp. destruct (holder_row s k p Hi Hp) as (x & Hx & Hs & He).
  by rewrite (H x (kept_row _ _ _ Hx) Hs) in He.
Qed.

(** ** Calls of goroutines *)

Lemma foreign_entry k k' L ev a : k' <> k -> ledger_add k L (EnCall k' ev a) = L.
Proof.
  intros Hk. unfold ledger_add. simpl. destruct L.
  destruct ev, a as [|v| | |v|v|v]; try destruct v as [[]|]; simpl;
    rewrite ?bool_decide_false by done; simpl; by rewrite !Nat.add_0_r.
Qed.

Lemma account_call s i tk ev a d' k :
  sys_inv s -> sy_tasks s !! i = Some tk -> task_pending i tk = Some ev ->
  answered (sy_db s) (sy_now s) ev a d' -> account s k ->
  account (mkSystem d' (sy_now s) (<[i := mkTask (tk_msg tk) (tk_answers tk ++ [a])]> (sy_tasks s))
             (sy_log s ++ [EnCall (msg_key (tk_msg tk)) ev a])) k.
Proof.
  intros Hi Ht Hp Ha HB. unfold account in *. simpl. rewrite ledger_snoc.
  destruct (port_kept _ _ _ _ s i tk ev a d' Hi Ht Hp Ha) as (Hoth & Hrow & Hcl).
  pose proof (answered_expects _ _ _ _ _ Ha) as He.
  pose proof (task_after overflow text workers fuel i tk ev a (si_consumed _ _ _ _ s Hi i tk Ht) Hp He) as Hph.
  set (s' := mkSystem _ _ _ _).
  assert (Hsplit : forall p', holder s' k p' ->
    msg_key (tk_msg tk) = k /\ p' = after (phase_of i tk) ev a /\ is_Some (held_row p') \/
    exists j tk', j <> i /\ sy_tasks s !! j = Some tk' /\ phase_of j tk' = p' /\
      msg_key (tk_msg tk') = k /\ is_Some (held_row p')).
  { intros p' (j & tk' & Hj & Hphj & Hk & Hh). simpl in Hj.
    apply lookup_insert_Some in Hj as [[<- <-]|[Hne Hj]].
    - left. rewrite Hph in Hphj. by subst.
    - right. exists j, tk'. by split_and!. }
  destruct (decide (msg_key (tk_msg tk) = k)) as [Ek|Ek].
  - rewrite Ek in *. rewrite Hrow.
    eapply (own_call overflow text (workers i) (tk_msg tk) M HM (Hpol i) (sy_now s) k (phase_of i tk));
      [by apply task_may|exact Hcl|done| | | |exact HB].
    + intros x Hx. destruct (si_row _ _ _ _ s i tk x Hi Ht Hx) as (H1 & H2 & _).
      split; [|done]. apply kept_row. by rewrite <- Ek.
    + intros Hh. by exists i, tk.
    + intros p' Hp'. destruct (Hsplit p' Hp') as [(_ & ? & ?)|(j & tk' & Hne & Hj & Hphj & Hkj & Hh)]; [by left|].
      right. assert (Hold : holder s k p') by by exists j, tk'. split; [done|].
      destruct (holder_row s k p' Hi Hold) as (y & Hy & Hs & _).
      split; [|rewrite (kept_row _ _ _ Hy); unfold in_status, has_status; simpl; by rewrite bool_decide_true].
      destruct (held_row (phase_of i tk)) as [x|] eqn:Ex; [|done]. exfalso. apply Hne.
      destruct Hh as [z Hz]. rewrite <- Hphj in Hz.
      destruct (si_row _ _ _ _ s i tk x Hi Ht Ex) as (_ & _ & K1).
      destruct (si_row _ _ _ _ s j tk' z Hi Hj Hz) as (_ & _ & K2).
      apply (si_unique _ _ _ _ s Hi j i tk' tk z x); try done. congruence.
  - rewrite foreign_entry by done. rewrite Hoth by done. eapply balanced_holders; [|exact HB].
    intros p' Hp' E. exists p'. split_and!; try done.
    destruct (Hsplit p' Hp') as [(? & _)|(j & tk' & _ & Hj & Hphj & Hkj & Hh)]; [done|]. by exists j, tk'.
Qed.

(** The error a goroutine reads counts for nothing, and it holds nothing after it. *)
Lemma lost_entry k k' e ev b L :
  lost_answer e ev = Some b -> ledger_add k L (EnCall k' ev b) = L.
Proof.
  intros H. unfold ledger_add. destruct L.
  destruct ev; simplify_eq/=; by rewrite !Nat.add_0_r.
Qed.

Lemma account_lost s i tk ev a d' e b k :
  sys_inv s -> sy_tasks s !! i = Some tk -> task_pending i tk = Some ev ->
  answered (sy_db s) (sy_now s) ev a d' -> lost_answer e ev = Some b -> account s k ->
  account (mkSystem d' (sy_now s) (<[i := mkTask (tk_msg tk) (tk_answers tk ++ [b])]> (sy_tasks s))
             (sy_log s ++ [EnCall (msg_key (tk_msg tk)) ev a; EnCall (msg_key (tk_msg tk)) ev b])) k.
Proof.
  intros Hi Ht Hp Ha Hb HB. pose proof (account_call s i tk ev a d' k Hi Ht Hp Ha HB) as H.
  destruct (lost_holds_nothing overflow text workers fuel i tk e ev b (si_consumed _ _ _ _ s Hi i tk Ht) Hp Hb)
    as [_ Hnone].
  unfold account in *. simpl in *. change [?x; ?y] with ([x] ++ [y]).
  rewrite app_assoc, ledger_snoc, (lost_entry k _ e) by done.
  eapply balanced_holders; [|exact H]. intros p (j & tk' & Hj & Hph & Hk & Hh) Hb'. exists p.
  split_and!; [|done|done]. simpl in Hj.
  apply lookup_insert_Some in Hj as [[<- <-]|[Hne Hj]].
  - unfold System.held_by in Hnone. rewrite Hph in Hnone. destruct Hh. congruence.
  - exists j, tk'. split_and!; try done. by apply lookup_insert_Some; right.
Qed.

(** ** Calls of the API and the scheduler *)

(** The rows the reaper takes, counted at one key. *)
Lemma count_key k (q : Delivery -> bool) d :
  db_wf d ->
  count_where (fun x => bool_decide (del_key x = k)) (where_ q (deliveries d))
  = match row_at k d with Some x => Nat.b2n (q x) | None => 0 end.
Proof.
  intros Hwf. unfold count_where. rewrite where_where. destruct (row_at k d) as [x|] eqn:E.
  - pose proof (proj1 (row_at_spec k d x Hwf) E) as [Hx <-].
    rewrite (where_ext _ (fun y => bool_decide (del_key y = del_key x) && q y)) by
      (intros; apply andb_comm).
    rewrite <- where_where, where_single by (apply Hwf || done). unfold where_. simpl. by destruct (q x).
  - rewrite where_none; [done|]. intros y Hy.
    pose proof (proj1 (first_where_None _ _) E y Hy) as Hn. simpl in Hn. by rewrite Hn, andb_false_r.
Qed.

Definition add_reaps (n : nat) (L : Ledger) : Ledger :=
  mkLedger (lg_claims L) (lg_asks L) (lg_contacts L) (lg_settled L) (lg_retried L) (lg_reaped L + n).

Lemma add_no_reap L : add_reaps 0 L = L.
Proof. unfold add_reaps. rewrite Nat.add_0_r. by destruct L. Qed.

Lemma ledger_reaped k l rows :
  ledger k (l ++ map (fun x => EnReaped (del_key x)) rows) =
  add_reaps (count_where (fun x => bool_decide (del_key x = k)) rows) (ledger k l).
Proof.
  revert l. induction rows as [|x rows IH]; intros l; simpl.
  - rewrite app_nil_r. by rewrite add_no_reap.
  - change (EnReaped (del_key x) :: ?l') with ([EnReaped (del_key x)] ++ l').
    rewrite app_assoc, IH, ledger_snoc, count_cons. unfold ledger_add, add_reaps. simpl.
    rewrite !Nat.add_0_r. f_equal. lia.
Qed.

(** The rows an API call adds have no attempt. *)
Lemma created_row c now se r se' k x :
  outside c now (db se) -> creates c -> exec c se = (r, se') ->
  row_at k (db se) = None -> row_at k (db se') = Some x ->
  d_AttemptCount x = 0%Z /\ archived_at k (db se) = None.
Proof.
  intros Ho Hcr H Hn Hx.
  enough (Hl : exists l, deliveries (db se') = deliveries (db se) ++ l /\
    forall y, y ∈ l -> y ∈ created_by c).
  { destruct Hl as (l & E & Hl). apply row_at_Some in Hx as [Hx Hk]. rewrite E in Hx.
    apply elem_of_app in Hx as [Hx|Hx].
    - pose proof (proj1 (first_where_None _ _) Hn x Hx) as Hf. simpl in Hf. by bool_to_prop.
    - rewrite <- Hk. destruct c; try done; by apply Ho, Hl. }
  apply exec_cases in H as [->|H]; [exists []; rewrite app_nil_r; split; [done|]; by intros ? ?%not_elem_of_nil|].
  destruct c; try done; simpl in H.
  - apply CreateNotification_runs in H as (_ & -> & _). by exists [stored_delivery x0].
  - unfold ignore in H. apply runs_bind in H as (? & ? & H & Hret). apply runs_ret in Hret as [_ ->].
    apply CreateBatch_runs in H as (_ & _ & m & d1 & H1 & -> & _).
    apply create_items_runs in H1 as (-> & _ & _). eexists. simpl.
    rewrite (proj1 (proj2 (add_items_proj _ _ _))). split; [done|].
    intros y Hy. apply list_elem_of_fmap in Hy as (i & -> & Hi). apply keep_sublist in Hi.
    apply list_elem_of_fmap. by exists i.
Qed.

(** The ways a call from outside changes a delivery, and how many reaps it logs. *)
Inductive outside_move (now : time) : option Delivery -> option Delivery -> nat -> Prop :=
| om_same o : outside_move now o o 0
| om_created x :
    d_AttemptCount x = 0%Z -> d_Status x = DeliveryPending \/ d_Status x = DeliveryScheduled ->
    outside_move now None (Some x) 0
| om_waiting x x' :
    d_Status x = DeliveryScheduled \/ d_Status x = DeliveryPending \/ d_Status x = DeliveryRetrying ->
    d_Status x' = DeliveryPending \/ d_Status x' = DeliveryCancelled ->
    d_AttemptCount x' = d_AttemptCount x -> outside_move now (Some x) (Some x') 0
| om_reaped x :
    lease_expired now x = true -> outside_move now (Some x) (Some (reaped_row now x)) 1.

Lemma reap_moves s se r se' t k :
  db_wf (sy_db s) -> db se = sy_db s -> heard se -> t = sy_now s -> archive (db se') = archive (sy_db s) ->
  exec (CallReapStuck t) se = (r, se') ->
  exists n, outside_move (sy_now s) (kept_at k (sy_db s)) (kept_at k (db se')) n /\
    ledger k (sy_log s ++ reap_entries (CallReapStuck t) (sy_db s) r) = add_reaps n (ledger k (sy_log s)).
Proof.
  intros Hwf Hd Hh -> Har H. apply (reap_rows _ _ _ _ k Hh) in H. rewrite Hd in H.
  destruct r as [[]|e]; simpl.
  - eexists. rewrite ledger_reaped, count_key by done. split; [|done].
    destruct (row_at k (sy_db s)) as [x|] eqn:Ex; simpl in H.
    + rewrite (kept_row _ _ _ Ex), (kept_row _ _ _ H).
      destruct (lease_expired (sy_now s) x) eqn:E; [by apply om_reaped|constructor].
    + rewrite (kept_same k (sy_db s) (db se')) by congruence. constructor.
  - exists 0. rewrite app_nil_r, add_no_reap, (kept_same k (sy_db s) (db se')) by done.
    by split; [constructor|].
Qed.

Lemma outside_moves s c se r se' k :
  db_wf (sy_db s) -> db se = sy_db s -> heard se -> outside c (sy_now s) (sy_db s) -> legal c (sy_db s) ->
  exec c se = (r, se') ->
  exists n, outside_move (sy_now s) (kept_at k (sy_db s)) (kept_at k (db se')) n /\
    ledger k (sy_log s ++ reap_entries c (sy_db s) r) = add_reaps n (ledger k (sy_log s)).
Proof.
  intros Hwf Hd Hh Ho Hl H. destruct (retires_dec c) as [[day ->]|Hna].
  { exists 0. simpl. rewrite app_nil_r, add_no_reap. rewrite <- Hd in *.
    rewrite (proj1 (retire_kept day se r se' k Hwf Ho H)). by split; [constructor|]. }
  pose proof (exec_archive c se r se' Hna H) as Har. rewrite Hd in Har.
  assert (Hc : (exists t, c = CallReapStuck t) \/ (forall t, c <> CallReapStuck t) /\
    reap_entries c (sy_db s) r = []) by (destruct c; eauto).
  destruct Hc as [[t ->]|[Hnr ->]]; [by apply (reap_moves s se r se' t k)|].
  exists 0. rewrite app_nil_r, add_no_reap. split; [|done].
  pose proof (outside_step s c se r se' k Hwf Hd Ho Hl H) as Hstep.
  destruct (row_at k (sy_db s)) as [x|] eqn:Ex, (row_at k (db se')) as [x'|] eqn:Ex'; simpl in Hstep;
    [|by apply drops_archives in Hstep| |rewrite (kept_same k (sy_db s) (db se')) by congruence; constructor].
  - rewrite (kept_row _ _ _ Ex), (kept_row _ _ _ Ex').
    destruct Hstep as [->|(e & He & Hev)]; [constructor|]. pose proof (re_next _ _ _ Hev) as Hn.
    assert (Hat : d_AttemptCount x' = d_AttemptCount x)
      by (apply (re_attempts _ _ _ Hev); by destruct c; simpl in He; simplify_eq).
    destruct c; simpl in He; simplify_eq; try done; try (by edestruct Hnr);
      destruct (d_Status x) eqn:Es; simpl in Hn; simplify_eq; apply om_waiting; rewrite ?Es; auto.
  - destruct Hstep as (Hcr & _ & Hs). rewrite (kept_row _ _ _ Ex').
    destruct (created_row c (sy_now s) se r se' k x') as [Ha Hk]; rewrite ?Hd; try done.
    unfold kept_at. rewrite Ex. rewrite Hd in Hk. rewrite Hk. by apply om_created.
Qed.

Lemma balanced_outside L o o' n now (H : phase -> Prop) :
  outside_move now o o' n ->
  ((forall x, o = Some x -> d_Status x = DeliveryProcessing -> lease_expired now x = true) ->
   forall p, ~ H p) ->
  balanced M L o H -> balanced M (add_reaps n L) o' H.
Proof.
  intros Hm Hno HB. destruct Hm as [o|x Ha Hs|x x' Hs Hs' Ha|x He]; [by rewrite add_no_reap| | |];
    destruct HB as [B1 B2 B3 _ B5 _ B7 B8].
  - specialize (Hno ltac:(done)).
    split; try (intros p Hp; by destruct (Hno p)); try (destruct Hs; balance).
    intros y [= <-] _. lia.
  - specialize (B8 x eq_refl).
    assert (Ht : d_Status x <> DeliveryFailed) by (by destruct Hs as [-> | [-> | ->]]).
    specialize (B8 Ht).
    assert (Hn : forall p, ~ H p) by (apply Hno; intros y [= <-] E; rewrite E in Hs; by destruct Hs as [?|[?|?]]).
    split; try (intros p Hp; by destruct (Hn p)); try (destruct Hs as [?|[?|?]], Hs'; balance).
    intros y [= <-] _. lia.
  - specialize (B8 x eq_refl).
    assert (Hn : forall p, ~ H p) by (apply Hno; by intros y [= <-] _).
    apply lease_expired_spec in He as [Hs _]. rewrite Hs in B8. specialize (B8 ltac:(done)).
    split; try (intros p Hp; by destruct (Hn p)); try balance.
    by intros y [= <-] _.
Qed.

Lemma account_outside s c se r se' k :
  sys_inv s -> db se = sy_db s -> heard se -> outside c (sy_now s) (sy_db s) -> legal c (sy_db s) -> exec c se = (r, se') ->
  account s k ->
  account (mkSystem (db se') (sy_now s) (sy_tasks s) (sy_log s ++ reap_entries c (sy_db s) r)) k.
Proof.
  intros Hi Hd Hh Ho Hl H HB. unfold account in *. simpl.
  destruct (outside_moves s c se r se' k (reachable_wf _ (served_reachable _ (si_db _ _ _ _ s Hi))) Hd Hh Ho Hl H) as (n & Hm & ->).
  apply (balanced_outside _ (kept_at k (sy_db s)) _ n (sy_now s)); [done| |exact HB].
  apply (no_holder s k Hi).
Qed.

Lemma account_boot ts t k : account (boot ts t) k.
Proof.
  split; try done; simpl; try lia.
  all: intros p (i & tk & Hi & _); simpl in Hi; by rewrite lookup_empty in Hi.
Qed.

Lemma account_tasks s tasks t k :
  (forall i tk, tasks !! i = Some tk -> sy_tasks s !! i = Some tk \/ tk_answers tk = []) ->
  account s k -> account (mkSystem (sy_db s) t tasks (sy_log s)) k.
Proof.
  intros Ht. unfold account. simpl. apply balanced_holders.
  intros p (i & tk & Hi & Hp & Hk & Hh) Hb. exists p. split_and!; try done.
  destruct (Ht i tk Hi) as [?|E]; [by exists i, tk|]. destruct tk as [msg l]. simpl in E. subst l.
  pose proof (held_by_start overflow text workers fuel i msg) as Hs. unfold System.held_by in Hs.
  rewrite Hp in Hs. destruct Hh. congruence.
Qed.

Lemma run_account t0 s k : sys_run t0 s -> account s k.
Proof.
  induction 1 as [|s s' Hr IH Hs Hpr]; [apply account_boot|].
  pose proof (run_inv _ _ _ _ t0 s Hr) as Hi.
  destruct Hs as [i msg Hn|i tk ev a d' Ht Hp Ha|i tk ev a d' e b Ht Hp Ha Hb|i|c se r se' Hd Hh Ho Hl Hc H|t Hle].
  - apply (account_tasks s); [|done].
    intros j tk [[<- <-]|[_ ?]]%lookup_insert_Some; [by right|by left].
  - by apply account_call.
  - by eapply account_lost.
  - apply (account_tasks s); [|done]. intros j tk [_ ?]%lookup_delete_Some. by left.
  - by apply (account_outside s c se r se').
  - apply (account_tasks s); [|done]. by left.
Qed.

(** ** A delivery that is SENT was accepted by the provider *)

Definition evidence (s : System) (k : uuid * time) : Prop :=
  forall x, kept_at k (sy_db s) = Some x -> d_Status x = DeliverySent ->
  exists req res, EnCall k (EvSend req) (AnSend (Ok res)) ∈ sy_log s /\
    pr_DeliveryID req = text (d_ID x) /\ pr_Channel req = d_Channel x /\
    d_ProviderMessageID x = Some (pres_MessageID res).

Lemma evidence_more s d' now tasks l k :
  (forall x, kept_at k d' = Some x -> d_Status x = DeliverySent -> kept_at k (sy_db s) = Some x) ->
  evidence s k -> evidence (mkSystem d' now tasks (sy_log s ++ l)) k.
Proof.
  intros Hrow He x Hx Hs. destruct (He x (Hrow x Hx Hs) Hs) as (req & res & Hin & H).
  exists req, res. split; [|done]. apply elem_of_app. by left.
Qed.

Lemma moved_sent now ev a o x :
  claims_row now ev a o -> moved now ev a o = Some x -> d_Status x = DeliverySent ->
  o = Some x \/ exists id at_ rid m y, ev = EvMarkSent id at_ rid m /\ o = Some y /\ x = sent_row m now y.
Proof.
  intros Hc Hm Hs. destruct ev; try (by left); destruct a as [|[]| | |[[z|]|]| |]; try (by left); simpl in Hm.
  - destruct Hc as (y & _ & _ & ->). by simplify_eq.
  - destruct o as [y|]; simplify_eq/=. right. repeat eexists.
  - by destruct o; simplify_eq/=.
  - by destruct o; simplify_eq/=.
Qed.

Lemma evidence_call s i tk ev a d' k :
  sys_inv s -> sy_tasks s !! i = Some tk -> task_pending i tk = Some ev ->
  answered (sy_db s) (sy_now s) ev a d' -> evidence s k ->
  evidence (mkSystem d' (sy_now s) (<[i := mkTask (tk_msg tk) (tk_answers tk ++ [a])]> (sy_tasks s))
             (sy_log s ++ [EnCall (msg_key (tk_msg tk)) ev a])) k.
Proof.
  intros Hi Ht Hp Ha He.
  destruct (port_kept _ _ _ _ s i tk ev a d' Hi Ht Hp Ha) as (Hoth & Hrow & Hcl).
  pose proof (task_may _ _ _ _ i tk ev Hp) as Hm.
  destruct (decide (k = msg_key (tk_msg tk))) as [->|Hne];
    [|apply evidence_more; [intros x; by rewrite Hoth|done]].
  intros x Hx Hs. simpl in Hx. rewrite Hrow in Hx.
  destruct (moved_sent _ _ _ _ _ Hcl Hx Hs) as [Ho|(id & at_ & rid & m & y & -> & Ho & ->)].
  - destruct (He x Ho Hs) as (req & res & Hin & H). exists req, res. split; [|done].
    apply elem_of_app. by left.
  - destruct (phase_of i tk) as [|z|z q|z q [res|e]| |] eqn:Eph; simpl in Hm; try done.
    destruct Hm as (Hid & Hrid & ->).
    destruct (si_row _ _ _ _ s i tk z Hi Ht) as (Hz & _ & _); [unfold System.held_by; by rewrite Eph|].
    rewrite (kept_row _ _ _ Hz) in Ho. injection Ho as ->. eexists _, res. split_and!;
      [apply elem_of_app; left; apply (si_logged _ _ _ _ s Hi i tk Ht), (answered_called _ _ _ _ _ _ y q), Eph|done..].
Qed.

Lemma run_evidence t0 s k : sys_run t0 s -> evidence s k.
Proof.
  induction 1 as [|s s' Hr IH Hs Hpr]; [by intros x Hx|].
  pose proof (run_inv _ _ _ _ t0 s Hr) as Hi.
  destruct Hs as [i msg Hn|i tk ev a d' Ht Hp Ha|i tk ev a d' e b Ht Hp Ha Hb|i|c se r se' Hd Hh Ho Hl Hc H|t Hle]; try exact IH.
  - by apply evidence_call.
  - pose proof (evidence_call s i tk ev a d' k Hi Ht Hp Ha IH) as He. intros x Hx Hst.
    destruct (He x Hx Hst) as (req & res & Hin & Hx'). exists req, res. split; [|done].
    simpl in *. rewrite (app_assoc _ [_] [_] : _ ++ [_; _] = _). apply elem_of_app. by left.
  - apply evidence_more; [|done]. intros x Hx Hst.
    destruct (outside_moves s c se r se' k (reachable_wf _ (served_reachable _ (si_db _ _ _ _ s Hi))) Hd Hh Ho Hl H) as (n & Hm & _).
    rewrite Hx in Hm. inversion Hm as [|? _ Hs'|? ? _ Hs'|]; subst; try done;
      rewrite Hst in Hs'; by destruct Hs'.
Qed.
End system.

(** ** Properties *)

Section properties.
Context `{codec : !MessageCodec} `{uuids : !UuidSource}.
Context (overflow : float64 -> Z) (text : uuid -> string) (workers : nat -> Worker) (fuel : nat).

(** C5: workers never share a delivery. In every run of prompt workers from a fresh
    database, however the calls of goroutines, scheduler and API interleave, whatever
    messages Redis delivers and whatever fails, dies or commits without its reply being
    read, days being retired once their deliveries have finished: the tables are [served], so they are consistent and [outbox_faithful] and
    [nothing_stuck] hold of them; a goroutine past its claim finds the row exactly as it claimed it, PROCESSING under
    its lease; no two goroutines hold the same delivery; and every store call a
    goroutine is about to make is one that [lifecycle_refinement] and
    [reachable_consistent] allow. *)
Theorem system_exclusive t0 s :
  sys_run overflow text workers fuel t0 s ->
  served (sy_db s) /\ reachable (sy_db s) /\
  (forall i tk x, sy_tasks s !! i = Some tk -> held_by overflow text workers fuel i tk = Some x ->
     x ∈ deliveries (sy_db s) /\ del_key x = msg_key (tk_msg tk) /\ d_Status x = DeliveryProcessing /\
     exists lease, d_LockedUntil x = Some lease /\ (sy_now s <= lease)%Z) /\
  (forall i j tk tk' x y, sy_tasks s !! i = Some tk -> sy_tasks s !! j = Some tk' ->
     held_by overflow text workers fuel i tk = Some x -> held_by overflow text workers fuel j tk' = Some y ->
     d_ID x = d_ID y -> d_CreatedAt x = d_CreatedAt y -> i = j) /\
  (forall i tk ev c, sy_tasks s !! i = Some tk -> task_pending overflow text workers fuel i tk = Some ev ->
     port_call (sy_now s) ev = Some c -> legal c (sy_db s) /\ disciplined c (sy_db s)).
Proof.
  intros Hi%run_inv. split_and!.
  - apply Hi.
  - apply served_reachable, Hi.
  - intros i tk x Ht Hx. destruct (si_held _ _ _ _ s Hi i tk x Ht Hx) as (Hr & Hs & [lease Hl]).
    apply row_at_Some in Hr as [? ?]. split_and!; try done. exists lease. split; [done|].
    by apply (si_prompt _ _ _ _ s Hi i tk x).
  - intros i j tk tk' x y Hi1 Hj Hx Hy E1 E2. apply (si_unique _ _ _ _ s Hi i j tk tk' x y); try done.
    unfold del_key. congruence.
  - intros i tk ev c. apply port_legal, Hi.
Qed.

Context (M : Z) (HM : (1 <= M < 2 ^ 31)%Z).
Context (Hpol : forall i, MaxAttempts (w_policy (workers i)) = M).

(** C4: at most one message per delivery, unless a worker dies or the provider asks
    for a retry. In every run of prompt workers the ledger of a delivery balances:
    each claim of it ended in one final write, one reschedule or one reap, or is the
    one under way; it is finally written at most once, exactly when it is SENT or
    FAILED; the provider is called for it at most once per claim, so at most once
    more than it was rescheduled or reaped; and when it is SENT, the provider
    accepted a call with its id on its channel and the row keeps the provider's
    message id. The row is the delivery's, in its partition or in the archive. *)
Theorem system_settles_once t0 s k :
  sys_run overflow text workers fuel t0 s ->
  let L := ledger k (sy_log s) in
  let o := kept_at k (sy_db s) in
  lg_claims L = lg_settled L + lg_retried L + lg_reaped L + in_status DeliveryProcessing o /\
  lg_settled L = in_status DeliverySent o + in_status DeliveryFailed o /\ lg_settled L <= 1 /\
  lg_asks L <= lg_claims L /\ lg_asks L <= 1 + lg_retried L + lg_reaped L /\
  (forall x, o = Some x -> d_Status x = DeliverySent ->
     exists req res, EnCall k (EvSend req) (AnSend (Ok res)) ∈ sy_log s /\
       pr_DeliveryID req = text (d_ID x) /\ pr_Channel req = d_Channel x /\
       d_ProviderMessageID x = Some (pres_MessageID res)).
Proof.
  intros Hr L o.
  destruct (run_account overflow text workers fuel M HM Hpol t0 s k Hr) as [B1 B2 B3 _ _ _ _ _].
  pose proof (run_evidence overflow text workers fuel t0 s k Hr) as He.
  fold L in B1, B2, B3. fold o in B1, B2.
  assert (Hone : in_status DeliverySent o + in_status DeliveryFailed o + in_status DeliveryProcessing o <= 1).
  { destruct o as [x|]; [|simpl; lia]. unfold in_status, has_status.
    repeat case_bool_decide; simpl; lia || congruence. }
  split_and!; try done; lia.
Qed.

(** C6: retries are bounded across the system. In every run of prompt workers whose
    policies allow [M] attempts, whatever the other components do, no delivery counts
    more than [M] attempts, and the provider is reached for it (the breaker not
    refusing the call) at most [M] times plus once per reap; a delivery nobody reaped
    reaches the provider at most [M] times. *)
Theorem system_contacts_bounded t0 s k :
  sys_run overflow text workers fuel t0 s ->
  let L := ledger k (sy_log s) in
  (Z.of_nat (lg_contacts L) <= M + Z.of_nat (lg_reaped L))%Z /\
  (lg_reaped L = 0 -> (Z.of_nat (lg_contacts L) <= M)%Z) /\
  (forall x, kept_at k (sy_db s) = Some x -> (0 <= d_AttemptCount x <= M)%Z).
Proof.
  intros Hr L.
  destruct (run_account overflow text workers fuel M HM Hpol t0 s k Hr) as [_ _ _ _ B5 _ B7 B8].
  fold L in B5. clearbody L. destruct (kept_at k (sy_db s)) as [x|]; simpl in *.
  - assert (Hc : (Z.of_nat (lg_contacts L) <= M + Z.of_nat (lg_reaped L))%Z).
    { specialize (B8 x eq_refl). unfold has_status in B5.
      destruct (d_Status x); try specialize (B8 ltac:(done));
        repeat case_bool_decide; simpl in B5; lia || congruence. }
    split_and!; try done; [lia|]. by intros y [= <-].
  - split_and!; [lia|lia|done].
Qed.
End properties.
