(* ===== verification/SystemSamples.v ===== *)
(** * Runs of the system, executed

    [sim] executes a script of actions on a [System]; [sim_steps] and [sim_run] turn
    its result into steps of the relation. The witnesses of [SystemSpec] run it on
    deliveries that are duplicated, retried and orphaned, and
    [late_worker_sends_twice] on a worker that outlives its lease. *)

From S2P Require Import Prelude GoStrings GoFloat Domain Retry Template Store StoreRuns StoreInv StoreCreate.
From S2P Require Import StoreCalls StoreSamples StoreQuiet StoreSpec Lifecycle Outbox Retention Worker WorkerSpec WorkerTrace System SystemSpec.

Local Open Scope string_scope.
Local Open Scope list_scope.

(** ** Scripts *)

(** A session whose round trips the server refuses as [faults] says. *)
Definition refusing (d : DB) (faults : list (option error)) : Sess :=
  mkSess d None (map (fmap Refused) faults) 0.

Lemma refusing_heard d faults : heard (refusing d faults).
Proof. apply Forall_forall. intros f (e & -> & _)%list_elem_of_fmap t. by destruct e. Qed.

(** A goroutine makes [n] calls on a server whose round trips fail as [faults] says,
    the provider answering [r]; or its write is applied and it reads the error [e]. *)
Inductive action :=
| DoReceive (i : nat) (msg : StreamMessage)
| DoCalls (i n : nat) (faults : list (option error)) (r : result error ProviderResult)
| DoLost (i : nat) (e : error)
| DoLeave (i : nat)
| DoOutside (c : call) (faults : list (option error))
| DoTick (t : time).

Section sim.
Context `{codec : !MessageCodec} `{uuids : !UuidSource}.
Context (overflow : float64 -> Z) (text : uuid -> string) (workers : nat -> Worker) (fuel : nat).
Local Abbreviation sys_step := (sys_step overflow text workers fuel).
Local Abbreviation prompt := (prompt overflow text workers fuel).
Local Abbreviation held_by := (held_by overflow text workers fuel).
Local Abbreviation task_pending := (task_pending overflow text workers fuel).

Definition reply (d : DB) (now : time) (faults : list (option error)) (r : result error ProviderResult)
    (ev : event) : answer * DB :=
  let s := refusing d faults in
  let done {A} (read : result error A -> answer) (p : result error A * Sess) :=
    (read (fst p), db (snd p)) in
  match ev with
  | EvNow => (AnTime now, d)
  | EvDraw => (AnDraw (f64_of_int 0), d)
  | EvAllow _ => (AnAllow (true, 0%Z, None), d)
  | EvClaim id at_ lease => done AnClaim (Store.ClaimDelivery id at_ lease now s)
  | EvGetRequest id => done AnRequest (Store.GetRequestByID id s)
  | EvSend _ => (AnSend r, d)
  | EvMarkSent id at_ rid m => done AnUnit (Store.MarkSent id at_ rid m now s)
  | EvMarkRetrying id at_ n next err => done AnUnit (Store.MarkRetrying id at_ n next err now s)
  | EvMarkFailed id at_ rid n err => done AnUnit (Store.MarkFailed id at_ rid n err now s)
  | EvSleep _ | EvAck _ _ | EvDLQ _ | EvMetric _ => (AnUnit (Ok ()), d)
  end.

Lemma reply_answered d now faults r ev :
  answered d now ev (fst (reply d now faults r ev)) (snd (reply d now faults r ev)).
Proof.
  pose proof (refusing_heard d faults) as Hh. unfold reply.
  set (s := refusing d faults) in *. destruct ev; simpl; try constructor.
  - apply (an_claim d now _ _ _ s); [done|done|apply surjective_pairing].
  - apply (an_request d now _ s); [done|done|apply surjective_pairing].
  - apply (an_mark_sent d now _ _ _ _ s); [done|done|apply surjective_pairing].
  - apply (an_mark_retrying d now _ _ _ _ _ s); [done|done|apply surjective_pairing].
  - apply (an_mark_failed d now _ _ _ _ _ s); [done|done|apply surjective_pairing].
Qed.

(** [prompt], decided. *)
Definition prompt_b (s : System) : bool :=
  forallb (fun p => match held_by (fst p) (snd p) with
                    | Some x => opt_test (d_LockedUntil x) (fun lease => sy_now s <=? lease)%Z
                    | None => true
                    end) (map_to_list (sy_tasks s)).

Lemma prompt_b_spec s : prompt_b s = true -> prompt s.
Proof.
  unfold prompt_b. rewrite forallb_forall. intros H i tk x lease Ht Hx Hl.
  specialize (H (i, tk)). rewrite <- list_elem_of_In, elem_of_map_to_list in H. specialize (H Ht).
  simpl in H. rewrite Hx, Hl in H. simpl in H. lia.
Qed.

(** With [strict], a script stops where a worker outlives its lease. *)
Context (strict : bool).

Definition checked (s : System) : option System :=
  if strict && negb (prompt_b s) then None else Some s.

Definition checked_step (s s' : System) : Prop := sys_step s s' /\ (strict = true -> prompt s').

Lemma checked_some s1 s s' : sys_step s1 s -> checked s = Some s' -> checked_step s1 s'.
Proof.
  unfold checked, checked_step. intros Hs H. destruct strict; simpl in H; [|by injection H as <-].
  destruct (prompt_b s) eqn:E; simpl in H; [|done]. injection H as <-. split; [done|].
  intros _. by apply prompt_b_spec.
Qed.

Fixpoint sim_calls (i n : nat) (faults : list (option error)) (r : result error ProviderResult)
    (s : System) : option System :=
  match n with
  | 0 => Some s
  | S n =>
      tk ← sy_tasks s !! i;
      ev ← task_pending i tk;
      let '(a, d) := reply (sy_db s) (sy_now s) faults r ev in
      checked (mkSystem d (sy_now s) (<[i := mkTask (tk_msg tk) (tk_answers tk ++ [a])]> (sy_tasks s))
                 (sy_log s ++ [EnCall (msg_key (tk_msg tk)) ev a]))
        ≫= sim_calls i n faults r
  end.

(** [new_route] and [new_id], decided. *)
Definition new_route_b (x : Delivery) (o : option OutboxRecord) : bool :=
  Channel_Valid (d_Channel x) && Priority_Valid (d_Priority x) &&
  match o with
  | Some r => bool_decide (o_DeliveryID r = d_ID x) && bool_decide (o_Stream r = stream_of x)
      && bool_decide (message_key (o_Message r) = del_key (stored_delivery x))
      && bool_decide (dm_RequestID (o_Message r) = d_RequestID x)
      && bool_decide (dm_Channel (o_Message r) = d_Channel x)
      && bool_decide (dm_Priority (o_Message r) = d_Priority x)
  | None => true
  end.

Definition new_id_b (x : Delivery) (d : DB) : bool :=
  bool_decide (d_ID x ∉ map d_ID (deliveries d))
  && forallb (fun row => negb (unpublished row && bool_decide (ob_delivery_id row = d_ID x))) (outbox d).

Lemma new_route_b_spec x o : new_route_b x o = true -> new_route x o.
Proof.
  unfold new_route_b. intros H. bool_to_prop. split; [done|done|].
  intros r ->. bool_to_prop. by split_and!.
Qed.

Lemma new_id_b_spec x d : new_id_b x d = true -> new_id x d.
Proof.
  unfold new_id_b. rewrite andb_true_iff, forallb_forall. intros [Hn Hr]. bool_to_prop.
  split; [done|]. intros row Hrow%list_elem_of_In Hu E. specialize (Hr row Hrow).
  by rewrite Hu, bool_decide_true in Hr.
Qed.

(** Calls from outside that scripts use, with their side conditions decided. *)
Definition allowed_b (c : call) (now : time) (d : DB) : bool :=
  match c with
  | CallCreateNotification r x o _ => new_route_b x o && new_id_b x d &&
      bool_decide (r_BatchID r = None) && bool_decide (r_Status r = RequestPending)
      && bool_decide (d_RequestID x = r_ID r)
      && has_status DeliveryPending x
      && bool_decide (d_LockedUntil x = None) && (d_AttemptCount x =? 0)%Z
      && bool_decide (archived_at (del_key (stored_delivery x)) d = None)
  | CallReapStuck t => (t =? now)%Z
  | CallArchiveAndDropPartition day =>
      forallb (fun x => negb (in_day (day_of day) x) || IsTerminal (d_Status x)) (deliveries d)
  | CallCreateDeliveryPartition _ | CallCancelRequest _ _ | CallPromoteDue _ _ _ | CallSweepRetries _ _ _
  | CallMarkOutboxPublished _ _ => true
  | _ => false
  end.

Lemma allowed_b_spec c now d : allowed_b c now d = true -> outside c now d /\ legal c d /\ routes c d.
Proof.
  destruct c; simpl; try done; intros H; try (split; [by intros ? ?%not_elem_of_nil|done]).
  - bool_to_prop. split; [by intros ? ->%list_elem_of_singleton|].
    split; [|split; [by apply new_route_b_spec|by apply new_id_b_spec]].
    match goal with H : has_status _ _ = true |- _ => apply has_status_eq in H; rename H into Hs end.
    split; rewrite ?Hs; auto; done.
  - split; [lia|done].
  - split; [|done]. intros x Hx Hd. rewrite forallb_forall in H. specialize (H x).
    rewrite <- list_elem_of_In, Hd in H. by apply H.
Qed.

Definition sim_lost (i : nat) (e : error) (s : System) : option System :=
  tk ← sy_tasks s !! i;
  ev ← task_pending i tk;
  b ← lost_answer e ev;
  let '(a, d) := reply (sy_db s) (sy_now s) [] (Err e) ev in
  let k := msg_key (tk_msg tk) in
  checked (mkSystem d (sy_now s) (<[i := mkTask (tk_msg tk) (tk_answers tk ++ [b])]> (sy_tasks s))
             (sy_log s ++ [EnCall k ev a; EnCall k ev b])).

Definition sim_action (act : action) (s : System) : option System :=
  match act with
  | DoReceive i msg =>
      if decide (sy_tasks s !! i = None) then
        checked (mkSystem (sy_db s) (sy_now s) (<[i := mkTask msg []]> (sy_tasks s)) (sy_log s))
      else None
  | DoCalls i n faults r => sim_calls i n faults r s
  | DoLost i e => sim_lost i e s
  | DoLeave i => checked (mkSystem (sy_db s) (sy_now s) (delete i (sy_tasks s)) (sy_log s))
  | DoOutside c faults =>
      if negb (allowed_b c (sy_now s) (sy_db s)) then None else
      let p := exec c (refusing (sy_db s) faults) in
      checked (mkSystem (db (snd p)) (sy_now s) (sy_tasks s) (sy_log s ++ reap_entries c (sy_db s) (fst p)))
  | DoTick t => if (sy_now s <=? t)%Z then checked (mkSystem (sy_db s) t (sy_tasks s) (sy_log s)) else None
  end.

Definition sim (acts : list action) (s : System) : option System :=
  foldl (fun o act => o ≫= sim_action act) (Some s) acts.

Lemma sim_calls_steps i n faults r s s' :
  sim_calls i n faults r s = Some s' -> rtc checked_step s s'.
Proof.
  revert s. induction n as [|n IH]; intros s H; simpl in H; [by simplify_eq|].
  destruct (sy_tasks s !! i) as [tk|] eqn:Ht; [|done]. simpl in H.
  destruct (task_pending i tk) as [ev|] eqn:Hp; [|done]. simpl in H.
  pose proof (reply_answered (sy_db s) (sy_now s) faults r ev) as Ha.
  destruct (reply _ _ _ _ _) as [a d]. simpl in Ha.
  destruct (checked _) as [s1|] eqn:Ec in H; [|done].
  eapply rtc_l; [|by apply IH]. eapply checked_some; [|done]. by apply (sys_call _ _ _ _ s i tk ev a d).
Qed.

Lemma sim_lost_step i e s s' : sim_lost i e s = Some s' -> checked_step s s'.
Proof.
  unfold sim_lost. intros H. destruct (sy_tasks s !! i) as [tk|] eqn:Ht; [|done]. simpl in H.
  destruct (task_pending i tk) as [ev|] eqn:Hp; [|done]. simpl in H.
  destruct (lost_answer e ev) as [b|] eqn:Hb; [|done]. simpl in H.
  pose proof (reply_answered (sy_db s) (sy_now s) [] (Err e) ev) as Ha.
  destruct (reply _ _ _ _ _) as [a d]. simpl in Ha.
  eapply checked_some; [|exact H]. by apply (sys_lost _ _ _ _ s i tk ev a d e b).
Qed.

Lemma sim_action_steps act s s' :
  sim_action act s = Some s' -> rtc checked_step s s'.
Proof.
  intros H. destruct act; simpl in H.
  - destruct (decide _); [|done]. eapply rtc_once, checked_some; [|done]. by apply sys_receive.
  - by eapply sim_calls_steps.
  - by apply rtc_once, (sim_lost_step i e).
  - eapply rtc_once, checked_some; [|done]. apply sys_leave.
  - destruct (allowed_b c (sy_now s) (sy_db s)) eqn:Hc; simpl in H; [|done].
    apply allowed_b_spec in Hc as (? & ? & ?).
    eapply rtc_once, checked_some; [|exact H].
    by eapply (sys_outside _ _ _ _ s c (refusing (sy_db s) faults));
      [done|apply refusing_heard|..|apply surjective_pairing].
  - destruct (sy_now s <=? t)%Z eqn:E; [|done]. eapply rtc_once, checked_some; [|done]. apply sys_tick. lia.
Qed.

Lemma sim_steps acts s s' :
  sim acts s = Some s' -> rtc checked_step s s'.
Proof.
  revert s. induction acts as [|act acts IH]; intros s H; [by injection H as ->|].
  unfold sim in H. simpl in H. destruct (sim_action act s) as [s1|] eqn:E.
  - etrans; [by eapply sim_action_steps|]. by apply IH.
  - assert (Hn : foldl (fun o act => o ≫= sim_action act) None acts = None) by (clear; by induction acts).
    rewrite Hn in H. done.
Qed.
End sim.

Lemma sim_run `{codec : !MessageCodec} `{uuids : !UuidSource} overflow text workers fuel acts ts t0 s :
  sim overflow text workers fuel true acts (boot ts t0) = Some s ->
  sys_run overflow text workers fuel t0 s.
Proof.
  intros H. apply sim_steps in H. revert s H.
  apply (rtc_ind_r (sys_run overflow text workers fuel t0)); [constructor|].
  intros s1 s2 _ [Hs Hp] IH. by apply (run_step _ _ _ _ t0 s1); [..|by apply Hp].
Qed.

(** ** Sample runs *)

Definition sample_worker : Worker :=
  newWorker (mkConfig AllPriorities AllChannels 8 "c1" 16 Minute 0 0 0) sample_policy true.

Definition sim_sample (strict : bool) (acts : list action) : option System :=
  sim (fun _ => 0%Z) (fun _ => "id") (fun _ => sample_worker) 3 strict acts (boot [] 100000).

Definition copy_of (entry : string) : StreamMessage :=
  mkStreamMessage (Stream "high" "sms") entry (sample_message 11 1).

Definition accepts (id : string) : result error ProviderResult := Ok (mkProviderResult id "accepted" 0).
Definition times_out : result error ProviderResult :=
  Err (EProviderError false 504 None false (Some (ELib "timeout"))).

Definition create_one : action :=
  DoOutside (CallCreateNotification (sample_request 1 None (Some "k1"))
    (sample_delivery 11 1 DeliveryPending None) (Some (sample_outbox 21 11 1)) 100000) [].

Definition connection_reset : error := ELib "connection reset".

(** Two goroutines receive the delivery's message; the second loses the claim. The
    provider times out once, and the delivery is retried by a third goroutine, which
    dies after the provider accepted. It is reaped; a fourth one claims it without
    learning of it, so it is reaped again; a fifth one sends it, its final write
    commits though it reads an error, and a last copy of the message finds it SENT. Then
    its day is retired. *)
Definition busy_script : list action := [
  DoOutside (CallCreateDeliveryPartition 0) []; create_one; DoReceive 0 (copy_of "1-0"); DoReceive 1 (copy_of "2-0");
  DoCalls 0 4 [] times_out; DoCalls 1 6 [] times_out; DoCalls 0 12 [] times_out;
  DoLeave 0; DoLeave 1; DoTick 900000000000; DoReceive 2 (copy_of "3-0");
  DoCalls 2 8 [] (accepts "prov-1"); DoLeave 2; DoTick 1900000000000;
  DoOutside (CallReapStuck 1900000000000) []; DoReceive 3 (copy_of "4-0");
  DoCalls 3 2 [] (accepts "prov-2"); DoLost 3 connection_reset; DoLeave 3; DoTick 2900000000000;
  DoOutside (CallReapStuck 2900000000000) []; DoReceive 4 (copy_of "5-0");
  DoCalls 4 8 [] (accepts "prov-2"); DoLost 4 connection_reset; DoLeave 4;
  DoReceive 5 (copy_of "6-0"); DoCalls 5 4 [] (accepts "prov-3");
  DoOutside (CallArchiveAndDropPartition 0) [] ].

Definition busy_system : System := default (boot [] 100000) (sim_sample true busy_script).

Lemma busy_run : sys_run (fun _ => 0%Z) (fun _ => "id") (fun _ => sample_worker) 3 100000 busy_system.
Proof. apply (sim_run _ _ _ _ busy_script []). vm_compute. reflexivity. Qed.

(** ** Witnesses *)

Lemma system_exclusive_witness :
  deliveries (sy_db busy_system) = [] /\ map d_Status (archive (sy_db busy_system)) = [DeliverySent] /\
  served (sy_db busy_system).
Proof.
  split; [vm_compute; reflexivity|]. split; [vm_compute; reflexivity|].
  apply (system_exclusive (fun _ => 0%Z) (fun _ => "id") (fun _ => sample_worker) 3 100000). exact busy_run.
Defined.

Lemma system_settles_once_witness :
  ledger (11%N, 100000%Z) (sy_log busy_system) = mkLedger 4 3 3 1 1 2 /\
  lg_asks (ledger (11%N, 100000%Z) (sy_log busy_system))
  <= 1 + lg_retried (ledger (11%N, 100000%Z) (sy_log busy_system))
     + lg_reaped (ledger (11%N, 100000%Z) (sy_log busy_system)).
Proof.
  split; [vm_compute; reflexivity|].
  assert (HM : (1 <= 3 < 2 ^ 31)%Z) by (split; [discriminate|reflexivity]).
  destruct (system_settles_once (fun _ => 0%Z) (fun _ => "id") (fun _ => sample_worker) 3 3 HM
    (fun _ => eq_refl) 100000 busy_system (11%N, 100000%Z) busy_run) as (_ & _ & _ & _ & H & _). exact H.
Defined.

Lemma system_contacts_bounded_witness :
  (Z.of_nat (lg_contacts (ledger (11%N, 100000%Z) (sy_log busy_system)))
   <= 3 + Z.of_nat (lg_reaped (ledger (11%N, 100000%Z) (sy_log busy_system))))%Z.
Proof.
  assert (HM : (1 <= 3 < 2 ^ 31)%Z) by (split; [discriminate|reflexivity]).
  destruct (system_contacts_bounded (fun _ => 0%Z) (fun _ => "id") (fun _ => sample_worker) 3 3 HM
    (fun _ => eq_refl) 100000 busy_system (11%N, 100000%Z) busy_run) as [H _]. exact H.
Defined.

(** ** A worker that is not prompt *)

(** A goroutine is still waiting for the provider when its lease ends; the delivery is
    reaped and sent by another one; then the first one's call times out and it
    reschedules the delivery. *)
Definition late_script : list action := [
  create_one; DoReceive 0 (copy_of "1-0"); DoCalls 0 6 [] times_out; DoTick 70000000000;
  DoOutside (CallReapStuck 70000000000) []; DoReceive 1 (copy_of "2-0");
  DoCalls 1 15 [] (accepts "prov-1"); DoCalls 0 10 [] times_out ].

(** The retry is picked up and sent again. *)
Definition late_again : list action := [
  DoReceive 2 (copy_of "3-0"); DoCalls 2 15 [] (accepts "prov-2") ].

Definition late_system (acts : list action) : System := default (boot [] 100000) (sim_sample false acts).

Lemma late_steps acts :
  is_Some (sim_sample false acts) ->
  rtc (sys_step (fun _ => 0%Z) (fun _ => "id") (fun _ => sample_worker) 3) (boot [] 100000) (late_system acts).
Proof.
  intros [s Hs]. unfold late_system. rewrite Hs. simpl.
  apply sim_steps in Hs. induction Hs as [|s1 s2 s3 [Hst _] _ IH]; [done|]. by eapply rtc_l.
Qed.

(** Without promptness the guarantees fail: the final writes do not check that the
    worker still holds the row, so a late one reopens a delivery that is SENT, under a
    request that still reads SENT, and the provider accepts the notification twice. *)
Theorem late_worker_sends_twice :
  let k := (11%N, 100000%Z) in
  let reached := rtc (sys_step (fun _ => 0%Z) (fun _ => "id") (fun _ => sample_worker) 3) (boot [] 100000) in
  exists s s', reached s /\ reached s' /\
    lg_settled (ledger k (sy_log s)) = 1 /\
    map d_Status (deliveries (sy_db s)) = [DeliveryRetrying] /\
    map r_Status (requests (sy_db s)) = [RequestSent] /\
    lg_settled (ledger k (sy_log s')) = 2 /\
    (exists req1 req2 res1 res2, EnCall k (EvSend req1) (AnSend (Ok res1)) ∈ sy_log s' /\
       EnCall k (EvSend req2) (AnSend (Ok res2)) ∈ sy_log s' /\ pres_MessageID res1 <> pres_MessageID res2 /\
       req1 = req2).
Proof.
  exists (late_system late_script), (late_system (late_script ++ late_again)).
  split_and!; try (apply late_steps; vm_compute; by eexists); try (by vm_compute).
  exists (mkProviderRequest "id" "+905551234567" "sms" "hello"),
    (mkProviderRequest "id" "+905551234567" "sms" "hello"),
    (mkProviderResult "prov-1" "accepted" 0), (mkProviderResult "prov-2" "accepted" 0).
  split_and!; try done;
    apply list_elem_of_In; vm_compute; repeat (try (left; reflexivity); right).
Qed.
